(* ===== verification/_CoqProject ===== *)
-Q . S2P
Prelude.v
Ring.v
Layout.v
Memory.v
CString.v
Umem.v
UmemProps.v
State.v
Spinlock.v
SpinSmp.v
Sched.v
Uart.v
Print.v
Format.v
Sleeplock.v
Kmem.v
PageTable.v
Uvm.v
UvmProps.v
UvmGrow.v
UvmShrink.v
UvmAlloc.v
UvmCopy.v
Console.v
Ondisk.v
Bio.v
Block.v
BioInit.v
Virtio.v
VirtioProps.v
Fs.v
FsProps.v
FsPath.v
UserSys.v
MkFs.v
MkFsProps.v
File.v
Proc.v
Resume.v
Fork.v
VirtioDisk.v
Exec.v
Sysfile.v
Trap.v
Boot.v
LockSpec.v
MemSpec.v
GrowSpec.v
CopySpec.v
StringSpec.v
BioSpec.v
FsSpec.v
ForkSpec.v
ProcSpec.v
UartSpec.v
ConsoleSpec.v
FileSpec.v
VirtioSpec.v
MkFsSpec.v
UmemSpec.v
UserSpec.v
