(* ===== verification/Prelude.v ===== *)
(** * haloOS: a verified model of the kernel and of its disk image

    haloOS is a small teaching kernel for RISC-V in C, with a virtio disk, a
    UART console, Sv39 paging, processes, an inode file system, and the host
    program that builds the disk image.  This library models the C code of
    src/kernel, src/mkfs.c and the user programs and library of src/user as Rocq
    definitions, function by function, and proves what the parts promise.

    ** How the code is modelled

    A kernel function is an element of [K A], a function from the kernel's state
    ([State.kstate]: the global variables of all files, physical memory, the
    control registers of the hart, the disk) to an [outcome]: it returns ([Ok]),
    it calls [panic] ([Panic], which never returns), or it [Blocked]s, waiting
    for something only another hart, process or device can do.  The same monad
    over other states serves [start] in machine mode ([Boot.mregs]) and the host
    program ([MkFs.mkfs_state]) and over a program's heap ([Umem.uheap]).  The
    user programs are interaction trees over their system calls ([UserSys.sysE]).
    Integers are [Z] with the wrap-around of their C type written out ([u8] .. [i32]); pointers into static arrays are indices;
    pages handed out by the allocator are addresses into byte-addressed memory, so
    page tables, the free list threaded through free pages, trap frames and user
    memory are the bytes the hardware would see.  On-disk structs are encoded
    and decoded at their C offsets.

    What is not code of the repository is a parameter: the linker's symbols
    ([LinkMap], with their alignment and order in [LinkOk]), what runs between a
    process's [swtch] and its return ([Sched.Others]), the disk device
    ([VirtioDisk.VirtioDevice], with what the virtio specification says of it in
    [DeviceOk]), the registers of the virtio device and of the
    PLIC, and what the stack holds in the padding of a local struct
    ([File.Stack]).  The UART is part of the state: the line status it shows now
    and after each byte written ([uart_lsr], [uart_lsr_next], any schedule), the
    bytes it will receive and those it has sent; a byte written while the
    holding register is full is lost.  The buffer cache is proved against an interface, [Bio.BlockDev] with the
    contract [BlockDevOk]; the driver of virt.c meets it ([virtio_dev_ok]) in the
    environment [disk_machine] made of the device, the interrupt handler and the
    scheduler, and so does the trivial [instant_disk].  A loop that the code bounds by data takes that bound as fuel, and the
    theorems show that it suffices; a loop that waits for a condition
    is run for [patience] wake-ups, a parameter, and blocks afterwards.

    ** The files

    - Prelude, Ring, Layout, Memory, CString: integers, the monad, lists, ring
      buffers; constants of vm.h, riscv.h, memlayout.h; memory with [memmove] and
      [memset] of util.c; C strings (util.c, spaceswap.c, ulib.c).
    - State: the structs and the kernel's state.
    - Spinlock (spinlock.c, atomic.S) on one hart with interrupt nesting; SpinSmp:
      the same code as a step relation on any number of harts, one memory access
      per step.
    - Sched, Proc (proc.c, swtch.S), Sleeplock (sleeplock.c); Resume: what a
      process sees of [sleep] when its environment resumes it; Fork: what
      [proc_pagetable] and [allocproc] make.
    - Uart (memlayout.c), Print (print.c), Format (what a format string denotes),
      Console (console.c).
    - Kmem, PageTable, Uvm (vm.c, spaceswap.c); UvmProps, UvmGrow, UvmShrink,
      UvmAlloc, UvmCopy: walking, mapping, growing, shrinking and copying address
      spaces, and the ways back when memory runs out.
    - Ondisk (fs.h), Bio, BioInit, Block (the buffer cache of fs.c), Virtio
      (virt.c), VirtioProps, VirtioDisk (its descriptors; a transfer through
      device, interrupt and scheduler), Fs (the rest of fs.c), FsProps, FsPath (inodes, directories,
      names), File (file.c).
    - Exec (exec.c), Sysfile (sysfile.c), Trap (syscall.c, sysproc.c, trap.c,
      plic.c), Boot (start.c, main.c).
    - Umem, UmemProps: the allocator of user/umem.c, and the heap as a tiling by
      segments; UserSys: user/printf.c, init.c, ls.c, sh.c, and the calls of ulib.c.
    - MkFs, MkFsProps: src/mkfs.c and how it lays out an image.
    - LockSpec .. MkFsSpec: the properties, one file per group.

    ** The theorems

    - LockSpec: mutual exclusion and hand-over of spin locks under every
      interleaving; what [acquire] does on each kind of lock; transparency of a
      critical section; [wakeup]; the life of a sleep lock.
    - MemSpec: the page allocator refines a stack of pages, [kinit] completes,
      [kfree] rejects foreign addresses; Sv39 encoding; [walk], [mappages],
      [walkaddr] on page tables in memory; copying to and from user
      space, and the page overrun of [copyin].
    - GrowSpec, CopySpec: [uvmalloc] maps a whole range or gives everything back,
      [uvmdealloc] undoes it; [uvmcopy] gives the child a copy of the parent's
      address space or leaves none of it behind; on every path each page that was
      free is free again, mapped, or a page table.
    - StringSpec: [memmove] for every overlap, and equivalent to ulib.c's below
      2 GiB,
      [strncmp], [strncpy], [safestrcpy], decimal output read back by [atoi].
    - BioSpec: [init_bcache] establishes the ring invariant, [bget] (whichever
      buffers are held) and [brelease] keep it; cache and disk together refine a map from block numbers to
      contents, through all evictions.
    - FsSpec: encodings, the inode table, [ilock], [iupdate], the block map,
      [readi], [writei], name lookup, including where the code stops short of
      its intent.
    - ForkSpec: [fork] makes the child a copy of its parent, in memory, trap
      frame, open files and directory, or gives the slot back (and leaks the
      child's page table).
    - ProcSpec, UartSpec, ConsoleSpec, FileSpec, VirtioSpec: [growproc], error
      paths of the process calls, the transmit ring as a lossless queue whatever
      the device's line status, the
      line discipline, the open-file table, descriptor chains, and [virt_disk_rw]
      as an implementation of the cache's block device.
    - UmemSpec: [malloc] and [free] against the tiling, and what a client may rely
      on over any run; [malloc] of nearly 4 GiB hands out memory that is not there.
    - UserSpec: both [printf]s print what the format denotes; a round of the shell,
      and how it overflows its buffer; the listing of [ls]; [init] reaps orphans.
    - MkFsSpec: the builder succeeds on files that fit and its image
      represents them; the kernel mounted on that image finds and reads every
      file, which ties the host program, the buffer cache, the inode layer and
      directories together.

    ** Bounds

    Fuel comes from the data: pages of a range, bytes to copy, entries of a
    directory, buffers of the ring (NBUF + 1 steps), bytes of a string, headers
    below the break for the allocator's ring (twice round for [malloc]).  The
    theorems that need room say how much: three free pages per page for
    [uvmalloc] and [uvmcopy], two per page for [mappages], six for the tables and
    trap frame of a new process, one directory block (61 files) for the
    kernel's lookup in an image.  The noff counter is assumed eight below its overflow
    ([kready]).

    ** Not modelled

    The assembly that saves and restores registers (entry.S, kernelvec.S,
    trampoline.S) appears only as trap frames and saved contexts.  The user
    programs' system call stubs (sysc.S) and the first program's code (initcode1.S) are
    assembly: they appear as events and as bytes.  The configuration writes of [uartinit] have no effect
    on the model.  [panic] prints and stops the machine: it is an outcome.  Storing
    past the end of [exec]'s [ustack] blocks the model, since the C code has no
    defined behaviour there, and so does a [copyin] of 4 GiB or more in one round.
    [mkfs]'s messages are left out.

    Modelled without a theorem: the release of the tables themselves
    ([uvmfree], [freewalk]); [exec]; the paths and calls of sysfile.c; [main], so
    that the theorems about a running file system start from [init_bcache] and
    not from reset. *)

From Stdlib Require Export Lia.
From stdpp Require Export gmap strings.
From stdpp Require Export list.

#[global] Open Scope Z_scope.

(** ** Machine integers

    C integers are [Z]; every operation that may leave the range of its type
    is followed by the conversion of that type. *)

Definition u8 (x : Z) : Z := x mod 2 ^ 8.
Definition u16 (x : Z) : Z := x mod 2 ^ 16.
Definition u32 (x : Z) : Z := x mod 2 ^ 32.
Definition u64 (x : Z) : Z := x mod 2 ^ 64.
(** Two's complement reinterpretation: [short] and [int]. *)
Definition i16 (x : Z) : Z := (x + 2 ^ 15) mod 2 ^ 16 - 2 ^ 15.
Definition i32 (x : Z) : Z := (x + 2 ^ 31) mod 2 ^ 32 - 2 ^ 31.

Create HintDb halo discriminated.
Create Rewrite HintDb halo_rw.

Section machine_ints.
  Implicit Types x y : Z.

Lemma u8_range x : 0 <= u8 x < 2 ^ 8.
Proof. apply Z.mod_pos_bound. lia. Qed.
Lemma u32_range x : 0 <= u32 x < 2 ^ 32.
Proof. apply Z.mod_pos_bound. lia. Qed.
Lemma u64_range x : 0 <= u64 x < 2 ^ 64.
Proof. apply Z.mod_pos_bound. lia. Qed.

Lemma u8_id x : 0 <= x < 2 ^ 8 -> u8 x = x.
Proof. apply Z.mod_small. Qed.
Lemma u16_id x : 0 <= x < 2 ^ 16 -> u16 x = x.
Proof. apply Z.mod_small. Qed.
Lemma u32_id x : 0 <= x < 2 ^ 32 -> u32 x = x.
Proof. apply Z.mod_small. Qed.
Lemma u64_id x : 0 <= x < 2 ^ 64 -> u64 x = x.
Proof. apply Z.mod_small. Qed.
Lemma i16_id x : - 2 ^ 15 <= x < 2 ^ 15 -> i16 x = x.
Proof. intros. unfold i16. rewrite Z.mod_small; lia. Qed.
Lemma i32_id x : - 2 ^ 31 <= x < 2 ^ 31 -> i32 x = x.
Proof. intros. unfold i32. rewrite Z.mod_small; lia. Qed.
Lemma i32_range x : - 2 ^ 31 <= i32 x < 2 ^ 31.
Proof. unfold i32. pose proof (Z.mod_pos_bound (x + 2 ^ 31) (2 ^ 32)). lia. Qed.

Lemma u64_u64 x : u64 (u64 x) = u64 x.
Proof. apply Z.mod_mod. lia. Qed.
Lemma u64_add_u64_l x y : u64 (u64 x + y) = u64 (x + y).
Proof. apply Zplus_mod_idemp_l. Qed.
Lemma u32_wrap x : 2 ^ 32 <= x < 2 * 2 ^ 32 -> u32 x = x - 2 ^ 32.
Proof. intros. unfold u32. symmetry. apply (Z.mod_unique _ _ 1); lia. Qed.

Lemma u32_add_u32_l x y : u32 (u32 x + y) = u32 (x + y).
Proof. apply Zplus_mod_idemp_l. Qed.
End machine_ints.

#[export] Hint Resolve u8_range u32_range u64_range i32_range : halo.
#[export] Hint Rewrite u64_u64 u64_add_u64_l u32_add_u32_l : halo_rw.

(** ** Running kernel code

    A kernel function is a state transformer with three outcomes: it returns,
    it calls [panic] (which never returns, [print.c]), or it blocks: it spins
    on, or sleeps for, a condition that only another hart, process or device
    can establish. *)

Inductive outcome (S A : Type) : Type :=
| Ok (a : A) (s : S)
| Panic (msg : string) (s : S)
| Blocked (s : S).
Arguments Ok {S A}. Arguments Panic {S A}. Arguments Blocked {S A}.

Definition prog (S A : Type) : Type := S -> outcome S A.

#[export] Instance prog_ret {S} : MRet (prog S) := fun A a s => Ok a s.
#[export] Instance prog_bind {S} : MBind (prog S) :=
  fun A B f m s =>
    match m s with
    | Ok a s' => f a s'
    | Panic msg s' => Panic msg s'
    | Blocked s' => Blocked s'
    end.

Definition gets {S A} (f : S -> A) : prog S A := fun s => Ok (f s) s.
Definition modify {S} (f : S -> S) : prog S unit := fun s => Ok tt (f s).
Definition panic {S A} (msg : string) : prog S A := fun s => Panic msg s.
Definition block {S A} : prog S A := fun s => Blocked s.

(** The states and values an execution may end in, when it returns. *)
Definition returns {S A} (m : prog S A) (s : S) (Q : A -> S -> Prop) : Prop :=
  exists a s', m s = Ok a s' /\ Q a s'.
Definition panics {S A} (m : prog S A) (s : S) (msg : string) : Prop :=
  exists s', m s = Panic msg s'.

Section prog_lemmas.
  Context {S : Type}.

Lemma bind_ok {A B} (m : prog S A) (f : A -> prog S B) s a s' :
  m s = Ok a s' -> (m ≫= f) s = f a s'.
Proof. unfold mbind, prog_bind. by intros ->. Qed.

Lemma bind_ret {A B} (a : A) (f : A -> prog S B) s : (mret a ≫= f) s = f a s.
Proof. done. Qed.

Lemma bind_ok_inv {A B} (m : prog S A) (f : A -> prog S B) s b s'' :
  (m ≫= f) s = Ok b s'' -> exists a s', m s = Ok a s' /\ f a s' = Ok b s''.
Proof. unfold mbind, prog_bind. destruct (m s) eqn:E; naive_solver. Qed.

Lemma bind_panic {A B} (m : prog S A) (f : A -> prog S B) s msg s' :
  m s = Panic msg s' -> (m ≫= f) s = Panic msg s'.
Proof. unfold mbind, prog_bind. by intros ->. Qed.

Lemma returns_ret {A} (a : A) s (Q : A -> S -> Prop) :
  Q a s -> returns (mret a) s Q.
Proof. intros. by exists a, s. Qed.

Lemma returns_bind {A B} (m : prog S A) (f : A -> prog S B) s P Q :
  returns m s P ->
  (forall a s', P a s' -> returns (f a) s' Q) ->
  returns (m ≫= f) s Q.
Proof.
  intros (a & s' & E & HP) Hf. destruct (Hf a s' HP) as (b & s'' & E' & HQ).
  exists b, s''. by rewrite (bind_ok _ _ _ _ _ E).
Qed.

Lemma returns_ok_bind {A B} (m : prog S A) (f : A -> prog S B) s a s' Q :
  m s = Ok a s' -> returns (f a) s' Q -> returns (m ≫= f) s Q.
Proof. intros E (b & s'' & E' & HQ). exists b, s''. by rewrite (bind_ok _ _ _ _ _ E). Qed.

Lemma returns_ok {A} (m : prog S A) s a s' (Q : A -> S -> Prop) :
  m s = Ok a s' -> Q a s' -> returns m s Q.
Proof. intros. by exists a, s'. Qed.

Lemma returns_mono {A} (m : prog S A) s (P Q : A -> S -> Prop) :
  returns m s P -> (forall a s', P a s' -> Q a s') -> returns m s Q.
Proof. intros (a & s' & ? & ?) HPQ. exists a, s'. auto. Qed.

Lemma bind_assoc {A B C} (m : prog S A) (f : A -> prog S B) (g : B -> prog S C) s :
  ((m ≫= f) ≫= g) s = (m ≫= (fun a => f a ≫= g)) s.
Proof. unfold mbind, prog_bind. by destruct (m s). Qed.
End prog_lemmas.

(** ** Loops over arrays *)

(** [for(x in l) f(x)]. *)
Fixpoint for_each {S A} (l : list A) (f : A -> prog S unit) : prog S unit :=
  match l with
  | [] => mret tt
  | x :: l => f x;; for_each l f
  end.

(** [for(x in l)] with a body that may leave the loop with a value. *)
Fixpoint for_find {S A B} (l : list A) (f : A -> prog S (option B)) : prog S (option B) :=
  match l with
  | [] => mret None
  | x :: l =>
      r ← f x;
      match r with
      | Some b => mret (Some b)
      | None => for_find l f
      end
  end.

Section loops.
  Context {S A : Type}.

(** A loop whose every step computes [g x]. *)
Lemma for_each_ok (f : A -> prog S unit) (g : A -> S -> S) (I : S -> Prop) l s :
  I s -> (forall x s, x ∈ l -> I s -> f x s = Ok tt (g x s) /\ I (g x s)) ->
  for_each l f s = Ok tt (foldl (fun s x => g x s) s l) /\ I (foldl (fun s x => g x s) s l).
Proof.
  revert s. induction l as [|x l IH]; intros s Hs Hf; [done|]. cbn [for_each foldl].
  destruct (Hf x s ltac:(by left) Hs) as [E HI]. rewrite (bind_ok _ _ _ _ _ E).
  apply IH; [done|]. intros y s' Hy. apply Hf. by right.
Qed.
End loops.

(** Symbolic execution of the primitive steps. *)
Ltac step_prim :=
  cbv [mbind prog_bind mret prog_ret gets modify panic block]; cbn beta iota.

(** Split a boolean comparison appearing in the goal or a hypothesis. *)
Ltac case_bool :=
  match goal with
  | |- context [Z.eqb ?a ?b] => destruct (Z.eqb_spec a b)
  | |- context [Z.ltb ?a ?b] => destruct (Z.ltb_spec a b)
  | |- context [Z.leb ?a ?b] => destruct (Z.leb_spec a b)
  | H : context [Z.eqb ?a ?b] |- _ => destruct (Z.eqb_spec a b)
  | H : context [Z.ltb ?a ?b] |- _ => destruct (Z.ltb_spec a b)
  | H : context [Z.leb ?a ?b] |- _ => destruct (Z.leb_spec a b)
  end.

(** ** Reflexive-transitive closure of step relations *)

Section star.
  Context {A : Type} (R : A -> A -> Prop).

Inductive star : A -> A -> Prop :=
| star_refl a : star a a
| star_snoc a b c : star a b -> R b c -> star a c.

Lemma star_invariant (I : A -> Prop) a b :
  I a -> (forall x y, I x -> R x y -> I y) -> star a b -> I b.
Proof. intros H0 HI H. induction H; eauto. Qed.

Lemma star_trans a b c : star a b -> star b c -> star a c.
Proof. intros H1 H2. induction H2; eauto using star. Qed.
End star.

(** ** Lists *)

Lemma list_filter_all {A} (P : A -> Prop) `{!forall x, Decision (P x)} (l : list A) :
  Forall P l -> filter P l = l.
Proof. induction 1; [done|]. by rewrite filter_cons_True, IHForall. Qed.


Lemma lookup_nth {A} (l : list A) i d : (i < length l)%nat -> l !! i = Some (nth i l d).
Proof. intros Hi. rewrite nth_lookup. by destruct (lookup_lt_is_Some_2 l i Hi) as [x ->]. Qed.

Lemma nth_replicate {A} (x : A) n i : nth i (replicate n x) x = x.
Proof. revert i. induction n as [|n IH]; intros [|i]; cbn; auto. Qed.

(** The first index satisfying [q]. *)
Fixpoint find_index {A} (q : A -> bool) (l : list A) : option nat :=
  match l with
  | [] => None
  | x :: l => if q x then Some O else S <$> find_index q l
  end.

Section find_index.
  Context {A : Type} (q : A -> bool).
  Implicit Types l : list A.

Lemma find_index_Some l i :
  find_index q l = Some i ->
  exists x, l !! i = Some x /\ q x = true /\ forall j y, (j < i)%nat -> l !! j = Some y -> q y = false.
Proof.
  revert i. induction l as [|x l IH]; intros i; [done|]. cbn. destruct (q x) eqn:E.
  - intros [= <-]. exists x. split; [done|]. split; [done|]. intros; lia.
  - destruct (find_index q l) as [k|]; [|done]. intros [= <-].
    destruct (IH k eq_refl) as (y & Hy & Hq & Hl). exists y. split; [done|]. split; [done|].
    intros [|j] z Hj Hz; [by injection Hz as <-|]. apply (Hl j z); [lia|done].
Qed.

Lemma find_index_None l : find_index q l = None -> Forall (fun x => q x = false) l.
Proof.
  induction l as [|x l IH]; [done|]. cbn. destruct (q x) eqn:E; [done|].
  destruct (find_index q l); [done|]. auto.
Qed.

Lemma find_index_is_Some l i x : l !! i = Some x -> q x = true -> is_Some (find_index q l).
Proof.
  intros Hi Hq. destruct (find_index q l) eqn:E; [done|].
  apply find_index_None in E. rewrite (Forall_lookup_1 _ _ _ _ E Hi) in Hq. done.
Qed.

Lemma find_index_intro l i x :
  l !! i = Some x -> q x = true -> (forall j y, (j < i)%nat -> l !! j = Some y -> q y = false) ->
  find_index q l = Some i.
Proof.
  intros Hi Hq Hmin. destruct (find_index_is_Some l i x Hi Hq) as [k Hk]. rewrite Hk. f_equal.
  apply find_index_Some in Hk as (y & Hy & Hqy & Hlt). destruct (lt_eq_lt_dec k i) as [[H|H]|H]; [|done|].
  - rewrite (Hmin k y H Hy) in Hqy. done.
  - rewrite (Hlt i x H Hi) in Hq. done.
Qed.

Lemma find_index_none l : Forall (fun x => q x = false) l -> find_index q l = None.
Proof.
  intros H. destruct (find_index q l) as [i|] eqn:E; [|done].
  apply find_index_Some in E as (x & Hx & Hq & _). by rewrite (Forall_lookup_1 _ _ _ _ H Hx) in Hq.
Qed.
End find_index.

(** ** Lists indexed by [Z] offsets *)

(** [set_range l n l'] overwrites the elements of [l] from index [n] on with
    [l'], as a [memmove] into the middle of an array does. *)
Definition set_range {A} (l : list A) (n : nat) (l' : list A) : list A :=
  take n l ++ l' ++ drop (n + length l') l.

Section set_range.
  Context {A : Type}.
  Implicit Types l : list A.

Lemma length_set_range l n l' :
  (n + length l' <= length l)%nat -> length (set_range l n l') = length l.
Proof. intros. unfold set_range. rewrite !length_app, length_take, length_drop. lia. Qed.

Lemma lookup_set_range_in l n l' i :
  (n <= length l)%nat -> (n <= i < n + length l')%nat ->
  set_range l n l' !! i = l' !! (i - n)%nat.
Proof.
  intros. unfold set_range.
  rewrite lookup_app_r; rewrite length_take_le by lia; [|lia].
  by rewrite lookup_app_l by lia.
Qed.

Lemma lookup_set_range_out l n l' i :
  (n + length l' <= length l)%nat -> (i < n \/ n + length l' <= i)%nat ->
  set_range l n l' !! i = l !! i.
Proof.
  intros Hl [Hi|Hi]; unfold set_range.
  - rewrite lookup_app_l by (rewrite length_take_le; lia).
    by rewrite lookup_take_lt.
  - rewrite lookup_app_r; rewrite length_take_le by lia; [|lia].
    rewrite lookup_app_r by lia. rewrite lookup_drop. f_equal. lia.
Qed.

Lemma slice_set_range_same l n l' :
  (n + length l' <= length l)%nat ->
  take (length l') (drop n (set_range l n l')) = l'.
Proof.
  intros. unfold set_range.
  rewrite drop_app_length' by (rewrite length_take_le; lia).
  by rewrite take_app_length.
Qed.
End set_range.

#[export] Hint Rewrite @length_set_range using lia : halo_rw.

(** [a[i] = f(a[i])] on a C array; the code's indices are in range. *)
Definition upd_at {A} `{!Inhabited A} (i : nat) (f : A -> A) (l : list A) : list A :=
  <[i := f (l !!! i)]> l.

Arguments upd_at : simpl never.

Section upd_at.
  Context {A : Type} `{!Inhabited A}.
  Implicit Types (l : list A) (f g : A -> A).

Lemma length_upd_at i f l : length (upd_at i f l) = length l.
Proof. apply length_insert. Qed.

Lemma upd_at_eq i f l : (i < length l)%nat -> upd_at i f l !!! i = f (l !!! i).
Proof. intros. unfold upd_at. by apply list_lookup_total_insert_eq. Qed.

Lemma upd_at_ne i j f l : i <> j -> upd_at i f l !!! j = l !!! j.
Proof. intros. unfold upd_at. by apply list_lookup_total_insert_ne. Qed.

(** A field the update keeps. *)
Lemma upd_at_proj {B} (g : A -> B) i j f l :
  g (f (l !!! i)) = g (l !!! i) -> g (upd_at i f l !!! j) = g (l !!! j).
Proof.
  intros E. destruct (decide (i < length l)%nat).
  - destruct (decide (i = j)) as [<-|]; [by rewrite upd_at_eq|by rewrite upd_at_ne].
  - unfold upd_at. by rewrite list_insert_ge by lia.
Qed.

Lemma upd_at_lookup_ne i j f l : i <> j -> upd_at i f l !! j = l !! j.
Proof. intros. unfold upd_at. by apply list_lookup_insert_ne. Qed.

Lemma upd_at_lookup_eq i f l x : l !! i = Some x -> upd_at i f l !! i = Some (f x).
Proof.
  intros H. unfold upd_at. rewrite (list_lookup_total_correct _ _ _ H).
  apply list_lookup_insert_eq. by eapply lookup_lt_Some.
Qed.

Lemma upd_at_insert i f l x : l !! i = Some x -> upd_at i f l = <[i := f x]> l.
Proof. intros H. unfold upd_at. by rewrite (list_lookup_total_correct _ _ _ H). Qed.

Lemma upd_at_upd_at i f g l : upd_at i f (upd_at i g l) = upd_at i (fun x => f (g x)) l.
Proof.
  destruct (decide (i < length l)%nat).
  - unfold upd_at at 1 3. rewrite upd_at_eq by done. apply list_insert_insert_eq.
  - unfold upd_at. by rewrite !list_insert_ge by (rewrite ?length_insert; lia).
Qed.

Lemma upd_at_ext i f g l : f (l !!! i) = g (l !!! i) -> upd_at i f l = upd_at i g l.
Proof. unfold upd_at. by intros ->. Qed.

Lemma upd_at_id i f l : f (l !!! i) = l !!! i -> upd_at i f l = l.
Proof.
  unfold upd_at. intros ->. destruct (decide (i < length l)%nat).
  - apply list_insert_id. by apply list_lookup_lookup_total_lt.
  - apply list_insert_ge. lia.
Qed.

Lemma upd_at_comm i j f g l :
  i <> j -> upd_at i f (upd_at j g l) = upd_at j g (upd_at i f l).
Proof.
  intros. unfold upd_at. rewrite !list_lookup_total_insert_ne by done.
  by apply list_insert_insert_ne.
Qed.
End upd_at.

#[export] Hint Rewrite @length_upd_at @upd_at_upd_at : halo_rw.
