(* ===== verification/Ring.v ===== *)
(** * Ring buffers

    An array of [N] bytes indexed by counters that only grow: the bytes between
    the counters [A] and [B] are a list.  Shared by the UART and the console. *)

From S2P Require Import Prelude.

Definition ring_at (buf : list Z) (N i : Z) : Z := buf !!! Z.to_nat (i mod N).
Definition ring_seg (buf : list Z) (N A B : Z) : list Z :=
  (fun k => ring_at buf N (A + Z.of_nat k)) <$> seq 0 (Z.to_nat (B - A)).

Section ring.
  Context (N : Z) (HN : 0 < N).
  Implicit Types (buf : list Z) (A B i : Z).

Lemma ring_seg_nil buf A : ring_seg buf N A A = [].
Proof. unfold ring_seg. by rewrite Z.sub_diag. Qed.

Lemma length_ring_seg buf A B : length (ring_seg buf N A B) = Z.to_nat (B - A).
Proof. unfold ring_seg. by rewrite length_fmap, length_seq. Qed.

Lemma ring_seg_cons buf A B : A < B -> ring_seg buf N A B = ring_at buf N A :: ring_seg buf N (A + 1) B.
Proof.
  intros H. unfold ring_seg. replace (Z.to_nat (B - A)) with (S (Z.to_nat (B - (A + 1)))) by lia.
  cbn [seq fmap list_fmap]. rewrite Z.add_0_r. f_equal. rewrite <- fmap_S_seq, <- list_fmap_compose.
  apply list_fmap_ext. intros i x _. cbn. f_equal. lia.
Qed.

Lemma ring_seg_snoc buf A B : A <= B -> ring_seg buf N A (B + 1) = ring_seg buf N A B ++ [ring_at buf N B].
Proof.
  intros H. unfold ring_seg. replace (Z.to_nat (B + 1 - A)) with (S (Z.to_nat (B - A))) by lia.
  rewrite seq_S, fmap_app. cbn [fmap list_fmap Nat.add]. do 3 f_equal. lia.
Qed.

Lemma ring_seg_app buf A B C : A <= B <= C -> ring_seg buf N A C = ring_seg buf N A B ++ ring_seg buf N B C.
Proof.
  intros [H1 H2]. remember (Z.to_nat (C - B)) as n eqn:En. revert C H2 En. induction n as [|n IH]; intros C H2 En.
  - assert (C = B) as -> by lia. by rewrite ring_seg_nil, app_nil_r.
  - replace C with (C - 1 + 1) by lia. rewrite !ring_seg_snoc by lia. rewrite (IH (C - 1)) by lia. by rewrite app_assoc.
Qed.

Lemma ring_at_elem (P : Z -> Prop) buf i : Z.of_nat (length buf) = N -> Forall P buf -> P (ring_at buf N i).
Proof.
  intros Hl Hb. unfold ring_at. apply (proj1 (Forall_forall _ _) Hb).
  apply list_elem_of_lookup_total_2. pose proof (Z.mod_pos_bound i N HN). lia.
Qed.

(** Writing at [B] does not disturb a segment that ends before. *)
Lemma ring_seg_write buf A C B x :
  C <= B < A + N -> ring_seg (upd_at (Z.to_nat (B mod N)) (fun _ => x) buf) N A C = ring_seg buf N A C.
Proof.
  intros HB. unfold ring_seg. apply list_fmap_ext. intros i y [-> Hi]%lookup_seq. unfold ring_at.
  apply upd_at_ne. intros E. cbn [Nat.add] in E.
  pose proof (Z.mod_pos_bound B N HN). pose proof (Z.mod_pos_bound (A + Z.of_nat i) N HN).
  assert (B mod N = (A + Z.of_nat i) mod N) as E' by lia.
  pose proof (Z.div_mod B N ltac:(lia)). pose proof (Z.div_mod (A + Z.of_nat i) N ltac:(lia)). rewrite E' in *.
  assert (N * (B / N - (A + Z.of_nat i) / N) = B - (A + Z.of_nat i)) as Hq by lia.
  assert (0 < B / N - (A + Z.of_nat i) / N < 1); [|lia]. split; nia.
Qed.

Lemma ring_at_write buf B x :
  Z.of_nat (length buf) = N -> ring_at (upd_at (Z.to_nat (B mod N)) (fun _ => x) buf) N B = x.
Proof.
  intros Hl. unfold ring_at. apply upd_at_eq. pose proof (Z.mod_pos_bound B N HN). lia.
Qed.

(** Storing the next byte. *)
Lemma ring_seg_push buf A B x :
  Z.of_nat (length buf) = N -> A <= B < A + N ->
  ring_seg (upd_at (Z.to_nat (B mod N)) (fun _ => x) buf) N A (B + 1) = ring_seg buf N A B ++ [x].
Proof. intros Hl HB. rewrite ring_seg_snoc, ring_seg_write, ring_at_write by (done || lia). done. Qed.
End ring.
