(* ===== verification/Layout.v ===== *)
(** * Address arithmetic: [vm.h], [riscv.h], [memlayout.h]

    The constants of the memory layout, page rounding, the three 9-bit page
    table indices of an Sv39 virtual address, and the encoding of physical
    addresses in page table entries. *)

From S2P Require Import Prelude.

(** ** Constants *)

Definition PGSIZE : Z := 4096.
Definition PGSHIFT : Z := 12.
Definition KERNELBASE : Z := 0x80000000.
Definition PHYSTOP : Z := KERNELBASE + 128 * 1024 * 1024.
Definition PXMASK : Z := 0x1FF.
Definition MAXVA : Z := Z.shiftl 1 (9 + 9 + 9 + 12 - 1).
Definition TRAMPOLINE : Z := MAXVA - PGSIZE.
Definition TRAPFRAME : Z := TRAMPOLINE - PGSIZE.
Definition KSTACK (p : Z) : Z := TRAMPOLINE - (p + 1) * 2 * PGSIZE.

Definition PTE_V : Z := Z.shiftl 1 0.
Definition PTE_R : Z := Z.shiftl 1 1.
Definition PTE_W : Z := Z.shiftl 1 2.
Definition PTE_X : Z := Z.shiftl 1 3.
Definition PTE_U : Z := Z.shiftl 1 4.
Definition SATP_SV39 : Z := Z.shiftl 8 60.

Definition UART0 : Z := 0x10000000.
Definition VIRTIO0 : Z := 0x10001000.
Definition PLIC : Z := 0x0c000000.

(** ** Macros. The argument of each is a [uint64]. *)

Definition PGROUNDUP (sz : Z) : Z := Z.land (u64 (sz + PGSIZE - 1)) (Z.lnot (PGSIZE - 1)).
Definition PGROUNDDOWN (a : Z) : Z := Z.land a (Z.lnot (PGSIZE - 1)).
Definition PXSHIFT (level : Z) : Z := PGSHIFT + 9 * level.
Definition PX (level va : Z) : Z := Z.land (Z.shiftr va (PXSHIFT level)) PXMASK.
Definition PTE_FLAGS (pte : Z) : Z := Z.land pte 0x3FF.
Definition PA2PTE (pa : Z) : Z := Z.shiftl (Z.shiftr pa 12) 10.
Definition PTE2PA (pte : Z) : Z := u64 (Z.shiftl (Z.shiftr pte 10) 12).
Definition MAKE_SATP (pagetable : Z) : Z := Z.lor SATP_SV39 (Z.shiftr pagetable 12).

(** A test [pte & FLAG] of the code. *)
Definition flag (pte f : Z) : bool := negb (Z.land pte f =? 0).

(** ** Page rounding *)

Lemma land_lnot_ones a : Z.land a (Z.lnot (PGSIZE - 1)) = PGSIZE * (a / PGSIZE).
Proof.
  change (PGSIZE - 1) with (Z.ones 12). rewrite <- Z.ldiff_land.
  rewrite Z.ldiff_ones_r by lia. rewrite Z.shiftl_mul_pow2, Z.shiftr_div_pow2 by lia.
  change PGSIZE with (2 ^ 12). lia.
Qed.

Lemma PGROUNDDOWN_eq a : PGROUNDDOWN a = PGSIZE * (a / PGSIZE).
Proof. apply land_lnot_ones. Qed.

Lemma PGROUNDUP_eq sz :
  0 <= sz <= 2 ^ 64 - PGSIZE -> PGROUNDUP sz = PGSIZE * ((sz + PGSIZE - 1) / PGSIZE).
Proof.
  unfold PGROUNDUP, PGSIZE. intros. rewrite u64_id by lia. apply land_lnot_ones.
Qed.

Lemma PGROUNDDOWN_spec a :
  PGROUNDDOWN a mod PGSIZE = 0 /\ PGROUNDDOWN a <= a < PGROUNDDOWN a + PGSIZE.
Proof.
  rewrite PGROUNDDOWN_eq. unfold PGSIZE.
  pose proof (Z.div_mod a 4096). pose proof (Z.mod_pos_bound a 4096).
  split; [|lia]. rewrite Z.mul_comm. apply Z.mod_mul. lia.
Qed.

Lemma PGROUNDUP_spec sz :
  0 <= sz <= 2 ^ 64 - PGSIZE ->
  PGROUNDUP sz mod PGSIZE = 0 /\ sz <= PGROUNDUP sz < sz + PGSIZE.
Proof.
  intros. rewrite PGROUNDUP_eq by done. unfold PGSIZE in *.
  pose proof (Z.div_mod (sz + 4096 - 1) 4096). pose proof (Z.mod_pos_bound (sz + 4096 - 1) 4096).
  split; [|lia]. rewrite Z.mul_comm. apply Z.mod_mul. lia.
Qed.

Lemma PGROUNDDOWN_aligned a : a mod PGSIZE = 0 -> PGROUNDDOWN a = a.
Proof.
  intros. rewrite PGROUNDDOWN_eq. unfold PGSIZE in *. pose proof (Z.div_mod a 4096). lia.
Qed.

Lemma PGROUNDUP_aligned a : 0 <= a <= 2 ^ 64 - PGSIZE -> a mod PGSIZE = 0 -> PGROUNDUP a = a.
Proof.
  intros Ha Hm. destruct (PGROUNDUP_spec a Ha) as [H1 H2]. unfold PGSIZE in *.
  pose proof (Z.div_mod a 4096). pose proof (Z.div_mod (PGROUNDUP a) 4096). lia.
Qed.

(** The addresses of the page at an aligned [a]. *)
Lemma same_page a va : a mod PGSIZE = 0 -> va / PGSIZE = a / PGSIZE <-> a <= va < a + PGSIZE.
Proof.
  unfold PGSIZE. intros. pose proof (Z.div_mod a 4096). pose proof (Z.div_mod va 4096).
  pose proof (Z.mod_pos_bound va 4096). split; [lia|].
  intros. symmetry. apply (Z.div_unique _ _ _ (va - a)); lia.
Qed.

Lemma aligned_add a : a mod PGSIZE = 0 -> (a + PGSIZE) mod PGSIZE = 0.
Proof. intros. unfold PGSIZE in *. by rewrite <- Z.add_mod_idemp_r, Z.add_0_r by lia. Qed.

(** ** Page table indices *)

Lemma PX_eq level va : 0 <= level -> PX level va = va / 2 ^ (12 + 9 * level) mod 512.
Proof.
  intros. unfold PX, PXSHIFT, PXMASK, PGSHIFT. rewrite Z.shiftr_div_pow2 by lia.
  change 0x1FF with (Z.ones 9). by rewrite Z.land_ones by lia.
Qed.

Lemma PX_range level va : 0 <= level -> 0 <= PX level va < 512.
Proof. intros. rewrite PX_eq by done. apply Z.mod_pos_bound. lia. Qed.

(** The indices of the three levels determine the page below [MAXVA]. *)
Lemma PX_inj va va' :
  0 <= va < MAXVA -> 0 <= va' < MAXVA ->
  (forall l, 0 <= l <= 2 -> PX l va = PX l va') -> va / PGSIZE = va' / PGSIZE.
Proof.
  change MAXVA with (2 ^ 38). change PGSIZE with 4096. intros H H' E.
  pose proof (E 0 ltac:(lia)) as E0. pose proof (E 1 ltac:(lia)) as E1.
  pose proof (E 2 ltac:(lia)) as E2.
  rewrite !PX_eq in E0, E1, E2 by lia.
  change (2 ^ (12 + 9 * 0)) with 4096 in E0.
  change (2 ^ (12 + 9 * 1)) with (4096 * 512) in E1.
  change (2 ^ (12 + 9 * 2)) with (4096 * (512 * 512)) in E2.
  rewrite <- (Z.div_div va), <- (Z.div_div va') in E1, E2 by lia.
  rewrite <- (Z.div_div _ 512 512), <- (Z.div_div (va' / 4096) 512 512) in E2 by lia.
  set (a := va / 4096) in *. set (b := va' / 4096) in *.
  assert (0 <= a < 2 ^ 26 /\ 0 <= b < 2 ^ 26) as [Ha Hb].
  { unfold a, b. split; split; try (apply Z.div_pos; lia);
      apply Z.div_lt_upper_bound; lia. }
  clearbody a b.
  rewrite !(Z.mod_small (_ / 512 / 512)) in E2 by
    (split; [apply Z.div_pos|apply Z.div_lt_upper_bound]; [apply Z.div_pos|..]; try lia;
     apply Z.div_lt_upper_bound; lia).
  pose proof (Z.div_mod (a / 512) 512 ltac:(lia)) as D1.
  pose proof (Z.div_mod (b / 512) 512 ltac:(lia)) as D2.
  assert (a / 512 = b / 512) as E3 by congruence.
  pose proof (Z.div_mod a 512 ltac:(lia)) as D3.
  pose proof (Z.div_mod b 512 ltac:(lia)) as D4. congruence.
Qed.

(** ** Page table entries *)

Lemma PA2PTE_eq pa : PA2PTE pa = (pa / PGSIZE) * 2 ^ 10.
Proof. unfold PA2PTE. by rewrite Z.shiftl_mul_pow2, Z.shiftr_div_pow2 by lia. Qed.

Lemma PTE2PA_eq pte : PTE2PA pte = u64 (pte / 2 ^ 10 * PGSIZE).
Proof. unfold PTE2PA. by rewrite Z.shiftl_mul_pow2, Z.shiftr_div_pow2 by lia. Qed.

(** An entry built from a page address and flags: the low ten bits are the
    flags, the rest the page number. *)
Lemma lor_PA2PTE pa fl : 0 <= fl < 2 ^ 10 -> Z.lor (PA2PTE pa) fl = PA2PTE pa + fl.
Proof.
  intros Hfl. assert (Z.land (PA2PTE pa) fl = 0) as Hd.
  { apply Z.bits_inj'. intros n Hn. rewrite Z.land_spec, Z.bits_0. unfold PA2PTE.
    destruct (Z.ltb_spec n 10); [by rewrite Z.shiftl_spec_low by lia|].
    rewrite (Z.testbit_eqb fl) by lia. rewrite (Z.div_small fl); [apply andb_false_r|].
    assert (2 ^ 10 <= 2 ^ n) by (apply Z.pow_le_mono_r; lia). lia. }
  rewrite <- Z.lxor_lor by done. by rewrite Z.add_nocarry_lxor.
Qed.

(** A physical page address: page aligned and below 2^56. *)
Definition page_addr (pa : Z) : Prop := pa mod PGSIZE = 0 /\ 0 <= pa < 2 ^ 56.

Lemma PTE2PA_PA2PTE pa fl :
  page_addr pa -> 0 <= fl < 2 ^ 10 -> PTE2PA (Z.lor (PA2PTE pa) fl) = pa.
Proof.
  intros [Hm Hr] Hfl. rewrite lor_PA2PTE, PTE2PA_eq, PA2PTE_eq by done.
  rewrite Z.div_add_l, (Z.div_small fl) by lia. unfold PGSIZE in *.
  pose proof (Z.div_mod pa 4096). rewrite u64_id; lia.
Qed.

Lemma PTE_FLAGS_eq pte : PTE_FLAGS pte = pte mod 2 ^ 10.
Proof. unfold PTE_FLAGS. change 0x3FF with (Z.ones 10). by rewrite Z.land_ones by lia. Qed.

Lemma PTE_FLAGS_PA2PTE pa fl :
  0 <= fl < 2 ^ 10 -> PTE_FLAGS (Z.lor (PA2PTE pa) fl) = fl.
Proof.
  intros. rewrite PTE_FLAGS_eq, lor_PA2PTE, PA2PTE_eq by done.
  rewrite Z.add_comm, Z.mod_add by lia. by apply Z.mod_small.
Qed.

Lemma PTE2PA_aligned pte : 0 <= pte -> PTE2PA pte mod PGSIZE = 0.
Proof.
  intros. rewrite PTE2PA_eq. unfold u64, PGSIZE.
  replace (2 ^ 64) with (4096 * 2 ^ 52) by lia.
  replace (pte / 2 ^ 10 * 4096) with (4096 * (pte / 2 ^ 10)) by lia.
  rewrite Zmult_mod_distr_l, Z.mul_comm. apply Z.mod_mul. lia.
Qed.

(** Testing one flag reads one bit. *)
Lemma flag_testbit pte n : 0 <= n -> flag pte (Z.shiftl 1 n) = Z.testbit pte n.
Proof.
  intros Hn. unfold flag. rewrite Z.shiftl_1_l.
  destruct (Z.testbit pte n) eqn:E; case_bool; try done.
  - exfalso. assert (Z.testbit (Z.land pte (2 ^ n)) n = true) as H.
    { by rewrite Z.land_spec, E, Z.pow2_bits_true. }
    rewrite e, Z.bits_0 in H. done.
  - exfalso. apply n0. apply Z.bits_inj'. intros m Hm.
    rewrite Z.land_spec, Z.bits_0, Z.pow2_bits_eqb by done.
    destruct (Z.eqb_spec n m) as [->|]; [by rewrite E|apply andb_false_r].
Qed.

Lemma flag_V_lor pte : flag (Z.lor pte PTE_V) PTE_V = true.
Proof.
  unfold PTE_V at 2. rewrite flag_testbit, Z.lor_spec by lia. apply orb_true_r.
Qed.

Lemma flag_0 f : flag 0 f = false.
Proof. done. Qed.

(** The stored entry of a mapping: physical page, permission bits, valid bit. *)
Lemma flags_with_V perm : 0 <= perm < 2 ^ 10 -> 0 <= Z.lor perm PTE_V < 2 ^ 10.
Proof.
  intros H. assert (0 <= Z.lor perm PTE_V) by (apply Z.lor_nonneg; by split; [lia|]).
  split; [done|].
  destruct (Z.eq_dec (Z.lor perm PTE_V) 0) as [->|]; [lia|].
  apply Z.log2_lt_pow2; [lia|]. rewrite Z.log2_lor by (lia || done).
  apply Z.max_lub_lt; [|done].
  destruct (Z.eq_dec perm 0) as [->|]; [done|]. apply Z.log2_lt_pow2; lia.
Qed.

(** ** Layout facts *)

(** The kernel stacks of distinct processes are disjoint, each is followed by
    an unmapped guard page, and all lie below the trap frame page. *)
Lemma KSTACK_disjoint p q :
  0 <= p < 64 -> 0 <= q < 64 -> p <> q ->
  KSTACK p + 2 * PGSIZE <= KSTACK q \/ KSTACK q + 2 * PGSIZE <= KSTACK p.
Proof. unfold KSTACK, PGSIZE. lia. Qed.

Lemma KSTACK_range p : 0 <= p < 64 -> PHYSTOP < KSTACK p /\ KSTACK p + PGSIZE <= TRAPFRAME.
Proof.
  unfold KSTACK, TRAPFRAME, TRAMPOLINE. change MAXVA with (2 ^ 38).
  change PHYSTOP with (2 ^ 31 + 2 ^ 27). unfold PGSIZE. lia.
Qed.

#[export] Hint Resolve PX_range : halo.

(** ** [fcntl.h] *)

Definition O_RDONLY : Z := 0x000.
Definition O_WRONLY : Z := 0x001.
Definition O_RDWR : Z := 0x002.
Definition O_CREATE : Z := 0x200.

(** ** Link addresses *)

(** Addresses the linker chooses; the first three by [os.ld]. *)
Class LinkMap := {
  l_end : Z;         (** first address after the kernel image *)
  l_etext : Z;       (** end of the text section *)
  l_trampoline : Z;  (** the page of [trampoline.S] *)
  l_uservec : Z;     (** [uservec], in that page *)
  l_userret : Z;     (** [userret], in that page *)
  l_kernelvec : Z;   (** [kernelvec.S] *)
  l_usertrap : Z;    (** [usertrap] of [trap.c] *)
  l_forkret : Z;     (** [forkret] of [proc.c] *)
  l_nums : Z         (** the array [nums] of [print.c] *)
}.

(** What [os.ld] guarantees of them. *)
Class LinkOk (L : LinkMap) : Prop := {
  l_end_range : KERNELBASE < l_end <= PHYSTOP;
  l_etext_range : KERNELBASE < l_etext <= l_end;
  l_etext_aligned : l_etext mod PGSIZE = 0;
  l_trampoline_page : l_trampoline mod PGSIZE = 0;
  l_trampoline_range : KERNELBASE <= l_trampoline < l_etext
}.

(** A concrete image, for evaluating the definitions. *)
Definition test_link : LinkMap := 
  Build_LinkMap 0x80010000 0x80008000 0x80007000 0x80007000 0x80007090 0x80005000 0x80001000 0x80002000 0x80009000.
Lemma test_link_ok : LinkOk test_link.
Proof. by split. Qed.
