(* ===== verification/Memory.v ===== *)
(** * Physical memory and [util.c]

    RAM is a finite map from physical addresses to bytes; an absent address
    holds 0.  The kernel runs with an identity mapping, so the C pointers the
    modelled code dereferences are these addresses.  The file gives loads and
    stores of bytes and 64-bit words, the loops of [memset] and [memmove], and
    the laws that relate them. *)

From S2P Require Import Prelude Layout.

Abbreviation memory := (gmap Z Z).

Definition load8 (m : memory) (a : Z) : Z := default 0 (m !! a).
Definition store8 (m : memory) (a v : Z) : memory := <[a := u8 v]> m.

(** Little-endian words. *)
Fixpoint le_dec (bs : list Z) : Z :=
  match bs with
  | [] => 0
  | b :: bs => b + 2 ^ 8 * le_dec bs
  end.
Fixpoint le_enc (n : nat) (v : Z) : list Z :=
  match n with
  | O => []
  | S n => u8 v :: le_enc n (v / 2 ^ 8)
  end.

Fixpoint load_bytes (m : memory) (a : Z) (n : nat) : list Z :=
  match n with
  | O => []
  | S n => load8 m a :: load_bytes m (a + 1) n
  end.
Fixpoint store_bytes (m : memory) (a : Z) (bs : list Z) : memory :=
  match bs with
  | [] => m
  | b :: bs => store_bytes (store8 m a b) (a + 1) bs
  end.

Definition load64 (m : memory) (a : Z) : Z := le_dec (load_bytes m a 8).
Definition store64 (m : memory) (a v : Z) : memory := store_bytes m a (le_enc 8 v).
Definition load32 (m : memory) (a : Z) : Z := le_dec (load_bytes m a 4).
Definition store32 (m : memory) (a v : Z) : memory := store_bytes m a (le_enc 4 v).

(** ** [util.c] on physical memory *)

(** [memset]: [for(i = 0; i < end; i++) upd[i] = val], the [int] [end] being [n]. *)
Fixpoint memset_loop (m : memory) (upd val i : Z) (n : nat) : memory :=
  match n with
  | O => m
  | S n => memset_loop (store8 m (upd + i) val) upd val (i + 1) n
  end.
Definition memset (m : memory) (target val n : Z) : memory :=
  memset_loop m target val 0 (Z.to_nat (i32 n)).

(** [memmove]: the two loops of the code, downwards when the source starts
    below the destination and reaches into it; [n] is a [uint]. *)
Fixpoint copy_down (m : memory) (d s : Z) (n : nat) : memory :=
  match n with
  | O => m
  | S n => copy_down (store8 m (d - 1) (load8 m (s - 1))) (d - 1) (s - 1) n
  end.
Fixpoint copy_up (m : memory) (d s : Z) (n : nat) : memory :=
  match n with
  | O => m
  | S n => copy_up (store8 m d (load8 m s)) (d + 1) (s + 1) n
  end.
Definition memmove (m : memory) (dst src n : Z) : memory :=
  let n := u32 n in
  if n =? 0 then m
  else if (src <? dst) && (dst <? src + n)
  then copy_down m (dst + n) (src + n) (Z.to_nat n)
  else copy_up m dst src (Z.to_nat n).

(** ** Bytes *)

(** Every byte of memory is in range. *)
Definition mem_wf (m : memory) : Prop := map_Forall (fun _ b => 0 <= b < 2 ^ 8) m.

Section memory.
  Implicit Types (m : memory) (a v : Z) (bs : list Z).

Lemma load8_store8 m a b v : load8 (store8 m a v) b = if decide (a = b) then u8 v else load8 m b.
Proof. unfold load8, store8. rewrite lookup_insert. by case_decide. Qed.

Lemma load8_range m a : mem_wf m -> 0 <= load8 m a < 2 ^ 8.
Proof. intros H. unfold load8. destruct (m !! a) eqn:E; simpl; [by eapply H|lia]. Qed.

Lemma mem_wf_store8 m a v : mem_wf m -> mem_wf (store8 m a v).
Proof. intros. apply map_Forall_insert_2; auto using u8_range. Qed.

Lemma mem_wf_empty : mem_wf ∅.
Proof. apply map_Forall_empty. Qed.

Lemma length_load_bytes m a n : length (load_bytes m a n) = n.
Proof. revert a. induction n; intros; simpl; auto. Qed.

Lemma lookup_load_bytes m a n i :
  (i < n)%nat -> load_bytes m a n !! i = Some (load8 m (a + Z.of_nat i)).
Proof.
  revert a i. induction n; intros a [|i] ?; simpl; try lia; [do 2 f_equal; lia|].
  rewrite IHn by lia. do 2 f_equal. lia.
Qed.

Lemma load_bytes_ext m m' a a' n :
  (forall i, 0 <= i < Z.of_nat n -> load8 m (a + i) = load8 m' (a' + i)) ->
  load_bytes m a n = load_bytes m' a' n.
Proof.
  revert a a'. induction n; intros a a' H; simpl; [done|]. f_equal.
  - specialize (H 0). rewrite !Z.add_0_r in H. apply H. lia.
  - apply IHn. intros i ?. rewrite <- !Z.add_assoc. apply H. lia.
Qed.

Lemma load8_store_bytes m a bs x :
  load8 (store_bytes m a bs) x =
    if decide (a <= x < a + Z.of_nat (length bs))
    then u8 (default 0 (bs !! Z.to_nat (x - a))) else load8 m x.
Proof.
  revert m a. induction bs as [|b bs IH]; intros m a; simpl.
  { case_decide; [lia|done]. }
  rewrite IH, load8_store8. case_decide as H1; case_decide as H2; try lia; try done.
  - replace (Z.to_nat (x - a)) with (S (Z.to_nat (x - (a + 1)))) by lia. done.
  - case_decide; [|lia]. replace (Z.to_nat (x - a)) with 0%nat by lia. done.
  - case_decide; [lia|done].
Qed.

Lemma mem_wf_store_bytes m a bs : mem_wf m -> mem_wf (store_bytes m a bs).
Proof. revert m a. induction bs; simpl; auto using mem_wf_store8. Qed.

(** ** Words *)

Lemma length_le_enc n v : length (le_enc n v) = n.
Proof. revert v. induction n; intros; simpl; auto. Qed.

Lemma le_enc_range n v : Forall (fun b => 0 <= b < 2 ^ 8) (le_enc n v).
Proof. revert v. induction n; intros; simpl; constructor; auto using u8_range. Qed.

Lemma le_dec_enc n v : le_dec (le_enc n v) = v mod 2 ^ (8 * Z.of_nat n).
Proof.
  revert v. induction n; intros v; cbn [le_enc le_dec]; [by rewrite Z.mod_1_r|].
  rewrite IHn. replace (8 * Z.of_nat (S n)) with (8 + 8 * Z.of_nat n) by lia.
  rewrite Z.pow_add_r by lia. by rewrite Z.rem_mul_r by lia.
Qed.

Lemma le_dec_range bs :
  Forall (fun b => 0 <= b < 2 ^ 8) bs -> 0 <= le_dec bs < 2 ^ (8 * Z.of_nat (length bs)).
Proof.
  induction 1 as [|b bs Hb _ IH]; cbn [le_dec length]; [lia|].
  replace (8 * Z.of_nat (S (length bs))) with (8 + 8 * Z.of_nat (length bs)) by lia.
  rewrite Z.pow_add_r by lia. nia.
Qed.

Lemma load64_range m a : mem_wf m -> 0 <= load64 m a < 2 ^ 64.
Proof.
  intros. apply (le_dec_range (load_bytes m a 8)).
  simpl. repeat constructor; by apply load8_range.
Qed.

Lemma load64_ext m m' a :
  (forall x, a <= x < a + 8 -> load8 m x = load8 m' x) -> load64 m a = load64 m' a.
Proof. intros H. unfold load64. f_equal. apply load_bytes_ext. intros. apply H. lia. Qed.

Lemma load_store_le m a n v :
  le_dec (load_bytes (store_bytes m a (le_enc n v)) a n) = v mod 2 ^ (8 * Z.of_nat n).
Proof.
  rewrite <- le_dec_enc. f_equal. apply list_eq. intros i. destruct (decide (i < n)%nat).
  - rewrite lookup_load_bytes by done. rewrite load8_store_bytes, length_le_enc.
    rewrite decide_True by lia. replace (Z.to_nat _) with i by lia.
    destruct (lookup_lt_is_Some_2 (le_enc n v) i) as [b Hb]; [by rewrite length_le_enc|].
    rewrite Hb. simpl. f_equal. apply u8_id.
    exact (Forall_lookup_1 _ _ _ _ (le_enc_range n v) Hb).
  - rewrite !lookup_ge_None_2; rewrite ?length_le_enc, ?length_load_bytes; lia || done.
Qed.

Lemma load64_store64_same m a v : 0 <= v < 2 ^ 64 -> load64 (store64 m a v) a = v.
Proof. intros. unfold load64, store64. rewrite load_store_le. by apply Z.mod_small. Qed.

Lemma load32_store32_same m a v : 0 <= v < 2 ^ 32 -> load32 (store32 m a v) a = v.
Proof. intros. unfold load32, store32. rewrite load_store_le. by apply Z.mod_small. Qed.

Lemma load32_ext m m' a :
  (forall x, a <= x < a + 4 -> load8 m x = load8 m' x) -> load32 m a = load32 m' a.
Proof. intros H. unfold load32. f_equal. apply load_bytes_ext. intros. apply H. lia. Qed.

Lemma load8_store32_other m a v x : (x < a \/ a + 4 <= x) -> load8 (store32 m a v) x = load8 m x.
Proof.
  intros. unfold store32. rewrite load8_store_bytes, length_le_enc. case_decide; [lia|done].
Qed.

Lemma load8_store64_other m a v x : (x < a \/ a + 8 <= x) -> load8 (store64 m a v) x = load8 m x.
Proof.
  intros. unfold store64. rewrite load8_store_bytes, length_le_enc. case_decide; [lia|done].
Qed.

Lemma load8_store64_zero m a x : load8 (store64 m a 0) x = if decide (a <= x < a + 8) then 0 else load8 m x.
Proof.
  unfold store64. rewrite load8_store_bytes, length_le_enc. change (Z.of_nat 8) with 8. case_decide as H; [|done].
  assert (exists k, (k < 8)%nat /\ Z.to_nat (x - a) = k) as (k & Hk & ->) by (exists (Z.to_nat (x - a)); lia).
  by do 8 (destruct k as [|k]; [reflexivity|]).
Qed.

Lemma load64_store64_other m a v b :
  (b + 8 <= a \/ a + 8 <= b) -> load64 (store64 m a v) b = load64 m b.
Proof. intros. apply load64_ext. intros. apply load8_store64_other. lia. Qed.

Lemma mem_wf_store64 m a v : mem_wf m -> mem_wf (store64 m a v).
Proof. apply mem_wf_store_bytes. Qed.

(** ** [memset] *)

Lemma load8_memset_loop m upd val i n x :
  load8 (memset_loop m upd val i n) x =
    if decide (upd + i <= x < upd + i + Z.of_nat n) then u8 val else load8 m x.
Proof.
  revert m i. induction n as [|n IH]; intros m i; simpl; [case_decide; [lia|done]|].
  rewrite IH, load8_store8. repeat case_decide; try lia; done.
Qed.

Lemma load8_memset m a val n x :
  0 <= n < 2 ^ 31 ->
  load8 (memset m a val n) x = if decide (a <= x < a + n) then u8 val else load8 m x.
Proof.
  intros. unfold memset. rewrite i32_id by lia. rewrite load8_memset_loop. repeat case_decide; try lia; done.
Qed.

Lemma mem_wf_memset m a val n : mem_wf m -> mem_wf (memset m a val n).
Proof.
  unfold memset. generalize 0. generalize (Z.to_nat (i32 n)). intros k. revert m.
  induction k; simpl; auto using mem_wf_store8.
Qed.

Lemma load64_memset_other m a val n b :
  0 <= n < 2 ^ 31 -> (b + 8 <= a \/ a + n <= b) -> load64 (memset m a val n) b = load64 m b.
Proof.
  intros. apply load64_ext. intros. rewrite load8_memset by done. case_decide; [lia|done].
Qed.

Lemma load64_memset_zero m a n b :
  0 <= n < 2 ^ 31 -> a <= b /\ b + 8 <= a + n -> load64 (memset m a 0 n) b = 0.
Proof.
  intros. transitivity (load64 ∅ b); [|done]. apply load64_ext. intros.
  rewrite load8_memset by done. case_decide; [done|lia].
Qed.

(** ** [memmove] *)

Lemma load8_copy_up m d s n x :
  mem_wf m -> (d <= s \/ s + Z.of_nat n <= d) ->
  load8 (copy_up m d s n) x =
    if decide (d <= x < d + Z.of_nat n) then load8 m (x - d + s) else load8 m x.
Proof.
  revert m d s. induction n as [|n IH]; intros m d s Hm H; simpl.
  { case_decide; [lia|done]. }
  rewrite IH by (auto using mem_wf_store8; lia). rewrite !load8_store8.
  rewrite u8_id by by apply load8_range.
  repeat case_decide; try lia; try done; f_equal; lia.
Qed.

Lemma load8_copy_down m d s n x :
  mem_wf m -> s <= d ->
  load8 (copy_down m d s n) x =
    if decide (d - Z.of_nat n <= x < d) then load8 m (x - d + s) else load8 m x.
Proof.
  revert m d s. induction n as [|n IH]; intros m d s Hm H; simpl.
  { case_decide; [lia|done]. }
  rewrite IH by (auto using mem_wf_store8; lia). rewrite !load8_store8.
  rewrite u8_id by by apply load8_range.
  repeat case_decide; try lia; try done; f_equal; lia.
Qed.

Lemma load8_memmove m d s n x :
  mem_wf m -> 0 <= n < 2 ^ 32 ->
  load8 (memmove m d s n) x =
    if decide (d <= x < d + n) then load8 m (x - d + s) else load8 m x.
Proof.
  intros Hm Hn. unfold memmove. rewrite u32_id by done. cbv zeta. case_bool; [subst; case_decide; [lia|done]|].
  destruct (Z.ltb_spec s d), (Z.ltb_spec d (s + n)); simpl;
    [rewrite load8_copy_down by (done || lia)|rewrite load8_copy_up by (done || lia)..];
    repeat case_decide; try lia; try done; f_equal; lia.
Qed.

Lemma mem_wf_memmove m d s n : mem_wf m -> mem_wf (memmove m d s n).
Proof.
  assert (forall k m d s, mem_wf m -> mem_wf (copy_up m d s k)) as Hu.
  { induction k; simpl; auto using mem_wf_store8. }
  assert (forall k m d s, mem_wf m -> mem_wf (copy_down m d s k)) as Hd.
  { induction k; simpl; auto using mem_wf_store8. }
  intros. unfold memmove. repeat case_match; auto.
Qed.

Lemma load64_empty a : load64 ∅ a = 0.
Proof.
  unfold load64. simpl load_bytes. unfold load8. by rewrite !lookup_empty.
Qed.
End memory.

#[export] Hint Resolve mem_wf_empty mem_wf_store8 mem_wf_store64 mem_wf_store_bytes
  mem_wf_memset mem_wf_memmove load64_range load8_range : halo.

(** Unification must not evaluate page-sized loops; [vm_compute] still does. *)
#[global] Opaque memset memmove load64 store64 load32 store32 load_bytes store_bytes.
