(* ===== verification/CString.v ===== *)
(** * C strings: [util.c], [safestrcpy] of [spaceswap.c], and [user/ulib.c]

    A [char *] is an accessor [nat -> Z], the bytes from the pointer on
    ([char] is unsigned on RISC-V).  A function that stores through a pointer
    returns the bytes it stores from there on.  Loops over strings take fuel;
    the theorems show how much is enough. *)

From S2P Require Import Prelude Memory.

Definition chars := nat -> Z.

(** The string constant or array [l]; reading past it finds 0. *)
Definition of_list (l : list Z) : chars := fun i => nth i l 0.
(** [p + n]. *)
Definition shift (n : nat) (p : chars) : chars := fun i => p (n + i)%nat.

(** ** [util.c] *)

Fixpoint strncmp (n : nat) (p q : chars) : Z :=
  match n with
  | O => 0
  | S n' =>
      if negb (p 0%nat =? 0) && (p 0%nat =? q 0%nat)
      then strncmp n' (shift 1 p) (shift 1 q)
      else u8 (p 0%nat) - u8 (q 0%nat)
  end.

(** [None] when no terminator is met within the fuel. *)
Fixpoint strlen_loop (fuel : nat) (s : chars) (n : nat) : option nat :=
  match fuel with
  | O => None
  | S fuel => if s n =? 0 then Some n else strlen_loop fuel s (S n)
  end.
Definition strlen (fuel : nat) (s : chars) : option nat := strlen_loop fuel s 0.

(** [while(n-- > 0 && ( *s++ = *t++) != 0)]: the bytes stored and the number of
    rounds left for the second loop. *)
Fixpoint strncpy_copy (n : nat) (t : chars) : list Z * nat :=
  match n with
  | O => ([], O)
  | S n =>
      if t 0%nat =? 0 then ([0], n)
      else let '(l, r) := strncpy_copy n (shift 1 t) in (t 0%nat :: l, r)
  end.
Definition strncpy (t : chars) (n : Z) : list Z :=
  let '(l, r) := strncpy_copy (Z.to_nat n) t in l ++ replicate r 0.

(** ** [safestrcpy]: like [strncpy], always terminated, no padding *)

Fixpoint safestrcpy_loop (n : nat) (t : chars) : list Z :=
  match n with
  | O => [0]
  | S n => if t 0%nat =? 0 then [0; 0] else t 0%nat :: safestrcpy_loop n (shift 1 t)
  end.
Definition safestrcpy (t : chars) (n : Z) : list Z :=
  if n <=? 0 then [] else safestrcpy_loop (Z.to_nat (n - 1)) t.

(** ** [user/ulib.c] *)

Fixpoint strcmp (fuel : nat) (p q : chars) : option Z :=
  match fuel with
  | O => None
  | S fuel =>
      if negb (p 0%nat =? 0) && (p 0%nat =? q 0%nat)
      then strcmp fuel (shift 1 p) (shift 1 q)
      else Some (u8 (p 0%nat) - u8 (q 0%nat))
  end.

Fixpoint memcmp (n : nat) (p q : chars) : Z :=
  match n with
  | O => 0
  | S n =>
      if negb (p 0%nat =? q 0%nat) then p 0%nat - q 0%nat
      else memcmp n (shift 1 p) (shift 1 q)
  end.

(** The index of the character found; [Some None] is the null pointer. *)
Fixpoint strchr_loop (fuel : nat) (s : chars) (c : Z) (i : nat) : option (option nat) :=
  match fuel with
  | O => None
  | S fuel =>
      if s i =? 0 then Some None
      else if s i =? c then Some (Some i) else strchr_loop fuel s c (S i)
  end.
Definition strchr (fuel : nat) (s : chars) (c : Z) : option (option nat) := strchr_loop fuel s c 0.

Fixpoint strcpy (fuel : nat) (t : chars) : option (list Z) :=
  match fuel with
  | O => None
  | S fuel => if t 0%nat =? 0 then Some [0] else cons (t 0%nat) <$> strcpy fuel (shift 1 t)
  end.

(** The bound is a [uint], unlike the kernel's. *)
Definition ulib_memset (m : memory) (dest c sz : Z) : memory := memset_loop m dest c 0 (Z.to_nat (u32 sz)).
(** [n] is an [int]: a negative one copies nothing.  [memcpy]'s is a [uint]. *)
Definition ulib_memmove (m : memory) (vdst vsrc n : Z) : memory :=
  let n := i32 n in
  if vdst <? vsrc then copy_up m vdst vsrc (Z.to_nat n) else copy_down m (vdst + n) (vsrc + n) (Z.to_nat n).
Definition ulib_memcpy (m : memory) (dst src n : Z) : memory := ulib_memmove m dst src (u32 n).

Definition digit0 : Z := 48.
Fixpoint atoi_loop (fuel : nat) (s : chars) (n : Z) : option Z :=
  match fuel with
  | O => None
  | S fuel =>
      if (digit0 <=? s 0%nat) && (s 0%nat <=? 57)
      then atoi_loop fuel (shift 1 s) (i32 (n * 10 + s 0%nat - digit0))
      else Some n
  end.
Definition atoi (fuel : nat) (s : chars) : option Z := atoi_loop fuel s 0.

(** ** Specifications *)

(** The at most [n] bytes of a string before its terminator. *)
Fixpoint cprefix (n : nat) (p : chars) : list Z :=
  match n with
  | O => []
  | S n => if p 0%nat =? 0 then [] else p 0%nat :: cprefix n (shift 1 p)
  end.

(** [s] is terminated at [k]. *)
Definition strlen_is (s : chars) (k : nat) : Prop :=
  s k = 0 /\ forall i, (i < k)%nat -> s i <> 0.

Section cstring.
  Implicit Types p q t : chars.

Definition bytes p : Prop := forall i, 0 <= p i < 2 ^ 8.

Lemma bytes_shift k p : bytes p -> bytes (shift k p).
Proof. intros H i. apply H. Qed.

Lemma of_list_bytes l : Forall (fun b => 0 <= b < 2 ^ 8) l -> bytes (of_list l).
Proof.
  intros H i. unfold of_list. destruct (decide (i < length l)%nat).
  - apply (proj1 (Forall_forall _ _) H), list_elem_of_In, nth_In. done.
  - rewrite nth_overflow by lia. lia.
Qed.

Lemma cprefix_bytes n p : bytes p -> Forall (fun b => 0 <= b < 2 ^ 8) (cprefix n p).
Proof.
  revert p. induction n as [|n IH]; intros p Hp; cbn [cprefix]; [done|]. case_bool; [done|].
  constructor; [apply Hp|]. by apply IH, bytes_shift.
Qed.

Lemma strncmp_zero n p q :
  bytes p -> bytes q -> strncmp n p q = 0 <-> cprefix n p = cprefix n q.
Proof.
  revert p q. induction n as [|n IH]; intros p q Hp Hq; [done|]. cbn [strncmp cprefix].
  rewrite !u8_id by auto.
  destruct (Z.eqb_spec (p 0%nat) 0) as [Ep|Ep]; cbn [negb andb].
  - destruct (Z.eqb_spec (q 0%nat) 0); split; intros; done || lia.
  - destruct (Z.eqb_spec (p 0%nat) (q 0%nat)) as [E|E].
    + rewrite IH by by apply bytes_shift. rewrite <- E.
      destruct (Z.eqb_spec (p 0%nat) 0); [done|]. split; [by intros ->|by intros [= ->]].
    + destruct (Z.eqb_spec (q 0%nat) 0); split; intros H; try done; try lia. by injection H.
Qed.

(** The sign of [strncmp] is the lexicographic order of the prefixes. *)
Lemma strncmp_first n p q k :
  bytes p -> bytes q -> (k < n)%nat ->
  (forall i, (i < k)%nat -> p i = q i /\ p i <> 0) -> p k <> q k ->
  strncmp n p q = p k - q k.
Proof.
  revert n p q. induction k as [|k IH]; intros [|n] p q Hp Hq Hk Hi Hne; try lia; cbn [strncmp].
  - destruct (Z.eqb_spec (p 0%nat) (q 0%nat)); [done|].
    by rewrite andb_false_r, !u8_id by auto.
  - destruct (Hi 0%nat) as [E0 Hz]; [lia|].
    destruct (Z.eqb_spec (p 0%nat) 0); [done|]. destruct (Z.eqb_spec (p 0%nat) (q 0%nat)); [|done].
    cbn [negb andb]. apply (IH n (shift 1 p) (shift 1 q)); auto using bytes_shift with lia.
    intros i Hik. apply (Hi (S i)). lia.
Qed.

Lemma strncpy_copy_eq n t :
  strncpy_copy n t =
    let l := cprefix n t in
    if decide (length l < n)%nat then (l ++ [0], (n - length l - 1)%nat) else (l, O).
Proof.
  revert t. induction n as [|n IH]; intros t; [done|]. cbn [strncpy_copy cprefix].
  destruct (Z.eqb_spec (t 0%nat) 0).
  - cbv zeta. rewrite decide_True by (simpl; lia). simpl. f_equal. lia.
  - rewrite IH. cbv zeta. cbn [length].
    repeat case_decide; try lia; done.
Qed.

Lemma length_cprefix n t : (length (cprefix n t) <= n)%nat.
Proof. revert t. induction n; intros; cbn; [lia|]. case_match; cbn; [lia|]. by apply le_n_S. Qed.

(** [strncpy] stores the prefix and pads it with zeros to [n] bytes. *)
Lemma strncpy_eq t (n : nat) :
  strncpy t (Z.of_nat n) = cprefix n t ++ replicate (n - length (cprefix n t)) 0.
Proof.
  unfold strncpy. rewrite Nat2Z.id, strncpy_copy_eq. cbv zeta.
  pose proof (length_cprefix n t). case_decide.
  - rewrite <- app_assoc. f_equal.
    destruct (n - length (cprefix n t))%nat as [|k] eqn:E; [lia|]. cbn. by rewrite Nat.sub_0_r.
  - replace (n - length (cprefix n t))%nat with O by lia. done.
Qed.

Lemma cprefix_ext n p q : (forall i, (i < n)%nat -> p i = q i) -> cprefix n p = cprefix n q.
Proof.
  revert p q. induction n as [|n IH]; intros p q H; [done|]. cbn. rewrite (H 0%nat) by lia.
  case_match; [done|]. f_equal. apply IH. intros. apply (H (S i)). lia.
Qed.

Lemma cprefix_nonzero n t : Forall (fun b => b <> 0) (cprefix n t).
Proof.
  revert t. induction n; intros; cbn; [done|]. destruct (Z.eqb_spec (t 0%nat) 0); [done|].
  by constructor.
Qed.

(** A nonzero list followed by a zero, or cut at [n], reads back. *)
Lemma cprefix_of_list n l r :
  Forall (fun b => b <> 0) l -> (length l <= n)%nat -> (length l = n \/ nth 0 r 0 = 0) ->
  cprefix n (of_list (l ++ r)) = l.
Proof.
  revert n. induction l as [|b l IH]; intros [|n] Hl Hn Hr; try done; simpl in Hn; try lia.
  - destruct Hr as [|Hr]; [done|]. cbn. unfold of_list. simpl. by rewrite Hr.
  - apply Forall_cons in Hl as [Hb Hl]. cbn [cprefix]. unfold of_list at 1. cbn [app nth].
    destruct (Z.eqb_spec b 0); [done|]. f_equal. apply IH; [done|lia|].
    destruct Hr; [left; simpl in *; lia|by right].
Qed.

Lemma cprefix_strncpy t (n : nat) : cprefix n (of_list (strncpy t (Z.of_nat n))) = cprefix n t.
Proof.
  rewrite strncpy_eq. apply cprefix_of_list; auto using cprefix_nonzero, length_cprefix.
  pose proof (length_cprefix n t).
  destruct (n - length (cprefix n t))%nat eqn:E; [left; lia|by right].
Qed.

Lemma length_strncpy t (n : nat) : length (strncpy t (Z.of_nat n)) = n.
Proof.
  rewrite strncpy_eq, length_app, length_replicate. pose proof (length_cprefix n t). lia.
Qed.

Lemma safestrcpy_loop_eq n t :
  safestrcpy_loop n t =
    cprefix n t ++ (if decide (length (cprefix n t) < n)%nat then [0; 0] else [0]).
Proof.
  revert t. induction n as [|n IH]; intros t; [done|]. cbn [safestrcpy_loop cprefix].
  destruct (Z.eqb_spec (t 0%nat) 0); [done|]. rewrite IH. cbn [app length].
  repeat case_decide; done || lia.
Qed.

(** [safestrcpy] stores at most [n] bytes, always terminated. *)
Lemma safestrcpy_spec t n :
  0 < n ->
  Z.of_nat (length (safestrcpy t n)) <= n /\
  cprefix (Z.to_nat n) (of_list (safestrcpy t n)) = cprefix (Z.to_nat (n - 1)) t /\
  last (safestrcpy t n) = Some 0.
Proof.
  intros Hn. unfold safestrcpy. destruct (Z.leb_spec n 0); [lia|].
  rewrite safestrcpy_loop_eq. set (k := Z.to_nat (n - 1)). set (l := cprefix k t).
  assert (length l <= k)%nat by apply length_cprefix.
  assert (Forall (fun b => b <> 0) l) by apply cprefix_nonzero.
  repeat split.
  - rewrite length_app. case_decide; cbn [length]; lia.
  - apply cprefix_of_list; [done|lia|]. right. by case_decide.
  - rewrite last_app. by case_decide.
Qed.

Lemma strlen_loop_spec fuel s n k :
  (n <= k)%nat -> (k - n < fuel)%nat -> s k = 0 -> (forall i, (n <= i < k)%nat -> s i <> 0) ->
  strlen_loop fuel s n = Some k.
Proof.
  revert n. induction fuel as [|fuel IH]; intros n Hn Hf Hk Hi; [lia|]. cbn.
  destruct (Z.eqb_spec (s n) 0) as [E|E].
  - f_equal. destruct (decide (n = k)); [done|]. exfalso. apply (Hi n); [lia|done].
  - apply IH; try done.
    + destruct (decide (n = k)); [by subst|lia].
    + destruct (decide (n = k)); [by subst|lia].
    + intros. apply Hi. lia.
Qed.

Lemma strlen_spec fuel s k : strlen_is s k -> (k < fuel)%nat -> strlen fuel s = Some k.
Proof. intros [Hk Hi] Hf. apply strlen_loop_spec; [lia|lia|done|]. intros. apply Hi. lia. Qed.
End cstring.
