(* ===== verification/Umem.v ===== *)
(** * The user allocator, [umem.c]

    The storage allocator of user programs: a circular list of free blocks in
    address order, whose headers lie in the heap itself, searched from the place
    of the last operation and grown with [sbrk].  A program's memory is a map
    from its virtual addresses to bytes; a [Header] is sixteen bytes, the
    pointer [s.ptr] at offset 0 and the [uint] [s.size] at offset 8, and pointer
    arithmetic on headers counts in units of sixteen.  The address of the static
    header [base] is the linker's; [sbrk] is a system call and a parameter. *)

From S2P Require Import Prelude Memory.

(** The program's memory, [freep] and its break. *)
Record uheap := mkUheap { u_mem : memory; u_freep : Z; u_brk : Z }.
Definition set_u_mem (x : memory) (s : uheap) : uheap := mkUheap x (u_freep s) (u_brk s).
Definition set_u_freep (x : Z) (s : uheap) : uheap := mkUheap (u_mem s) x (u_brk s).
Definition set_u_brk (x : Z) (s : uheap) : uheap := mkUheap (u_mem s) (u_freep s) x.

Abbreviation U := (prog uheap).

Class UserEnv := { l_base : Z; sbrk : Z -> U Z }.

(** [sizeof(Header)], and the pointer -1. *)
Definition HDR : Z := 16.
Definition SBRK_FAILED : Z := 2 ^ 64 - 1.

(** [p->s.ptr], [p->s.size] and the assignments to them. *)
Definition h_ptr (m : memory) (p : Z) : Z := load64 m p.
Definition h_size (m : memory) (p : Z) : Z := load32 m (p + 8).
Definition put_ptr (p v : Z) : U unit := modify (fun s => set_u_mem (store64 (u_mem s) p v) s).
Definition put_size (p v : Z) : U unit := modify (fun s => set_u_mem (store32 (u_mem s) (p + 8) (u32 v)) s).
Definition get_ptr (p : Z) : U Z := gets (fun s => h_ptr (u_mem s) p).
Definition get_size (p : Z) : U Z := gets (fun s => h_size (u_mem s) p).

(** [p + n] on headers. *)
Definition hdr_add (p n : Z) : Z := u64 (p + HDR * n).

(** More steps than the ring can have members: each covers a header below the
    break. *)
Definition ring_fuel (s : uheap) : nat := S (Z.to_nat (u_brk s / HDR)).

(** The search of [free] for the place of [bp]: between two members of the
    ring, or at the end where the addresses wrap. *)
Definition free_here (m : memory) (bp p : Z) : bool :=
  let nx := h_ptr m p in
  ((p <? bp) && (bp <? nx)) || ((nx <=? p) && ((p <? bp) || (bp <? nx))).
Fixpoint free_search (fuel : nat) (m : memory) (bp p : Z) : option Z :=
  match fuel with
  | O => None
  | S fuel => if free_here m bp p then Some p else free_search fuel m bp (h_ptr m p)
  end.

Section umem.
  Context {E : UserEnv}.

(** Join the block [bp] to its upper neighbour, and [p] to [bp]. *)
Definition join_upper (bp p : Z) : U unit :=
  bsz ← get_size bp;
  nx ← get_ptr p;
  if hdr_add bp bsz =? nx then
    nsz ← get_size nx;
    put_size bp (bsz + nsz);;
    nnx ← get_ptr nx;
    put_ptr bp nnx
  else put_ptr bp nx.
Definition join_lower (bp p : Z) : U unit :=
  psz ← get_size p;
  if hdr_add p psz =? bp then
    bsz ← get_size bp;
    put_size p (psz + bsz);;
    bnx ← get_ptr bp;
    put_ptr p bnx
  else put_ptr p bp.

Definition free (ap : Z) : U unit :=
  let bp := u64 (ap - HDR) in
  p ← (s ← gets id;
       match free_search (ring_fuel s) (u_mem s) bp (u_freep s) with Some p => mret p | None => block end);
  join_upper bp p;;
  join_lower bp p;;
  modify (set_u_freep p).

(** [nu * sizeof(Header)] is computed in 64 bits and passed as an [int]. *)
Definition morecore (nu : Z) : U Z :=
  let nu := if nu <? 4096 then 4096 else nu in
  p ← sbrk (i32 (nu * HDR));
  if p =? SBRK_FAILED then mret 0 else
  let hp := p in
  put_size hp nu;;
  free (hdr_add hp 1);;
  gets u_freep.

(** The block [p], large enough, with [prevp] before it: all of it, or its end. *)
Definition carve (nunits prevp p : Z) : U Z :=
  size ← get_size p;
  p ← (if size =? nunits then
         nx ← get_ptr p;
         put_ptr prevp nx;;
         mret p
       else
         put_size p (size - nunits);;
         size ← get_size p;
         let p := hdr_add p size in
         put_size p nunits;;
         mret p);
  modify (set_u_freep prevp);;
  mret (hdr_add p 1).

(** The search of [malloc]; it goes round the ring at most twice, before and
    after [morecore]. *)
Fixpoint malloc_loop (fuel : nat) (nunits prevp p : Z) : U Z :=
  match fuel with
  | O => block
  | S fuel =>
      size ← get_size p;
      if nunits <=? size then carve nunits prevp p else
      fp ← gets u_freep;
      if p =? fp then
        p ← morecore nunits;
        if p =? 0 then mret 0 else
        nx ← get_ptr p;
        malloc_loop fuel nunits p nx
      else
        nx ← get_ptr p;
        malloc_loop fuel nunits p nx
  end.

Definition units (nbytes : Z) : Z := u32 ((nbytes + HDR - 1) / HDR + 1).

Definition malloc (nbytes : Z) : U Z :=
  let nunits := units nbytes in
  fp ← gets u_freep;
  prevp ← (if fp =? 0 then
             modify (set_u_freep l_base);;
             put_ptr l_base l_base;;
             put_size l_base 0;;
             mret l_base
           else mret fp);
  p ← get_ptr prevp;
  s ← gets id;
  malloc_loop (2 * ring_fuel s + 2) nunits prevp p.
End umem.

(** A system that grants memory up to a limit, as [sbrk] is documented. *)
Definition bounded_sbrk (limit n : Z) : U Z := fun s =>
  if (u_brk s + n <? 0) || (limit <? u_brk s + n) then Ok SBRK_FAILED s
  else Ok (u_brk s) (set_u_brk (u_brk s + n) s).

(** What [sbrk] promises to the allocator for a positive increment: it fails and
    changes nothing, or returns the old break, with the break moved and the
    memory below it kept.  A break is at most 4 GiB, as the kernel's [uint sz]. *)
Definition USER_TOP : Z := 2 ^ 32.
Class SbrkOk (E : UserEnv) : Prop := {
  sbrk_law n s :
    0 < n < 2 ^ 31 -> 0 <= u_brk s <= USER_TOP ->
    sbrk n s = Ok SBRK_FAILED s \/
    exists m', sbrk n s = Ok (u_brk s) (set_u_brk (u_brk s + n) (set_u_mem m' s)) /\
      u_brk s + n <= USER_TOP /\ forall x, x < u_brk s -> load8 m' x = load8 (u_mem s) x
}.

Lemma bounded_sbrk_ok base limit :
  limit <= USER_TOP -> SbrkOk {| l_base := base; sbrk := bounded_sbrk limit |}.
Proof.
  intros Hl. constructor. intros n s Hn Hs. cbn. unfold bounded_sbrk.
  destruct (Z.ltb_spec (u_brk s + n) 0); [lia|]. destruct (Z.ltb_spec limit (u_brk s + n)); cbn; [by left|right].
  exists (u_mem s). split; [by destruct s|]. split; [lia|done].
Qed.
