(* ===== verification/UmemProps.v ===== *)
(** * The heap of [umem.c] as a tiling by segments

    Between its first address and the break the heap is a sequence of segments,
    allocated or free; each starts with its header, and the free ones are linked
    with [base] into a ring.  The file states that representation and shows what
    [free], [morecore] and [malloc] do to it. *)

From stdpp Require Import sorting.
From S2P Require Import Prelude Memory Umem.

(** ** Headers in memory *)

Definition apart (a b : Z) : Prop := a + HDR <= b \/ b + HDR <= a.

(** [m'] is [m] but for the headers at [l]. *)
Definition only_headers (l : list Z) (m m' : memory) : Prop :=
  forall x, Forall (fun a => x < a \/ a + HDR <= x) l -> load8 m' x = load8 m x.

Section headers.
  Implicit Types (m : memory) (a b v : Z).

Lemma h_ptr_put_ptr m a v : 0 <= v < 2 ^ 64 -> h_ptr (store64 m a v) a = v.
Proof. apply load64_store64_same. Qed.
Lemma h_size_put_size m a v : 0 <= v < 2 ^ 32 -> h_size (store32 m (a + 8) v) a = v.
Proof. apply load32_store32_same. Qed.
Lemma h_size_put_ptr m a b v : a = b \/ apart a b -> h_size (store64 m a v) b = h_size m b.
Proof. unfold apart, HDR. intros. apply load32_ext. intros. apply load8_store64_other. lia. Qed.
Lemma h_ptr_put_size m a b v : a = b \/ apart a b -> h_ptr (store32 m (a + 8) v) b = h_ptr m b.
Proof. unfold apart, HDR. intros. apply load64_ext. intros. apply load8_store32_other. lia. Qed.
Lemma h_ptr_put_ptr_ne m a b v : apart a b -> h_ptr (store64 m a v) b = h_ptr m b.
Proof. unfold apart, HDR. intros. apply load64_ext. intros. apply load8_store64_other. lia. Qed.
Lemma h_size_put_size_ne m a b v : apart a b -> h_size (store32 m (a + 8) v) b = h_size m b.
Proof. unfold apart, HDR. intros. apply load32_ext. intros. apply load8_store32_other. lia. Qed.

Lemma apart_sym a b : apart a b -> apart b a.
Proof. unfold apart. lia. Qed.

Lemma only_headers_refl l m : only_headers l m m.
Proof. by intros x _. Qed.
Lemma only_headers_trans l m1 m2 m3 :
  only_headers l m1 m2 -> only_headers l m2 m3 -> only_headers l m1 m3.
Proof. intros H1 H2 x Hx. by rewrite H2, H1. Qed.
Lemma only_headers_weaken l l' m m' : l ⊆ l' -> only_headers l m m' -> only_headers l' m m'.
Proof.
  intros Hl H x Hx. apply H. apply Forall_forall. intros a Ha.
  exact (proj1 (Forall_forall _ _) Hx a (Hl a Ha)).
Qed.
Lemma only_headers_put_ptr l m a v : a ∈ l -> only_headers l m (store64 m a v).
Proof.
  intros Ha x Hx. pose proof (proj1 (Forall_forall _ _) Hx a Ha). unfold HDR in *.
  apply load8_store64_other. lia.
Qed.
Lemma only_headers_put_size l m a v : a ∈ l -> only_headers l m (store32 m (a + 8) v).
Proof.
  intros Ha x Hx. pose proof (proj1 (Forall_forall _ _) Hx a Ha). unfold HDR in *.
  apply load8_store32_other. lia.
Qed.

Lemma only_headers_apart l m m' b :
  only_headers l m m' -> Forall (fun a => apart a b) l -> h_ptr m' b = h_ptr m b /\ h_size m' b = h_size m b.
Proof.
  intros H Hb. split; [apply load64_ext|apply load32_ext]; intros x Hx; apply H;
    (eapply Forall_impl; [exact Hb|]); unfold apart, HDR; cbn; lia.
Qed.
End headers.

#[export] Hint Resolve only_headers_put_ptr only_headers_put_size only_headers_refl : halo.

(** ** Rings of headers *)

(** Following [s.ptr] from [x] passes the headers [l] and arrives at [y]. *)
Fixpoint lseg (m : memory) (x : Z) (l : list Z) (y : Z) : Prop :=
  match l with
  | [] => x = y
  | a :: l => x = a /\ lseg m (h_ptr m a) l y
  end.

Section lseg.
  Implicit Types (m : memory) (l : list Z) (x y : Z).

Lemma lseg_app m x l1 l2 y :
  lseg m x (l1 ++ l2) y <-> exists z, lseg m x l1 z /\ lseg m z l2 y.
Proof.
  revert x. induction l1 as [|a l1 IH]; intros x; cbn.
  - split; [eauto|]. by intros (z & -> & ?).
  - rewrite IH. naive_solver.
Qed.

Lemma lseg_ext m m' x l y :
  (forall a, a ∈ l -> h_ptr m' a = h_ptr m a) -> lseg m x l y -> lseg m' x l y.
Proof.
  revert x. induction l as [|a l IH]; intros x H; cbn; [done|]. intros [-> Hl].
  split; [done|]. rewrite H by by left. apply IH; [|done]. intros b Hb. apply H. by right.
Qed.

(** The member after [a] of a ring. *)
Lemma lseg_next m x l1 a l2 : lseg m x (l1 ++ a :: l2) x -> h_ptr m a = default x (head l2).
Proof.
  intros (z & _ & -> & H)%lseg_app. destruct l2 as [|b l2]; cbn in *; [done|]. by destruct H.
Qed.

(** From any member to any member of a ring. *)
Lemma ring_path m x N q p :
  lseg m x N x -> NoDup N -> q ∈ N -> p ∈ N ->
  exists l, lseg m q l p /\ l ⊆ N /\ (p ∉ l) /\ (length l < length N)%nat.
Proof.
  intros HN Hd Hq Hp. destruct (decide (q = p)) as [->|Hne].
  { exists []. split; [done|]. split; [apply list_subseteq_nil|]. split; [apply not_elem_of_nil|].
    destruct N; [by apply elem_of_nil in Hp|cbn; lia]. }
  apply list_elem_of_split in Hq as (A & B & ->).
  apply lseg_app in HN as (z & HA & -> & HB).
  apply elem_of_app in Hp as [Hp|Hp].
  - apply list_elem_of_split in Hp as (A1 & A2 & ->). apply lseg_app in HA as (z & HA1 & -> & HA2).
    exists ((q :: B) ++ A1). split.
    { apply lseg_app. by exists x. }
    split; [intros a; set_solver|]. rewrite !NoDup_app, NoDup_cons in Hd. split; [set_solver|].
    repeat (rewrite length_app || cbn). lia.
  - apply elem_of_cons in Hp as [->|Hp]; [done|].
    apply list_elem_of_split in Hp as (B1 & B2 & ->).
    change (q :: B1 ++ p :: B2) with ((q :: B1) ++ p :: B2) in *.
    exists (q :: B1). split.
    { apply lseg_app in HB as (w & HB & -> & _). done. }
    split; [intros a; set_solver|]. rewrite !NoDup_app, !NoDup_cons in Hd. split; [set_solver|].
    repeat (rewrite length_app || cbn). lia.
Qed.

Lemma free_search_path fuel m bp q l p :
  lseg m q l p -> (forall a, a ∈ l -> free_here m bp a = false) -> free_here m bp p = true ->
  (length l < fuel)%nat -> free_search fuel m bp q = Some p.
Proof.
  revert q fuel. induction l as [|a l IH]; intros q fuel; cbn.
  - intros -> _ Hp Hf. destruct fuel; [lia|]. cbn. by rewrite Hp.
  - intros [-> Hl] Hn Hp Hf. destruct fuel; [lia|]. cbn. rewrite Hn by by left.
    apply IH; [done| |done|lia]. intros b Hb. apply Hn. by right.
Qed.
End lseg.

(** ** Segments *)

(** A segment: its units, and whether it is free. *)
Abbreviation segs := (list (Z * bool)).

Fixpoint seg_end (a : Z) (l : segs) : Z :=
  match l with
  | [] => a
  | (n, _) :: l => seg_end (a + HDR * n) l
  end.
Fixpoint free_addrs (a : Z) (l : segs) : list Z :=
  match l with
  | [] => []
  | (n, f) :: l => (if f : bool then [a] else []) ++ free_addrs (a + HDR * n) l
  end.
(** Every segment's header holds its size. *)
Fixpoint sized (m : memory) (a : Z) (l : segs) : Prop :=
  match l with
  | [] => True
  | (n, _) :: l => 1 <= n /\ h_size m a = n /\ sized m (a + HDR * n) l
  end.
(** Byte [x] belongs to the contents of an allocated segment. *)
Fixpoint payload (a : Z) (l : segs) (x : Z) : Prop :=
  match l with
  | [] => False
  | (n, f) :: l => (f = false /\ a + HDR <= x < a + HDR * n) \/ payload (a + HDR * n) l x
  end.

(** In address order, headers apart. *)
Definition before (a b : Z) : Prop := a + HDR <= b.

(** Merging adjacent free segments, and lists that have none. *)
Fixpoint coalesce (l : segs) : segs :=
  match l with
  | [] => []
  | (n, f) :: l =>
      match f, coalesce l with
      | true, (m, true) :: l' => (n + m, true) :: l'
      | _, l' => (n, f) :: l'
      end
  end.
Definition starts_free (l : segs) : bool := match l with (_, true) :: _ => true | _ => false end.
Fixpoint coalesced (l : segs) : Prop :=
  match l with
  | [] => True
  | (_, f) :: l => f && starts_free l = false /\ coalesced l
  end.

Section segments.
  Implicit Types (l : segs) (a x n : Z) (m : memory).

Lemma seg_end_app a l1 l2 : seg_end a (l1 ++ l2) = seg_end (seg_end a l1) l2.
Proof. revert a. induction l1 as [|[n f] l1 IH]; intros a; cbn; auto. Qed.
Lemma free_addrs_app a l1 l2 : free_addrs a (l1 ++ l2) = free_addrs a l1 ++ free_addrs (seg_end a l1) l2.
Proof. revert a. induction l1 as [|[n f] l1 IH]; intros a; cbn; [done|]. by rewrite IH, app_assoc. Qed.
Lemma sized_app m a l1 l2 : sized m a (l1 ++ l2) <-> sized m a l1 /\ sized m (seg_end a l1) l2.
Proof. revert a. induction l1 as [|[n f] l1 IH]; intros a; cbn; [tauto|]. rewrite IH. tauto. Qed.
Lemma payload_app a l1 l2 x : payload a (l1 ++ l2) x <-> payload a l1 x \/ payload (seg_end a l1) l2 x.
Proof. revert a. induction l1 as [|[n f] l1 IH]; intros a; cbn; [tauto|]. rewrite IH. tauto. Qed.

Lemma seg_end_ge m a l : sized m a l -> a + HDR * Z.of_nat (length l) <= seg_end a l.
Proof.
  revert a. induction l as [|[n f] l IH]; intros a; cbn [sized seg_end length]; [unfold HDR; lia|].
  intros (Hn & _ & Hl). specialize (IH _ Hl). unfold HDR in *. lia.
Qed.

Lemma payload_range m a l x : sized m a l -> payload a l x -> a + HDR <= x < seg_end a l.
Proof.
  revert a. induction l as [|[n f] l IH]; intros a; cbn [sized seg_end payload]; [done|].
  intros (Hn & _ & Hl) [[_ Hx]|Hx].
  - pose proof (seg_end_ge _ _ _ Hl). unfold HDR in *. lia.
  - specialize (IH _ Hl Hx). unfold HDR in *. lia.
Qed.

Lemma free_addrs_split a l x :
  x ∈ free_addrs a l -> exists l1 k l2, l = l1 ++ (k, true) :: l2 /\ x = seg_end a l1.
Proof.
  revert a. induction l as [|[n f] l IH]; intros a; cbn; [by intros H%not_elem_of_nil|].
  intros [Hx|Hx]%elem_of_app.
  - destruct f; [|by apply not_elem_of_nil in Hx]. apply list_elem_of_singleton in Hx as ->.
    by exists [], n, l.
  - destruct (IH _ Hx) as (l1 & k & l2 & -> & ->). by exists ((n, f) :: l1), k, l2.
Qed.

Lemma free_addrs_range m a l x : sized m a l -> x ∈ free_addrs a l -> a <= x /\ x + HDR * h_size m x <= seg_end a l /\ 1 <= h_size m x.
Proof.
  intros Hs (l1 & k & l2 & -> & ->)%free_addrs_split.
  apply sized_app in Hs as (H1 & Hk & Hsz & H2). rewrite seg_end_app. cbn [seg_end]. rewrite Hsz.
  pose proof (seg_end_ge _ _ _ H1). pose proof (seg_end_ge _ _ _ H2). unfold HDR in *. lia.
Qed.

(** A free header and any header are the same or apart. *)
Lemma free_header_apart m a l1 k f l2 x :
  sized m a (l1 ++ (k, f) :: l2) -> x ∈ free_addrs a (l1 ++ (k, f) :: l2) ->
  seg_end a l1 = x \/ apart x (seg_end a l1).
Proof.
  intros (H1 & Hk & _ & H2)%sized_app. rewrite free_addrs_app. cbn [free_addrs]. intros [Hx|[Hx|Hx]%elem_of_app]%elem_of_app.
  - right. left. pose proof (free_addrs_range _ _ _ _ H1 Hx). unfold HDR in *; lia.
  - destruct f; [|by apply not_elem_of_nil in Hx]. apply list_elem_of_singleton in Hx. by left.
  - right. right. pose proof (free_addrs_range _ _ _ _ H2 Hx). unfold HDR in *; lia.
Qed.

Lemma free_addrs_sorted m a l : sized m a l -> StronglySorted before (free_addrs a l).
Proof.
  revert a. induction l as [|[n f] l IH]; intros a; cbn; [constructor|].
  intros (Hn & _ & Hl). destruct f; cbn; [|by apply IH]. constructor; [by apply IH|].
  apply Forall_forall. intros x Hx. pose proof (free_addrs_range _ _ _ _ Hl Hx). unfold before, HDR in *. lia.
Qed.

Lemma sized_ext m m' a l :
  (forall l1 n f l2, l = l1 ++ (n, f) :: l2 -> h_size m' (seg_end a l1) = h_size m (seg_end a l1)) ->
  sized m a l -> sized m' a l.
Proof.
  revert a. induction l as [|[n f] l IH]; intros a H; cbn; [done|]. intros (Hn & Hs & Hl).
  split; [done|]. split; [etransitivity; [exact (H [] n f l eq_refl)|done]|]. apply IH; [|done].
  intros l1 n' f' l2 ->. exact (H ((n, f) :: l1) n' f' l2 eq_refl).
Qed.

(** Sizes outside a header that is written stay. *)
Lemma sized_frame hs m m' a l :
  only_headers hs m m' -> Forall (fun h => h + HDR <= a \/ seg_end a l <= h) hs -> sized m a l -> sized m' a l.
Proof.
  intros Ho Hh Hs. refine (sized_ext _ _ _ _ _ Hs). intros l1 n f l2 ->.
  apply (only_headers_apart hs); [done|]. apply sized_app in Hs as (H1 & Hn & _ & H2).
  pose proof (seg_end_ge _ _ _ H1). pose proof (seg_end_ge _ _ _ H2).
  eapply Forall_impl; [exact Hh|]. intros h. rewrite seg_end_app. cbn. unfold apart, HDR in *. lia.
Qed.
End segments.

Section coalescing.
  Implicit Types (l : segs) (n : Z).

Lemma coalesce_id l : coalesced l -> coalesce l = l.
Proof.
  induction l as [|[n f] l IH]; cbn; [done|]. intros [Hf Hl]. rewrite IH by done.
  destruct f, l as [|[m []] l]; done.
Qed.

Lemma coalesced_coalesce l : coalesced (coalesce l).
Proof.
  induction l as [|[n f] l IH]; cbn; [done|].
  destruct f; [|by split]. destruct (coalesce l) as [|[m []] l']; cbn in *; try done; naive_solver.
Qed.

Lemma coalesce_app l1 l2 : coalesce (l1 ++ l2) = coalesce (l1 ++ coalesce l2).
Proof.
  revert l2. induction l1 as [|[n f] l1 IH]; intros l2; cbn; [|by rewrite IH].
  symmetry. apply coalesce_id, coalesced_coalesce.
Qed.

Lemma seg_end_coalesce a l : seg_end a (coalesce l) = seg_end a l.
Proof.
  revert a. induction l as [|[n f] l IH]; intros a; cbn; [done|]. rewrite <- IH.
  destruct f, (coalesce l) as [|[m []] l']; cbn; try done. f_equal. unfold HDR. lia.
Qed.

Lemma coalesced_app l1 l2 :
  coalesced (l1 ++ l2) <->
    coalesced l1 /\ coalesced l2 /\ ((exists l n, l1 = l ++ [(n, true)]) -> starts_free l2 = false).
Proof.
  induction l1 as [|[n f] l1 IH]; cbn.
  { split; [|naive_solver]. intros H. split; [done|]. split; [done|]. by intros (? & ? & ?%app_cons_not_nil). }
  rewrite IH. clear IH. destruct l1 as [|[m g] l1]; cbn.
  - split.
    + intros (Hf & _ & Hl & _). rewrite andb_false_r. split; [done|]. split; [done|].
      intros ([|? [|]] & k & Hk); [|done..]. injection Hk as _ ->. exact Hf.
    + intros (_ & Hl & H). split; [destruct f; [|done]; cbn; apply H; by exists [], n|].
      split; [done|]. split; [done|]. by intros (? & ? & ?%app_cons_not_nil).
  - split.
    + intros (Hf & H1 & H2 & H). split; [done|]. split; [done|]. intros (l & k & Hk). apply H.
      destruct l as [|y l]; [done|]. injection Hk as _ Hk. by exists l, k.
    + intros ((Hf & H1) & H2 & H). split; [done|]. split; [done|]. split; [done|].
      intros (l & k & Hk). apply H. exists ((n, f) :: l), k. by rewrite Hk.
Qed.

Lemma coalesced_last l :
  (exists l0 k, l = l0 ++ [(k, true)]) \/ ~ (exists l0 k, l = l0 ++ [(k, true)]).
Proof.
  destruct l as [|[k f] l0 _] using rev_ind; [right; by intros (? & ? & ?%app_cons_not_nil)|].
  destruct f; [left; eauto|right]. intros (l1 & k1 & H). by apply app_inj_tail in H as [_ [=]].
Qed.

(** A free segment joined to what follows it. *)
Definition fuse (n : Z) l : segs :=
  match l with
  | (m, true) :: l' => (n + m, true) :: l'
  | _ => (n, true) :: l
  end.

Lemma coalesce_fuse n l : coalesced l -> coalesce ((n, true) :: l) = fuse n l.
Proof. intros H. cbn. rewrite (coalesce_id l H). by destruct l as [|[m []] l]. Qed.

Lemma coalesced_fuse n l : coalesced l -> coalesced (fuse n l).
Proof. destruct l as [|[m []] l]; cbn; naive_solver. Qed.

Lemma coalesce_freed l n r :
  coalesced l -> coalesced r ->
  coalesce (l ++ (n, true) :: r) =
    match last l with
    | Some (k, true) => take (length l - 1) l ++ fuse k (fuse n r)
    | _ => l ++ fuse n r
    end.
Proof.
  intros Hl Hr. rewrite coalesce_app, coalesce_fuse by done.
  destruct l as [|[k f] l _] using rev_ind; [cbn; by apply coalesce_id, coalesced_fuse|].
  rewrite last_snoc, length_app. cbn. rewrite Nat.add_sub, take_app_length.
  pose proof (coalesced_fuse n r Hr) as Hf. apply coalesced_app in Hl as (Hl & _ & Hk). destruct f.
  - rewrite <- app_assoc. rewrite coalesce_app. cbn [app]. rewrite coalesce_fuse by done.
    apply coalesce_id, coalesced_app. split; [done|]. split; [by apply coalesced_fuse|].
    intros H. by apply Hk in H.
  - apply coalesce_id, coalesced_app. split; [apply coalesced_app; naive_solver|]. split; [done|].
    intros (l1 & k1 & H). by apply app_inj_tail in H as [_ [=]].
Qed.
End coalescing.

(** ** [free] *)

Lemma hdr_add_id p n : 0 <= p -> 0 <= n -> p + HDR * n <= USER_TOP -> hdr_add p n = p + HDR * n.
Proof. unfold hdr_add, USER_TOP, HDR. intros. apply u64_id. lia. Qed.

Section join.
  Context {E : UserEnv}.

Lemma lseg_head m x l y : lseg m x l y -> x = default y (head l).
Proof. destruct l; cbn; [done|]. by intros [-> _]. Qed.

(** The first free header of a run of segments, or [e]. *)
Lemma free_head_cases m a l e :
  sized m a l -> let h := default e (head (free_addrs a l)) in
  h = e \/ (a <= h /\ h + HDR <= seg_end a l /\ (starts_free l = false -> a < h)).
Proof.
  intros Hs h. subst h. destruct l as [|[k f] l]; cbn; [by left|]. destruct Hs as (Hk & _ & Hs).
  pose proof (seg_end_ge _ _ _ Hs). destruct f; cbn; [right; split; [lia|]; unfold HDR in *; split; [lia|done]|].
  destruct (free_addrs _ l) as [|x xs] eqn:Ex; [by left|right; cbn].
  assert (x ∈ free_addrs (a + HDR * k) l) as Hx by (rewrite Ex; by left).
  pose proof (free_addrs_range _ _ _ _ Hs Hx). unfold HDR in *. lia.
Qed.

Lemma ring_frame bp m m' a l x y :
  only_headers [bp] m m' -> sized m a l -> bp + HDR <= a ->
  lseg m x (free_addrs a l) y -> lseg m' x (free_addrs a l) y.
Proof.
  intros Ho Hs Hb. apply lseg_ext. intros b Hin. pose proof (free_addrs_range _ _ _ _ Hs Hin).
  apply (only_headers_apart [bp]); [done|]. apply list.Forall_singleton. unfold apart, HDR in *. lia.
Qed.

Lemma sized_above bp m m' a l : only_headers [bp] m m' -> bp + HDR <= a -> sized m a l -> sized m' a l.
Proof. intros Ho Hb. apply (sized_frame _ _ _ _ _ Ho). apply list.Forall_singleton. by left. Qed.

Lemma join_upper_ok s bp p n R e :
  sized (u_mem s) bp ((n, false) :: R) -> seg_end bp ((n, false) :: R) <= USER_TOP ->
  lseg (u_mem s) (h_ptr (u_mem s) p) (free_addrs (bp + HDR * n) R) e ->
  0 < e -> e + HDR <= bp -> p + HDR <= bp ->
  exists m' k R',
    join_upper bp p s = Ok tt (set_u_mem m' s) /\ fuse n R = (k, true) :: R' /\
    sized m' bp ((k, true) :: R') /\ lseg m' (h_ptr m' bp) (free_addrs (bp + HDR * k) R') e /\
    only_headers [bp] (u_mem s) m'.
Proof.
  set (m := u_mem s). intros (Hn & Hsz & HR) Htop Hring He Hbe Hbp. cbn [seg_end] in Htop.
  pose proof (seg_end_ge _ _ _ HR) as Hend. unfold join_upper, get_size, get_ptr, put_size, put_ptr. step_prim.
  fold m. rewrite Hsz, hdr_add_id by (unfold HDR in *; lia).
  pose proof (lseg_head _ _ _ _ Hring) as Hnx. destruct (starts_free R) eqn:Hf.
  - destruct R as [|[k []] R]; [done| |done]. destruct HR as (Hk & Hksz & HR).
    cbn [free_addrs app head default] in *. rewrite Hnx, Z.eqb_refl. destruct Hring as [_ Hring].
    set (q := bp + HDR * n) in *. cbn [seg_end] in Htop, Hend.
    pose proof (seg_end_ge _ _ _ HR) as Hend'.
    assert (apart bp q) as Hap by (unfold apart, HDR in *; lia).
    set (m1 := store32 m (bp + 8) (u32 (n + h_size m q))).
    set (m2 := store64 m1 bp (h_ptr m1 q)).
    assert (only_headers [bp] m m2) as Ho.
    { eapply only_headers_trans; [apply only_headers_put_size|apply only_headers_put_ptr]; by left. }
    assert (h_ptr m1 q = h_ptr m q) as Hq by (apply h_ptr_put_size; auto).
    exists m2, (n + k), R. split; [done|]. split; [done|].
    replace (bp + HDR * (n + k)) with (q + HDR * k) by (unfold q, HDR; lia).
    split; [cbn [sized]; split; [lia|]; split|split; [|done]].
    + unfold m2. rewrite h_size_put_ptr by auto. unfold m1. rewrite Hksz, u32_id by (unfold HDR, USER_TOP in *; lia).
      apply h_size_put_size. unfold HDR, USER_TOP in *. lia.
    + replace (bp + HDR * (n + k)) with (q + HDR * k) by (unfold q, HDR; lia).
      refine (sized_above _ _ _ _ _ Ho _ HR). unfold HDR in *; lia.
    + unfold m2 at 2. rewrite h_ptr_put_ptr; rewrite Hq.
      * refine (ring_frame _ _ _ _ _ _ _ Ho HR _ Hring). unfold HDR in *; lia.
      * rewrite (lseg_head _ _ _ _ Hring). destruct (free_head_cases _ _ _ e HR) as [->|Hh]; unfold USER_TOP, HDR in *; lia.
  - assert (fuse n R = (n, true) :: R) as Hfuse by by destruct R as [|[k []] R].
    assert (bp + HDR * n <> h_ptr m p /\ 0 <= h_ptr m p < 2 ^ 64) as [Hne Hr].
    { rewrite Hnx. destruct (free_head_cases _ _ _ e HR) as [->|Hh]; [unfold USER_TOP, HDR in *; lia|].
      destruct Hh as (H1 & H2 & H3). specialize (H3 Hf). unfold USER_TOP, HDR in *; lia. }
    rewrite (proj2 (Z.eqb_neq _ _) Hne). set (m1 := store64 m bp (h_ptr m p)).
    assert (only_headers [bp] m m1) as Ho by (apply only_headers_put_ptr; by left).
    exists m1, n, R. split; [done|]. split; [done|]. split; [|split; [|done]].
    + cbn [sized]. split; [done|]. split; [unfold m1; by rewrite h_size_put_ptr by auto|].
      refine (sized_above _ _ _ _ _ Ho _ HR). unfold HDR in *; lia.
    + unfold m1 at 2. rewrite h_ptr_put_ptr by done.
      refine (ring_frame _ _ _ _ _ _ _ Ho HR _ Hring). unfold HDR in *; lia.
Qed.

(** The lower neighbour is free: one block. *)
Lemma join_lower_joins s start L k n R e :
  sized (u_mem s) start (L ++ [(k, true)]) ->
  let p := seg_end start L in let bp := seg_end start (L ++ [(k, true)]) in
  sized (u_mem s) bp ((n, true) :: R) -> seg_end bp ((n, true) :: R) <= USER_TOP -> 0 <= start ->
  lseg (u_mem s) (h_ptr (u_mem s) bp) (free_addrs (bp + HDR * n) R) e -> 0 < e -> e + HDR <= start ->
  exists m',
    join_lower bp p s = Ok tt (set_u_mem m' s) /\ only_headers [p] (u_mem s) m' /\
    sized m' start (L ++ (k + n, true) :: R) /\
    lseg m' (h_ptr m' p) (free_addrs (bp + HDR * n) R) e.
Proof.
  set (m := u_mem s). intros (HL & Hk & Hksz & _)%sized_app p bp (Hn & Hsz & HR) Htop Hst Hring He Hes.
  assert (bp = p + HDR * k) as Hbp by (unfold bp; by rewrite seg_end_app).
  cbn [seg_end] in Htop. fold p in Hksz. pose proof (seg_end_ge _ _ _ HL) as HLe. fold p in HLe.
  pose proof (seg_end_ge _ _ _ HR) as Hend. unfold join_lower, get_size, get_ptr, put_size, put_ptr. step_prim.
  fold m. rewrite Hksz, hdr_add_id, <- Hbp, Z.eqb_refl by (unfold HDR in *; lia).
  set (m1 := store32 m (p + 8) (u32 (k + h_size m bp))). set (m2 := store64 m1 p (h_ptr m1 bp)).
  assert (only_headers [p] m m2) as Ho.
  { eapply only_headers_trans; [apply only_headers_put_size|apply only_headers_put_ptr]; by left. }
  assert (h_ptr m1 bp = h_ptr m bp) as Hq by (apply h_ptr_put_size; right; unfold apart, HDR in *; lia).
  exists m2. split; [done|]. split; [done|]. split; [apply sized_app; split; [|split; [lia|split]]|].
  - refine (sized_frame _ _ _ _ _ Ho _ HL). apply list.Forall_singleton. right. unfold p. lia.
  - fold p. unfold m2. rewrite h_size_put_ptr by auto. unfold m1. rewrite Hsz, u32_id by (unfold HDR, USER_TOP in *; lia).
    apply h_size_put_size. unfold HDR, USER_TOP in *. lia.
  - fold p. replace (p + HDR * (k + n)) with (bp + HDR * n) by (unfold HDR in *; lia).
    refine (sized_above _ _ _ _ _ Ho _ HR). unfold HDR in *; lia.
  - unfold m2 at 2. rewrite h_ptr_put_ptr; rewrite Hq.
    + refine (ring_frame _ _ _ _ _ _ _ Ho HR _ Hring). unfold HDR in *; lia.
    + rewrite (lseg_head _ _ _ _ Hring). destruct (free_head_cases _ _ _ e HR) as [->|Hh]; unfold USER_TOP, HDR in *; lia.
Qed.

(** It is not: [bp] is linked after [p]. *)
Lemma join_lower_links s start L p n R :
  sized (u_mem s) start L -> let bp := seg_end start L in
  sized (u_mem s) bp ((n, true) :: R) -> bp <= USER_TOP -> 0 <= p -> p + HDR <= bp ->
  0 <= h_size (u_mem s) p -> p + HDR * h_size (u_mem s) p < bp ->
  exists m',
    join_lower bp p s = Ok tt (set_u_mem m' s) /\ only_headers [p] (u_mem s) m' /\
    h_ptr m' p = bp /\ h_size m' p = h_size (u_mem s) p.
Proof.
  set (m := u_mem s). intros HL bp Hbp Htop Hp Hpb Hsz Hlt.
  unfold join_lower, get_size, get_ptr, put_size, put_ptr. step_prim. fold m.
  rewrite hdr_add_id, (proj2 (Z.eqb_neq _ _)) by lia. exists (store64 m p bp).
  split; [done|]. split; [apply only_headers_put_ptr; by left|]. split.
  - apply h_ptr_put_ptr. unfold USER_TOP, HDR in *. lia.
  - apply h_size_put_ptr. by left.
Qed.
End join.

Section heap.
  Context {E : UserEnv} (start : Z).

(** The state [s] represents the tiling [l] of the heap from [start]. *)
Record heap_rep (s : uheap) (l : segs) : Prop := {
  hr_base : 0 < l_base /\ l_base + HDR <= start;
  hr_brk : u_brk s = seg_end start l;
  hr_top : u_brk s <= USER_TOP;
  hr_sized : sized (u_mem s) start l;
  hr_base_size : h_size (u_mem s) l_base = 0;
  hr_ring : lseg (u_mem s) l_base (l_base :: free_addrs start l) l_base;
  hr_freep : u_freep s ∈ l_base :: free_addrs start l;
  hr_coalesced : coalesced l
}.

Lemma nodes_sorted m l :
  l_base + HDR <= start -> sized m start l -> StronglySorted before (l_base :: free_addrs start l).
Proof.
  intros Hb Hs. constructor; [by eapply free_addrs_sorted|].
  apply Forall_forall. intros x Hx. pose proof (free_addrs_range _ _ _ _ Hs Hx). unfold before, HDR in *. lia.
Qed.

Lemma before_lt (l : list Z) : StronglySorted before l -> StronglySorted Z.lt l.
Proof.
  induction 1 as [|x l Hs IH Hx]; constructor; [done|]. eapply Forall_impl; [exact Hx|].
  unfold before, HDR. lia.
Qed.

Lemma ring_sorted s l : heap_rep s l -> StronglySorted before (l_base :: free_addrs start l).
Proof. intros H. eapply nodes_sorted; apply H. Qed.

Lemma sorted_NoDup (l : list Z) : StronglySorted before l -> NoDup l.
Proof.
  induction 1 as [|x l Hs IH Hx]; constructor; [|done]. intros Hin.
  pose proof (proj1 (Forall_forall _ _) Hx x Hin). unfold before, HDR in *. lia.
Qed.

Lemma ring_length s l : heap_rep s l -> (length (l_base :: free_addrs start l) <= ring_fuel s)%nat.
Proof.
  intros H. unfold ring_fuel. cbn [length]. apply le_n_S. destruct (hr_base _ _ H).
  pose proof (seg_end_ge _ _ _ (hr_sized _ _ H)) as Hge. rewrite <- (hr_brk _ _ H) in Hge.
  assert (forall a, (length (free_addrs a l) <= length l)%nat) as Hle.
  { clear. induction l as [|[n []] l IH]; intros a; cbn; [done|specialize (IH (a + HDR * n)); lia..]. }
  specialize (Hle start). unfold HDR in *.
  assert (Z.of_nat (length l) <= u_brk s / 16) by (apply Z.div_le_lower_bound; lia). lia.
Qed.

(** The place of a block in a sorted ring. *)
Lemma free_here_iff m N1 p N2 bp q :
  lseg m l_base (N1 ++ p :: N2) l_base -> StronglySorted Z.lt (N1 ++ p :: N2) ->
  Forall (Z.le l_base) (N1 ++ p :: N2) -> p < bp -> Forall (Z.lt bp) N2 -> l_base < bp ->
  q ∈ N1 ++ p :: N2 -> free_here m bp q = bool_decide (q = p).
Proof.
  intros Hr Hs Hb Hp H2 Hbb Hq. unfold free_here.
  assert (forall A B, N1 ++ p :: N2 = A ++ q :: B ->
            h_ptr m q = default l_base (head B) /\ Forall (Z.lt q) B) as Hnext.
  { intros A B HAB. rewrite HAB in Hr, Hs. split; [by eapply lseg_next|].
    apply StronglySorted_app in Hs as (_ & _ & Hs). by inversion Hs. }
  apply elem_of_app in Hq as [Hq|[->|Hq]%elem_of_cons].
  - apply list_elem_of_split in Hq as (A & B & ->).
    destruct (Hnext A (B ++ p :: N2)) as [-> HB]; [by rewrite <- app_assoc|].
    assert (exists y, default l_base (head (B ++ p :: N2)) = y /\ q < y /\ y <= p) as (y & -> & Hy1 & Hy2).
    { destruct B as [|y B]; cbn in *; [exists p; inversion HB; split; [done|]; lia|].
      exists y. split; [done|]. inversion HB. split; [done|].
      rewrite <- app_assoc in Hs. apply StronglySorted_app in Hs as (_ & _ & Hs).
      change (q :: y :: B) with ([q; y] ++ B) in Hs. rewrite <- app_assoc in Hs.
      change ([q; y] ++ B ++ p :: N2) with (([q; y] ++ B) ++ p :: N2) in Hs.
      apply Z.lt_le_incl. apply (StronglySorted_app_1_elem_of _ _ _ y p Hs); set_solver. }
    rewrite bool_decide_eq_false_2 by lia. repeat case_bool; cbn; try done; lia.
  - destruct (Hnext N1 N2 eq_refl) as [-> HB]. rewrite bool_decide_eq_true_2 by done.
    assert (l_base <= p) by (apply Forall_app in Hb as [_ Hb]; by inversion Hb).
    destruct N2 as [|y N2]; cbn; [|inversion H2; subst]; repeat case_bool; cbn; try done; lia.
  - pose proof (proj1 (Forall_forall _ _) H2 q Hq).
    apply list_elem_of_split in Hq as (A & B & ->).
    destruct (Hnext (N1 ++ p :: A) B) as [-> HB]; [by rewrite <- app_assoc|].
    rewrite bool_decide_eq_false_2 by lia.
    destruct B as [|y B]; cbn; [|inversion HB; subst]; repeat case_bool; cbn; try done; lia.
Qed.

(** The ring around an allocated segment. *)
Lemma ring_around s L n R :
  heap_rep s (L ++ (n, false) :: R) ->
  let bp := seg_end start L in let above := free_addrs (bp + HDR * n) R in
  exists N1 p,
    l_base :: free_addrs start L = N1 ++ [p] /\
    l_base :: free_addrs start (L ++ (n, false) :: R) = N1 ++ p :: above /\
    lseg (u_mem s) l_base N1 p /\ lseg (u_mem s) (h_ptr (u_mem s) p) above l_base /\
    l_base <= p /\ p + HDR <= bp /\ start <= bp /\
    free_search (ring_fuel s) (u_mem s) bp (u_freep s) = Some p.
Proof.
  intros H bp above. destruct (hr_base _ _ H) as [Hb0 Hb1].
  assert (exists N1 p, l_base :: free_addrs start L = N1 ++ [p]) as (N1 & p & HN).
  { destruct (l_base :: free_addrs start L) as [|p N1 _] eqn:EN using rev_ind; [done|eauto]. }
  assert (l_base :: free_addrs start (L ++ (n, false) :: R) = N1 ++ p :: above) as HN'.
  { rewrite free_addrs_app. change (?a :: ?b ++ ?c) with ((a :: b) ++ c). rewrite HN, <- app_assoc. done. }
  exists N1, p. pose proof (ring_sorted _ _ H) as Hs. pose proof (hr_ring _ _ H) as Hr. rewrite HN' in Hs, Hr.
  pose proof (hr_sized _ _ H) as (HL & Hn & _ & HR)%sized_app.
  pose proof (seg_end_ge _ _ _ HL) as HLe. fold bp in HLe, Hn, HR.
  assert (p ∈ l_base :: free_addrs start L) as Hp by (rewrite HN; set_solver).
  assert (l_base <= p /\ p + HDR <= bp) as [Hp1 Hp2].
  { apply elem_of_cons in Hp as [->|Hp]; [unfold HDR in *; lia|].
    pose proof (free_addrs_range _ _ _ _ HL Hp). unfold HDR, bp in *. lia. }
  split; [done|]. split; [done|]. apply lseg_app in Hr as Hr2. destruct Hr2 as (z & Hr1 & -> & Hr2).
  split; [done|]. split; [done|]. split; [done|]. split; [done|]. split; [unfold HDR in *; lia|].
  destruct (ring_path (u_mem s) l_base (N1 ++ p :: above) (u_freep s) p) as (l & Hl & Hin & Hni & Hlen);
    [done|by apply sorted_NoDup|rewrite <- HN'; apply H|set_solver|].
  assert (forall q, q ∈ N1 ++ p :: above -> free_here (u_mem s) bp q = bool_decide (q = p)) as Hhere.
  { intros q. apply (free_here_iff _ N1 p above); [done|by apply before_lt| |unfold HDR in *; lia| |unfold HDR in *; lia].
    - rewrite <- HN'. constructor; [done|].
      assert (Forall (Z.lt l_base) (free_addrs start (L ++ (n, false) :: R))) as Hf.
      { pose proof (before_lt _ (ring_sorted _ _ H)) as Hs'. by inversion Hs'. }
      eapply Forall_impl; [exact Hf|]. cbn; lia.
    - apply Forall_forall. intros x Hx. pose proof (free_addrs_range _ _ _ _ HR Hx). unfold HDR in *; lia. }
  apply (free_search_path _ _ _ _ l); [done| | |].
  - intros a Ha. rewrite Hhere by by apply Hin. apply bool_decide_eq_false_2. by intros ->.
  - rewrite Hhere by set_solver. by apply bool_decide_eq_true_2.
  - pose proof (ring_length _ _ H) as Hlen'. rewrite HN' in Hlen'. lia.
Qed.

(** The ring below a place keeps when only its last member is written. *)
Lemma ring_keep m m' L N1 p :
  l_base + HDR <= start -> sized m start L -> l_base :: free_addrs start L = N1 ++ [p] ->
  only_headers [p] m m' -> lseg m l_base N1 p -> lseg m' l_base N1 p.
Proof.
  intros Hb HL HN Ho. apply lseg_ext. intros a Ha.
  pose proof (nodes_sorted _ _ Hb HL) as Hs. rewrite HN in Hs.
  pose proof (StronglySorted_app_1_elem_of _ N1 [p] a p Hs Ha ltac:(by left)).
  apply (only_headers_apart [p]); [done|]. apply list.Forall_singleton. right. done.
Qed.

Lemma free_lower_joins s L k n R :
  let p := seg_end start L in let bp := seg_end start (L ++ [(k, true)]) in
  0 < l_base /\ l_base + HDR <= start -> sized (u_mem s) start (L ++ [(k, true)]) -> h_size (u_mem s) l_base = 0 ->
  lseg (u_mem s) l_base (l_base :: free_addrs start L) p ->
  sized (u_mem s) bp ((n, true) :: R) -> seg_end bp ((n, true) :: R) <= USER_TOP ->
  lseg (u_mem s) (h_ptr (u_mem s) bp) (free_addrs (bp + HDR * n) R) l_base ->
  exists m',
    join_lower bp p s = Ok tt (set_u_mem m' s) /\ only_headers [p] (u_mem s) m' /\
    sized m' start (L ++ (k + n, true) :: R) /\ h_size m' l_base = 0 /\
    lseg m' l_base (l_base :: free_addrs start (L ++ (k + n, true) :: R)) l_base.
Proof.
  intros p bp [Hb0 Hb1] HL Hbs Hr1 Hbp Htop Hr2.
  pose proof HL as (HL0 & Hk & _)%sized_app. pose proof (seg_end_ge _ _ _ HL0) as HLe. fold p in HLe.
  destruct (join_lower_joins s start L k n R l_base) as (m' & E1 & Ho & Hsz & Hr); try done; [unfold HDR in *; lia|].
  exists m'. split; [exact E1|]. split; [done|]. split; [done|]. split.
  { etransitivity; [|exact Hbs]. apply (only_headers_apart [p]); [done|]. apply list.Forall_singleton. right. unfold HDR in *. lia. }
  rewrite free_addrs_app. change (l_base :: free_addrs start L ++ ?x) with ((l_base :: free_addrs start L) ++ x).
  apply lseg_app. exists p. split.
  - refine (ring_keep _ _ (L ++ [(k, true)]) _ p Hb1 HL _ Ho Hr1). rewrite free_addrs_app. done.
  - cbn [free_addrs app]. split; [done|]. fold p. replace (p + HDR * (k + n)) with (bp + HDR * n); [done|].
    unfold bp. rewrite seg_end_app. cbn. fold p. unfold HDR. lia.
Qed.

Lemma free_lower_links s L N1 p n R :
  let bp := seg_end start L in
  0 < l_base /\ l_base + HDR <= start -> sized (u_mem s) start L -> h_size (u_mem s) l_base = 0 ->
  l_base :: free_addrs start L = N1 ++ [p] -> last L <> Some (h_size (u_mem s) p, true) ->
  lseg (u_mem s) l_base N1 p ->
  sized (u_mem s) bp ((n, true) :: R) -> seg_end bp ((n, true) :: R) <= USER_TOP ->
  lseg (u_mem s) (h_ptr (u_mem s) bp) (free_addrs (bp + HDR * n) R) l_base ->
  exists m',
    join_lower bp p s = Ok tt (set_u_mem m' s) /\ only_headers [p] (u_mem s) m' /\
    sized m' start (L ++ (n, true) :: R) /\ h_size m' l_base = 0 /\
    lseg m' l_base (l_base :: free_addrs start (L ++ (n, true) :: R)) l_base.
Proof.
  intros bp [Hb0 Hb1] HL Hbs HN Hlast Hr1 Hbp Htop Hr2.
  pose proof (seg_end_ge _ _ _ HL) as HLe. fold bp in HLe. pose proof (seg_end_ge _ _ _ Hbp) as Hbe.
  pose proof (proj1 Hbp) as Hn. cbn [seg_end length] in Hbe, Htop.
  assert (0 <= p /\ p + HDR <= bp /\ 0 <= h_size (u_mem s) p /\ p + HDR * h_size (u_mem s) p < bp) as (Hp0 & Hp1 & Hp2 & Hp3).
  { assert (p ∈ l_base :: free_addrs start L) as [->|Hp]%elem_of_cons by (rewrite HN; set_solver).
    { rewrite Hbs. unfold HDR in *; lia. }
    apply free_addrs_split in Hp as (L1 & k & L2 & -> & ->).
    apply sized_app in HL as (HL1 & Hk & Hksz & HL2). rewrite Hksz.
    pose proof (seg_end_ge _ _ _ HL1). unfold bp in *. rewrite seg_end_app. cbn [seg_end].
    destruct L2 as [|[k2 f2] L2]; [by rewrite last_snoc, Hksz in Hlast|].
    pose proof (seg_end_ge _ _ _ HL2). cbn [length] in *. unfold HDR in *; lia. }
  destruct (join_lower_links s start L p n R) as (m' & E1 & Ho & Hpt & Hsz); try done; [unfold bp, HDR in *; lia|].
  exists m'. split; [exact E1|]. split; [done|].
  assert (sized m' bp ((n, true) :: R)) as Hbp' by (refine (sized_above _ _ _ _ _ Ho _ Hbp); done).
  assert (forall a, a = p \/ apart p a -> h_size m' a = h_size (u_mem s) a) as Hsize.
  { intros a [->|Ha]; [done|]. apply (only_headers_apart [p]); [done|]. by apply list.Forall_singleton. }
  assert (p ∈ l_base :: free_addrs start L) as Hp by (rewrite HN; set_solver).
  split; [|split].
  - apply sized_app. split; [|done]. refine (sized_ext _ _ _ _ _ HL). intros L1 k f L2 ->. apply Hsize.
    apply elem_of_cons in Hp as [->|Hp].
    + right. left. apply sized_app in HL as [HL1 _]. pose proof (seg_end_ge _ _ _ HL1). unfold HDR in *; lia.
    + by destruct (free_header_apart _ _ _ _ _ _ _ HL Hp); auto.
  - rewrite Hsize; [done|]. apply elem_of_cons in Hp as [->|Hp]; [by left|].
    right. right. pose proof (free_addrs_range _ _ _ _ HL Hp). unfold HDR in *; lia.
  - rewrite free_addrs_app. change (l_base :: free_addrs start L ++ ?x) with ((l_base :: free_addrs start L) ++ x).
    rewrite HN, <- app_assoc. apply lseg_app. exists p. split; [by eapply ring_keep|].
    cbn [free_addrs app lseg]. fold bp. rewrite Hpt. split; [done|]. split; [done|].
    destruct (only_headers_apart _ _ _ bp Ho) as [-> _]; [apply list.Forall_singleton; by left|].
    refine (ring_frame _ _ _ _ _ _ _ Ho (proj2 (proj2 Hbp)) _ Hr2). unfold HDR in *; lia.
Qed.

Lemma free_lower s L N1 p n R k R' :
  let bp := seg_end start L in let l0 := coalesce (L ++ (n, true) :: R) in
  0 < l_base /\ l_base + HDR <= start -> coalesced L -> coalesced R -> fuse n R = (k, true) :: R' ->
  sized (u_mem s) start L -> h_size (u_mem s) l_base = 0 ->
  l_base :: free_addrs start L = N1 ++ [p] -> lseg (u_mem s) l_base N1 p ->
  sized (u_mem s) bp ((k, true) :: R') -> seg_end bp ((k, true) :: R') <= USER_TOP ->
  lseg (u_mem s) (h_ptr (u_mem s) bp) (free_addrs (bp + HDR * k) R') l_base ->
  exists m',
    join_lower bp p s = Ok tt (set_u_mem m' s) /\ only_headers [p] (u_mem s) m' /\
    sized m' start l0 /\ h_size m' l_base = 0 /\ lseg m' l_base (l_base :: free_addrs start l0) l_base /\
    p ∈ l_base :: free_addrs start l0.
Proof.
  intros bp l0 Hb HcL HcR Hfuse HL Hbs HN Hr1 Hk Htop Hr. unfold l0. rewrite coalesce_freed, Hfuse by done.
  destruct L as [|[k0 f] L _] using rev_ind.
  - cbn in HN. destruct (free_lower_links s [] N1 p k R') as (m' & ? & ? & ? & ? & ?); try done.
    exists m'. do 5 (split; [done|]). assert (p = l_base) as ->; [|by left].
    destruct N1 as [|? []]; by simplify_list_eq.
  - rewrite last_snoc, length_app. cbn [length]. rewrite Nat.add_sub, take_app_length. destruct f.
    + rewrite free_addrs_app in HN. cbn [free_addrs app] in HN.
      change (l_base :: free_addrs start L ++ ?x) with ((l_base :: free_addrs start L) ++ x) in HN.
      apply app_inj_tail in HN as [<- <-].
      destruct (free_lower_joins s L k0 k R') as (m' & ? & ? & ? & ? & ?); try done.
      exists m'. do 5 (split; [done|]). rewrite free_addrs_app. cbn. set_solver.
    + destruct (free_lower_links s (L ++ [(k0, false)]) N1 p k R') as (m' & ? & ? & ? & ? & ?); try done.
      { by rewrite last_snoc. }
      exists m'. do 5 (split; [done|]). rewrite free_addrs_app.
      assert (p ∈ l_base :: free_addrs start (L ++ [(k0, false)])) by (rewrite HN; set_solver). set_solver.
Qed.

Lemma set_u_mem_mem m m' s : set_u_mem m' (set_u_mem m s) = set_u_mem m' s.
Proof. done. Qed.

(** [free] of the allocated segment after [L]. *)
Lemma free_ok s L n R :
  heap_rep s (L ++ (n, false) :: R) ->
  let bp := seg_end start L in
  exists p m', let s' := set_u_freep p (set_u_mem m' s) in
    free (bp + HDR) s = Ok tt s' /\ heap_rep s' (coalesce (L ++ (n, true) :: R)) /\
    p ∈ l_base :: free_addrs start L /\ only_headers [p; bp] (u_mem s) m'.
Proof.
  intros H bp. destruct (ring_around _ _ _ _ H) as (N1 & p & HN & _ & Hr1 & Hr2 & Hp1 & Hp2 & Hbp & Hsearch).
  fold bp in Hr2, Hp2, Hbp, Hsearch. pose proof (hr_base _ _ H) as [Hb0 Hb1].
  pose proof (hr_sized _ _ H) as (HL & HnR)%sized_app. fold bp in HnR.
  pose proof (hr_brk _ _ H) as Hbrk. rewrite seg_end_app in Hbrk. fold bp in Hbrk.
  pose proof (hr_top _ _ H) as Htop. rewrite Hbrk in Htop.
  pose proof (seg_end_ge _ _ _ HnR) as Hge. pose proof (hr_coalesced _ _ H) as Hc.
  apply coalesced_app in Hc as (HcL & HcR & _). destruct HcR as [_ HcR].
  destruct (join_upper_ok s bp p n R l_base HnR Htop Hr2 Hb0 ltac:(lia) Hp2) as (m1 & k & R' & E1 & Hfuse & Hk & Hr & Ho1).
  set (s1 := set_u_mem m1 s).
  assert (seg_end bp ((k, true) :: R') = seg_end bp ((n, false) :: R)) as Hend.
  { rewrite <- Hfuse. transitivity (seg_end bp ((n, true) :: R)); [|done].
    by rewrite <- coalesce_fuse, seg_end_coalesce. }
  assert (sized m1 start L) as HL1.
  { refine (sized_frame _ _ _ _ _ Ho1 _ HL). apply list.Forall_singleton. right. unfold bp. lia. }
  assert (h_size m1 l_base = 0) as Hbs.
  { etransitivity; [|apply (hr_base_size _ _ H)]. apply (only_headers_apart [bp]); [done|].
    apply list.Forall_singleton. right. unfold HDR in *; lia. }
  assert (lseg m1 l_base N1 p) as Hr1'.
  { refine (lseg_ext _ _ _ _ _ _ Hr1). intros a Ha. apply (only_headers_apart [bp]); [done|].
    apply list.Forall_singleton. right.
    assert (a ∈ l_base :: free_addrs start L) as [->|Ha']%elem_of_cons by (rewrite HN; set_solver); [unfold HDR in *; lia|].
    pose proof (free_addrs_range _ _ _ _ HL Ha'). unfold bp, HDR in *; lia. }
  assert (exists m', join_lower bp p s1 = Ok tt (set_u_mem m' s1) /\ only_headers [p] m1 m' /\
    let l0 := coalesce (L ++ (n, true) :: R) in
    sized m' start l0 /\ h_size m' l_base = 0 /\ lseg m' l_base (l_base :: free_addrs start l0) l_base /\
    p ∈ l_base :: free_addrs start l0) as (m' & E2 & Ho2 & Hsz' & Hbs' & Hr' & Hp').
  { apply (free_lower s1 L N1 p n R k R'); try done. rewrite (Hend : seg_end (seg_end start L) _ = _). exact Htop. }
  assert (p ∈ l_base :: free_addrs start L) as Hp by (rewrite HN; set_solver).
  exists p, m'. split; [|split; [|split; [done|]]].
  - unfold free. replace (bp + HDR - HDR) with bp by lia. rewrite u64_id by (unfold HDR, USER_TOP in *; lia).
    rewrite (bind_ok _ _ s p s) by (step_prim; unfold id; by rewrite Hsearch).
    rewrite (bind_ok _ _ _ _ _ E1), (bind_ok _ _ _ _ _ E2). done.
  - constructor; cbn; try done.
    + by rewrite seg_end_coalesce, seg_end_app.
    + by rewrite Hbrk.
    + apply coalesced_coalesce.
  - apply (only_headers_trans _ _ m1); (eapply only_headers_weaken; [|done]); set_solver.
Qed.

(** ** Frames *)

(** Memory the allocator must keep: the contents of allocated segments, and what
    lies below the heap besides [base]. *)
Definition kept (l : segs) (x : Z) : Prop :=
  payload start l x \/ (x < start /\ ~ l_base <= x < l_base + HDR).
Definition heap_frame (l : segs) (m m' : memory) : Prop :=
  forall x, kept l x -> load8 m' x = load8 m x.

Lemma payload_header m L k f R x :
  sized m start (L ++ (k, f) :: R) -> payload start (L ++ (k, f) :: R) x ->
  x < seg_end start L \/ seg_end start L + HDR <= x /\ (f = true -> seg_end start L + HDR * k <= x).
Proof.
  intros (HL & Hk & _ & HR)%sized_app [Hx|[[-> Hx]|Hx]]%payload_app.
  - left. by apply (payload_range _ _ _ _ HL).
  - right. split; [lia|done].
  - pose proof (payload_range _ _ _ _ HR Hx). right. unfold HDR in *. lia.
Qed.

Lemma frame_headers m l hs m' :
  sized (m : memory) start l -> l_base + HDR <= start ->
  Forall (fun h => h = l_base \/ exists L k f R, l = L ++ (k, f) :: R /\ h = seg_end start L) hs ->
  only_headers hs m m' -> heap_frame l m m'.
Proof.
  intros Hs Hb Hh Ho x Hx. apply Ho. eapply Forall_impl; [exact Hh|]. cbn.
  intros h [->|(L & k & f & R & -> & ->)].
  - destruct Hx as [Hx|Hx]; [|lia]. pose proof (payload_range _ _ _ _ Hs Hx). unfold HDR in *; lia.
  - pose proof Hs as [HL _]%sized_app. pose proof (seg_end_ge _ _ _ HL).
    destruct Hx as [Hx|Hx]; [|unfold HDR in *; lia].
    destruct (payload_header _ _ _ _ _ _ Hs Hx); unfold HDR in *; lia.
Qed.

Lemma heap_frame_trans l m1 m2 m3 : heap_frame l m1 m2 -> heap_frame l m2 m3 -> heap_frame l m1 m3.
Proof. intros H1 H2 x Hx. by rewrite H2, H1. Qed.

Lemma node_header l x :
  x ∈ l_base :: free_addrs start l -> x = l_base \/ exists L k R, l = L ++ (k, true) :: R /\ x = seg_end start L.
Proof. intros [->|Hx]%elem_of_cons; [by left|right]. by apply free_addrs_split. Qed.

(** ** [morecore] *)

Context {EO : SbrkOk E}.

(** The segment [sbrk] added, before it is freed. *)
Lemma grow_rep s l nu m1 :
  heap_rep s l -> 1 <= nu -> u_brk s + HDR * nu <= USER_TOP ->
  (forall x, x < u_brk s -> load8 m1 x = load8 (u_mem s) x) ->
  let m2 := store32 m1 (u_brk s + 8) (u32 nu) in
  let s' := set_u_mem m2 (set_u_brk (u_brk s + HDR * nu) (set_u_mem m1 s)) in
  heap_rep s' (l ++ [(nu, false)]) /\ (forall x, x < u_brk s -> load8 m2 x = load8 (u_mem s) x).
Proof.
  intros H Hnu Htop Hm m2 s'. destruct (hr_base _ _ H) as [Hb0 Hb1].
  pose proof (seg_end_ge _ _ _ (hr_sized _ _ H)) as Hge. rewrite <- (hr_brk _ _ H) in Hge.
  assert (forall x, x < u_brk s -> load8 m2 x = load8 (u_mem s) x) as Hm2.
  { intros x Hx. unfold m2. rewrite load8_store32_other by lia. by apply Hm. }
  assert (forall a, a + HDR <= u_brk s -> h_ptr m2 a = h_ptr (u_mem s) a /\ h_size m2 a = h_size (u_mem s) a) as Hh.
  { intros a Ha. split; [apply load64_ext|apply load32_ext]; intros x Hx; apply Hm2; unfold HDR in *; lia. }
  split; [|done]. constructor; cbn [u_mem u_freep u_brk set_u_mem set_u_brk s'].
  - done.
  - rewrite seg_end_app, <- (hr_brk _ _ H). done.
  - done.
  - apply sized_app. split.
    + refine (sized_ext _ _ _ _ _ (hr_sized _ _ H)). intros L k f R ->. apply Hh.
      rewrite (hr_brk _ _ H), seg_end_app. destruct (proj1 (sized_app _ _ _ _) (hr_sized _ _ H)) as [_ Hr].
      pose proof (seg_end_ge _ _ _ Hr). cbn [length] in *. unfold HDR in *; lia.
    + rewrite <- (hr_brk _ _ H). split; [done|]. split; [|done]. unfold m2. rewrite u32_id by (unfold HDR, USER_TOP in *; lia).
      apply h_size_put_size. unfold HDR, USER_TOP in *; lia.
  - rewrite <- (hr_base_size _ _ H). apply Hh. unfold HDR in *; lia.
  - rewrite free_addrs_app. cbn [free_addrs app]. rewrite app_nil_r. refine (lseg_ext _ _ _ _ _ _ (hr_ring _ _ H)).
    intros a [->|Ha]%elem_of_cons; apply Hh; [unfold HDR in *; lia|].
    pose proof (free_addrs_range _ _ _ _ (hr_sized _ _ H) Ha). rewrite (hr_brk _ _ H). unfold HDR in *; lia.
  - rewrite free_addrs_app. cbn [free_addrs app]. rewrite app_nil_r. apply H.
  - apply coalesced_app. split; [apply H|]. by split.
Qed.

Lemma morecore_ok s l nunits :
  heap_rep s l -> 1 <= nunits -> HDR * nunits < 2 ^ 31 ->
  morecore nunits s = Ok 0 s /\ sbrk (Z.max nunits 4096 * HDR) s = Ok SBRK_FAILED s \/
  exists s', morecore nunits s = Ok (u_freep s') s' /\ u_freep s' <> 0 /\
    heap_rep s' (coalesce (l ++ [(Z.max nunits 4096, true)])) /\ heap_frame l (u_mem s) (u_mem s').
Proof.
  intros H Hn Hmax. unfold morecore.
  set (nu := Z.max nunits 4096). replace (if nunits <? 4096 then 4096 else nunits) with nu by (unfold nu; case_bool; lia).
  destruct (hr_base _ _ H) as [Hb0 Hb1]. pose proof (hr_top _ _ H) as Htop.
  pose proof (seg_end_ge _ _ _ (hr_sized _ _ H)) as Hge. rewrite <- (hr_brk _ _ H) in Hge.
  rewrite i32_id by (unfold HDR, nu in *; lia).
  destruct (sbrk_law (nu * HDR) s) as [E1|(m1 & E1 & Hlim & Hm)]; [unfold HDR, nu in *; lia|unfold HDR in *; lia|left|right].
  { split; [by rewrite (bind_ok _ _ _ _ _ E1)|exact E1]. }
  rewrite (Z.mul_comm nu) in Hlim, E1. rewrite (Z.mul_comm nu).
  destruct (grow_rep s l nu m1 H ltac:(lia) Hlim Hm) as [H2 Hm2].
  set (s2 := set_u_mem _ _) in H2. destruct (free_ok _ _ _ _ H2) as (p & m3 & E3 & H3 & Hp & Ho).
  rewrite <- (hr_brk _ _ H) in E3, Ho.
  exists (set_u_freep p (set_u_mem m3 s2)). split; [|split; [|split]].
  - rewrite (bind_ok _ _ _ _ _ E1). destruct (Z.eqb_spec (u_brk s) SBRK_FAILED) as [Hf|_].
    { unfold SBRK_FAILED, USER_TOP in *. lia. }
    rewrite (bind_ok (put_size (u_brk s) nu) _ _ tt s2) by done.
    rewrite hdr_add_id, Z.mul_1_r by (unfold HDR, USER_TOP in *; lia).
    rewrite (bind_ok _ _ _ _ _ E3). done.
  - cbn. apply node_header in Hp as [->|(L & k & R & -> & ->)]; [lia|].
    destruct (proj1 (sized_app _ _ _ _) (hr_sized _ _ H)) as [HL _]. pose proof (seg_end_ge _ _ _ HL). unfold HDR in *; lia.
  - done.
  - assert (forall x, kept l x -> x < u_brk s /\ kept (l ++ [(nu, false)]) x) as Hkept.
    { intros x [Hx|Hx]; [|split; [unfold HDR in *; lia|by right]].
      split; [|left; apply payload_app; by left]. rewrite (hr_brk _ _ H).
      by apply (payload_range _ _ _ _ (hr_sized _ _ H)). }
    intros x [Hx1 Hx2]%Hkept. rewrite <- Hm2 by done.
    refine (frame_headers _ _ _ _ (hr_sized _ _ H2) Hb1 _ Ho x Hx2).
    constructor; [|constructor; [|done]].
    + apply node_header in Hp as [->|(L & k & R & -> & ->)]; [by left|right].
      exists L, k, true, (R ++ [(nu, false)]). by rewrite <- app_assoc.
    + right. exists l, nu, false, []. by rewrite (hr_brk _ _ H).
Qed.

Lemma payload_coalesce a l x : payload a (coalesce l) x <-> payload a l x.
Proof.
  revert a. induction l as [|[n f] l IH]; intros a; cbn; [done|]. rewrite <- IH.
  destruct f; [|done]. destruct (coalesce l) as [|[m []] l']; cbn; try done.
  replace (a + HDR * (n + m)) with (a + HDR * n + HDR * m) by (unfold HDR; lia). naive_solver.
Qed.

(** ** [malloc] *)

(** The tiling after taking [n] units from the end of a free segment. *)
Definition carved (L : segs) (k n : Z) (R : segs) : segs :=
  if k =? n then L ++ (n, false) :: R else L ++ (k - n, true) :: (n, false) :: R.

Lemma coalesced_carved L k n R : coalesced (L ++ (k, true) :: R) -> coalesced (carved L k n R).
Proof.
  unfold carved. intros (HL & HR & Hm)%coalesced_app. destruct HR as [Hf HR]. case_bool; apply coalesced_app.
  - split; [done|]. split; [by split|]. done.
  - split; [done|]. split; [by split|]. intros Hx. by apply Hm in Hx.
Qed.

(** The member before a free segment of the ring. *)
Lemma ring_before s l prev L k R :
  heap_rep s l -> l = L ++ (k, true) :: R -> prev ∈ l_base :: free_addrs start l ->
  h_ptr (u_mem s) prev = seg_end start L ->
  exists N1, l_base :: free_addrs start L = N1 ++ [prev].
Proof.
  intros H -> Hprev Hptr. pose proof (hr_ring _ _ H) as Hr. pose proof (ring_sorted _ _ H) as Hs.
  set (p := seg_end start L) in *. destruct (hr_base _ _ H) as [Hb0 Hb1].
  destruct (proj1 (sized_app _ _ _ _) (hr_sized _ _ H)) as [HL _]. pose proof (seg_end_ge _ _ _ HL) as Hge. fold p in Hge.
  pose proof (sorted_NoDup _ Hs) as Hd.
  apply list_elem_of_split in Hprev as (A & B & HAB). rewrite HAB in Hr. apply lseg_next in Hr. rewrite Hptr in Hr.
  destruct B as [|y B]; cbn in Hr; [unfold HDR in *; lia|]. subst y. exists A.
  rewrite free_addrs_app in HAB, Hd. cbn [free_addrs app] in HAB, Hd. fold p in HAB, Hd.
  change (l_base :: free_addrs start L ++ ?x) with ((l_base :: free_addrs start L) ++ x) in HAB, Hd.
  rewrite HAB in Hd. replace (A ++ prev :: p :: B) with ((A ++ [prev]) ++ p :: B) in HAB, Hd by by rewrite <- app_assoc.
  clear - HAB Hd. revert HAB Hd. generalize (l_base :: free_addrs start L), (A ++ [prev]), (free_addrs (p + HDR * k) R).
  intros X. induction X as [|x X IH]; intros [|y Y] Z HXY Hd; cbn in *; try done.
  - injection HXY as -> HZ. rewrite NoDup_cons in Hd. set_solver.
  - injection HXY as -> HZ. rewrite <- HZ, NoDup_cons in Hd. set_solver.
  - injection HXY as -> HZ. f_equal. eapply IH; [done|]. by inversion Hd.
Qed.

Lemma sized_put_ptr s l prev v :
  heap_rep s l -> prev ∈ l_base :: free_addrs start l -> sized (store64 (u_mem s) prev v) start l.
Proof.
  intros H Hprev. pose proof (hr_sized _ _ H) as Hs. refine (sized_ext _ _ _ _ _ Hs). intros L k f R ->.
  apply h_size_put_ptr. apply elem_of_cons in Hprev as [->|Hprev].
  - right. left. destruct (hr_base _ _ H). apply sized_app in Hs as [HL _].
    pose proof (seg_end_ge _ _ _ HL). unfold HDR in *; lia.
  - destruct (free_header_apart _ _ _ _ _ _ _ Hs Hprev); auto.
Qed.

Lemma carve_all s L n R prev N1 :
  heap_rep s (L ++ (n, true) :: R) -> l_base :: free_addrs start L = N1 ++ [prev] ->
  let m' := store64 (u_mem s) prev (h_ptr (u_mem s) (seg_end start L)) in
  let s' := set_u_freep prev (set_u_mem m' s) in
  heap_rep s' (L ++ (n, false) :: R) /\ heap_frame (L ++ (n, true) :: R) (u_mem s) m'.
Proof.
  intros H HN m' s'. set (l := L ++ (n, true) :: R) in *. set (p := seg_end start L) in *.
  destruct (hr_base _ _ H) as [Hb0 Hb1]. pose proof (hr_sized _ _ H) as Hs.
  assert (l_base :: free_addrs start l = N1 ++ prev :: p :: free_addrs (p + HDR * n) R) as HN'.
  { unfold l. rewrite free_addrs_app. change (?a :: ?b ++ ?c) with ((a :: b) ++ c). by rewrite HN, <- app_assoc. }
  assert (l_base :: free_addrs start (L ++ (n, false) :: R) = N1 ++ prev :: free_addrs (p + HDR * n) R) as HN2.
  { rewrite free_addrs_app. change (?a :: ?b ++ ?c) with ((a :: b) ++ c). by rewrite HN, <- app_assoc. }
  assert (prev ∈ l_base :: free_addrs start l) as Hprev by (rewrite HN'; set_solver).
  pose proof (hr_ring _ _ H) as Hr. rewrite HN' in Hr. apply lseg_app in Hr as (z & Hr1 & -> & [Hpp Hr2]).
  apply sized_app in Hs as HL. destruct HL as (HL & Hn & Hnsz & HR). fold p in Hn, HR, Hnsz.
  pose proof (seg_end_ge _ _ _ HL) as HLe. fold p in HLe. pose proof (seg_end_ge _ _ _ HR) as HRe.
  pose proof (hr_brk _ _ H) as Hbrk. unfold l in Hbrk. rewrite seg_end_app in Hbrk. cbn in Hbrk. fold p in Hbrk.
  pose proof (hr_top _ _ H) as Htop. rewrite Hbrk in Htop.
  assert (only_headers [prev] (u_mem s) m') as Ho by (apply only_headers_put_ptr; by left).
  assert (0 <= h_ptr (u_mem s) p < 2 ^ 64) as Hv.
  { rewrite (lseg_head _ _ _ _ Hr2).
    destruct (free_head_cases _ _ _ l_base HR) as [->|Hh]; unfold USER_TOP, HDR in *; lia. }
  split; [constructor; cbn [u_mem u_freep u_brk set_u_mem set_u_freep s']|].
  - done.
  - by rewrite Hbrk, seg_end_app.
  - by rewrite Hbrk.
  - pose proof (sized_put_ptr s l prev (h_ptr (u_mem s) p) H Hprev) as Hsz. apply sized_app in Hsz. by apply sized_app.
  - unfold m'. rewrite h_size_put_ptr; [apply H|]. apply elem_of_cons in Hprev as [->|Hprev]; [by left|right; right].
    pose proof (free_addrs_range _ _ _ _ Hs Hprev). unfold HDR in *; lia.
  - rewrite HN2. apply lseg_app. exists prev. split; [by eapply ring_keep|]. cbn [lseg]. split; [done|].
    replace (h_ptr m' prev) with (h_ptr (u_mem s) p) by by (symmetry; apply h_ptr_put_ptr).
    refine (lseg_ext _ _ _ _ _ _ Hr2).
    intros a Ha. apply (only_headers_apart [prev]); [done|]. apply list.Forall_singleton.
    pose proof (ring_sorted _ _ H) as Hso. rewrite HN' in Hso. apply StronglySorted_app in Hso as (_ & _ & Hso).
    inversion Hso as [|? ? _ Hall]; subst. left. apply (proj1 (Forall_forall _ _) Hall). by right.
  - rewrite HN2. set_solver.
  - pose proof (coalesced_carved L n n R (hr_coalesced _ _ H)) as Hc. unfold carved in Hc. by rewrite Z.eqb_refl in Hc.
  - apply (frame_headers _ _ [prev]); [done|done| |done]. constructor; [|done].
    apply node_header in Hprev as [->|(L' & k' & R' & E' & ->)]; [by left|right]. by exists L', k', true, R'.
Qed.

Lemma Forall_pair {A} (P : A -> Prop) a b : P a -> P b -> Forall P [a; b].
Proof. intros. by repeat constructor. Qed.

Lemma carve_part s L k n R prev :
  heap_rep s (L ++ (k, true) :: R) -> 1 <= n < k -> prev ∈ l_base :: free_addrs start (L ++ (k, true) :: R) ->
  let p := seg_end start L in let p2 := p + HDR * (k - n) in
  let m' := store32 (store32 (u_mem s) (p + 8) (u32 (k - n))) (p2 + 8) (u32 n) in
  let s' := set_u_freep prev (set_u_mem m' s) in
  heap_rep s' (L ++ (k - n, true) :: (n, false) :: R) /\ heap_frame (L ++ (k, true) :: R) (u_mem s) m' /\
  h_size (store32 (u_mem s) (p + 8) (u32 (k - n))) p = k - n.
Proof.
  intros H Hn Hprev p p2 m' s'. destruct (hr_base _ _ H) as [Hb0 Hb1]. pose proof (hr_sized _ _ H) as Hs.
  apply sized_app in Hs as HL. destruct HL as (HL & Hk & Hksz & HR). fold p in HR, Hksz.
  pose proof (seg_end_ge _ _ _ HL) as HLe. fold p in HLe. pose proof (seg_end_ge _ _ _ HR) as HRe.
  pose proof (hr_brk _ _ H) as Hbrk. rewrite seg_end_app in Hbrk. cbn in Hbrk. fold p in Hbrk.
  pose proof (hr_top _ _ H) as Htop. rewrite Hbrk in Htop.
  assert (p + HDR <= p2 /\ p2 + HDR * n = p + HDR * k /\ p2 + HDR <= p + HDR * k) as (Hp2 & Hp2n & Hp2k) by (unfold p2, HDR; lia).
  set (m1 := store32 (u_mem s) (p + 8) (u32 (k - n))) in *.
  assert (only_headers [p; p2] (u_mem s) m') as Ho.
  { apply (only_headers_trans _ _ m1); apply only_headers_put_size; set_solver. }
  assert (h_size m1 p = k - n) as Hsz1.
  { unfold m1. rewrite u32_id by (unfold HDR, USER_TOP in *; lia). apply h_size_put_size. unfold HDR, USER_TOP in *; lia. }
  assert (free_addrs start (L ++ (k - n, true) :: (n, false) :: R) = free_addrs start (L ++ (k, true) :: R)) as Hfa.
  { rewrite !free_addrs_app. cbn [free_addrs app]. fold p p2. by rewrite Hp2n. }
  assert (forall a, a + HDR <= p \/ p + HDR * k <= a -> h_ptr m' a = h_ptr (u_mem s) a /\ h_size m' a = h_size (u_mem s) a) as Hout.
  { intros a Ha. apply (only_headers_apart [p; p2]); [done|]. apply Forall_pair; unfold apart, HDR in *; lia. }
  split; [constructor; cbn [u_mem u_freep u_brk set_u_mem set_u_freep s']|split; [|done]].
  - done.
  - rewrite Hbrk, seg_end_app. cbn [seg_end]. fold p p2. by rewrite Hp2n.
  - by rewrite Hbrk.
  - apply sized_app. split; [|cbn [sized]; fold p p2; split; [lia|]; split; [|split; [lia|]; split]].
    + refine (sized_frame _ _ _ _ _ Ho _ HL). apply Forall_pair; right; unfold p in *; unfold HDR in *; lia.
    + unfold m'. rewrite h_size_put_size_ne; [done|]. right. done.
    + unfold m'. rewrite u32_id by (unfold HDR, USER_TOP in *; lia). apply h_size_put_size. unfold HDR, USER_TOP in *; lia.
    + rewrite Hp2n. refine (sized_frame _ _ _ _ _ Ho _ HR). apply Forall_pair; left; unfold HDR in *; lia.
  - rewrite <- (hr_base_size _ _ H). apply Hout. left. unfold HDR in *; lia.
  - rewrite Hfa. refine (lseg_ext _ _ _ _ _ _ (hr_ring _ _ H)). rewrite free_addrs_app. cbn [free_addrs app]. fold p.
    intros a [->|[Ha|[->|Ha]%elem_of_cons]%elem_of_app]%elem_of_cons.
    + apply Hout. left. unfold HDR in *; lia.
    + pose proof (free_addrs_range _ _ _ _ HL Ha). apply Hout. left. unfold p, HDR in *; lia.
    + unfold m'. rewrite h_ptr_put_size by (right; right; done). apply h_ptr_put_size. by left.
    + pose proof (free_addrs_range _ _ _ _ HR Ha). apply Hout. right. unfold HDR in *; lia.
  - by rewrite Hfa.
  - pose proof (coalesced_carved L k n R (hr_coalesced _ _ H)) as Hc. unfold carved in Hc.
    by rewrite (proj2 (Z.eqb_neq k n)) in Hc by lia.
  - intros x Hx. apply Ho. destruct Hx as [Hx|Hx]; [|apply Forall_pair; unfold HDR in *; lia].
    destruct (payload_header _ _ _ _ _ _ Hs Hx) as [Hx'|[_ Hx']]; fold p in Hx'; [apply Forall_pair; lia|].
    specialize (Hx' eq_refl). apply Forall_pair; unfold HDR in *; lia.
Qed.

Lemma carve_ok s L k n R prev :
  heap_rep s (L ++ (k, true) :: R) -> 1 <= n <= k ->
  prev ∈ l_base :: free_addrs start (L ++ (k, true) :: R) -> h_ptr (u_mem s) prev = seg_end start L ->
  exists s',
    carve n prev (seg_end start L) s = Ok (seg_end start L + HDR * (k - n) + HDR) s' /\
    heap_rep s' (carved L k n R) /\ heap_frame (L ++ (k, true) :: R) (u_mem s) (u_mem s').
Proof.
  intros H Hn Hprev Hptr. set (p := seg_end start L) in *.
  destruct (proj1 (sized_app _ _ _ _) (hr_sized _ _ H)) as (HL & _ & Hsz & HR). fold p in Hsz, HR.
  pose proof (seg_end_ge _ _ _ HL) as HLe. pose proof (seg_end_ge _ _ _ HR) as HRe.
  destruct (hr_base _ _ H) as [Hb0 Hb1]. pose proof (hr_brk _ _ H) as Hbrk. pose proof (hr_top _ _ H) as Htop.
  rewrite seg_end_app in Hbrk. cbn in Hbrk. fold p in Hbrk, HLe.
  unfold carve, get_size, get_ptr, put_size, put_ptr, carved. step_prim. rewrite Hsz. destruct (Z.eqb_spec k n) as [->|Hne].
  - destruct (ring_before s _ prev L n R H eq_refl Hprev Hptr) as [N1 HN].
    destruct (carve_all s L n R prev N1 H HN) as [H1 H2]. eexists. split; [|split; [exact H1|exact H2]].
    rewrite hdr_add_id by (unfold HDR in *; lia). f_equal. lia.
  - destruct (carve_part s L k n R prev H ltac:(lia) Hprev) as (H1 & H2 & Hsz').
    fold p in H1, H2, Hsz'. cbn [u_mem set_u_mem]. rewrite Hsz', (hdr_add_id p) by (unfold HDR in *; lia).
    eexists. split; [|split; [exact H1|exact H2]]. rewrite hdr_add_id by (unfold HDR in *; lia). by rewrite Z.mul_1_r.
Qed.

(** Once round the ring, from the successor of a member back to it. *)
Lemma ring_tour m x N q :
  lseg m x N x -> NoDup N -> q ∈ N ->
  exists l, lseg m (h_ptr m q) l q /\ q ∉ l /\ l ⊆ N /\ N ⊆ q :: l /\ (length l < length N)%nat.
Proof.
  intros HN Hd Hq. apply list_elem_of_split in Hq as (A & B & ->).
  apply lseg_app in HN as (z & HA & -> & HB). exists (B ++ A).
  rewrite !NoDup_app, NoDup_cons in Hd.
  split; [apply lseg_app; by exists x|]. split; [set_solver|]. split; [set_solver|]. split; [set_solver|].
  repeat (rewrite length_app || cbn). lia.
Qed.

(** The search passes over the members that are too small. *)
Lemma malloc_scan n s N l q prev fuel :
  lseg (u_mem s) q l (u_freep s) -> u_freep s ∉ l -> l ⊆ N -> u_freep s ∈ N ->
  h_ptr (u_mem s) prev = q -> prev ∈ N -> (length l < fuel)%nat ->
  exists prev' p' fuel',
    malloc_loop fuel n prev q s = malloc_loop (S fuel') n prev' p' s /\ (fuel - length l <= S fuel')%nat /\
    h_ptr (u_mem s) prev' = p' /\ prev' ∈ N /\ p' ∈ N /\
    (n <= h_size (u_mem s) p' \/
     p' = u_freep s /\ h_size (u_mem s) p' < n /\ forall x, x ∈ l -> h_size (u_mem s) x < n).
Proof.
  revert q prev fuel. induction l as [|a l IH]; intros q prev fuel; cbn [lseg length].
  - intros -> _ _ Hfp Hptr Hprev Hf. destruct fuel as [|fuel]; [lia|].
    exists prev, (u_freep s), fuel. split; [done|]. split; [lia|]. do 3 (split; [done|]).
    destruct (Z.le_gt_cases n (h_size (u_mem s) (u_freep s))); [by left|right].
    split; [done|]. split; [lia|]. by intros x ?%not_elem_of_nil.
  - intros [-> Hl] Hni Hin Hfp Hptr Hprev Hf. destruct fuel as [|fuel]; [lia|].
    destruct (Z.le_gt_cases n (h_size (u_mem s) a)) as [Hfit|Hfit].
    { exists prev, a, fuel. split; [done|]. split; [lia|]. do 2 (split; [done|]). split; [set_solver|]. by left. }
    rewrite not_elem_of_cons in Hni. destruct Hni as [Hne Hni].
    destruct (IH _ a fuel Hl Hni ltac:(set_solver) Hfp eq_refl ltac:(set_solver) ltac:(lia))
      as (prev' & p' & fuel' & E1 & Hf' & Hptr' & Hprev' & Hp' & Hres).
    exists prev', p', fuel'. split; [|split; [lia|]].
    + rewrite <- E1. cbn [malloc_loop]. unfold get_size, get_ptr. step_prim.
      rewrite (proj2 (Z.leb_gt _ _)) by lia. by rewrite (proj2 (Z.eqb_neq _ _)).
    + do 3 (split; [done|]). destruct Hres as [Hres|(-> & Hsz & Hres)]; [by left|right].
      split; [done|]. split; [done|]. intros x [->|Hx]%elem_of_cons; [lia|]. by apply Hres.
Qed.

(** What [malloc] may return for [n] units, and the tiling then. *)
Definition unfit (n : Z) (l : segs) : Prop := forall k, (k, true) ∈ l -> k < n.
Inductive malloc_result (n : Z) (l : segs) : Z -> segs -> Prop :=
| malloc_fits L k R :
    l = L ++ (k, true) :: R -> n <= k ->
    malloc_result n l (seg_end start L + HDR * (k - n) + HDR) (carved L k n R)
| malloc_grows L k R :
    unfit n l -> coalesce (l ++ [(Z.max n 4096, true)]) = L ++ (k, true) :: R -> n <= k ->
    malloc_result n l (seg_end start L + HDR * (k - n) + HDR) (carved L k n R)
| malloc_fails : unfit n l -> malloc_result n l 0 l.

Lemma length_free_addrs_coalesce a l :
  (length (free_addrs a (coalesce l)) <= length (free_addrs a l))%nat.
Proof.
  revert a. induction l as [|[n f] l IH]; intros a; cbn; [done|]. rewrite length_app.
  specialize (IH (a + HDR * n)). destruct f; cbn [length]; [|exact IH].
  destruct (coalesce l) as [|[m []] l'] eqn:El; cbn [free_addrs app length] in *; try lia.
  replace (a + HDR * (n + m)) with (a + HDR * n + HDR * m) by (unfold HDR; lia). lia.
Qed.

(** Some free segment is large enough. *)
Lemma malloc_loop_hit s l n fuel k0 :
  heap_rep s l -> 1 <= n -> (k0, true) ∈ l -> n <= k0 ->
  (length (l_base :: free_addrs start l) <= fuel)%nat ->
  exists L k R s',
    malloc_loop fuel n (u_freep s) (h_ptr (u_mem s) (u_freep s)) s =
      Ok (seg_end start L + HDR * (k - n) + HDR) s' /\
    l = L ++ (k, true) :: R /\ n <= k /\ heap_rep s' (carved L k n R) /\ heap_frame l (u_mem s) (u_mem s').
Proof.
  intros H Hn Hk0 Hfit Hfuel. set (N := l_base :: free_addrs start l) in *.
  pose proof (hr_freep _ _ H) as Hfp. fold N in Hfp.
  destruct (ring_tour _ _ _ _ (hr_ring _ _ H) (sorted_NoDup _ (ring_sorted _ _ H)) Hfp) as (t & Ht & Hni & Hin & Hcov & Hlen).
  destruct (malloc_scan n s N t _ (u_freep s) fuel Ht Hni Hin Hfp eq_refl Hfp) as (prev & p & f & E1 & _ & Hptr & Hprev & Hp & Hres).
  { unfold N in Hlen, Hfuel. lia. }
  assert (n <= h_size (u_mem s) p) as Hsz.
  { destruct Hres as [Hres|(-> & Hsz & Hres)]; [done|]. exfalso.
    apply list_elem_of_split in Hk0 as (L & R & ->).
    destruct (proj1 (sized_app _ _ _ _) (hr_sized _ _ H)) as (_ & _ & Hksz & _).
    assert (seg_end start L ∈ u_freep s :: t) as [Hq|Hq]%elem_of_cons.
    { apply Hcov. right. rewrite free_addrs_app. cbn. set_solver. }
    - rewrite <- Hq, Hksz in Hsz. lia.
    - specialize (Hres _ Hq). lia. }
  apply node_header in Hp as [->|(L & k & R & -> & ->)]; [rewrite (hr_base_size _ _ H) in Hsz; lia|].
  destruct (proj1 (sized_app _ _ _ _) (hr_sized _ _ H)) as (_ & _ & Hksz & _). rewrite Hksz in Hsz.
  destruct (carve_ok s L k n R prev H ltac:(lia) Hprev Hptr) as (s' & E2 & H' & Hfr).
  exists L, k, R, s'. split; [|done]. rewrite E1. cbn [malloc_loop]. unfold get_size at 1. step_prim.
  rewrite Hksz, (proj2 (Z.leb_le n k)) by done. exact E2.
Qed.

Lemma coalesce_appended l n :
  Forall (fun x => 0 <= x.1) l -> exists k, (k, true) ∈ coalesce (l ++ [(n, true)]) /\ n <= k.
Proof.
  induction 1 as [|[m f] l Hm _ (k & Hk & Hn)]; cbn in *; [exists n; split; [by left|done]|].
  destruct f; [|exists k; split; [by right|done]].
  destruct (coalesce (l ++ [(n, true)])) as [|[k1 []] l'] eqn:E1; [by apply not_elem_of_nil in Hk| |].
  - apply elem_of_cons in Hk as [[= ->]|Hk]; [exists (m + k1)|exists k]; (split; [|lia]); [by left|by right].
  - exists k. split; [by right|done].
Qed.

Lemma sized_nonneg m a l : sized m a l -> Forall (fun x => 0 <= x.1) l.
Proof. revert a. induction l as [|[n f] l IH]; intros a; cbn; constructor; cbn; [lia|]. naive_solver. Qed.

(** A block carved from a free segment never starts at 0. *)
Lemma block_nonzero s l m L n k :
  heap_rep s l -> sized m start L -> n <= k -> seg_end start L + HDR * (k - n) + HDR <> 0.
Proof.
  intros H HL Hk. destruct (hr_base _ _ H) as [Hb0 Hb1]. pose proof (seg_end_ge _ _ _ HL). unfold HDR in *. lia.
Qed.

Lemma malloc_loop_ok s l n fuel :
  heap_rep s l -> 1 <= n -> HDR * n < 2 ^ 31 -> (2 * ring_fuel s + 2 <= fuel)%nat ->
  exists a l' s',
    malloc_loop fuel n (u_freep s) (h_ptr (u_mem s) (u_freep s)) s = Ok a s' /\
    malloc_result n l a l' /\ (a = 0 -> sbrk (Z.max n 4096 * HDR) s' = Ok SBRK_FAILED s') /\
    heap_rep s' l' /\ heap_frame l (u_mem s) (u_mem s').
Proof.
  intros H Hn Hmax Hfuel. pose proof (ring_length _ _ H) as HlenN.
  destruct (decide (Exists (fun x => x.2 = true /\ n <= x.1) l)) as [Hex|Hex].
  { apply Exists_exists in Hex as ([k []] & Hk & Heq & Hle); [|done]. cbn in Hle.
    destruct (malloc_loop_hit s l n fuel k H Hn Hk Hle) as (L & k' & R & s' & E1 & Hl & Hk' & H' & Hf); [lia|].
    exists (seg_end start L + HDR * (k' - n) + HDR), (carved L k' n R), s'. split; [exact E1|].
    split; [by apply malloc_fits|]. split; [|done]. intros Ha. exfalso. subst l.
    destruct (proj1 (sized_app _ _ _ _) (hr_sized _ _ H)) as [HL _]. by apply (block_nonzero _ _ _ _ _ _ H HL Hk'). }
  assert (unfit n l) as Hunfit.
  { intros k Hk. apply Z.nle_gt. intros Hle. apply Hex, Exists_exists. by exists (k, true). }
  set (N := l_base :: free_addrs start l) in *. pose proof (hr_freep _ _ H) as Hfp. fold N in Hfp.
  destruct (ring_tour _ _ _ _ (hr_ring _ _ H) (sorted_NoDup _ (ring_sorted _ _ H)) Hfp) as (t & Ht & Hni & Hin & _ & Hlen).
  fold N in Hin, Hlen.
  destruct (malloc_scan n s N t _ (u_freep s) fuel Ht Hni Hin Hfp eq_refl Hfp) as (prev & p & f & E1 & Hf & Hptr & Hprev & Hp & Hres).
  { lia. }
  assert (h_size (u_mem s) p < n) as Hsmall.
  { apply node_header in Hp as [->|(L & k & R & -> & ->)]; [rewrite (hr_base_size _ _ H); lia|].
    destruct (proj1 (sized_app _ _ _ _) (hr_sized _ _ H)) as (_ & _ & Hksz & _). rewrite Hksz. apply Hunfit. set_solver. }
  destruct Hres as [Hres|(-> & _ & _)]; [lia|].
  rewrite E1. cbn [malloc_loop]. unfold get_size at 1, get_ptr at 1. step_prim.
  rewrite (proj2 (Z.leb_gt _ _) Hsmall), Z.eqb_refl.
  destruct (morecore_ok s l n H Hn Hmax) as [[E2 Hfull]|(s1 & E2 & Hnz & H1 & Hf1)].
  { exists 0, l, s. rewrite E2. split; [done|]. split; [by apply malloc_fails|]. split; [done|]. split; [done|]. by intros x _. }
  rewrite E2, (proj2 (Z.eqb_neq _ _) Hnz).
  destruct (coalesce_appended l (Z.max n 4096) (sized_nonneg _ _ _ (hr_sized _ _ H))) as (k & Hk & Hle).
  destruct (malloc_loop_hit s1 _ n f k H1 Hn Hk ltac:(lia)) as (L & k' & R & s' & E3 & Hl & Hk' & H' & Hf').
  { cbn [length]. pose proof (length_free_addrs_coalesce start (l ++ [(Z.max n 4096, true)])) as Hc.
    rewrite free_addrs_app, length_app in Hc. cbn [free_addrs length app] in Hc. unfold N in *. cbn [length] in *. lia. }
  exists (seg_end start L + HDR * (k' - n) + HDR), (carved L k' n R), s'. split; [exact E3|].
  split; [by apply malloc_grows|]. split.
  { intros Ha. exfalso. pose proof (hr_sized _ _ H1) as HL. rewrite Hl in HL. apply sized_app in HL as [HL _].
    by apply (block_nonzero _ _ _ _ _ _ H1 HL Hk'). }
  split; [done|]. intros x Hx. rewrite <- Hf1 by done. apply Hf'.
  destruct Hx as [Hx|Hx]; [left|by right]. apply payload_coalesce, payload_app. by left.
Qed.

(** ** Allocated segments *)

(** An allocated segment of [n] units starts at [x]. *)
Fixpoint alloc_at (a : Z) (l : segs) (x n : Z) : Prop :=
  match l with
  | [] => False
  | (m, f) :: l => (f = false /\ x = a /\ n = m) \/ alloc_at (a + HDR * m) l x n
  end.

Lemma alloc_at_app a l1 l2 x n : alloc_at a (l1 ++ l2) x n <-> alloc_at a l1 x n \/ alloc_at (seg_end a l1) l2 x n.
Proof. revert a. induction l1 as [|[m f] l1 IH]; intros a; cbn; [tauto|]. rewrite IH. tauto. Qed.

Lemma alloc_at_split a l x n :
  alloc_at a l x n <-> exists L R, l = L ++ (n, false) :: R /\ x = seg_end a L.
Proof.
  split.
  - revert a. induction l as [|[m f] l IH]; intros a; cbn; [done|]. intros [(-> & -> & ->)|H].
    + by exists [], l.
    + destruct (IH _ H) as (L & R & -> & ->). by exists ((m, f) :: L), R.
  - intros (L & R & -> & ->). apply alloc_at_app. right. cbn. by left.
Qed.

Lemma alloc_at_coalesce a l x n : alloc_at a (coalesce l) x n <-> alloc_at a l x n.
Proof.
  revert a. induction l as [|[k f] l IH]; intros a; cbn; [done|]. rewrite <- IH.
  destruct f; [|done]. destruct (coalesce l) as [|[m []] l']; cbn; try done.
  replace (a + HDR * (k + m)) with (a + HDR * k + HDR * m) by (unfold HDR; lia). naive_solver.
Qed.

Lemma alloc_at_range m a l x n : sized m a l -> alloc_at a l x n -> a <= x /\ x + HDR * n <= seg_end a l /\ 1 <= n.
Proof.
  intros Hs (L & R & -> & ->)%alloc_at_split. apply sized_app in Hs as (HL & Hn & _ & HR).
  pose proof (seg_end_ge _ _ _ HL). pose proof (seg_end_ge _ _ _ HR). rewrite seg_end_app. cbn.
  unfold HDR in *. lia.
Qed.

Lemma alloc_at_apart m a l x n y k :
  sized m a l -> alloc_at a l x n -> alloc_at a l y k ->
  x = y /\ n = k \/ x + HDR * n <= y \/ y + HDR * k <= x.
Proof.
  revert a. induction l as [|[j f] l IH]; intros a; [done|]. cbn [sized alloc_at].
  intros (Hj & _ & Hs) [(-> & -> & ->)|Hx] [(_ & -> & ->)|Hy]; [by left| | |by eapply IH].
  - pose proof (alloc_at_range _ _ _ _ _ Hs Hy). right. left. lia.
  - pose proof (alloc_at_range _ _ _ _ _ Hs Hx). right. right. lia.
Qed.

Lemma alloc_at_payload a l x n z : alloc_at a l x n -> x + HDR <= z < x + HDR * n -> payload a l z.
Proof.
  intros (L & R & -> & ->)%alloc_at_split Hz. apply payload_app. right. cbn. by left.
Qed.

Lemma alloc_at_carved L k n R x m :
  alloc_at start (L ++ (k, true) :: R) x m -> alloc_at start (carved L k n R) x m.
Proof.
  intros [Hx|[[? _]|Hx]]%alloc_at_app; [|done|]; unfold carved; case_bool; apply alloc_at_app; subst; cbn; auto.
  right. right. right. by replace (seg_end start L + HDR * (k - n) + HDR * n) with (seg_end start L + HDR * k) by (unfold HDR; lia).
Qed.

Lemma sized_carved m L k n R :
  sized m start (carved L k n R) -> sized m start L /\ sized m (seg_end start L + HDR * k) R.
Proof.
  unfold carved. destruct (Z.eqb_spec k n) as [->|Hne]; intros [HL HR]%sized_app; (split; [done|]); [apply HR|].
  destruct HR as (_ & _ & _ & _ & HR).
  by replace (seg_end start L + HDR * k) with (seg_end start L + HDR * (k - n) + HDR * n) by (unfold HDR; lia).
Qed.

(** The segment carved from a free one, whose units no allocated segment has. *)
Lemma carved_new m L k n R :
  sized m start (carved L k n R) -> 1 <= n <= k ->
  alloc_at start (carved L k n R) (seg_end start L + HDR * (k - n)) n /\
  forall j, ~ alloc_at start (L ++ (k, true) :: R) (seg_end start L + HDR * (k - n)) j.
Proof.
  intros [HL HR]%sized_carved Hk. split.
  - unfold carved. destruct (Z.eqb_spec k n) as [->|Hne]; apply alloc_at_app; right; cbn; [left|right; left];
      (split; [done|]); (split; [unfold HDR; lia|done]).
  - intros j [Hj|[[? _]|Hj]]%alloc_at_app; [|done|].
    + pose proof (alloc_at_range _ _ _ _ _ HL Hj). unfold HDR in *; lia.
    + pose proof (alloc_at_range _ _ _ _ _ HR Hj). unfold HDR in *; lia.
Qed.

(** [malloc] keeps the allocated segments and adds the one it returns, which was
    not one before. *)
Lemma malloc_result_alloc m n l a l' :
  sized m start l' -> 1 <= n -> malloc_result n l a l' ->
  (forall x k, alloc_at start l x k -> alloc_at start l' x k) /\
  (a <> 0 -> alloc_at start l' (a - HDR) n /\ forall k, ~ alloc_at start l (a - HDR) k).
Proof.
  intros Hs' Hn Hres. destruct Hres as [L k R Hl Hk|L k R _ Hl Hk|]; [..|by split].
  - rewrite Hl. split; [intros x j; apply alloc_at_carved|]. intros _. rewrite Z.add_simpl_r. by eapply carved_new.
  - assert (forall x j, alloc_at start l x j -> alloc_at start (L ++ (k, true) :: R) x j) as Hkeep.
    { intros x j Hx. rewrite <- Hl. apply alloc_at_coalesce, alloc_at_app. by left. }
    split; [intros x j Hx; by apply alloc_at_carved, Hkeep|]. intros _. rewrite Z.add_simpl_r.
    destruct (carved_new _ L k n R Hs' ltac:(lia)) as [H1 H2]. split; [done|]. intros j Hj. by apply (H2 j), Hkeep.
Qed.

(** Storing into a payload keeps the heap. *)
Lemma heap_rep_store s l x v :
  heap_rep s l -> payload start l x -> heap_rep (set_u_mem (store8 (u_mem s) x v) s) l.
Proof.
  intros H Hx. destruct (hr_base _ _ H) as [Hb0 Hb1]. pose proof (hr_sized _ _ H) as Hs.
  pose proof (payload_range _ _ _ _ Hs Hx) as Hr.
  assert (forall a, (a = l_base \/ exists L k f R, l = L ++ (k, f) :: R /\ a = seg_end start L) ->
    h_ptr (store8 (u_mem s) x v) a = h_ptr (u_mem s) a /\ h_size (store8 (u_mem s) x v) a = h_size (u_mem s) a) as Hh.
  { intros a Ha. assert (x < a \/ a + HDR <= x) as Hax.
    { destruct Ha as [->|(L & k & f & R & -> & ->)]; [unfold HDR in *; lia|].
      destruct (payload_header _ _ _ _ _ _ Hs Hx); lia. }
    split; [apply load64_ext|apply load32_ext]; intros y Hy; rewrite load8_store8, decide_False by (unfold HDR in *; lia); done. }
  constructor; cbn [u_mem u_freep u_brk set_u_mem]; try apply H.
  - refine (sized_ext _ _ _ _ _ Hs). intros L k f R ->. apply Hh. right. by exists L, k, f, R.
  - rewrite <- (hr_base_size _ _ H). apply Hh. by left.
  - refine (lseg_ext _ _ _ _ _ _ (hr_ring _ _ H)). intros a Ha. apply Hh.
    destruct (node_header _ _ Ha) as [->|(L & k & R & -> & ->)]; [by left|right]. by exists L, k, true, R.
Qed.
End heap.
