(* ===== verification/State.v ===== *)
(** * The state of the kernel

    One record per C struct and one record, [kstate], for the kernel's global
    variables together with the machine state the C code reaches through
    [riscv.h].  Pointers to elements of the static arrays ([procs],
    [bcache.bufs], [inodecache.inodes], [filecache.files]) are indices, null is
    [None]; pointers into pages handed out by [kalloc] are physical addresses. *)

From S2P Require Import Prelude Layout Memory.

(** ** Array sizes *)

Definition NCPU : nat := 8.
Definition NPROC : nat := 64.
Definition OPENFILE : nat := 16.
Definition NDEV : nat := 10.
Definition NFILE : nat := 100.
Definition NBUF : nat := 16.
Definition INODES : nat := 32.
Definition BSIZE : Z := 1024.
Definition NDIRECT : Z := 12.
(** Descriptors of the virtio queue, [NUM] of [virt.h]. *)
Definition NUM : nat := 8.

(** ** Locks and wait channels are addresses in the code; here, names. *)

Inductive lockid :=
| LKmem | LPid | LWait | LProc (i : nat) | LBcache | LIcache | LFcache | LDisk
| LCons | LUart | LPr | LTick | LBuf (i : nat) | LInode (i : nat).

#[export] Instance lockid_eq_dec : EqDecision lockid.
Proof. solve_decision. Defined.
#[export] Instance lockid_countable : Countable lockid.
Proof.
  refine (inj_countable'
    (fun l => match l with
      | LKmem => (0, 0) | LPid => (1, 0) | LWait => (2, 0) | LProc i => (3, i)
      | LBcache => (4, 0) | LIcache => (5, 0) | LFcache => (6, 0) | LDisk => (7, 0)
      | LCons => (8, 0) | LUart => (9, 0) | LPr => (10, 0) | LTick => (11, 0)
      | LBuf i => (12, i) | LInode i => (13, i) end)%nat
    (fun p => match p with
      | (0, _) => LKmem | (1, _) => LPid | (2, _) => LWait | (3, i) => LProc i
      | (4, _) => LBcache | (5, _) => LIcache | (6, _) => LFcache | (7, _) => LDisk
      | (8, _) => LCons | (9, _) => LUart | (10, _) => LPr | (11, _) => LTick
      | (12, i) => LBuf i | (_, i) => LInode i end)%nat _).
  by intros [].
Defined.

Inductive chan :=
| ChProc (i : nat) | ChBuf (i : nat) | ChBufLock (i : nat) | ChInodeLock (i : nat)
| ChUartR | ChConsR | ChTicks | ChDiskFree.

#[export] Instance chan_eq_dec : EqDecision chan.
Proof. solve_decision. Defined.

(** ** Structs *)

(** [struct spinlock]: [lcpu] is the holder's index in [cpus]. *)
Record spinlock := mkSpinlock {
  locked : Z;
  lname : string;
  lcpu : option nat
}.
Definition set_locked (x : Z) (r : spinlock) : spinlock :=
  mkSpinlock x (r.(lname)) (r.(lcpu)).
Definition set_lname (x : string) (r : spinlock) : spinlock :=
  mkSpinlock (r.(locked)) x (r.(lcpu)).
Definition set_lcpu (x : option nat) (r : spinlock) : spinlock :=
  mkSpinlock (r.(locked)) (r.(lname)) x.

(** [struct sleeplock]; its [splock] is the lock [LBuf i] or [LInode i]. *)
Record sleeplock := mkSleeplock {
  sl_locked : Z;
  sl_name : string;
  sl_pid : Z
}.
Definition set_sl_locked (x : Z) (r : sleeplock) : sleeplock :=
  mkSleeplock x (r.(sl_name)) (r.(sl_pid)).
Definition set_sl_name (x : string) (r : sleeplock) : sleeplock :=
  mkSleeplock (r.(sl_locked)) x (r.(sl_pid)).
Definition set_sl_pid (x : Z) (r : sleeplock) : sleeplock :=
  mkSleeplock (r.(sl_locked)) (r.(sl_name)) x.

(** [struct context]: [ra], [sp] and [s0]..[s11]. *)
Record context := mkContext {
  ctx_ra : Z;
  ctx_sp : Z;
  ctx_s : list Z
}.
Definition set_ctx_ra (x : Z) (r : context) : context :=
  mkContext x (r.(ctx_sp)) (r.(ctx_s)).
Definition set_ctx_sp (x : Z) (r : context) : context :=
  mkContext (r.(ctx_ra)) x (r.(ctx_s)).
Definition set_ctx_s (x : list Z) (r : context) : context :=
  mkContext (r.(ctx_ra)) (r.(ctx_sp)) x.

(** [struct cpu]. *)
Record cpu := mkCpu {
  c_proc : option nat;
  c_context : context;
  noff : Z;
  intena : Z
}.
Definition set_c_proc (x : option nat) (r : cpu) : cpu :=
  mkCpu x (r.(c_context)) (r.(noff)) (r.(intena)).
Definition set_c_context (x : context) (r : cpu) : cpu :=
  mkCpu (r.(c_proc)) x (r.(noff)) (r.(intena)).
Definition set_noff (x : Z) (r : cpu) : cpu :=
  mkCpu (r.(c_proc)) (r.(c_context)) x (r.(intena)).
Definition set_intena (x : Z) (r : cpu) : cpu :=
  mkCpu (r.(c_proc)) (r.(c_context)) (r.(noff)) x.

(** [enum procstate]. *)
Inductive procstate := UNUSED | USED | SLEEPING | RUNNABLE | RUNNING | ZOMBIE.
#[export] Instance procstate_eq_dec : EqDecision procstate.
Proof. solve_decision. Defined.

(** [struct proc]; [slock] is the lock [LProc i], the trap frame is a page of memory. *)
Record proc := mkProc {
  p_state : procstate;
  p_name : list Z;
  p_pid : Z;
  p_killed : Z;
  p_xstate : Z;
  p_parent : option nat;
  p_kstack : Z;
  p_chan : option chan;
  p_sz : Z;
  p_trapframe : Z;
  p_pagetable : Z;
  p_cont : context;
  p_openfs : list (option nat);
  p_pwd : option nat
}.
Definition set_p_state (x : procstate) (r : proc) : proc :=
  mkProc x (r.(p_name)) (r.(p_pid)) (r.(p_killed)) (r.(p_xstate)) (r.(p_parent)) (r.(p_kstack)) (r.(p_chan)) (r.(p_sz)) (r.(p_trapframe)) (r.(p_pagetable)) (r.(p_cont)) (r.(p_openfs)) (r.(p_pwd)).
Definition set_p_name (x : list Z) (r : proc) : proc :=
  mkProc (r.(p_state)) x (r.(p_pid)) (r.(p_killed)) (r.(p_xstate)) (r.(p_parent)) (r.(p_kstack)) (r.(p_chan)) (r.(p_sz)) (r.(p_trapframe)) (r.(p_pagetable)) (r.(p_cont)) (r.(p_openfs)) (r.(p_pwd)).
Definition set_p_pid (x : Z) (r : proc) : proc :=
  mkProc (r.(p_state)) (r.(p_name)) x (r.(p_killed)) (r.(p_xstate)) (r.(p_parent)) (r.(p_kstack)) (r.(p_chan)) (r.(p_sz)) (r.(p_trapframe)) (r.(p_pagetable)) (r.(p_cont)) (r.(p_openfs)) (r.(p_pwd)).
Definition set_p_killed (x : Z) (r : proc) : proc :=
  mkProc (r.(p_state)) (r.(p_name)) (r.(p_pid)) x (r.(p_xstate)) (r.(p_parent)) (r.(p_kstack)) (r.(p_chan)) (r.(p_sz)) (r.(p_trapframe)) (r.(p_pagetable)) (r.(p_cont)) (r.(p_openfs)) (r.(p_pwd)).
Definition set_p_xstate (x : Z) (r : proc) : proc :=
  mkProc (r.(p_state)) (r.(p_name)) (r.(p_pid)) (r.(p_killed)) x (r.(p_parent)) (r.(p_kstack)) (r.(p_chan)) (r.(p_sz)) (r.(p_trapframe)) (r.(p_pagetable)) (r.(p_cont)) (r.(p_openfs)) (r.(p_pwd)).
Definition set_p_parent (x : option nat) (r : proc) : proc :=
  mkProc (r.(p_state)) (r.(p_name)) (r.(p_pid)) (r.(p_killed)) (r.(p_xstate)) x (r.(p_kstack)) (r.(p_chan)) (r.(p_sz)) (r.(p_trapframe)) (r.(p_pagetable)) (r.(p_cont)) (r.(p_openfs)) (r.(p_pwd)).
Definition set_p_kstack (x : Z) (r : proc) : proc :=
  mkProc (r.(p_state)) (r.(p_name)) (r.(p_pid)) (r.(p_killed)) (r.(p_xstate)) (r.(p_parent)) x (r.(p_chan)) (r.(p_sz)) (r.(p_trapframe)) (r.(p_pagetable)) (r.(p_cont)) (r.(p_openfs)) (r.(p_pwd)).
Definition set_p_chan (x : option chan) (r : proc) : proc :=
  mkProc (r.(p_state)) (r.(p_name)) (r.(p_pid)) (r.(p_killed)) (r.(p_xstate)) (r.(p_parent)) (r.(p_kstack)) x (r.(p_sz)) (r.(p_trapframe)) (r.(p_pagetable)) (r.(p_cont)) (r.(p_openfs)) (r.(p_pwd)).
Definition set_p_sz (x : Z) (r : proc) : proc :=
  mkProc (r.(p_state)) (r.(p_name)) (r.(p_pid)) (r.(p_killed)) (r.(p_xstate)) (r.(p_parent)) (r.(p_kstack)) (r.(p_chan)) x (r.(p_trapframe)) (r.(p_pagetable)) (r.(p_cont)) (r.(p_openfs)) (r.(p_pwd)).
Definition set_p_trapframe (x : Z) (r : proc) : proc :=
  mkProc (r.(p_state)) (r.(p_name)) (r.(p_pid)) (r.(p_killed)) (r.(p_xstate)) (r.(p_parent)) (r.(p_kstack)) (r.(p_chan)) (r.(p_sz)) x (r.(p_pagetable)) (r.(p_cont)) (r.(p_openfs)) (r.(p_pwd)).
Definition set_p_pagetable (x : Z) (r : proc) : proc :=
  mkProc (r.(p_state)) (r.(p_name)) (r.(p_pid)) (r.(p_killed)) (r.(p_xstate)) (r.(p_parent)) (r.(p_kstack)) (r.(p_chan)) (r.(p_sz)) (r.(p_trapframe)) x (r.(p_cont)) (r.(p_openfs)) (r.(p_pwd)).
Definition set_p_cont (x : context) (r : proc) : proc :=
  mkProc (r.(p_state)) (r.(p_name)) (r.(p_pid)) (r.(p_killed)) (r.(p_xstate)) (r.(p_parent)) (r.(p_kstack)) (r.(p_chan)) (r.(p_sz)) (r.(p_trapframe)) (r.(p_pagetable)) x (r.(p_openfs)) (r.(p_pwd)).
Definition set_p_openfs (x : list (option nat)) (r : proc) : proc :=
  mkProc (r.(p_state)) (r.(p_name)) (r.(p_pid)) (r.(p_killed)) (r.(p_xstate)) (r.(p_parent)) (r.(p_kstack)) (r.(p_chan)) (r.(p_sz)) (r.(p_trapframe)) (r.(p_pagetable)) (r.(p_cont)) x (r.(p_pwd)).
Definition set_p_pwd (x : option nat) (r : proc) : proc :=
  mkProc (r.(p_state)) (r.(p_name)) (r.(p_pid)) (r.(p_killed)) (r.(p_xstate)) (r.(p_parent)) (r.(p_kstack)) (r.(p_chan)) (r.(p_sz)) (r.(p_trapframe)) (r.(p_pagetable)) (r.(p_cont)) (r.(p_openfs)) x.

(** [struct buf]; [b_prev] and [b_next] index [bufs], or are [NBUF] for [&bcache.head]. *)
Record buf := mkBuf {
  b_vaild : Z;
  b_disk : Z;
  b_dev : Z;
  b_blockno : Z;
  b_sk : sleeplock;
  b_refcnt : Z;
  b_prev : nat;
  b_next : nat;
  b_data : list Z
}.
Definition set_b_vaild (x : Z) (r : buf) : buf :=
  mkBuf x (r.(b_disk)) (r.(b_dev)) (r.(b_blockno)) (r.(b_sk)) (r.(b_refcnt)) (r.(b_prev)) (r.(b_next)) (r.(b_data)).
Definition set_b_disk (x : Z) (r : buf) : buf :=
  mkBuf (r.(b_vaild)) x (r.(b_dev)) (r.(b_blockno)) (r.(b_sk)) (r.(b_refcnt)) (r.(b_prev)) (r.(b_next)) (r.(b_data)).
Definition set_b_dev (x : Z) (r : buf) : buf :=
  mkBuf (r.(b_vaild)) (r.(b_disk)) x (r.(b_blockno)) (r.(b_sk)) (r.(b_refcnt)) (r.(b_prev)) (r.(b_next)) (r.(b_data)).
Definition set_b_blockno (x : Z) (r : buf) : buf :=
  mkBuf (r.(b_vaild)) (r.(b_disk)) (r.(b_dev)) x (r.(b_sk)) (r.(b_refcnt)) (r.(b_prev)) (r.(b_next)) (r.(b_data)).
Definition set_b_sk (x : sleeplock) (r : buf) : buf :=
  mkBuf (r.(b_vaild)) (r.(b_disk)) (r.(b_dev)) (r.(b_blockno)) x (r.(b_refcnt)) (r.(b_prev)) (r.(b_next)) (r.(b_data)).
Definition set_b_refcnt (x : Z) (r : buf) : buf :=
  mkBuf (r.(b_vaild)) (r.(b_disk)) (r.(b_dev)) (r.(b_blockno)) (r.(b_sk)) x (r.(b_prev)) (r.(b_next)) (r.(b_data)).
Definition set_b_prev (x : nat) (r : buf) : buf :=
  mkBuf (r.(b_vaild)) (r.(b_disk)) (r.(b_dev)) (r.(b_blockno)) (r.(b_sk)) (r.(b_refcnt)) x (r.(b_next)) (r.(b_data)).
Definition set_b_next (x : nat) (r : buf) : buf :=
  mkBuf (r.(b_vaild)) (r.(b_disk)) (r.(b_dev)) (r.(b_blockno)) (r.(b_sk)) (r.(b_refcnt)) (r.(b_prev)) x (r.(b_data)).
Definition set_b_data (x : list Z) (r : buf) : buf :=
  mkBuf (r.(b_vaild)) (r.(b_disk)) (r.(b_dev)) (r.(b_blockno)) (r.(b_sk)) (r.(b_refcnt)) (r.(b_prev)) (r.(b_next)) x.

(** [struct superblock]. *)
Record superblock := mkSuperblock {
  sb_magic : Z;
  sb_size : Z;
  sb_nblocks : Z;
  sb_ninodes : Z;
  sb_nlog : Z;
  sb_logstart : Z;
  sb_inodestart : Z;
  sb_bmapstart : Z;
  sb_dataStart : Z
}.
Definition set_sb_magic (x : Z) (r : superblock) : superblock :=
  mkSuperblock x (r.(sb_size)) (r.(sb_nblocks)) (r.(sb_ninodes)) (r.(sb_nlog)) (r.(sb_logstart)) (r.(sb_inodestart)) (r.(sb_bmapstart)) (r.(sb_dataStart)).

(** [struct inode]. *)
Record inode := mkInode {
  i_dev : Z;
  i_inum : Z;
  i_ref : Z;
  i_splock : sleeplock;
  i_vaild : Z;
  i_type : Z;
  i_major : Z;
  i_minor : Z;
  i_nlink : Z;
  i_size : Z;
  i_addrs : list Z
}.
Definition set_i_dev (x : Z) (r : inode) : inode :=
  mkInode x (r.(i_inum)) (r.(i_ref)) (r.(i_splock)) (r.(i_vaild)) (r.(i_type)) (r.(i_major)) (r.(i_minor)) (r.(i_nlink)) (r.(i_size)) (r.(i_addrs)).
Definition set_i_inum (x : Z) (r : inode) : inode :=
  mkInode (r.(i_dev)) x (r.(i_ref)) (r.(i_splock)) (r.(i_vaild)) (r.(i_type)) (r.(i_major)) (r.(i_minor)) (r.(i_nlink)) (r.(i_size)) (r.(i_addrs)).
Definition set_i_ref (x : Z) (r : inode) : inode :=
  mkInode (r.(i_dev)) (r.(i_inum)) x (r.(i_splock)) (r.(i_vaild)) (r.(i_type)) (r.(i_major)) (r.(i_minor)) (r.(i_nlink)) (r.(i_size)) (r.(i_addrs)).
Definition set_i_splock (x : sleeplock) (r : inode) : inode :=
  mkInode (r.(i_dev)) (r.(i_inum)) (r.(i_ref)) x (r.(i_vaild)) (r.(i_type)) (r.(i_major)) (r.(i_minor)) (r.(i_nlink)) (r.(i_size)) (r.(i_addrs)).
Definition set_i_vaild (x : Z) (r : inode) : inode :=
  mkInode (r.(i_dev)) (r.(i_inum)) (r.(i_ref)) (r.(i_splock)) x (r.(i_type)) (r.(i_major)) (r.(i_minor)) (r.(i_nlink)) (r.(i_size)) (r.(i_addrs)).
Definition set_i_type (x : Z) (r : inode) : inode :=
  mkInode (r.(i_dev)) (r.(i_inum)) (r.(i_ref)) (r.(i_splock)) (r.(i_vaild)) x (r.(i_major)) (r.(i_minor)) (r.(i_nlink)) (r.(i_size)) (r.(i_addrs)).
Definition set_i_major (x : Z) (r : inode) : inode :=
  mkInode (r.(i_dev)) (r.(i_inum)) (r.(i_ref)) (r.(i_splock)) (r.(i_vaild)) (r.(i_type)) x (r.(i_minor)) (r.(i_nlink)) (r.(i_size)) (r.(i_addrs)).
Definition set_i_minor (x : Z) (r : inode) : inode :=
  mkInode (r.(i_dev)) (r.(i_inum)) (r.(i_ref)) (r.(i_splock)) (r.(i_vaild)) (r.(i_type)) (r.(i_major)) x (r.(i_nlink)) (r.(i_size)) (r.(i_addrs)).
Definition set_i_nlink (x : Z) (r : inode) : inode :=
  mkInode (r.(i_dev)) (r.(i_inum)) (r.(i_ref)) (r.(i_splock)) (r.(i_vaild)) (r.(i_type)) (r.(i_major)) (r.(i_minor)) x (r.(i_size)) (r.(i_addrs)).
Definition set_i_size (x : Z) (r : inode) : inode :=
  mkInode (r.(i_dev)) (r.(i_inum)) (r.(i_ref)) (r.(i_splock)) (r.(i_vaild)) (r.(i_type)) (r.(i_major)) (r.(i_minor)) (r.(i_nlink)) x (r.(i_addrs)).
Definition set_i_addrs (x : list Z) (r : inode) : inode :=
  mkInode (r.(i_dev)) (r.(i_inum)) (r.(i_ref)) (r.(i_splock)) (r.(i_vaild)) (r.(i_type)) (r.(i_major)) (r.(i_minor)) (r.(i_nlink)) (r.(i_size)) x.

(** The [type] of [struct file]. *)
Inductive filetype := FD_NONE | FD_PIPE | FD_INODE | FD_DEVICE.
#[export] Instance filetype_eq_dec : EqDecision filetype.
Proof. solve_decision. Defined.

(** [struct file]. *)
Record file := mkFile {
  f_type : filetype;
  f_ref : Z;
  f_readable : Z;
  f_writable : Z;
  f_ip : option nat;
  f_off : Z;
  f_major : Z
}.
Definition set_f_type (x : filetype) (r : file) : file :=
  mkFile x (r.(f_ref)) (r.(f_readable)) (r.(f_writable)) (r.(f_ip)) (r.(f_off)) (r.(f_major)).
Definition set_f_ref (x : Z) (r : file) : file :=
  mkFile (r.(f_type)) x (r.(f_readable)) (r.(f_writable)) (r.(f_ip)) (r.(f_off)) (r.(f_major)).
Definition set_f_readable (x : Z) (r : file) : file :=
  mkFile (r.(f_type)) (r.(f_ref)) x (r.(f_writable)) (r.(f_ip)) (r.(f_off)) (r.(f_major)).
Definition set_f_writable (x : Z) (r : file) : file :=
  mkFile (r.(f_type)) (r.(f_ref)) (r.(f_readable)) x (r.(f_ip)) (r.(f_off)) (r.(f_major)).
Definition set_f_ip (x : option nat) (r : file) : file :=
  mkFile (r.(f_type)) (r.(f_ref)) (r.(f_readable)) (r.(f_writable)) x (r.(f_off)) (r.(f_major)).
Definition set_f_off (x : Z) (r : file) : file :=
  mkFile (r.(f_type)) (r.(f_ref)) (r.(f_readable)) (r.(f_writable)) (r.(f_ip)) x (r.(f_major)).
Definition set_f_major (x : Z) (r : file) : file :=
  mkFile (r.(f_type)) (r.(f_ref)) (r.(f_readable)) (r.(f_writable)) (r.(f_ip)) (r.(f_off)) x.

(** The UART: its line status register, the values the device will give that
    register after each of the coming writes to the transmit register (unknown to
    the code; when they are used up the register stays), the bytes waiting in
    the receive register and those transmitted (newest first), and the transmit
    ring of [memlayout.c]. *)
Record uart_state := mkUart {
  uart_lsr : Z;
  uart_lsr_next : list Z;
  uart_rx : list Z;
  uart_out : list Z;
  uart_tx_buf : list Z;
  uart_tx_w : Z;
  uart_tx_r : Z
}.
Definition set_uart_lsr (x : Z) (r : uart_state) : uart_state :=
  mkUart x (r.(uart_lsr_next)) (r.(uart_rx)) (r.(uart_out)) (r.(uart_tx_buf)) (r.(uart_tx_w)) (r.(uart_tx_r)).
Definition set_uart_lsr_next (x : list Z) (r : uart_state) : uart_state :=
  mkUart (r.(uart_lsr)) x (r.(uart_rx)) (r.(uart_out)) (r.(uart_tx_buf)) (r.(uart_tx_w)) (r.(uart_tx_r)).
Definition set_uart_rx (x : list Z) (r : uart_state) : uart_state :=
  mkUart (r.(uart_lsr)) (r.(uart_lsr_next)) x (r.(uart_out)) (r.(uart_tx_buf)) (r.(uart_tx_w)) (r.(uart_tx_r)).
Definition set_uart_out (x : list Z) (r : uart_state) : uart_state :=
  mkUart (r.(uart_lsr)) (r.(uart_lsr_next)) (r.(uart_rx)) x (r.(uart_tx_buf)) (r.(uart_tx_w)) (r.(uart_tx_r)).
Definition set_uart_tx_buf (x : list Z) (r : uart_state) : uart_state :=
  mkUart (r.(uart_lsr)) (r.(uart_lsr_next)) (r.(uart_rx)) (r.(uart_out)) x (r.(uart_tx_w)) (r.(uart_tx_r)).
Definition set_uart_tx_w (x : Z) (r : uart_state) : uart_state :=
  mkUart (r.(uart_lsr)) (r.(uart_lsr_next)) (r.(uart_rx)) (r.(uart_out)) (r.(uart_tx_buf)) x (r.(uart_tx_r)).
Definition set_uart_tx_r (x : Z) (r : uart_state) : uart_state :=
  mkUart (r.(uart_lsr)) (r.(uart_lsr_next)) (r.(uart_rx)) (r.(uart_out)) (r.(uart_tx_buf)) (r.(uart_tx_w)) x.

(** [cons] of [console.c]. *)
Record cons_state := mkCons {
  cons_buf : list Z;
  cons_r : Z;
  cons_w : Z;
  cons_e : Z
}.
Definition set_cons_buf (x : list Z) (r : cons_state) : cons_state :=
  mkCons x (r.(cons_r)) (r.(cons_w)) (r.(cons_e)).
Definition set_cons_r (x : Z) (r : cons_state) : cons_state :=
  mkCons (r.(cons_buf)) x (r.(cons_w)) (r.(cons_e)).
Definition set_cons_w (x : Z) (r : cons_state) : cons_state :=
  mkCons (r.(cons_buf)) (r.(cons_r)) x (r.(cons_e)).
Definition set_cons_e (x : Z) (r : cons_state) : cons_state :=
  mkCons (r.(cons_buf)) (r.(cons_r)) (r.(cons_w)) x.

(** Supervisor control registers and [tp]. *)
Record csrs := mkCsrs {
  tp : nat;
  sstatus : Z;
  sepc : Z;
  scause : Z;
  stval : Z;
  stvec : Z;
  satp : Z;
  sip : Z
}.
Definition set_tp (x : nat) (r : csrs) : csrs :=
  mkCsrs x (r.(sstatus)) (r.(sepc)) (r.(scause)) (r.(stval)) (r.(stvec)) (r.(satp)) (r.(sip)).
Definition set_sstatus (x : Z) (r : csrs) : csrs :=
  mkCsrs (r.(tp)) x (r.(sepc)) (r.(scause)) (r.(stval)) (r.(stvec)) (r.(satp)) (r.(sip)).
Definition set_sepc (x : Z) (r : csrs) : csrs :=
  mkCsrs (r.(tp)) (r.(sstatus)) x (r.(scause)) (r.(stval)) (r.(stvec)) (r.(satp)) (r.(sip)).
Definition set_scause (x : Z) (r : csrs) : csrs :=
  mkCsrs (r.(tp)) (r.(sstatus)) (r.(sepc)) x (r.(stval)) (r.(stvec)) (r.(satp)) (r.(sip)).
Definition set_stval (x : Z) (r : csrs) : csrs :=
  mkCsrs (r.(tp)) (r.(sstatus)) (r.(sepc)) (r.(scause)) x (r.(stvec)) (r.(satp)) (r.(sip)).
Definition set_stvec (x : Z) (r : csrs) : csrs :=
  mkCsrs (r.(tp)) (r.(sstatus)) (r.(sepc)) (r.(scause)) (r.(stval)) x (r.(satp)) (r.(sip)).
Definition set_satp (x : Z) (r : csrs) : csrs :=
  mkCsrs (r.(tp)) (r.(sstatus)) (r.(sepc)) (r.(scause)) (r.(stval)) (r.(stvec)) x (r.(sip)).
Definition set_sip (x : Z) (r : csrs) : csrs :=
  mkCsrs (r.(tp)) (r.(sstatus)) (r.(sepc)) (r.(scause)) (r.(stval)) (r.(stvec)) (r.(satp)) x.

(** [bcache] of [fs.c]: the buffers and the links of the list head. *)
Record bcache_state := mkBcache {
  bufs : list buf;
  head_prev : nat;
  head_next : nat
}.
Definition set_bufs (x : list buf) (r : bcache_state) : bcache_state :=
  mkBcache x (r.(head_prev)) (r.(head_next)).
Definition set_head_prev (x : nat) (r : bcache_state) : bcache_state :=
  mkBcache (r.(bufs)) x (r.(head_next)).
Definition set_head_next (x : nat) (r : bcache_state) : bcache_state :=
  mkBcache (r.(bufs)) (r.(head_prev)) x.

(** The globals of [proc.c]. *)
Record ptable := mkPtable {
  procs : list proc;
  initp : option nat;
  nextPid : Z;
  firstinit : Z
}.
Definition set_procs (x : list proc) (r : ptable) : ptable :=
  mkPtable x (r.(initp)) (r.(nextPid)) (r.(firstinit)).
Definition set_initp (x : option nat) (r : ptable) : ptable :=
  mkPtable (r.(procs)) x (r.(nextPid)) (r.(firstinit)).
Definition set_nextPid (x : Z) (r : ptable) : ptable :=
  mkPtable (r.(procs)) (r.(initp)) x (r.(firstinit)).
Definition set_firstinit (x : Z) (r : ptable) : ptable :=
  mkPtable (r.(procs)) (r.(initp)) (r.(nextPid)) x.

(** A function pointer in [devsw]: null, or the console's. *)
Inductive devfn := DevNull | DevConsole.

(** [struct devsw]. *)
Record devsw := mkDevsw {
  sw_read : devfn;
  sw_write : devfn
}.
Definition set_sw_read (x : devfn) (r : devsw) : devsw :=
  mkDevsw x (r.(sw_write)).
Definition set_sw_write (x : devfn) (r : devsw) : devsw :=
  mkDevsw (r.(sw_read)) x.

(** What a descriptor's [addr] points to: [&disk.ops[i]], [b->data] of the
    buffer [i], or [&disk.info[i].status]. *)
Inductive vaddr := VNull | VOp (i : nat) | VData (i : nat) | VStatus (i : nat).

(** [struct virt_desc]. *)
Record vdesc := mkVdesc {
  d_addr : vaddr;
  d_len : Z;
  d_flags : Z;
  d_next : Z
}.
Definition set_d_addr (x : vaddr) (r : vdesc) : vdesc :=
  mkVdesc x (r.(d_len)) (r.(d_flags)) (r.(d_next)).
Definition set_d_len (x : Z) (r : vdesc) : vdesc :=
  mkVdesc (r.(d_addr)) x (r.(d_flags)) (r.(d_next)).
Definition set_d_flags (x : Z) (r : vdesc) : vdesc :=
  mkVdesc (r.(d_addr)) (r.(d_len)) x (r.(d_next)).
Definition set_d_next (x : Z) (r : vdesc) : vdesc :=
  mkVdesc (r.(d_addr)) (r.(d_len)) (r.(d_flags)) x.

(** [struct virt_blk_req]. *)
Record vop := mkVop {
  o_type : Z;
  o_reserved : Z;
  o_sector : Z
}.
Definition set_o_type (x : Z) (r : vop) : vop :=
  mkVop x (r.(o_reserved)) (r.(o_sector)).
Definition set_o_reserved (x : Z) (r : vop) : vop :=
  mkVop (r.(o_type)) x (r.(o_sector)).
Definition set_o_sector (x : Z) (r : vop) : vop :=
  mkVop (r.(o_type)) (r.(o_reserved)) x.

(** [disk] of [virt.c], with the rings of its [pages]: [v_avail_index] is
    [avail->index], [v_used_index] is [used->idx], [v_used_idx] the driver's
    own [used_idx]; [v_notify] counts the writes to the queue notify register,
    [v_intr_status] is the interrupt status register and [v_intr_ack] the values
    written to the acknowledge register, latest first. *)
Record virtio := mkVirtio {
  v_desc : list vdesc;
  v_avail_index : Z;
  v_avail_ring : list Z;
  v_used_index : Z;
  v_used_ring : list Z;
  v_free : list Z;
  v_info_b : list (option nat);
  v_info_status : list Z;
  v_used_idx : Z;
  v_ops : list vop;
  v_notify : Z;
  v_intr_status : Z;
  v_intr_ack : list Z
}.
Definition set_v_desc (x : list vdesc) (r : virtio) : virtio :=
  mkVirtio x (r.(v_avail_index)) (r.(v_avail_ring)) (r.(v_used_index)) (r.(v_used_ring)) (r.(v_free)) (r.(v_info_b)) (r.(v_info_status)) (r.(v_used_idx)) (r.(v_ops)) (r.(v_notify)) (r.(v_intr_status)) (r.(v_intr_ack)).
Definition set_v_avail_index (x : Z) (r : virtio) : virtio :=
  mkVirtio (r.(v_desc)) x (r.(v_avail_ring)) (r.(v_used_index)) (r.(v_used_ring)) (r.(v_free)) (r.(v_info_b)) (r.(v_info_status)) (r.(v_used_idx)) (r.(v_ops)) (r.(v_notify)) (r.(v_intr_status)) (r.(v_intr_ack)).
Definition set_v_avail_ring (x : list Z) (r : virtio) : virtio :=
  mkVirtio (r.(v_desc)) (r.(v_avail_index)) x (r.(v_used_index)) (r.(v_used_ring)) (r.(v_free)) (r.(v_info_b)) (r.(v_info_status)) (r.(v_used_idx)) (r.(v_ops)) (r.(v_notify)) (r.(v_intr_status)) (r.(v_intr_ack)).
Definition set_v_used_index (x : Z) (r : virtio) : virtio :=
  mkVirtio (r.(v_desc)) (r.(v_avail_index)) (r.(v_avail_ring)) x (r.(v_used_ring)) (r.(v_free)) (r.(v_info_b)) (r.(v_info_status)) (r.(v_used_idx)) (r.(v_ops)) (r.(v_notify)) (r.(v_intr_status)) (r.(v_intr_ack)).
Definition set_v_used_ring (x : list Z) (r : virtio) : virtio :=
  mkVirtio (r.(v_desc)) (r.(v_avail_index)) (r.(v_avail_ring)) (r.(v_used_index)) x (r.(v_free)) (r.(v_info_b)) (r.(v_info_status)) (r.(v_used_idx)) (r.(v_ops)) (r.(v_notify)) (r.(v_intr_status)) (r.(v_intr_ack)).
Definition set_v_free (x : list Z) (r : virtio) : virtio :=
  mkVirtio (r.(v_desc)) (r.(v_avail_index)) (r.(v_avail_ring)) (r.(v_used_index)) (r.(v_used_ring)) x (r.(v_info_b)) (r.(v_info_status)) (r.(v_used_idx)) (r.(v_ops)) (r.(v_notify)) (r.(v_intr_status)) (r.(v_intr_ack)).
Definition set_v_info_b (x : list (option nat)) (r : virtio) : virtio :=
  mkVirtio (r.(v_desc)) (r.(v_avail_index)) (r.(v_avail_ring)) (r.(v_used_index)) (r.(v_used_ring)) (r.(v_free)) x (r.(v_info_status)) (r.(v_used_idx)) (r.(v_ops)) (r.(v_notify)) (r.(v_intr_status)) (r.(v_intr_ack)).
Definition set_v_info_status (x : list Z) (r : virtio) : virtio :=
  mkVirtio (r.(v_desc)) (r.(v_avail_index)) (r.(v_avail_ring)) (r.(v_used_index)) (r.(v_used_ring)) (r.(v_free)) (r.(v_info_b)) x (r.(v_used_idx)) (r.(v_ops)) (r.(v_notify)) (r.(v_intr_status)) (r.(v_intr_ack)).
Definition set_v_used_idx (x : Z) (r : virtio) : virtio :=
  mkVirtio (r.(v_desc)) (r.(v_avail_index)) (r.(v_avail_ring)) (r.(v_used_index)) (r.(v_used_ring)) (r.(v_free)) (r.(v_info_b)) (r.(v_info_status)) x (r.(v_ops)) (r.(v_notify)) (r.(v_intr_status)) (r.(v_intr_ack)).
Definition set_v_ops (x : list vop) (r : virtio) : virtio :=
  mkVirtio (r.(v_desc)) (r.(v_avail_index)) (r.(v_avail_ring)) (r.(v_used_index)) (r.(v_used_ring)) (r.(v_free)) (r.(v_info_b)) (r.(v_info_status)) (r.(v_used_idx)) x (r.(v_notify)) (r.(v_intr_status)) (r.(v_intr_ack)).
Definition set_v_notify (x : Z) (r : virtio) : virtio :=
  mkVirtio (r.(v_desc)) (r.(v_avail_index)) (r.(v_avail_ring)) (r.(v_used_index)) (r.(v_used_ring)) (r.(v_free)) (r.(v_info_b)) (r.(v_info_status)) (r.(v_used_idx)) (r.(v_ops)) x (r.(v_intr_status)) (r.(v_intr_ack)).
Definition set_v_intr_status (x : Z) (r : virtio) : virtio :=
  mkVirtio (r.(v_desc)) (r.(v_avail_index)) (r.(v_avail_ring)) (r.(v_used_index)) (r.(v_used_ring)) (r.(v_free)) (r.(v_info_b)) (r.(v_info_status)) (r.(v_used_idx)) (r.(v_ops)) (r.(v_notify)) x (r.(v_intr_ack)).
Definition set_v_intr_ack (x : list Z) (r : virtio) : virtio :=
  mkVirtio (r.(v_desc)) (r.(v_avail_index)) (r.(v_avail_ring)) (r.(v_used_index)) (r.(v_used_ring)) (r.(v_free)) (r.(v_info_b)) (r.(v_info_status)) (r.(v_used_idx)) (r.(v_ops)) (r.(v_notify)) (r.(v_intr_status)) x.

(** The whole kernel: RAM, the free page list of [kmem], and the globals of each file. *)
Record kstate := mkKstate {
  k_mem : memory;
  k_freelist : Z;
  k_pagetable : Z;
  k_csr : csrs;
  k_cpus : list cpu;
  k_locks : gmap lockid spinlock;
  k_uart : uart_state;
  k_cons : cons_state;
  k_locking : Z;
  k_panicked : Z;
  k_proc : ptable;
  k_ticks : Z;
  k_bcache : bcache_state;
  k_inodes : list inode;
  k_sb : superblock;
  k_disk : gmap Z (list Z);
  k_files : list file;
  k_virtio : virtio;
  k_devsw : list devsw;
  k_started : Z
}.
Definition set_k_mem (x : memory) (r : kstate) : kstate :=
  mkKstate x (r.(k_freelist)) (r.(k_pagetable)) (r.(k_csr)) (r.(k_cpus)) (r.(k_locks)) (r.(k_uart)) (r.(k_cons)) (r.(k_locking)) (r.(k_panicked)) (r.(k_proc)) (r.(k_ticks)) (r.(k_bcache)) (r.(k_inodes)) (r.(k_sb)) (r.(k_disk)) (r.(k_files)) (r.(k_virtio)) (r.(k_devsw)) (r.(k_started)).
Definition set_k_freelist (x : Z) (r : kstate) : kstate :=
  mkKstate (r.(k_mem)) x (r.(k_pagetable)) (r.(k_csr)) (r.(k_cpus)) (r.(k_locks)) (r.(k_uart)) (r.(k_cons)) (r.(k_locking)) (r.(k_panicked)) (r.(k_proc)) (r.(k_ticks)) (r.(k_bcache)) (r.(k_inodes)) (r.(k_sb)) (r.(k_disk)) (r.(k_files)) (r.(k_virtio)) (r.(k_devsw)) (r.(k_started)).
Definition set_k_pagetable (x : Z) (r : kstate) : kstate :=
  mkKstate (r.(k_mem)) (r.(k_freelist)) x (r.(k_csr)) (r.(k_cpus)) (r.(k_locks)) (r.(k_uart)) (r.(k_cons)) (r.(k_locking)) (r.(k_panicked)) (r.(k_proc)) (r.(k_ticks)) (r.(k_bcache)) (r.(k_inodes)) (r.(k_sb)) (r.(k_disk)) (r.(k_files)) (r.(k_virtio)) (r.(k_devsw)) (r.(k_started)).
Definition set_k_csr (x : csrs) (r : kstate) : kstate :=
  mkKstate (r.(k_mem)) (r.(k_freelist)) (r.(k_pagetable)) x (r.(k_cpus)) (r.(k_locks)) (r.(k_uart)) (r.(k_cons)) (r.(k_locking)) (r.(k_panicked)) (r.(k_proc)) (r.(k_ticks)) (r.(k_bcache)) (r.(k_inodes)) (r.(k_sb)) (r.(k_disk)) (r.(k_files)) (r.(k_virtio)) (r.(k_devsw)) (r.(k_started)).
Definition set_k_cpus (x : list cpu) (r : kstate) : kstate :=
  mkKstate (r.(k_mem)) (r.(k_freelist)) (r.(k_pagetable)) (r.(k_csr)) x (r.(k_locks)) (r.(k_uart)) (r.(k_cons)) (r.(k_locking)) (r.(k_panicked)) (r.(k_proc)) (r.(k_ticks)) (r.(k_bcache)) (r.(k_inodes)) (r.(k_sb)) (r.(k_disk)) (r.(k_files)) (r.(k_virtio)) (r.(k_devsw)) (r.(k_started)).
Definition set_k_locks (x : gmap lockid spinlock) (r : kstate) : kstate :=
  mkKstate (r.(k_mem)) (r.(k_freelist)) (r.(k_pagetable)) (r.(k_csr)) (r.(k_cpus)) x (r.(k_uart)) (r.(k_cons)) (r.(k_locking)) (r.(k_panicked)) (r.(k_proc)) (r.(k_ticks)) (r.(k_bcache)) (r.(k_inodes)) (r.(k_sb)) (r.(k_disk)) (r.(k_files)) (r.(k_virtio)) (r.(k_devsw)) (r.(k_started)).
Definition set_k_uart (x : uart_state) (r : kstate) : kstate :=
  mkKstate (r.(k_mem)) (r.(k_freelist)) (r.(k_pagetable)) (r.(k_csr)) (r.(k_cpus)) (r.(k_locks)) x (r.(k_cons)) (r.(k_locking)) (r.(k_panicked)) (r.(k_proc)) (r.(k_ticks)) (r.(k_bcache)) (r.(k_inodes)) (r.(k_sb)) (r.(k_disk)) (r.(k_files)) (r.(k_virtio)) (r.(k_devsw)) (r.(k_started)).
Definition set_k_cons (x : cons_state) (r : kstate) : kstate :=
  mkKstate (r.(k_mem)) (r.(k_freelist)) (r.(k_pagetable)) (r.(k_csr)) (r.(k_cpus)) (r.(k_locks)) (r.(k_uart)) x (r.(k_locking)) (r.(k_panicked)) (r.(k_proc)) (r.(k_ticks)) (r.(k_bcache)) (r.(k_inodes)) (r.(k_sb)) (r.(k_disk)) (r.(k_files)) (r.(k_virtio)) (r.(k_devsw)) (r.(k_started)).
Definition set_k_locking (x : Z) (r : kstate) : kstate :=
  mkKstate (r.(k_mem)) (r.(k_freelist)) (r.(k_pagetable)) (r.(k_csr)) (r.(k_cpus)) (r.(k_locks)) (r.(k_uart)) (r.(k_cons)) x (r.(k_panicked)) (r.(k_proc)) (r.(k_ticks)) (r.(k_bcache)) (r.(k_inodes)) (r.(k_sb)) (r.(k_disk)) (r.(k_files)) (r.(k_virtio)) (r.(k_devsw)) (r.(k_started)).
Definition set_k_panicked (x : Z) (r : kstate) : kstate :=
  mkKstate (r.(k_mem)) (r.(k_freelist)) (r.(k_pagetable)) (r.(k_csr)) (r.(k_cpus)) (r.(k_locks)) (r.(k_uart)) (r.(k_cons)) (r.(k_locking)) x (r.(k_proc)) (r.(k_ticks)) (r.(k_bcache)) (r.(k_inodes)) (r.(k_sb)) (r.(k_disk)) (r.(k_files)) (r.(k_virtio)) (r.(k_devsw)) (r.(k_started)).
Definition set_k_proc (x : ptable) (r : kstate) : kstate :=
  mkKstate (r.(k_mem)) (r.(k_freelist)) (r.(k_pagetable)) (r.(k_csr)) (r.(k_cpus)) (r.(k_locks)) (r.(k_uart)) (r.(k_cons)) (r.(k_locking)) (r.(k_panicked)) x (r.(k_ticks)) (r.(k_bcache)) (r.(k_inodes)) (r.(k_sb)) (r.(k_disk)) (r.(k_files)) (r.(k_virtio)) (r.(k_devsw)) (r.(k_started)).
Definition set_k_ticks (x : Z) (r : kstate) : kstate :=
  mkKstate (r.(k_mem)) (r.(k_freelist)) (r.(k_pagetable)) (r.(k_csr)) (r.(k_cpus)) (r.(k_locks)) (r.(k_uart)) (r.(k_cons)) (r.(k_locking)) (r.(k_panicked)) (r.(k_proc)) x (r.(k_bcache)) (r.(k_inodes)) (r.(k_sb)) (r.(k_disk)) (r.(k_files)) (r.(k_virtio)) (r.(k_devsw)) (r.(k_started)).
Definition set_k_bcache (x : bcache_state) (r : kstate) : kstate :=
  mkKstate (r.(k_mem)) (r.(k_freelist)) (r.(k_pagetable)) (r.(k_csr)) (r.(k_cpus)) (r.(k_locks)) (r.(k_uart)) (r.(k_cons)) (r.(k_locking)) (r.(k_panicked)) (r.(k_proc)) (r.(k_ticks)) x (r.(k_inodes)) (r.(k_sb)) (r.(k_disk)) (r.(k_files)) (r.(k_virtio)) (r.(k_devsw)) (r.(k_started)).
Definition set_k_inodes (x : list inode) (r : kstate) : kstate :=
  mkKstate (r.(k_mem)) (r.(k_freelist)) (r.(k_pagetable)) (r.(k_csr)) (r.(k_cpus)) (r.(k_locks)) (r.(k_uart)) (r.(k_cons)) (r.(k_locking)) (r.(k_panicked)) (r.(k_proc)) (r.(k_ticks)) (r.(k_bcache)) x (r.(k_sb)) (r.(k_disk)) (r.(k_files)) (r.(k_virtio)) (r.(k_devsw)) (r.(k_started)).
Definition set_k_sb (x : superblock) (r : kstate) : kstate :=
  mkKstate (r.(k_mem)) (r.(k_freelist)) (r.(k_pagetable)) (r.(k_csr)) (r.(k_cpus)) (r.(k_locks)) (r.(k_uart)) (r.(k_cons)) (r.(k_locking)) (r.(k_panicked)) (r.(k_proc)) (r.(k_ticks)) (r.(k_bcache)) (r.(k_inodes)) x (r.(k_disk)) (r.(k_files)) (r.(k_virtio)) (r.(k_devsw)) (r.(k_started)).
Definition set_k_disk (x : gmap Z (list Z)) (r : kstate) : kstate :=
  mkKstate (r.(k_mem)) (r.(k_freelist)) (r.(k_pagetable)) (r.(k_csr)) (r.(k_cpus)) (r.(k_locks)) (r.(k_uart)) (r.(k_cons)) (r.(k_locking)) (r.(k_panicked)) (r.(k_proc)) (r.(k_ticks)) (r.(k_bcache)) (r.(k_inodes)) (r.(k_sb)) x (r.(k_files)) (r.(k_virtio)) (r.(k_devsw)) (r.(k_started)).
Definition set_k_files (x : list file) (r : kstate) : kstate :=
  mkKstate (r.(k_mem)) (r.(k_freelist)) (r.(k_pagetable)) (r.(k_csr)) (r.(k_cpus)) (r.(k_locks)) (r.(k_uart)) (r.(k_cons)) (r.(k_locking)) (r.(k_panicked)) (r.(k_proc)) (r.(k_ticks)) (r.(k_bcache)) (r.(k_inodes)) (r.(k_sb)) (r.(k_disk)) x (r.(k_virtio)) (r.(k_devsw)) (r.(k_started)).
Definition set_k_virtio (x : virtio) (r : kstate) : kstate :=
  mkKstate (r.(k_mem)) (r.(k_freelist)) (r.(k_pagetable)) (r.(k_csr)) (r.(k_cpus)) (r.(k_locks)) (r.(k_uart)) (r.(k_cons)) (r.(k_locking)) (r.(k_panicked)) (r.(k_proc)) (r.(k_ticks)) (r.(k_bcache)) (r.(k_inodes)) (r.(k_sb)) (r.(k_disk)) (r.(k_files)) x (r.(k_devsw)) (r.(k_started)).
Definition set_k_devsw (x : list devsw) (r : kstate) : kstate :=
  mkKstate (r.(k_mem)) (r.(k_freelist)) (r.(k_pagetable)) (r.(k_csr)) (r.(k_cpus)) (r.(k_locks)) (r.(k_uart)) (r.(k_cons)) (r.(k_locking)) (r.(k_panicked)) (r.(k_proc)) (r.(k_ticks)) (r.(k_bcache)) (r.(k_inodes)) (r.(k_sb)) (r.(k_disk)) (r.(k_files)) (r.(k_virtio)) x (r.(k_started)).
Definition set_k_started (x : Z) (r : kstate) : kstate :=
  mkKstate (r.(k_mem)) (r.(k_freelist)) (r.(k_pagetable)) (r.(k_csr)) (r.(k_cpus)) (r.(k_locks)) (r.(k_uart)) (r.(k_cons)) (r.(k_locking)) (r.(k_panicked)) (r.(k_proc)) (r.(k_ticks)) (r.(k_bcache)) (r.(k_inodes)) (r.(k_sb)) (r.(k_disk)) (r.(k_files)) (r.(k_virtio)) (r.(k_devsw)) x.

(** A kernel computation. *)
Abbreviation K := (prog kstate).

(** The values of the [.bss] section. *)
Definition context0 : context := mkContext 0 0 (replicate 12 0).
Definition cpu0 : cpu := mkCpu None context0 0 0.
Definition spinlock0 : spinlock := mkSpinlock 0 EmptyString None.
Definition sleeplock0 : sleeplock := mkSleeplock 0 EmptyString 0.
Definition proc0 : proc :=
  mkProc UNUSED (replicate 16 0) 0 0 0 None 0 None 0 0 0 context0 (replicate OPENFILE None) None.
Definition buf0 : buf := mkBuf 0 0 0 0 sleeplock0 0 0 0 (replicate (Z.to_nat BSIZE) 0).
Definition inode0 : inode := mkInode 0 0 0 sleeplock0 0 0 0 0 0 0 (replicate 13 0).
Definition file0 : file := mkFile FD_NONE 0 0 0 None 0 0.

Definition vdesc0 : vdesc := mkVdesc VNull 0 0 0.
Definition vop0 : vop := mkVop 0 0 0.
Definition virtio0 : virtio :=
  mkVirtio (replicate NUM vdesc0) 0 (replicate NUM 0) 0 (replicate NUM 0) (replicate NUM 0)
    (replicate NUM None) (replicate NUM 0) 0 (replicate NUM vop0) 0 0 [].

#[export] Instance devsw_inhabited : Inhabited devsw := populate (mkDevsw DevNull DevNull).
#[export] Instance vdesc_inhabited : Inhabited vdesc := populate vdesc0.
#[export] Instance vop_inhabited : Inhabited vop := populate vop0.
#[export] Instance cpu_inhabited : Inhabited cpu := populate cpu0.
#[export] Instance spinlock_inhabited : Inhabited spinlock := populate spinlock0.
#[export] Instance proc_inhabited : Inhabited proc := populate proc0.
#[export] Instance buf_inhabited : Inhabited buf := populate buf0.
#[export] Instance inode_inhabited : Inhabited inode := populate inode0.
#[export] Instance file_inhabited : Inhabited file := populate file0.

(** The state when [main] starts on hart 0: [.bss] is zero, the UART can
    transmit, the disk holds what it holds. *)
Definition kstate0 (disk : gmap Z (list Z)) : kstate :=
  mkKstate ∅ 0 0 (mkCsrs 0 0 0 0 0 0 0 0) (replicate NCPU cpu0) ∅
    (mkUart 0x20 [] [] [] (replicate 32 0) 0 0) (mkCons (replicate 128 0) 0 0 0) 0 0
    (mkPtable (replicate NPROC proc0) None 1 1) 0
    (mkBcache (replicate NBUF buf0) 0 0) (replicate INODES inode0)
    (mkSuperblock 0 0 0 0 0 0 0 0 0) disk (replicate NFILE file0) virtio0
    (replicate NDEV (mkDevsw DevNull DevNull)) 0.

(** Reduce setters and projections of the state, and compare two states field
    by field. *)
Ltac kred :=
  cbn [k_mem k_freelist k_pagetable k_csr k_cpus k_locks k_uart k_cons
    k_locking k_panicked k_proc k_ticks k_bcache k_inodes k_sb k_disk
    k_files k_virtio k_devsw k_started set_k_mem set_k_freelist
    set_k_pagetable set_k_csr set_k_cpus set_k_locks set_k_uart set_k_cons
    set_k_locking set_k_panicked set_k_proc set_k_ticks set_k_bcache
    set_k_inodes set_k_sb set_k_disk set_k_files set_k_virtio set_k_devsw
    set_k_started].
Tactic Notation "kred" "in" hyp(H) :=
  cbn [k_mem k_freelist k_pagetable k_csr k_cpus k_locks k_uart k_cons
    k_locking k_panicked k_proc k_ticks k_bcache k_inodes k_sb k_disk
    k_files k_virtio k_devsw k_started set_k_mem set_k_freelist
    set_k_pagetable set_k_csr set_k_cpus set_k_locks set_k_uart set_k_cons
    set_k_locking set_k_panicked set_k_proc set_k_ticks set_k_bcache
    set_k_inodes set_k_sb set_k_disk set_k_files set_k_virtio set_k_devsw
    set_k_started] in H.
Lemma kstate_ext (s s' : kstate) :
  k_mem s = k_mem s' -> k_freelist s = k_freelist s' -> k_pagetable s =
  k_pagetable s' -> k_csr s = k_csr s' -> k_cpus s = k_cpus s' -> k_locks s
  = k_locks s' -> k_uart s = k_uart s' -> k_cons s = k_cons s' -> k_locking
  s = k_locking s' -> k_panicked s = k_panicked s' -> k_proc s = k_proc s'
  -> k_ticks s = k_ticks s' -> k_bcache s = k_bcache s' -> k_inodes s =
  k_inodes s' -> k_sb s = k_sb s' -> k_disk s = k_disk s' -> k_files s =
  k_files s' -> k_virtio s = k_virtio s' -> k_devsw s = k_devsw s' ->
  k_started s = k_started s' -> s = s'.
Proof. destruct s, s'. cbn. intros. by subst. Qed.

Ltac kstate_eq := apply kstate_ext; kred; try reflexivity.

(** The spinlock at an address: zero-initialised unless written. *)
Definition lock_at (s : kstate) (l : lockid) : spinlock := default spinlock0 (k_locks s !! l).
