(* ===== verification/Spinlock.v ===== *)
(** * [spinlock.c]: spinlocks and the interrupt-disable nesting

    Run by one hart: a lock that is held by another hart blocks [acquire].
    (The interleaving of harts is the subject of [SpinSmp.v].)  The main lemma,
    [release_neutral], says that a critical section which leaves locks and
    [cpus] alone is transparent: apart from the record [push_off] leaves in
    [intena], entering and leaving it restores locks, nesting depth and the
    interrupt enable bit. *)

From S2P Require Import Prelude Layout Memory State.

(** ** [riscv.h]: the interrupt enable bit *)

Definition SSTATUS_SIE : Z := Z.shiftl 1 1.

Definition intr_get : K bool := gets (fun s => flag (sstatus (k_csr s)) SSTATUS_SIE).
Definition w_sstatus (x : Z) : K unit := modify (fun s => set_k_csr (set_sstatus x (k_csr s)) s).
Definition r_sstatus : K Z := gets (fun s => sstatus (k_csr s)).
Definition intr_on : K unit := x ← r_sstatus; w_sstatus (Z.lor x SSTATUS_SIE).
Definition intr_off : K unit := x ← r_sstatus; w_sstatus (Z.land x (Z.lnot SSTATUS_SIE)).

(** ** The current hart *)

Definition hart (s : kstate) : nat := tp (k_csr s).
Definition cpuid : K nat := gets hart.
Definition cpu_of (s : kstate) : cpu := k_cpus s !!! hart s.
Definition mycpu : K cpu := gets cpu_of.
Definition upd_cpu (f : cpu -> cpu) (s : kstate) : kstate :=
  set_k_cpus (upd_at (hart s) f (k_cpus s)) s.
Definition upd_mycpu (f : cpu -> cpu) : K unit := modify (upd_cpu f).

Definition push_off : K unit :=
  old ← intr_get;
  intr_off;;
  c ← mycpu;
  (if noff c =? 0 then upd_mycpu (set_intena (Z.b2z old)) else mret tt);;
  upd_mycpu (fun c => set_noff (i32 (noff c + 1)) c).

Definition pop_off : K unit :=
  i ← intr_get;
  if (i : bool) then panic "pop_off - interruptible" else
  c ← mycpu;
  if noff c <? 1 then panic "pop_off" else
  upd_mycpu (set_noff (noff c - 1));;
  c ← mycpu;
  if (noff c =? 0) && negb (intena c =? 0) then intr_on else mret tt.

(** ** Locks *)

Definition upd_lock (l : lockid) (f : spinlock -> spinlock) : K unit :=
  modify (fun s => set_k_locks (<[l := f (lock_at s l)]> (k_locks s)) s).

Definition initlock (l : lockid) (name : string) : K unit :=
  upd_lock l (set_lname name);; upd_lock l (set_locked 0).

Definition holdinglock (l : lockid) : K bool :=
  gets (fun s => negb (locked (lock_at s l) =? 0) && bool_decide (lcpu (lock_at s l) = Some (hart s))).

(** [atmswap] of [atomic.S]: an atomic exchange with 1, returning the old value. *)
Definition atmswap (l : lockid) : K Z :=
  old ← gets (fun s => locked (lock_at s l));
  upd_lock l (set_locked 1);;
  mret old.

Definition acquire (l : lockid) : K unit :=
  push_off;;
  h ← holdinglock l;
  if (h : bool) then panic "acquire...\n" else
  old ← atmswap l;
  if negb (old =? 0) then block else
  id ← cpuid;
  upd_lock l (set_lcpu (Some id)).

Definition release (l : lockid) : K unit :=
  h ← holdinglock l;
  if negb h then panic "release...\n" else
  upd_lock l (set_lcpu None);;
  upd_lock l (set_locked 0);;
  pop_off.

(** ** Well-formed hart state and the states of a critical section *)

(** Interrupts are off whenever the nesting depth is positive. *)
Definition cpu_wf (s : kstate) : Prop :=
  (hart s < length (k_cpus s))%nat /\
  0 <= noff (cpu_of s) < 2 ^ 31 - 1 /\
  (0 < noff (cpu_of s) -> flag (sstatus (k_csr s)) SSTATUS_SIE = false).

Definition lock_free (l : lockid) (s : kstate) : Prop :=
  exists n, k_locks s !! l = Some (mkSpinlock 0 n None).

(** What [push_off] remembers in [cpus]. *)
Definition enter_cpu (s : kstate) (c : cpu) : cpu :=
  if noff c =? 0 then set_intena (Z.b2z (flag (sstatus (k_csr s)) SSTATUS_SIE)) c else c.
Definition touch (s : kstate) : kstate := upd_cpu (enter_cpu s) s.

Definition pushed (s : kstate) : kstate :=
  set_k_csr (set_sstatus (Z.land (sstatus (k_csr s)) (Z.lnot SSTATUS_SIE)) (k_csr s))
    (upd_cpu (fun c => set_noff (noff c + 1) (enter_cpu s c)) s).

Definition held (l : lockid) (s : kstate) : kstate :=
  set_k_locks (<[l := mkSpinlock 1 (lname (lock_at s l)) (Some (hart s))]> (k_locks s)) (pushed s).

(** [restore s s1]: the registers, locks and nesting of [s], the rest of [s1]. *)
Definition restore (s s1 : kstate) : kstate :=
  set_k_csr (k_csr s) (set_k_cpus (k_cpus (touch s)) (set_k_locks (k_locks s) s1)).

Lemma SIE_clear_get x : flag (Z.land x (Z.lnot SSTATUS_SIE)) SSTATUS_SIE = false.
Proof. unfold SSTATUS_SIE. by rewrite flag_testbit, Z.land_spec, andb_false_r by lia. Qed.

Lemma SIE_clear_off x : flag x SSTATUS_SIE = false -> Z.land x (Z.lnot SSTATUS_SIE) = x.
Proof.
  unfold SSTATUS_SIE. rewrite flag_testbit by lia. intros E. apply Z.bits_inj'. intros n Hn.
  rewrite Z.land_spec, Z.lnot_spec, Z.shiftl_1_l, Z.pow2_bits_eqb by lia.
  destruct (Z.eqb_spec 1 n) as [<-|]; [by rewrite E|apply andb_true_r].
Qed.

Lemma SIE_set_on x :
  flag x SSTATUS_SIE = true -> Z.lor (Z.land x (Z.lnot SSTATUS_SIE)) SSTATUS_SIE = x.
Proof.
  unfold SSTATUS_SIE. rewrite flag_testbit by lia. intros E. apply Z.bits_inj'. intros n Hn.
  rewrite Z.lor_spec, Z.land_spec, Z.lnot_spec, Z.shiftl_1_l, Z.pow2_bits_eqb by lia.
  destruct (Z.eqb_spec 1 n) as [<-|]; [by rewrite E|by rewrite andb_true_r, orb_false_r].
Qed.

Section spinlock.
  Implicit Types (s : kstate) (l : lockid).

Lemma cpu_of_upd s f : cpu_wf s -> cpu_of (upd_cpu f s) = f (cpu_of s).
Proof. intros (H & _). by apply upd_at_eq. Qed.

Lemma upd_cpu_upd f g s : upd_cpu f (upd_cpu g s) = upd_cpu (fun c => f (g c)) s.
Proof. unfold upd_cpu, set_k_cpus, hart. cbn. by rewrite upd_at_upd_at. Qed.

Lemma upd_cpu_ext f g s : f (cpu_of s) = g (cpu_of s) -> upd_cpu f s = upd_cpu g s.
Proof. intros. unfold upd_cpu. f_equal. by apply upd_at_ext. Qed.

Lemma push_off_eq s : cpu_wf s -> push_off s = Ok tt (pushed s).
Proof.
  intros (Hh & Hn & _).
  unfold push_off, intr_off, r_sstatus, w_sstatus, intr_get, mycpu, upd_mycpu. step_prim.
  unfold pushed, enter_cpu, cpu_of, upd_cpu, hart in *. kred. cbn [set_sstatus tp].
  case_bool; step_prim; f_equal; kstate_eq; rewrite ?upd_at_upd_at; apply upd_at_ext; cbn.
  - rewrite e. done.
  - destruct (Z.eqb_spec (noff (k_cpus s !!! tp (k_csr s))) 0); [done|].
    by rewrite i32_id by lia.
Qed.

Lemma noff_enter_cpu s c : noff (enter_cpu s c) = noff c.
Proof. unfold enter_cpu. by case_match. Qed.

Lemma cpu_wf_pushed s : cpu_wf s -> noff (cpu_of s) < 2 ^ 31 - 2 -> cpu_wf (pushed s).
Proof.
  intros (Hh & Hn & _) Hb. unfold cpu_wf, pushed, cpu_of, hart, upd_cpu in *. kred.
  cbn [set_sstatus tp sstatus]. rewrite length_upd_at, upd_at_eq by done.
  cbn [set_noff noff]. rewrite SIE_clear_get. change (hart s) with (tp (k_csr s)). repeat split; auto; lia.
Qed.

(** [acquire] after [push_off], in the state [s1]. *)
Lemma acquire_enter l s1 :
  (h ← holdinglock l;
   if (h : bool) then panic "acquire...\n" else
   old ← atmswap l;
   if negb (old =? 0) then block else
   id ← cpuid;
   upd_lock l (set_lcpu (Some id))) s1 =
  let lk := lock_at s1 l in
  if locked lk =? 0 then
    Ok tt (set_k_locks (<[l := mkSpinlock 1 (lname lk) (Some (hart s1))]> (k_locks s1)) s1)
  else if bool_decide (lcpu lk = Some (hart s1)) then Panic "acquire...\n" s1
  else Blocked (set_k_locks (<[l := set_locked 1 lk]> (k_locks s1)) s1).
Proof.
  unfold holdinglock, atmswap, upd_lock, cpuid. step_prim. cbv zeta.
  case_bool; cbn [negb andb].
  - rewrite e. cbn [negb Z.eqb]. step_prim. unfold lock_at. kred.
    rewrite lookup_insert_eq, insert_insert_eq. f_equal.
  - case_bool_decide; [done|]. destruct (Z.eqb_spec (locked (lock_at s1 l)) 0); done.
Qed.

Lemma acquire_eq l s :
  cpu_wf s ->
  acquire l s =
    let lk := lock_at s l in
    if locked lk =? 0 then Ok tt (held l s)
    else if bool_decide (lcpu lk = Some (hart s)) then Panic "acquire...\n" (pushed s)
    else Blocked (set_k_locks (<[l := set_locked 1 lk]> (k_locks s)) (pushed s)).
Proof.
  intros Hc. unfold acquire. rewrite (bind_ok _ _ _ _ _ (push_off_eq s Hc)).
  rewrite acquire_enter. done.
Qed.

Lemma lock_free_at l s : lock_free l s -> locked (lock_at s l) = 0.
Proof. intros (n & Hl). unfold lock_at. by rewrite Hl. Qed.

Lemma acquire_free l s : cpu_wf s -> lock_free l s -> acquire l s = Ok tt (held l s).
Proof. intros Hc Hl. rewrite acquire_eq by done. cbv zeta. by rewrite lock_free_at. Qed.

(** What [pop_off] does at the end of the critical section entered from [s]. *)
Lemma pop_off_pushed s s1 :
  cpu_wf s -> k_csr s1 = k_csr (pushed s) -> k_cpus s1 = k_cpus (pushed s) ->
  pop_off s1 = Ok tt (set_k_csr (k_csr s) (set_k_cpus (k_cpus (touch s)) s1)).
Proof.
  intros Hc Ec Eu. assert (hart s1 = hart s) as Eh by (unfold hart; by rewrite Ec).
  assert (cpu_of s1 = set_noff (noff (cpu_of s) + 1) (enter_cpu s (cpu_of s))) as Ecpu.
  { unfold cpu_of at 1. rewrite Eh, Eu. destruct Hc as [Hh _].
    exact (upd_at_eq (hart s) (fun c => set_noff (noff c + 1) (enter_cpu s c)) _ Hh). }
  assert (sstatus (k_csr s1) = Z.land (sstatus (k_csr s)) (Z.lnot SSTATUS_SIE)) as Es by by rewrite Ec.
  destruct Hc as (Hh & Hn & Hsie).
  assert (cpu_of (upd_cpu (set_noff (noff (cpu_of s))) s1) = enter_cpu s (cpu_of s)) as Ecpu2.
  { unfold cpu_of at 1, upd_cpu. kred. change (hart (set_k_cpus _ s1)) with (hart s1).
    rewrite upd_at_eq by (rewrite Eh, Eu; unfold pushed, upd_cpu; kred; by rewrite length_upd_at).
    change (k_cpus s1 !!! hart s1) with (cpu_of s1). rewrite Ecpu. unfold enter_cpu.
    by case_match; destruct (cpu_of s). }
  unfold pop_off, intr_get, mycpu, upd_mycpu, intr_on, r_sstatus, w_sstatus. step_prim.
  rewrite Es, SIE_clear_get, Ecpu. cbn [set_noff noff].
  destruct (Z.ltb_spec (noff (cpu_of s) + 1) 1); [lia|].
  replace (noff (cpu_of s) + 1 - 1) with (noff (cpu_of s)) by lia.
  rewrite Ecpu2, noff_enter_cpu.
  assert (upd_at (hart s1) (set_noff (noff (cpu_of s))) (k_cpus s1) = k_cpus (touch s)) as Ek.
  { rewrite Eh, Eu. unfold pushed, touch, upd_cpu. kred. rewrite upd_at_upd_at.
    apply upd_at_ext. change (k_cpus s !!! hart s) with (cpu_of s). unfold enter_cpu.
    by case_match; destruct (cpu_of s). }
  unfold enter_cpu. destruct (Z.eqb_spec (noff (cpu_of s)) 0) as [E0|E0]; cbn [andb].
  - rewrite E0. cbn [Z.eqb]. cbn [set_intena intena].
    destruct (flag (sstatus (k_csr s)) SSTATUS_SIE) eqn:Ef; cbn [Z.b2z Z.eqb negb].
    + f_equal. unfold upd_cpu. kstate_eq; [|by rewrite <- Ek, E0].
      rewrite Ec. unfold pushed, upd_cpu. kred. cbn. destruct (k_csr s). cbn in *.
      by rewrite SIE_set_on.
    + f_equal. unfold upd_cpu. kstate_eq; [|by rewrite <- Ek, E0].
      rewrite Ec. unfold pushed, upd_cpu. kred. destruct (k_csr s). cbn in *.
      by rewrite SIE_clear_off.
  - f_equal. unfold upd_cpu. kstate_eq; [|done].
    rewrite Ec. unfold pushed, upd_cpu. kred. destruct (k_csr s). cbn in *.
    rewrite SIE_clear_off; [done|]. apply Hsie. lia.
Qed.

(** Leaving a critical section that kept the registers, [cpus] and the locks
    as [acquire] left them. *)
Lemma release_held l s s1 :
  cpu_wf s -> lock_free l s ->
  k_csr s1 = k_csr (held l s) -> k_cpus s1 = k_cpus (held l s) ->
  k_locks s1 = k_locks (held l s) ->
  release l s1 = Ok tt (restore s s1).
Proof.
  intros Hc (n & Hl) Ec Eu El. assert (hart s1 = hart s) as Eh by (unfold hart; by rewrite Ec).
  assert (lock_at s1 l = mkSpinlock 1 n (Some (hart s))) as Elk.
  { unfold lock_at. rewrite El. unfold held, lock_at. kred. by rewrite lookup_insert_eq, Hl. }
  unfold release, holdinglock, upd_lock. step_prim. rewrite Elk, Eh. cbn [locked lcpu].
  rewrite bool_decide_eq_true_2 by done. cbn [Z.eqb negb andb].
  rewrite (pop_off_pushed s); [|done..]. f_equal. unfold restore. kstate_eq.
  unfold lock_at at 1. kred. rewrite lookup_insert_eq. cbn [default from_option id].
  rewrite Elk, El. unfold held. kred. rewrite !insert_insert_eq. by apply insert_id.
Qed.

Lemma lock_free_held l l' s : l <> l' -> lock_free l' s -> lock_free l' (held l s).
Proof.
  intros Hne (n & Hl). exists n. unfold held. kred. by rewrite lookup_insert_ne.
Qed.

(** ** [touch]: the trace of a critical section in [cpus] *)

Lemma touch_touch s : cpu_wf s -> touch (touch s) = touch s.
Proof.
  intros (Hh & _). unfold touch. unfold upd_cpu. kstate_eq.
  change (hart _) with (hart s) at 1. rewrite upd_at_upd_at. apply upd_at_ext.
  set (c := k_cpus s !!! hart s). unfold enter_cpu. kred.
  destruct (noff c =? 0) eqn:E; cbn [set_intena noff]; by rewrite E.
Qed.

Lemma cpu_wf_touch s : cpu_wf s -> cpu_wf (touch s).
Proof.
  intros (Hh & Hn & Hs). unfold cpu_wf.
  assert (noff (cpu_of (touch s)) = noff (cpu_of s)) as ->.
  { unfold touch. rewrite cpu_of_upd by done. apply noff_enter_cpu. }
  unfold touch, upd_cpu, hart. kred. rewrite length_upd_at. auto.
Qed.

Lemma touch_id s : noff (cpu_of s) <> 0 -> touch s = s.
Proof.
  intros Hn. unfold touch, upd_cpu. kstate_eq. apply upd_at_id.
  unfold enter_cpu. change (k_cpus s !!! hart s) with (cpu_of s).
  by destruct (Z.eqb_spec (noff (cpu_of s)) 0).
Qed.

Lemma cpu_of_held l s : cpu_wf s -> cpu_of (held l s) = set_noff (noff (cpu_of s) + 1) (enter_cpu s (cpu_of s)).
Proof.
  intros [Hh _].
  exact (upd_at_eq (hart s) (fun c => set_noff (noff c + 1) (enter_cpu s c)) _ Hh).
Qed.

Lemma cpu_wf_held l s : cpu_wf s -> noff (cpu_of s) < 2 ^ 31 - 2 -> cpu_wf (held l s).
Proof. apply cpu_wf_pushed. Qed.

Lemma touch_held l s : cpu_wf s -> touch (held l s) = held l s.
Proof. intros Hc. apply touch_id. rewrite cpu_of_held by done. cbn. destruct Hc as (_ & ? & _). lia. Qed.

Lemma c_proc_touch s : cpu_wf s -> c_proc (cpu_of (touch s)) = c_proc (cpu_of s).
Proof. intros. unfold touch. rewrite cpu_of_upd by done. unfold enter_cpu. by case_match. Qed.

Lemma noff_touch s : cpu_wf s -> noff (cpu_of (touch s)) = noff (cpu_of s).
Proof. intros. unfold touch. rewrite cpu_of_upd by done. apply noff_enter_cpu. Qed.

Lemma c_proc_held l s : cpu_wf s -> c_proc (cpu_of (held l s)) = c_proc (cpu_of s).
Proof. intros. rewrite cpu_of_held by done. unfold enter_cpu. by case_match. Qed.

(** ** Updates of the data a lock protects *)

(** [g] neither reads nor writes locks, [cpus] or control registers. *)
Record neutral (g : kstate -> kstate) : Prop := {
  nt_csr : forall s, k_csr (g s) = k_csr s;
  nt_cpus : forall s, k_cpus (g s) = k_cpus s;
  nt_locks : forall s, k_locks (g s) = k_locks s;
  nt_set : forall s c u m, g (set_k_csr c (set_k_cpus u (set_k_locks m s))) =
    set_k_csr c (set_k_cpus u (set_k_locks m (g s)))
}.

Lemma neutral_compose g h : neutral g -> neutral h -> neutral (fun s => g (h s)).
Proof.
  intros [C U L S] [C' U' L' S']. split; intros.
  - by rewrite C, C'.
  - by rewrite U, U'.
  - by rewrite L, L'.
  - simpl. by rewrite S', S.
Qed.

Lemma neutral_id : neutral (fun s => s).
Proof. by split. Qed.

Section neutral.
    Context (g : kstate -> kstate) (Hg : neutral g).

Lemma neutral_hart s : hart (g s) = hart s.
Proof. unfold hart. by rewrite nt_csr. Qed.
Lemma neutral_cpu_of s : cpu_of (g s) = cpu_of s.
Proof. unfold cpu_of. by rewrite neutral_hart, nt_cpus. Qed.
Lemma neutral_cpu_wf s : cpu_wf (g s) <-> cpu_wf s.
Proof. unfold cpu_wf. by rewrite neutral_cpu_of, neutral_hart, nt_cpus, nt_csr. Qed.
Lemma neutral_lock_free l s : lock_free l (g s) <-> lock_free l s.
Proof. unfold lock_free. by rewrite nt_locks. Qed.
Lemma neutral_touch s : g (touch s) = touch (g s).
Proof.
  assert (forall u t, g (set_k_cpus u t) = set_k_cpus u (g t)) as Hu.
  { intros u t. transitivity (g (set_k_csr (k_csr t) (set_k_cpus u (set_k_locks (k_locks t) t)))).
    - by destruct t.
    - rewrite nt_set by done. rewrite <- (nt_csr g Hg t), <- (nt_locks g Hg t). by destruct (g t). }
  unfold touch at 1, upd_cpu. rewrite Hu. unfold touch, upd_cpu, hart, enter_cpu.
  by rewrite !(nt_csr g Hg), (nt_cpus g Hg).
Qed.

Lemma release_neutral l s :
  cpu_wf s -> lock_free l s -> release l (g (held l s)) = Ok tt (g (touch s)).
Proof.
  intros Hc Hl.
  rewrite (release_held l s) by (done || apply Hg).
  apply (f_equal (Ok tt)). unfold restore. rewrite <- nt_set by done. f_equal.
Qed.
End neutral.
End spinlock.
