(* ===== verification/SpinSmp.v ===== *)
(** * [acquire] and [release] on several harts

    One spin lock shared by any number of harts, each executing [acquire] and
    [release] of [spinlock.c] one memory access at a time, in any order
    (sequentially consistent, which the [aq] of [amoswap.w] and the
    [__sync_synchronize] calls provide).  [pc] names the next access of a hart:
    [holdinglock] reads [locked] and then [cpu], [atmswap] exchanges, and so on.
    [push_off] and [pop_off] only touch the hart's own [struct cpu]. *)

From S2P Require Import Prelude.

Section smp.
  (** Harts, any decidable type. *)
  Context {H : Type} `{!EqDecision H}.

Inductive pc :=
| Idle                 (** outside, the lock not held *)
| AcqLocked            (** [holdinglock] in [acquire]: read [lk->locked] *)
| AcqCpu               (** [holdinglock] in [acquire]: read [lk->cpu] *)
| Swap                 (** [while(atmswap(&lock->locked) != 0)] *)
| SetCpu               (** [lock->cpu = mycpu()] *)
| Crit                 (** the critical section *)
| RelLocked            (** [holdinglock] in [release]: read [lk->locked] *)
| RelCpu               (** [holdinglock] in [release]: read [lk->cpu] *)
| ClearCpu             (** [lock->cpu = 0] *)
| Unlock               (** [lock->locked = 0] *)
| PanicAcq             (** [panic] in [acquire] *)
| PanicRel.            (** [panic] in [release] *)

Record lock_word := mkLock { w_locked : Z; w_cpu : option H }.
Record smp := mkSmp { lk : lock_word; pcs : H -> pc }.

(** One access of the hart [h] at [p]: the new lock and the new [pc]. *)
Definition access (h : H) (p : pc) (l : lock_word) : lock_word * pc :=
  let is_me := bool_decide (w_cpu l = Some h) in
  match p with
  | Idle => (l, AcqLocked)
  | AcqLocked => (l, if w_locked l =? 0 then Swap else AcqCpu)
  | AcqCpu => (l, if is_me then PanicAcq else Swap)
  | Swap => (mkLock 1 (w_cpu l), if w_locked l =? 0 then SetCpu else Swap)
  | SetCpu => (mkLock (w_locked l) (Some h), Crit)
  | Crit => (l, RelLocked)
  | RelLocked => (l, if w_locked l =? 0 then PanicRel else RelCpu)
  | RelCpu => (l, if is_me then ClearCpu else PanicRel)
  | ClearCpu => (mkLock (w_locked l) None, Unlock)
  | Unlock => (mkLock 0 (w_cpu l), Idle)
  | PanicAcq => (l, PanicAcq)
  | PanicRel => (l, PanicRel)
  end.

Definition set_pc (f : H -> pc) (h : H) (p : pc) : H -> pc :=
  fun h' => if decide (h' = h) then p else f h'.

Inductive smp_step : smp -> smp -> Prop :=
| hart_step st h l' p' :
    access h (pcs st h) (lk st) = (l', p') ->
    smp_step st (mkSmp l' (set_pc (pcs st) h p')).

(** After [initlock], every hart outside. *)
Definition smp_init : smp := mkSmp (mkLock 0 None) (fun _ => Idle).

(** The hart owns the lock: between its successful exchange and its [locked = 0]. *)
Definition owns (p : pc) : bool :=
  match p with SetCpu | Crit | RelLocked | RelCpu | ClearCpu | Unlock => true | _ => false end.
(** ... and its name is in [lk->cpu]. *)
Definition named (p : pc) : bool :=
  match p with Crit | RelLocked | RelCpu | ClearCpu => true | _ => false end.
Definition panicked (p : pc) : bool :=
  match p with PanicAcq | PanicRel => true | _ => false end.

Record smp_inv (st : smp) : Prop := {
  si_locked : w_locked (lk st) <> 0 <-> exists h, owns (pcs st h) = true;
  si_one : forall h h', owns (pcs st h) = true -> owns (pcs st h') = true -> h = h';
  si_cpu : forall h, w_cpu (lk st) = Some h <-> named (pcs st h) = true;
  si_panic : forall h, panicked (pcs st h) = false
}.

Lemma set_pc_eq f h p : set_pc f h p h = p.
Proof. unfold set_pc. by rewrite decide_True. Qed.
Lemma set_pc_ne f h h' p : h' <> h -> set_pc f h p h' = f h'.
Proof. intros. unfold set_pc. by rewrite decide_False. Qed.

Lemma smp_init_inv : smp_inv smp_init.
Proof. split; cbn; try done. split; [lia|by intros (h & ?)]. Qed.

(** A step that changes neither the lock nor whether its hart owns it. *)
Lemma inv_local st h p' :
  smp_inv st -> owns p' = owns (pcs st h) -> named p' = named (pcs st h) -> panicked p' = false ->
  smp_inv (mkSmp (lk st) (set_pc (pcs st) h p')).
Proof.
  intros [L O C P] Ho Hn Hp.
  assert (forall x, owns (set_pc (pcs st) h p' x) = owns (pcs st x)) as Ho'.
  { intros x. unfold set_pc. case_decide; by subst. }
  assert (forall x, named (set_pc (pcs st) h p' x) = named (pcs st x)) as Hn'.
  { intros x. unfold set_pc. case_decide; by subst. }
  split; cbn [lk pcs].
  - rewrite L. by setoid_rewrite Ho'.
  - intros x y. rewrite !Ho'. apply O.
  - intros x. by rewrite Hn'.
  - intros x. unfold set_pc. by case_decide.
Qed.

(** A step of the owner, or of the hart becoming the owner, that writes the lock. *)
Lemma inv_owner st h l' p' :
  smp_inv st -> (forall x, x <> h -> owns (pcs st x) = false) -> panicked p' = false ->
  (w_locked l' <> 0 <-> owns p' = true) ->
  (named p' = true -> w_cpu l' = Some h) -> (named p' = false -> w_cpu l' = None) ->
  smp_inv (mkSmp l' (set_pc (pcs st) h p')).
Proof.
  intros [L O C P] Hx Hp Hl Hn Hn'.
  assert (forall x, x <> h -> named (pcs st x) = false) as Hnx.
  { intros x Hxh. specialize (Hx x Hxh). by destruct (pcs st x). }
  split; cbn [lk pcs].
  - rewrite Hl. split.
    + intros E. exists h. by rewrite set_pc_eq.
    + intros (x & E). destruct (decide (x = h)) as [->|Hxh]; [by rewrite set_pc_eq in E|].
      rewrite set_pc_ne, Hx in E; done.
  - assert (forall z, owns (set_pc (pcs st) h p' z) = true -> z = h) as Hz.
    { intros z E. destruct (decide (z = h)); [done|]. rewrite set_pc_ne, Hx in E; done. }
    intros x y Ex Ey. by rewrite (Hz x Ex), (Hz y Ey).
  - intros x. destruct (decide (x = h)) as [->|Hxh].
    + rewrite set_pc_eq. destruct (named p') eqn:E; [by rewrite Hn|]. by rewrite Hn'.
    + rewrite set_pc_ne, Hnx by done. split; [|done].
      destruct (named p') eqn:E; [rewrite Hn by done; congruence|by rewrite Hn'].
  - intros x. unfold set_pc. by case_decide.
Qed.

Lemma others_out st h : smp_inv st -> owns (pcs st h) = true -> forall x, x <> h -> owns (pcs st x) = false.
Proof. intros I Ho x Hx. destruct (owns (pcs st x)) eqn:E; [|done]. by destruct Hx; apply (si_one _ I). Qed.

Lemma all_out st : smp_inv st -> w_locked (lk st) = 0 -> forall x, owns (pcs st x) = false.
Proof.
  intros I E x. destruct (owns (pcs st x)) eqn:Ex; [|done].
  by destruct (proj2 (si_locked _ I) (ex_intro _ x Ex)).
Qed.

Lemma owner_locked st h : smp_inv st -> owns (pcs st h) = true -> w_locked (lk st) <> 0.
Proof. intros I E. apply (si_locked _ I). by exists h. Qed.

Lemma unnamed_cpu st : smp_inv st -> (forall h, named (pcs st h) = false) -> w_cpu (lk st) = None.
Proof.
  intros I Hn. destruct (w_cpu (lk st)) as [h|] eqn:E; [|done].
  apply (si_cpu _ I) in E. by rewrite Hn in E.
Qed.

Lemma unnamed_owner st h :
  smp_inv st -> owns (pcs st h) = true -> named (pcs st h) = false -> w_cpu (lk st) = None.
Proof.
  intros I Ho Hn. apply unnamed_cpu; [done|]. intros x. destruct (decide (x = h)) as [->|Hx]; [done|].
  pose proof (others_out st h I Ho x Hx). by destruct (pcs st x).
Qed.

Lemma smp_step_inv st st' : smp_inv st -> smp_step st st' -> smp_inv st'.
Proof.
  intros I Hst. revert I. destruct Hst as [t h l' p' E]. intros I.
  destruct (pcs t h) eqn:Ep; cbn [access] in E;
    pose proof (si_cpu _ I h) as Hcpu; rewrite Ep in Hcpu; cbn [named] in Hcpu.
  all: try (injection E as <- <-; apply inv_local; [done|by rewrite Ep|by rewrite Ep|done]).
  - (* AcqLocked *) injection E as <- <-. apply inv_local; [done|..]; rewrite ?Ep; by case_match.
  - (* AcqCpu *) injection E as <- <-. rewrite bool_decide_eq_false_2 by (by intros ?%Hcpu).
    apply inv_local; by rewrite ?Ep.
  - (* Swap *) destruct (Z.eqb_spec (w_locked (lk t)) 0) as [E0|E0]; injection E as <- <-.
    + pose proof (all_out t I E0) as Hout. apply inv_owner; try done.
      intros _. apply unnamed_cpu; [done|]. intros x. specialize (Hout x). by destruct (pcs t x).
    + (* the lock word keeps a nonzero value *)
      destruct (si_locked _ I) as [[o Ho] _]; [done|].
      pose proof (inv_local t h Swap I) as HI. rewrite Ep in HI.
      destruct (HI eq_refl eq_refl eq_refl) as [L O C P]. split; cbn [lk pcs w_locked w_cpu] in *; try done.
      rewrite <- L. split; [intros _; exact E0|lia].
  - (* SetCpu *) injection E as <- <-. apply inv_owner; try done.
    + apply others_out; [done|by rewrite Ep].
    + split; [done|]. intros _. cbn. apply (owner_locked t h I). by rewrite Ep.
  - (* RelLocked *) assert (w_locked (lk t) <> 0) as Hl by (apply (owner_locked t h I); by rewrite Ep).
    destruct (Z.eqb_spec (w_locked (lk t)) 0); [done|]. injection E as <- <-.
    apply inv_local; by rewrite ?Ep.
  - (* RelCpu *) rewrite bool_decide_eq_true_2 in E by by apply Hcpu. injection E as <- <-.
    apply inv_local; by rewrite ?Ep.
  - (* ClearCpu *) injection E as <- <-. apply inv_owner; try done.
    + apply others_out; [done|by rewrite Ep].
    + split; [done|]. intros _. cbn. apply (owner_locked t h I). by rewrite Ep.
  - (* Unlock *) injection E as <- <-. apply inv_owner; try done.
    + apply others_out; [done|by rewrite Ep].
    + intros _. apply (unnamed_owner t h I); by rewrite Ep.
  - pose proof (si_panic _ I h) as Hp. by rewrite Ep in Hp.
  - pose proof (si_panic _ I h) as Hp. by rewrite Ep in Hp.
Qed.

Lemma reachable_inv st : star smp_step smp_init st -> smp_inv st.
Proof. apply star_invariant; eauto using smp_init_inv, smp_step_inv. Qed.

(** A hart that runs [acquire] alone while the lock is free enters. *)
Lemma acquire_enters st h :
  w_locked (lk st) = 0 -> pcs st h = Idle ->
  exists st', star smp_step st st' /\ pcs st' h = Crit /\ w_cpu (lk st') = Some h.
Proof.
  intros E0 Eh.
  exists (mkSmp (mkLock 1 (Some h)) (set_pc (set_pc (set_pc (set_pc (pcs st) h AcqLocked) h Swap) h SetCpu) h Crit)).
  split; [|cbn; by rewrite set_pc_eq].
  eapply star_snoc; [eapply star_snoc; [eapply star_snoc; [eapply star_snoc; [apply star_refl|]|]|]|].
  - apply (hart_step st h (lk st) AcqLocked). by rewrite Eh.
  - apply (hart_step (mkSmp _ _) h (lk st) Swap). cbn. rewrite set_pc_eq. cbn. by rewrite E0.
  - apply (hart_step (mkSmp _ _) h (mkLock 1 (w_cpu (lk st))) SetCpu). cbn. rewrite set_pc_eq. cbn. by rewrite E0.
  - apply (hart_step (mkSmp _ _) h (mkLock 1 (Some h)) Crit). cbn. rewrite set_pc_eq. done.
Qed.
End smp.
