(* ===== verification/Sched.v ===== *)
(** * The process table and context switches of [proc.c]

    [myproc], [wakeup], [sched], [sleep], [yield] and [allocpid].  What other
    processes, harts and devices do between a process's [swtch] into the
    scheduler and its return is not code of the calling process: it is the
    parameter [others] of the model, [None] when the process is never resumed.
    A loop that sleeps until a condition holds is run for at most [patience]
    wake-ups. *)

From S2P Require Import Prelude Layout Memory State Spinlock.

Class Others := {
  others : kstate -> option kstate;
  patience : nat
}.

(** Nobody ever wakes the process. *)
Definition alone : Others := Build_Others (fun _ => None) 1.

Definition myproc : K (option nat) :=
  push_off;;
  c ← mycpu;
  pop_off;;
  mret (c_proc c).

(** [p->...]: dereferencing a null [p] faults, and [kerneltrap] panics. *)
Definition deref {A} (p : option A) : K A :=
  match p with
  | Some i => mret i
  | None => panic "kernel trap\n"
  end.

Definition proc_at (s : kstate) (i : nat) : proc := procs (k_proc s) !!! i.
Definition get_proc (i : nat) : K proc := gets (fun s => proc_at s i).
Definition upd_procs (f : list proc -> list proc) (s : kstate) : kstate :=
  set_k_proc (set_procs (f (procs (k_proc s))) (k_proc s)) s.
Definition upd_proc (i : nat) (f : proc -> proc) : K unit := modify (upd_procs (upd_at i f)).
Definition proc_field {A} (f : proc -> A) (p : option nat) : K A :=
  i ← deref p;
  gets (fun s => f (proc_at s i)).

(** [wakeup(chan)]; [None] is a null [chan]. *)
Definition wakeup_at (c : option chan) : K unit :=
  for_each (seq 0 NPROC) (fun i =>
    m ← myproc;
    if bool_decide (m = Some i) then mret tt else
    acquire (LProc i);;
    p ← get_proc i;
    (if bool_decide (p_state p = SLEEPING) && bool_decide (p_chan p = c)
     then upd_proc i (set_p_state RUNNABLE) else mret tt);;
    release (LProc i)).

Abbreviation wakeup c := (wakeup_at (Some c)).

Definition allocpid : K Z :=
  acquire LPid;;
  pid ← gets (fun s => nextPid (k_proc s));
  modify (fun s => set_k_proc (set_nextPid (i32 (pid + 1)) (k_proc s)) s);;
  release LPid;;
  mret pid.

Section sched.
  Context {O : Others}.

(** [swtch.S] as the switched-out process sees it. *)
Definition swtch : K unit :=
  fun s => match others s with Some s' => Ok tt s' | None => Blocked s end.

Definition sched : K unit :=
  p ← myproc;
  i ← deref p;
  h ← holdinglock (LProc i);
  if negb h then panic "sched holdinglock \n" else
  p ← get_proc i;
  if bool_decide (p_state p = RUNNING) then panic "sched p.state is Running \n" else
  on ← intr_get;
  if (on : bool) then panic "sched interruptible" else
  c ← mycpu;
  swtch;;
  upd_mycpu (set_intena (intena c)).

Definition sleep (c : chan) (lk : lockid) : K unit :=
  p ← myproc;
  i ← deref p;
  acquire (LProc i);;
  release lk;;
  upd_proc i (set_p_chan (Some c));;
  upd_proc i (set_p_state SLEEPING);;
  sched;;
  upd_proc i (set_p_chan None);;
  release (LProc i);;
  acquire lk.

Definition yield : K unit :=
  p ← myproc;
  i ← deref p;
  acquire (LProc i);;
  upd_proc i (set_p_state RUNNABLE);;
  sched;;
  release (LProc i).
End sched.

(** ** [myproc], [wakeup], [allocpid] *)

(** What [wakeup(c)] of the process [me] does to the process [i]. *)
Definition wake (c : option chan) (me : option nat) (i : nat) (p : proc) : proc :=
  if bool_decide (me <> Some i /\ p_state p = SLEEPING /\ p_chan p = c)
  then set_p_state RUNNABLE p else p.

(** The current process, as [mycpu()->p]. *)
Definition curproc (s : kstate) : option nat := c_proc (cpu_of s).

(** The locks of all processes can be taken. *)
Definition proc_locks_free (s : kstate) : Prop := forall i, (i < NPROC)%nat -> lock_free (LProc i) s.

Lemma neutral_procs f : neutral (upd_procs f).
Proof. by split. Qed.

Lemma upd_procs_id f s : f (procs (k_proc s)) = procs (k_proc s) -> upd_procs f s = s.
Proof. intros E. unfold upd_procs. rewrite E. kstate_eq. by destruct (k_proc s). Qed.

Lemma upd_procs_ext f g s : f (procs (k_proc s)) = g (procs (k_proc s)) -> upd_procs f s = upd_procs g s.
Proof. unfold upd_procs. by intros ->. Qed.

Lemma upd_procs_upd f g s : upd_procs f (upd_procs g s) = upd_procs (fun ps => f (g ps)) s.
Proof. done. Qed.

Section sched_lemmas.
  Implicit Types s : kstate.

Lemma myproc_eq s : cpu_wf s -> myproc s = Ok (curproc s) (touch s).
Proof.
  intros Hc. unfold myproc. rewrite (bind_ok _ _ _ _ _ (push_off_eq s Hc)).
  unfold mycpu. step_prim. rewrite (pop_off_pushed s) by done.
  unfold curproc. rewrite <- (c_proc_held LKmem s Hc). f_equal.
Qed.

Lemma curproc_touch s : cpu_wf s -> curproc (touch s) = curproc s.
Proof. apply c_proc_touch. Qed.

Definition wake_step (c : option chan) (me : option nat) (i : nat) s : kstate :=
  touch (upd_procs (upd_at i (wake c me i)) s).

Lemma wakeup_step c i s :
  cpu_wf s -> lock_free (LProc i) s ->
  (m ← myproc;
   if bool_decide (m = Some i) then mret tt else
   acquire (LProc i);;
   p ← get_proc i;
   (if bool_decide (p_state p = SLEEPING) && bool_decide (p_chan p = c)
    then upd_proc i (set_p_state RUNNABLE) else mret tt);;
   release (LProc i)) s = Ok tt (wake_step c (curproc s) i s).
Proof.
  intros Hc Hl. rewrite (bind_ok _ _ _ _ _ (myproc_eq s Hc)).
  unfold wake_step. rewrite <- (neutral_touch _ (neutral_procs _)).
  case_bool_decide as E; step_prim.
  - apply (f_equal (Ok tt)). symmetry. apply upd_procs_id, upd_at_id.
    unfold wake. rewrite bool_decide_eq_false_2 by tauto. done.
  - rewrite (acquire_free (LProc i) (touch s)) by (done || by apply cpu_wf_touch).
    unfold get_proc, upd_proc. step_prim.
    change (proc_at (held (LProc i) (touch s)) i) with (procs (k_proc s) !!! i).
    rewrite <- bool_decide_and. set (b := bool_decide _).
    assert ((if b then modify (upd_procs (upd_at i (set_p_state RUNNABLE))) else mret tt) (held (LProc i) (touch s))
      = Ok tt (upd_procs (upd_at i (wake c (curproc s) i)) (held (LProc i) (touch s)))) as Eb.
    { subst b. case_bool_decide as H; unfold modify, mret, prog_ret; apply (f_equal (Ok tt)).
      - apply upd_procs_ext, upd_at_ext. unfold wake.
        rewrite bool_decide_eq_true_2 by (split; [exact E|exact H]). done.
      - symmetry. apply upd_procs_id, upd_at_id. unfold wake.
        rewrite bool_decide_eq_false_2; [done|]. intros [_ H']. exact (H H'). }
    unfold modify, mret, prog_ret in Eb. rewrite Eb.
    rewrite (release_neutral _ (neutral_procs _)) by (done || by apply cpu_wf_touch).
    by rewrite touch_touch.
Qed.

(** A state in which [wakeup] can run: a lock is held, the process locks are free. *)
Definition can_wake s : Prop :=
  cpu_wf s /\ touch s = s /\ proc_locks_free s /\ length (procs (k_proc s)) = NPROC.

(** [wakeup] on the whole table. *)
Definition woken (c : option chan) s : kstate :=
  foldl (fun s i => wake_step c (curproc s) i s) s (seq 0 NPROC).

Lemma wake_step_inv c i s :
  cpu_wf s /\ proc_locks_free s ->
  cpu_wf (wake_step c (curproc s) i s) /\ proc_locks_free (wake_step c (curproc s) i s).
Proof. intros [Hc Hl]. split; [by apply cpu_wf_touch|exact Hl]. Qed.

Lemma wakeup_eq c s :
  cpu_wf s -> proc_locks_free s -> wakeup_at c s = Ok tt (woken c s).
Proof.
  intros Hc Hl. unfold wakeup_at, woken.
  refine (proj1 (for_each_ok _ (fun i s => wake_step c (curproc s) i s)
    (fun s => cpu_wf s /\ proc_locks_free s) _ s (conj Hc Hl) _)).
  intros i s' Hi [Hc' Hl']. split; [|by apply wake_step_inv].
  apply wakeup_step; [done|]. apply Hl'. apply elem_of_seq in Hi. lia.
Qed.

Lemma foldl_wake c n s :
  cpu_wf s -> (n <= length (procs (k_proc s)))%nat ->
  foldl (fun s i => wake_step c (curproc s) i s) s (seq 0 n) =
  upd_procs (imap (fun i p => if decide (i < n)%nat then wake c (curproc s) i p else p))
    (if decide (n = 0)%nat then s else touch s).
Proof.
  intros Hc. induction n as [|n IH]; intros Hn.
  - cbn [seq foldl]. rewrite decide_True by done. symmetry. apply upd_procs_id.
    apply list_eq. intros i. rewrite list_lookup_imap.
    destruct (procs (k_proc s) !! i); [|done]. cbn. by rewrite decide_False by lia.
  - rewrite seq_S, foldl_app, IH by lia. cbn [foldl plus]. clear IH.
    set (t := if decide (n = 0%nat) then s else touch s).
    assert (cpu_wf t /\ curproc t = curproc s /\ touch t = touch s /\ k_proc t = k_proc s) as (Hct & Ec & Et & Ep).
    { unfold t. case_decide; [done|].
      split; [by apply cpu_wf_touch|]. split; [by apply curproc_touch|]. split; [by apply touch_touch|done]. }
    unfold wake_step. unfold curproc at 1.
    rewrite (neutral_cpu_of _ (neutral_procs _)). fold (curproc t). rewrite Ec.
    rewrite <- !(neutral_touch _ (neutral_procs _)), Et. rewrite decide_False by lia.
    rewrite upd_procs_upd. apply upd_procs_ext. change (k_proc (touch s)) with (k_proc s).
    apply list_eq. intros i. rewrite list_lookup_imap.
    destruct (decide (i = n)) as [->|Hi].
    + destruct (lookup_lt_is_Some_2 (procs (k_proc s)) n) as [x Hx]; [lia|].
      rewrite (upd_at_lookup_eq _ _ _ x).
      * rewrite Hx. cbn. by rewrite decide_True by lia.
      * rewrite list_lookup_imap, Hx. cbn. by rewrite decide_False by lia.
    + rewrite upd_at_lookup_ne by done. rewrite list_lookup_imap.
      destruct (procs (k_proc s) !! i); [|done]. cbn.
      repeat case_decide; done || lia.
Qed.

Lemma woken_eq c s :
  cpu_wf s -> length (procs (k_proc s)) = NPROC ->
  woken c s = upd_procs (imap (wake c (curproc s))) (touch s).
Proof.
  intros Hc Hn. unfold woken. rewrite foldl_wake by (done || rewrite Hn; lia).
  rewrite decide_False by done. apply upd_procs_ext.
  change (k_proc (touch s)) with (k_proc s). apply list_eq. intros i. rewrite !list_lookup_imap.
  destruct (procs (k_proc s) !! i) eqn:E; [|done]. cbn. f_equal.
  rewrite decide_True; [done|]. rewrite <- Hn. by eapply lookup_lt_Some.
Qed.

Lemma wakeup_spec c s :
  cpu_wf s -> proc_locks_free s -> length (procs (k_proc s)) = NPROC ->
  wakeup_at c s = Ok tt (upd_procs (imap (wake c (curproc s))) (touch s)).
Proof. intros Hc Hl Hn. by rewrite wakeup_eq, woken_eq. Qed.

(** Nobody waits on [c]: [wakeup] changes no process. *)
Lemma wakeup_none c s :
  cpu_wf s -> proc_locks_free s -> length (procs (k_proc s)) = NPROC ->
  (forall i, p_state (proc_at s i) = SLEEPING -> p_chan (proc_at s i) <> c) ->
  wakeup_at c s = Ok tt (touch s).
Proof.
  intros Hc Hl Hn Hw. rewrite wakeup_spec by done. apply (f_equal (Ok tt)).
  apply upd_procs_id. change (k_proc (touch s)) with (k_proc s).
  apply list_eq. intros i. rewrite list_lookup_imap.
  destruct (procs (k_proc s) !! i) as [p|] eqn:E; [|done]. cbn. f_equal. unfold wake.
  rewrite bool_decide_eq_false_2; [done|]. intros (_ & H1 & H2).
  apply (Hw i); unfold proc_at; by rewrite (list_lookup_total_correct _ _ _ E).
Qed.

Lemma allocpid_eq s :
  cpu_wf s -> lock_free LPid s ->
  allocpid s = Ok (nextPid (k_proc s))
    (set_k_proc (set_nextPid (i32 (nextPid (k_proc s) + 1)) (k_proc s)) (touch s)).
Proof.
  intros Hc Hl. unfold allocpid. rewrite (bind_ok _ _ _ _ _ (acquire_free _ _ Hc Hl)).
  step_prim. set (g := fun s0 => set_k_proc (set_nextPid (i32 (nextPid (k_proc s0) + 1)) (k_proc s0)) s0).
  change (set_k_proc _ (held LPid s)) with (g (held LPid s)).
  rewrite (release_neutral g) by (done || by split). done.
Qed.
End sched_lemmas.

(** ** The kernel between operations of a process

    Every spin lock exists and is free, the tables have their sizes, and the
    nesting depth leaves room for the kernel's own nested sections. *)

Definition lock_ok (l : lockid) : Prop :=
  match l with
  | LProc i => (i < NPROC)%nat
  | LBuf i => (i < NBUF)%nat
  | LInode i => (i < INODES)%nat
  | _ => True
  end.

Record kready (s : kstate) : Prop := {
  kr_cpu : cpu_wf s;
  kr_noff : noff (cpu_of s) < 2 ^ 31 - 8;
  kr_nprocs : length (procs (k_proc s)) = NPROC;
  kr_nbufs : length (bufs (k_bcache s)) = NBUF;
  kr_ninodes : length (k_inodes s) = INODES;
  kr_nfiles : length (k_files s) = NFILE;
  kr_locks : forall l, lock_ok l -> lock_free l s
}.

Section kready.
  Implicit Types s : kstate.

Lemma kready_touch s : kready s -> kready (touch s).
Proof.
  intros [Hc Hn ? ? ? ? Hl]. split; try done; [by apply cpu_wf_touch|]. by rewrite noff_touch.
Qed.

Lemma kready_neutral g s :
  neutral g -> length (procs (k_proc (g s))) = length (procs (k_proc s)) ->
  length (bufs (k_bcache (g s))) = length (bufs (k_bcache s)) ->
  length (k_inodes (g s)) = length (k_inodes s) -> length (k_files (g s)) = length (k_files s) ->
  kready s -> kready (g s).
Proof.
  intros Hg Ep Eb Ei Ef [Hc Hn ? ? ? ? Hl]. split; rewrite ?Ep, ?Eb, ?Ei, ?Ef; try done.
  - by apply (neutral_cpu_wf _ Hg).
  - by rewrite (neutral_cpu_of _ Hg).
  - intros l Hok. apply (neutral_lock_free _ Hg). by apply Hl.
Qed.

Lemma kready_proc_locks s : kready s -> proc_locks_free s.
Proof. intros H i Hi. by apply (kr_locks s H (LProc i)). Qed.
End kready.

(** The kernel booted, one process running on hart 0: for evaluating the
    definitions. *)
Definition all_locks : list lockid :=
  [LKmem; LPid; LWait; LBcache; LIcache; LFcache; LDisk; LCons; LUart; LPr; LTick]
  ++ (LProc <$> seq 0 NPROC) ++ (LBuf <$> seq 0 NBUF) ++ (LInode <$> seq 0 INODES).
Definition test_state : kstate :=
  let s := kstate0 ∅ in
  let s := set_k_locks (list_to_map ((fun l => (l, spinlock0)) <$> all_locks)) s in
  let s := set_k_cpus (upd_at 0 (set_c_proc (Some 0%nat)) (k_cpus s)) s in
  upd_procs (upd_at 0 (fun p => set_p_state RUNNING (set_p_pid 1 p))) s.

Lemma test_state_ready : kready test_state.
Proof.
  split; try done.
  - split; [vm_compute; lia|]. by vm_compute.
  - intros l Hl. exists EmptyString.
    assert (l ∈ all_locks) as Hin.
    { unfold all_locks. destruct l; cbn [lock_ok] in Hl;
        rewrite !elem_of_app, !list_elem_of_fmap; try (left; set_solver);
        right; [left|right; left|right; right]; exists i; (split; [done|]); apply elem_of_seq; lia. }
    apply (elem_of_list_to_map_1' (M := gmap lockid)); [|apply list_elem_of_fmap; by exists l].
    intros y (? & [= <- ->] & _)%list_elem_of_fmap. done.
Qed.
