(* ===== verification/Uart.v ===== *)
(** * The UART driver of [memlayout.c]

    Output goes either through a ring of [UART_TX_BUF_SIZE] bytes drained by
    [uartstart], or, from [printf], synchronously.  The device: its line status
    register is [uart_lsr] with bit 0 set while a received byte waits, reading
    RHR takes the oldest received byte, and writing THR transmits a byte when the
    register is empty; a byte written while it is not is lost.  After each write
    the line status is what the device makes it ([uart_lsr_next]). *)

From S2P Require Import Prelude Layout Memory State Spinlock Sched.

Definition UART_TX_BUF_SIZE : Z := 32.
Definition LSR_TX_IDLE : Z := Z.shiftl 1 5.
Definition BACKSPACE : Z := 0x100.

(** [ReadReg(LSR)], [ReadReg(RHR)], [WriteReg(THR, c)]. *)
Definition read_LSR : K Z :=
  gets (fun s => Z.lor (uart_lsr (k_uart s)) (Z.b2z (negb (bool_decide (uart_rx (k_uart s) = []))))).
Definition read_RHR : K Z :=
  l ← gets (fun s => uart_rx (k_uart s));
  modify (fun s => set_k_uart (set_uart_rx (drop 1 l) (k_uart s)) s);;
  mret (nth 0 l 0).
Definition thr_write (c : Z) (u : uart_state) : uart_state :=
  let u := if flag (uart_lsr u) LSR_TX_IDLE then set_uart_out (u8 c :: uart_out u) u else u in
  match uart_lsr_next u with
  | [] => u
  | x :: l => set_uart_lsr x (set_uart_lsr_next l u)
  end.
Definition write_THR (c : Z) : K unit := modify (fun s => set_k_uart (thr_write c (k_uart s)) s).

(** The transmitter takes every byte: it is idle, and stays so. *)
Definition uart_idle (u : uart_state) : Prop := flag (uart_lsr u) LSR_TX_IDLE = true /\ uart_lsr_next u = [].
Lemma thr_write_idle c u : uart_idle u -> thr_write c u = set_uart_out (u8 c :: uart_out u) u.
Proof. intros [Hl Hn]. unfold thr_write. rewrite Hl. by cbn [set_uart_out uart_lsr_next]; rewrite Hn. Qed.

(** The rounds of [while(1)] that send a byte are at most the bytes queued. *)
Fixpoint uartstart_loop (fuel : nat) : K unit :=
  match fuel with
  | O => block
  | S fuel =>
      u ← gets k_uart;
      if uart_tx_r u =? uart_tx_w u then mret tt else
      lsr ← read_LSR;
      if negb (flag lsr LSR_TX_IDLE) then mret tt else
      let c := uart_tx_buf u !!! Z.to_nat (uart_tx_r u mod UART_TX_BUF_SIZE) in
      modify (fun s => set_k_uart (set_uart_tx_r (u64 (uart_tx_r u + 1)) (k_uart s)) s);;
      wakeup ChUartR;;
      write_THR c;;
      uartstart_loop fuel
  end.
Definition uartstart : K unit :=
  u ← gets k_uart;
  uartstart_loop (S (Z.to_nat (u64 (uart_tx_w u - uart_tx_r u)))).

Section uart.
  Context {Ot : Others}.

Fixpoint uartputc_loop (fuel : nat) (c : Z) : K unit :=
  match fuel with
  | O => block
  | S fuel =>
      u ← gets k_uart;
      if uart_tx_w u =? u64 (uart_tx_r u + UART_TX_BUF_SIZE)
      then sleep ChUartR LUart;; uartputc_loop fuel c
      else
        modify (fun s => set_k_uart (set_uart_tx_buf
          (upd_at (Z.to_nat (uart_tx_w u mod UART_TX_BUF_SIZE)) (fun _ => u8 c) (uart_tx_buf u)) (k_uart s)) s);;
        modify (fun s => set_k_uart (set_uart_tx_w (u64 (uart_tx_w u + 1)) (k_uart s)) s);;
        uartstart;;
        release LUart
  end.
Definition uartputc (c : Z) : K unit :=
  acquire LUart;;
  p ← gets k_panicked;
  if negb (p =? 0) then block else uartputc_loop (S patience) c.

Definition uartputc_sync (c : Z) : K unit :=
  push_off;;
  p ← gets k_panicked;
  if negb (p =? 0) then block else
  lsr ← read_LSR;
  if negb (flag lsr LSR_TX_IDLE) then block else
  write_THR c;;
  pop_off.

Definition consputc (c : Z) : K unit :=
  if c =? BACKSPACE
  then uartputc_sync 8;; uartputc_sync 32;; uartputc_sync 8
  else uartputc_sync c.

Definition uart_putc (c : Z) : K unit := consputc c.

Definition uart_putstr (s : list Z) : K unit :=
  p ← gets k_panicked;
  if negb (p =? 0) then block else for_each s uart_putc.

(** The device registers [uartinit] programs are write-only configuration. *)
Definition uartinit : K unit := initlock LUart "uart".

Definition uartgetc : K Z :=
  lsr ← read_LSR;
  if Z.land lsr 1 =? 1 then read_RHR else mret (-1).
End uart.
