(* ===== verification/Print.v ===== *)
(** * [printf] and its conversions, [print.c]

    A format string is the list of its characters.  [panic] is the [Panic]
    outcome of the model: it prints its argument and spins for ever. *)

From S2P Require Import Prelude Layout Memory State Spinlock Sched Uart CString.

(** The characters of a string literal (and of [\n]). *)
Definition str (s : string) : list Z := (fun c => Z.of_nat (Ascii.nat_of_ascii c)) <$> String.list_ascii_of_string s.
Definition NL : Z := 10.

(** [nums]: sixteen digits and their terminator. *)
Definition nums : list Z := str "0123456789abcdef" ++ [0].

(** A variable argument. *)
Inductive arg := AInt (v : Z) | AStr (s : option (list Z)) | APtr (v : Z).

Section print.
  Context {L : LinkMap}.

(** [nums[i]]; outside the array, the byte the linker put there. *)
Definition nums_at (s : kstate) (i : Z) : Z :=
  if (0 <=? i) && (i <? 17) then nth (Z.to_nat i) nums 0 else load8 (k_mem s) (l_nums + i).

(** The [do ... while((val /= 10) > 0)] of [printInt], filling [buf]; an [int]
    has at most ten digits. *)
Fixpoint digits_loop (fuel : nat) (val : Z) (buf : list Z) (s : kstate) : list Z :=
  match fuel with
  | O => buf
  | S fuel =>
      let buf := buf ++ [nums_at s (Z.rem val 10)] in
      if 0 <? Z.quot val 10 then digits_loop fuel (Z.quot val 10) buf s else buf
  end.
Definition printInt (val : Z) : K unit :=
  buf ← gets (digits_loop 10 val []);
  for_each (rev buf) uart_putc.

Fixpoint printPtr_loop (n : nat) (ptr : Z) : K unit :=
  match n with
  | O => mret tt
  | S n =>
      c ← gets (fun s => nums_at s (Z.shiftr ptr 60));
      uart_putc c;;
      printPtr_loop n (u64 (Z.shiftl ptr 4))
  end.
Definition printPtr (ptr : Z) : K unit :=
  uart_putc 48;;
  uart_putc 120;;
  printPtr_loop 16 ptr.

Definition print (s : list Z) : K unit := uart_putstr s.

(** The loop over the format.  Two cases no caller reaches are outside the
    model and block: an argument of the wrong kind, and a format that ends in
    ['%'], where the code prints it and runs past the terminator. *)
Fixpoint printf_loop (s : list Z) (args : list arg) : K unit :=
  match s with
  | [] => mret tt
  | c :: rest =>
      if negb (c =? 37) then uart_putc c;; printf_loop rest args else
      match rest with
      | [] => uart_putc c;; block
      | next :: rest =>
          if next =? 100 then
            match args with
            | AInt v :: args => printInt v;; printf_loop rest args
            | _ => block
            end
          else if next =? 115 then
            match args with
            | AStr (Some t) :: args => print t;; printf_loop rest args
            | AStr None :: args => printf_loop rest args
            | _ => block
            end
          else if next =? 112 then
            match args with
            | APtr v :: args => printPtr v;; printf_loop rest args
            | _ => block
            end
          else uart_putc next;; printf_loop rest args
      end
  end.
Definition printf (s : list Z) (args : list arg) : K unit :=
  locking ← gets k_locking;
  (if negb (locking =? 0) then acquire LPr else mret tt);;
  printf_loop s args;;
  (if negb (locking =? 0) then release LPr else mret tt).

Definition printinit : K unit :=
  uartinit;;
  initlock LPr "pr";;
  modify (set_k_locking 1).
End print.

(** ** Output *)

(** The transmitter takes every byte and the kernel has not panicked. *)
Definition uart_ready (s : kstate) : Prop :=
  k_panicked s = 0 /\ uart_idle (k_uart s).

(** The bytes [l] are transmitted. *)
Definition emit (l : list Z) (s : kstate) : kstate :=
  set_k_uart (set_uart_out (rev (u8 <$> l) ++ uart_out (k_uart s)) (k_uart s)) s.

Section output.
  Context {L : LinkMap}.
  Implicit Types s : kstate.

Lemma neutral_emit l : neutral (emit l).
Proof. by split. Qed.

Lemma emit_nil s : emit [] s = s.
Proof. unfold emit. kstate_eq. by destruct (k_uart s). Qed.
Lemma emit_app l1 l2 s : emit l2 (emit l1 s) = emit (l1 ++ l2) s.
Proof.
  unfold emit. kstate_eq. cbn. unfold set_uart_out. cbn. f_equal.
  by rewrite fmap_app, rev_app_distr, app_assoc.
Qed.

Lemma uart_ready_emit l s : uart_ready s -> uart_ready (emit l s).
Proof. done. Qed.

Lemma idle_lor lsr b : flag (Z.lor lsr (Z.b2z b)) LSR_TX_IDLE = flag lsr LSR_TX_IDLE.
Proof.
  unfold LSR_TX_IDLE. rewrite !flag_testbit, Z.lor_spec by lia.
  destruct b; cbn [Z.b2z]; [|by rewrite Z.bits_0, orb_false_r].
  change 1 with (2 ^ 0). by rewrite Z.pow2_bits_eqb, orb_false_r.
Qed.

Lemma uartputc_sync_eq c s :
  cpu_wf s -> uart_ready s -> uartputc_sync c s = Ok tt (emit [c] (touch s)).
Proof.
  intros Hc [Hp Hl]. unfold uartputc_sync. rewrite (bind_ok _ _ _ _ _ (push_off_eq s Hc)).
  unfold read_LSR, write_THR. step_prim. change (k_panicked (pushed s)) with (k_panicked s). rewrite Hp.
  cbn [Z.eqb negb]. change (k_uart (pushed s)) with (k_uart s). rewrite idle_lor, (proj1 Hl). cbn [negb].
  rewrite (pop_off_pushed s) by done. apply (f_equal (Ok tt)). unfold emit. kstate_eq. by apply thr_write_idle.
Qed.

Lemma uart_putc_eq c s :
  cpu_wf s -> uart_ready s -> 0 <= c < 256 -> uart_putc c s = Ok tt (emit [c] (touch s)).
Proof.
  intros Hc Hu Hr. unfold uart_putc, consputc. destruct (Z.eqb_spec c BACKSPACE); [unfold BACKSPACE in *; lia|].
  by apply uartputc_sync_eq.
Qed.

(** [touch] on a nonempty run of operations. *)
Definition touch_if (b : bool) s : kstate := if b then touch s else s.

Lemma putchars_eq l s :
  cpu_wf s -> uart_ready s -> Forall (fun c => 0 <= c < 256) l ->
  for_each l uart_putc s = Ok tt (emit l (touch_if (bool_decide (l <> [])) s)).
Proof.
  revert s. induction l as [|c l IH]; intros s Hc Hu Hl; cbn [for_each].
  { by rewrite emit_nil. }
  apply Forall_cons in Hl as [Hc0 Hl]. rewrite (bind_ok _ _ _ _ _ (uart_putc_eq c s Hc Hu Hc0)).
  rewrite IH; [|apply (neutral_cpu_wf _ (neutral_emit _)); by apply cpu_wf_touch|done|done].
  rewrite (bool_decide_eq_true_2 (c :: l <> [])) by done. cbn [touch_if].
  apply (f_equal (Ok tt)). case_bool_decide; cbn [touch_if].
  - rewrite <- (neutral_touch _ (neutral_emit _)), touch_touch by done. by rewrite emit_app.
  - by rewrite emit_app.
Qed.

(** A format without conversions. *)
Definition plain (l : list Z) : Prop := Forall (fun c => 0 <= c < 256 /\ c <> 37) l.

Lemma printf_loop_plain l s : plain l -> printf_loop l [] s = for_each l uart_putc s.
Proof.
  revert s. induction l as [|c l IH]; intros s Hl; [done|]. apply Forall_cons in Hl as [[_ Hc] Hl].
  cbn [printf_loop for_each]. destruct (Z.eqb_spec c 37); [done|]. cbn [negb].
  unfold mbind, prog_bind. destruct (uart_putc c s); [by apply IH|done|done].
Qed.

Lemma printf_plain l s :
  cpu_wf s -> noff (cpu_of s) < 2 ^ 31 - 2 -> uart_ready s -> plain l -> l <> [] ->
  (k_locking s <> 0 -> lock_free LPr s) ->
  printf l [] s = Ok tt (emit l (touch s)).
Proof.
  intros Hc Hn Hu Hl Hne Hlk. unfold printf.
  assert (Forall (fun c => 0 <= c < 256) l) as Hb by (eapply Forall_impl; [exact Hl|]; by intros ? [? ?]).
  rewrite (bind_ok _ _ _ _ _ (eq_refl : gets k_locking s = Ok (k_locking s) s)).
  destruct (Z.eqb_spec (k_locking s) 0) as [E|E]; cbn [negb].
  - step_prim. rewrite printf_loop_plain, putchars_eq by done.
    by rewrite bool_decide_eq_true_2 by done.
  - rewrite (bind_ok _ _ _ _ _ (acquire_free _ _ Hc (Hlk E))). step_prim.
    rewrite printf_loop_plain by done.
    rewrite putchars_eq; [|by apply cpu_wf_held|done|done].
    rewrite bool_decide_eq_true_2 by done. cbn [touch_if]. rewrite touch_held by done.
    by rewrite (release_neutral _ (neutral_emit l) LPr s Hc (Hlk E)).
Qed.

(** ** [printInt] *)

(** The decimal digits of [v], most significant first. *)
Fixpoint dec_digits (fuel : nat) (v : Z) : list Z :=
  match fuel with
  | O => []
  | S fuel => (if v <? 10 then [] else dec_digits fuel (v / 10)) ++ [digit0 + v mod 10]
  end.

Lemma nums_at_digit s d : 0 <= d < 10 -> nums_at s d = digit0 + d.
Proof.
  intros Hd. unfold nums_at. destruct (Z.leb_spec 0 d); [|lia]. destruct (Z.ltb_spec d 17); [|lia].
  cbn [andb]. assert (d = 0 \/ d = 1 \/ d = 2 \/ d = 3 \/ d = 4 \/ d = 5 \/ d = 6 \/ d = 7 \/ d = 8 \/ d = 9)
    as Hcases by lia.
  by destruct Hcases as [->|[->|[->|[->|[->|[->|[->|[->|[->| ->]]]]]]]]].
Qed.

Lemma digits_loop_eq fuel v buf s :
  0 <= v < 10 ^ Z.of_nat fuel -> (0 < fuel)%nat ->
  digits_loop fuel v buf s = buf ++ rev (dec_digits fuel v).
Proof.
  revert v buf. induction fuel as [|fuel IH]; intros v buf Hv Hf; [lia|]. cbn [digits_loop dec_digits].
  rewrite Z.rem_mod_nonneg, Z.quot_div_nonneg by lia.
  rewrite nums_at_digit by (apply Z.mod_pos_bound; lia).
  rewrite rev_app_distr. cbn [rev app].
  destruct (Z.ltb_spec v 10).
  - rewrite Z.div_small by lia. cbn. done.
  - assert (0 < v / 10) by (apply Z.div_str_pos; lia). destruct (Z.ltb_spec 0 (v / 10)); [|lia].
    rewrite Nat2Z.inj_succ, Z.pow_succ_r in Hv by lia.
    rewrite IH; [by rewrite <- app_assoc| |].
    + split; [lia|]. apply Z.div_lt_upper_bound; lia.
    + destruct fuel; [cbn in Hv; lia|lia].
Qed.

Lemma dec_digits_bytes fuel v : 0 <= v -> Forall (fun c => digit0 <= c <= 57) (dec_digits fuel v).
Proof.
  revert v. induction fuel as [|fuel IH]; intros v Hv; [done|]. cbn [dec_digits].
  apply Forall_app. split.
  - case_match; [done|]. apply IH. apply Z.div_pos; lia.
  - repeat constructor; unfold digit0; pose proof (Z.mod_pos_bound v 10); lia.
Qed.

Lemma dec_digits_cons fuel v : (0 < fuel)%nat -> dec_digits fuel v <> [].
Proof. destruct fuel; [lia|]. cbn. intros _ [_ ?]%app_eq_nil. done. Qed.

Lemma printInt_eq v s :
  cpu_wf s -> uart_ready s -> 0 <= v < 10 ^ 10 ->
  printInt v s = Ok tt (emit (dec_digits 10 v) (touch s)).
Proof.
  intros Hc Hu Hv. unfold printInt.
  rewrite (bind_ok _ _ _ _ _ (eq_refl : gets (digits_loop 10 v []) s = Ok (digits_loop 10 v [] s) s)).
  rewrite digits_loop_eq by (done || lia). rewrite app_nil_l, rev_involutive.
  rewrite putchars_eq; [|done|done|].
  - by rewrite bool_decide_eq_true_2 by (apply dec_digits_cons; lia).
  - eapply Forall_impl; [apply dec_digits_bytes; lia|]. unfold digit0. cbn. lia.
Qed.

(** [atoi] reads the digits back. *)
Lemma atoi_loop_app fuel l n rest :
  Forall (fun c => digit0 <= c <= 57) l -> (length l < fuel)%nat ->
  atoi_loop fuel (of_list (l ++ rest)) n =
    atoi_loop (fuel - length l) (of_list rest) (foldl (fun n c => i32 (n * 10 + c - digit0)) n l).
Proof.
  revert fuel n. induction l as [|c l IH]; intros [|fuel] n Hl Hf; try (cbn in Hf; lia); [done|].
  apply Forall_cons in Hl as [Hc Hl]. cbn [atoi_loop app]. unfold of_list at 1 2. cbn [nth].
  destruct (Z.leb_spec digit0 c); [|lia]. destruct (Z.leb_spec c 57); [|lia]. cbn [andb foldl length].
  change (shift 1 (of_list (c :: l ++ rest))) with (of_list (l ++ rest)).
  unfold of_list at 2. cbn [nth]. rewrite IH; [done|done|cbn in Hf; lia].
Qed.

Lemma foldl_digits fuel v :
  0 <= v < 10 ^ Z.of_nat fuel -> v < 2 ^ 31 -> (0 < fuel)%nat ->
  foldl (fun n c => i32 (n * 10 + c - digit0)) 0 (dec_digits fuel v) = v.
Proof.
  revert v. induction fuel as [|fuel IH]; intros v Hv Hb Hf; [lia|]. cbn [dec_digits].
  rewrite foldl_app. cbn [foldl]. pose proof (Z.div_mod v 10 ltac:(lia)).
  pose proof (Z.mod_pos_bound v 10 ltac:(lia)). destruct (Z.ltb_spec v 10).
  - cbn [foldl]. rewrite Z.mod_small by lia. rewrite i32_id; unfold digit0; lia.
  - rewrite Nat2Z.inj_succ, Z.pow_succ_r in Hv by lia. rewrite IH.
    + rewrite i32_id; unfold digit0; lia.
    + split; [apply Z.div_pos; lia|]. apply Z.div_lt_upper_bound; lia.
    + apply Z.div_lt_upper_bound; lia.
    + destruct fuel; [cbn in Hv; lia|lia].
Qed.

Lemma atoi_dec v rest :
  0 <= v < 2 ^ 31 -> (nth 0 rest 0 < digit0 \/ 57 < nth 0 rest 0) ->
  atoi 12 (of_list (dec_digits 10 v ++ rest)) = Some v.
Proof.
  intros Hv Hr. assert (length (dec_digits 10 v) <= 10)%nat as Hlen.
  { assert (forall fuel v, (length (dec_digits fuel v) <= fuel)%nat) as H; [|apply H].
    induction fuel as [|fuel IH]; intros w; [done|]. cbn. rewrite length_app. cbn.
    case_match; cbn; [lia|]. specialize (IH (w / 10)). lia. }
  unfold atoi. rewrite atoi_loop_app; [|apply dec_digits_bytes; lia|lia].
  rewrite foldl_digits by lia. destruct (12 - length (dec_digits 10 v))%nat as [|k] eqn:E; [lia|].
  cbn [atoi_loop]. unfold of_list at 1 2.
  by destruct (Z.leb_spec digit0 (nth 0 rest 0)), (Z.leb_spec (nth 0 rest 0) 57); [lia|..].
Qed.
End output.
