(* ===== verification/Format.v ===== *)
(** * What a format string prints

    A reference for the formatters of the kernel ([print.c]) and of user programs
    ([user/printf.c]): the bytes a format and its arguments denote, and the proof
    that each conversion of the kernel emits them. *)

From S2P Require Import Prelude Layout Memory CString State Spinlock Sched Uart Print.

(** The sixteen hexadecimal digits of a pointer. *)
Definition hex_digit (d : Z) : Z := nth (Z.to_nat d) nums 0.
Definition hex_digits (v : Z) : list Z := (fun i => hex_digit ((v / 16 ^ (15 - Z.of_nat i)) mod 16)) <$> seq 0 16.

(** The bytes printed; [None] for a format that ends in ['%'], an argument of the
    wrong kind or a negative integer. *)
Fixpoint format (s : list Z) (args : list arg) : option (list Z) :=
  match s with
  | [] => Some []
  | c :: rest =>
      if negb (c =? 37) then cons c <$> format rest args else
      match rest with
      | [] => None
      | next :: rest =>
          if next =? 100 then
            match args with
            | AInt v :: args => if v <? 0 then None else app (dec_digits 10 v) <$> format rest args
            | _ => None
            end
          else if next =? 115 then
            match args with
            | AStr (Some t) :: args => app t <$> format rest args
            | AStr None :: args => format rest args
            | _ => None
            end
          else if next =? 112 then
            match args with
            | APtr v :: args => app ([48; 120] ++ hex_digits v) <$> format rest args
            | _ => None
            end
          else cons next <$> format rest args
      end
  end.

(** Characters are bytes, integers and pointers are in range. *)
Definition arg_ok (a : arg) : Prop :=
  match a with
  | AInt v => v < 2 ^ 31
  | AStr (Some t) => Forall (fun c => 0 <= c < 256) t
  | AStr None => True
  | APtr v => 0 <= v < 2 ^ 64
  end.

(** Induction two characters at a time. *)
Lemma list_ind2 {A} (P : list A -> Prop) :
  P [] -> (forall x, P [x]) -> (forall x y l, P l -> P (y :: l) -> P (x :: y :: l)) -> forall l, P l.
Proof.
  intros H0 H1 H2 l. enough (P l /\ forall x, P (x :: l)) by tauto.
  induction l as [|y l [IH1 IH2]]; [by split|]. split; [apply IH2|]. intros x. apply H2; auto.
Qed.

(** Digit [k] of a pointer is what [k] shifts bring to the top. *)
Lemma top_digit v k : 0 <= v < 2 ^ 64 -> 0 <= k < 16 -> Z.shiftr (u64 (v * 16 ^ k)) 60 = (v / 16 ^ (15 - k)) mod 16.
Proof.
  intros Hv Hk. rewrite Z.shiftr_div_pow2 by lia. unfold u64.
  replace (2 ^ 64) with (16 ^ k * 16 ^ (16 - k)) by (rewrite <- Z.pow_add_r by lia; replace (k + (16 - k)) with 16 by lia; reflexivity).
  rewrite (Z.mul_comm v), Zmult_mod_distr_l.
  replace (2 ^ 60) with (16 ^ k * 16 ^ (15 - k)) by (rewrite <- Z.pow_add_r by lia; replace (k + (15 - k)) with 15 by lia; reflexivity).
  assert (0 < 16 ^ k) by (apply Z.pow_pos_nonneg; lia). assert (0 < 16 ^ (15 - k)) by (apply Z.pow_pos_nonneg; lia).
  rewrite Z.div_mul_cancel_l by lia.
  replace (16 ^ (16 - k)) with (16 ^ (15 - k) * 16) by (rewrite Z.mul_comm, <- Z.pow_succ_r by lia; f_equal; lia).
  rewrite Z.rem_mul_r by lia. rewrite (Z.mul_comm (16 ^ (15 - k))), Z.div_add by lia.
  rewrite Z.div_small; [lia|]. apply Z.mod_pos_bound. lia.
Qed.

Lemma shifted_pointer v k :
  u64 (Z.shiftl (u64 (v * 16 ^ Z.of_nat k)) 4) = u64 (v * 16 ^ Z.of_nat (S k)).
Proof.
  rewrite Z.shiftl_mul_pow2 by lia. unfold u64. rewrite Zmult_mod_idemp_l. f_equal.
  rewrite Nat2Z.inj_succ, Z.pow_succ_r by lia. lia.
Qed.

Section kernel_format.
  Context {L : LinkMap}.

(** On a ready transmitter [m] sends [l] and does nothing else. *)
Definition emits (l : list Z) (m : K unit) : Prop :=
  forall s, cpu_wf s -> uart_ready s -> m s = Ok tt (emit l (touch_if (bool_decide (l <> [])) s)).

Lemma emits_ret : emits [] (mret tt).
Proof. intros s _ _. cbn. by rewrite emit_nil. Qed.

Lemma touch_if_emit b l s : touch_if b (emit l s) = emit l (touch_if b s).
Proof. destruct b; [|done]. cbn. by rewrite <- (neutral_touch _ (neutral_emit l)). Qed.

Lemma cpu_wf_emits b l s : cpu_wf s -> cpu_wf (emit l (touch_if b s)).
Proof. intros H. apply (neutral_cpu_wf _ (neutral_emit _)). destruct b; [by apply cpu_wf_touch|done]. Qed.

Lemma emits_bind l1 l2 m1 m2 : emits l1 m1 -> emits l2 m2 -> emits (l1 ++ l2) (m1;; m2).
Proof.
  intros H1 H2 s Hc Hu. rewrite (bind_ok _ _ _ _ _ (H1 s Hc Hu)).
  rewrite H2; [|by apply cpu_wf_emits|by case_bool_decide].
  rewrite touch_if_emit, emit_app. do 2 f_equal.
  destruct l1 as [|c1 l1], l2 as [|c2 l2]; cbn; rewrite ?app_nil_r; try done. by apply touch_touch.
Qed.

Lemma emits_putc c : 0 <= c < 256 -> emits [c] (uart_putc c).
Proof. intros Hr s Hc Hu. by apply uart_putc_eq. Qed.

Lemma emits_print l : Forall (fun c => 0 <= c < 256) l -> emits l (print l).
Proof. intros Hl s Hc Hu. unfold print, uart_putstr. step_prim. rewrite (proj1 Hu). by apply putchars_eq. Qed.

Lemma hex_digit_byte d : 0 <= d < 16 -> 0 <= hex_digit d < 256.
Proof.
  intros Hd. unfold hex_digit. assert (Forall (fun c => 0 <= c < 256) nums) as Hn by (apply (bool_decide_unpack _); vm_compute; exact I).
  apply (Forall_lookup_1 _ _ (Z.to_nat d) _ Hn). apply lookup_nth. change (length nums) with 17%nat. lia.
Qed.

Lemma nums_at_hex s d : 0 <= d < 16 -> nums_at s d = hex_digit d.
Proof. intros Hd. unfold nums_at. destruct (Z.leb_spec 0 d); [|lia]. by destruct (Z.ltb_spec d 17); [|lia]. Qed.

(** The value of the loop variable after [k] shifts, and the digits from there on. *)
Lemma emits_printPtr_loop v n k :
  0 <= v < 2 ^ 64 -> (k + n = 16)%nat ->
  emits ((fun i => hex_digit ((v / 16 ^ (15 - Z.of_nat i)) mod 16)) <$> seq k n) (printPtr_loop n (u64 (v * 16 ^ Z.of_nat k))).
Proof.
  intros Hv. revert k. induction n as [|n IH]; intros k Hk; cbn [seq fmap list_fmap printPtr_loop]; [apply emits_ret|].
  assert (0 <= (v / 16 ^ (15 - Z.of_nat k)) mod 16 < 16) as Hd by (apply Z.mod_pos_bound; lia).
  rewrite shifted_pointer.
  intros s Hc Hu. etransitivity; [|apply (emits_bind [hex_digit ((v / 16 ^ (15 - Z.of_nat k)) mod 16)] _ _ _ (emits_putc _ (hex_digit_byte _ Hd)) (IH (S k) ltac:(lia)) s Hc Hu)].
  unfold mbind, prog_bind, gets. rewrite top_digit by lia. by rewrite nums_at_hex.
Qed.

Lemma emits_printPtr v : 0 <= v < 2 ^ 64 -> emits ([48; 120] ++ hex_digits v) (printPtr v).
Proof.
  intros Hv. apply (emits_bind [48] _ _ _ (emits_putc 48 ltac:(lia))).
  apply (emits_bind [120] _ _ _ (emits_putc 120 ltac:(lia))).
  pose proof (emits_printPtr_loop v 16 0 Hv eq_refl) as H. by rewrite Z.mul_1_r, u64_id in H.
Qed.

Lemma emits_printInt v : 0 <= v < 2 ^ 31 -> emits (dec_digits 10 v) (printInt v).
Proof.
  intros Hv s Hc Hu. rewrite printInt_eq by (done || lia). rewrite bool_decide_eq_true_2; [done|].
  apply dec_digits_cons. lia.
Qed.

(** The kernel's loop over a format emits what the format denotes. *)
Lemma printf_loop_emits s args out :
  Forall (fun c => 0 <= c < 256) s -> Forall arg_ok args -> format s args = Some out -> emits out (printf_loop s args).
Proof.
  revert args out. induction s as [|c|c next s IH1 IH2] using list_ind2; intros args out Hs Ha.
  - intros [= <-]. apply emits_ret.
  - cbn. destruct (Z.eqb_spec c 37); [done|]. cbn [negb]. intros [= <-].
    apply Forall_cons in Hs as [Hc _]. apply (emits_bind [c] []); [by apply emits_putc|apply emits_ret].
  - apply Forall_cons in Hs as [Hc Hs]. pose proof Hs as [Hn Hs']%Forall_cons.
    cbn [format printf_loop]. destruct (Z.eqb_spec c 37); cbn [negb].
    + repeat case_bool; subst.
      * destruct args as [|[v| |] args]; try done. apply Forall_cons in Ha as [Hv Ha]. cbn in Hv.
        destruct (Z.ltb_spec v 0); [done|]. intros (o & Ho & ->)%fmap_Some.
        apply emits_bind; [apply emits_printInt; lia|by apply IH1].
      * destruct args as [|[|[t|]|] args]; try done; apply Forall_cons in Ha as [Hv Ha]; cbn in Hv; [|by apply IH1].
        intros (o & Ho & ->)%fmap_Some. apply emits_bind; [by apply emits_print|by apply IH1].
      * destruct args as [|[| |v] args]; try done. apply Forall_cons in Ha as [Hv Ha]. cbn in Hv.
        intros (o & Ho & ->)%fmap_Some. apply emits_bind; [by apply emits_printPtr|by apply IH1].
      * intros (o & Ho & ->)%fmap_Some. apply (emits_bind [next]); [by apply emits_putc|by apply IH1].
    + intros (o & Ho & ->)%fmap_Some. apply (emits_bind [c]); [by apply emits_putc|]. by apply IH2.
Qed.

(** With the lock of [printf]. *)
Lemma printf_emits s args out st :
  Forall (fun c => 0 <= c < 256) s -> Forall arg_ok args -> format s args = Some out ->
  cpu_wf st -> uart_ready st -> noff (cpu_of st) < 2 ^ 31 - 2 -> (k_locking st <> 0 -> lock_free LPr st) ->
  exists b, printf s args st = Ok tt (emit out (touch_if b st)).
Proof.
  intros Hs Ha Ho Hc Hu Hn Hlk. pose proof (printf_loop_emits s args out Hs Ha Ho) as He. unfold printf.
  rewrite (bind_ok _ _ _ _ _ (eq_refl : gets k_locking st = Ok (k_locking st) st)).
  destruct (Z.eqb_spec (k_locking st) 0) as [E|E]; cbn [negb].
  - eexists. step_prim. by rewrite He.
  - exists true. rewrite (bind_ok _ _ _ _ _ (acquire_free _ _ Hc (Hlk E))). step_prim.
    rewrite He; [|by apply cpu_wf_held|done].
    assert (forall b, touch_if b (held LPr st) = held LPr st) as -> by (by intros []; [apply touch_held|]).
    by rewrite (release_neutral _ (neutral_emit out) LPr st Hc (Hlk E)).
Qed.
End kernel_format.
