(* ===== verification/Sleeplock.v ===== *)
(** * [sleeplock.c]: long-term locks

    A sleep lock is a word protected by a spin lock; a process that finds it
    taken sleeps.  Sleep locks exist in the buffers and in the in-core inodes,
    so a lock is named by [slref]. *)

From S2P Require Import Prelude Layout Memory State Spinlock Sched.

Inductive slref := SBuf (i : nat) | SInode (i : nat).
#[export] Instance slref_eq_dec : EqDecision slref.
Proof. solve_decision. Defined.

(** The spin lock inside, and the channel (the lock's own address). *)
Definition sl_lk (r : slref) : lockid := match r with SBuf i => LBuf i | SInode i => LInode i end.
Definition sl_chan (r : slref) : chan := match r with SBuf i => ChBufLock i | SInode i => ChInodeLock i end.

Definition upd_buf (i : nat) (f : buf -> buf) (s : kstate) : kstate :=
  set_k_bcache (set_bufs (upd_at i f (bufs (k_bcache s))) (k_bcache s)) s.
Definition upd_inode (i : nat) (f : inode -> inode) (s : kstate) : kstate :=
  set_k_inodes (upd_at i f (k_inodes s)) s.
Definition buf_at (s : kstate) (i : nat) : buf := bufs (k_bcache s) !!! i.
Definition inode_at (s : kstate) (i : nat) : inode := k_inodes s !!! i.

Definition sl_at (s : kstate) (r : slref) : sleeplock :=
  match r with SBuf i => b_sk (buf_at s i) | SInode i => i_splock (inode_at s i) end.
Definition upd_sl (r : slref) (f : sleeplock -> sleeplock) (s : kstate) : kstate :=
  match r with
  | SBuf i => upd_buf i (fun b => set_b_sk (f (b_sk b)) b) s
  | SInode i => upd_inode i (fun d => set_i_splock (f (i_splock d)) d) s
  end.

Definition sleep_initlock (r : slref) (name : string) : K unit :=
  initlock (sl_lk r) name;;
  modify (upd_sl r (set_sl_name name));;
  modify (upd_sl r (set_sl_locked 0));;
  modify (upd_sl r (set_sl_pid 0)).

Section sleeplock.
  Context {Ot : Others}.

(** [while(sl->locked) sleep(sl, &sl->splock)]. *)
Fixpoint sleep_wait (n : nat) (r : slref) : K unit :=
  match n with
  | O => block
  | S n =>
      l ← gets (fun s => sl_at s r);
      if sl_locked l =? 0 then mret tt else
      sleep (sl_chan r) (sl_lk r);;
      sleep_wait n r
  end.

Definition sleep_lock (r : slref) : K unit :=
  acquire (sl_lk r);;
  sleep_wait (S patience) r;;
  modify (upd_sl r (set_sl_locked 1));;
  p ← myproc;
  pid ← proc_field p_pid p;
  modify (upd_sl r (set_sl_pid (i32 pid)));;
  release (sl_lk r).

Definition sleep_unlock (r : slref) : K unit :=
  acquire (sl_lk r);;
  modify (upd_sl r (set_sl_locked 0));;
  modify (upd_sl r (set_sl_pid 0));;
  wakeup (sl_chan r);;
  release (sl_lk r).

Definition holdingsleep (r : slref) : K bool :=
  acquire (sl_lk r);;
  l ← gets (fun s => sl_at s r);
  b ← (if sl_locked l =? 0 then mret false
       else p ← myproc; pid ← proc_field p_pid p; mret (u32 (sl_pid l) =? pid));
  release (sl_lk r);;
  mret b.
End sleeplock.

(** ** Specifications *)

Section sleeplock_props.
  Context {Ot : Others}.
  Implicit Types (s : kstate) (r : slref).

Lemma neutral_upd_buf i f : neutral (upd_buf i f).
Proof. by split. Qed.
Lemma neutral_upd_inode i f : neutral (upd_inode i f).
Proof. by split. Qed.
Lemma neutral_upd_sl r f : neutral (upd_sl r f).
Proof. by destruct r. Qed.

Lemma upd_sl_upd_sl r f g s : upd_sl r f (upd_sl r g s) = upd_sl r (fun l => f (g l)) s.
Proof.
  destruct r; cbn; unfold upd_buf, upd_inode; kstate_eq; cbn; rewrite upd_at_upd_at; done.
Qed.

Definition sl_ok r s : Prop :=
  match r with SBuf i => (i < length (bufs (k_bcache s)))%nat | SInode i => (i < length (k_inodes s))%nat end.

Lemma sl_at_upd r f s : sl_ok r s -> sl_at (upd_sl r f s) r = f (sl_at s r).
Proof.
  destruct r; cbn; intros; unfold buf_at, inode_at, upd_buf, upd_inode; kred; cbn; by rewrite upd_at_eq.
Qed.

(** The process [i] takes the lock. *)
Definition sl_taken (r : slref) (pid : Z) : kstate -> kstate :=
  upd_sl r (fun l => set_sl_pid (i32 pid) (set_sl_locked 1 l)).

(** A free lock is taken at once. *)
Lemma sleep_lock_free r s i :
  kready s -> lock_ok (sl_lk r) -> curproc s = Some i -> sl_locked (sl_at s r) = 0 ->
  sleep_lock r s = Ok tt (sl_taken r (p_pid (proc_at s i)) (touch s)).
Proof.
  intros Hk Hr Hi Hl. pose proof (kr_cpu s Hk) as Hc. unfold sleep_lock.
  rewrite (bind_ok _ _ _ _ _ (acquire_free _ _ Hc (kr_locks s Hk _ Hr))).
  set (h := held (sl_lk r) s). cbn [sleep_wait].
  assert (sl_at h r = sl_at s r) as E by by destruct r. step_prim. rewrite E, Hl. cbn [Z.eqb].
  unfold mret, prog_ret. set (g1 := upd_sl r (set_sl_locked 1)).
  assert (neutral g1) as Hn1 by apply neutral_upd_sl.
  assert (cpu_wf (g1 h)) as Hc1.
  { apply (neutral_cpu_wf _ Hn1). apply cpu_wf_held; [done|]. pose proof (kr_noff s Hk). lia. }
  rewrite (myproc_eq _ Hc1).
  assert (curproc (g1 h) = Some i) as ->.
  { unfold curproc. rewrite (neutral_cpu_of _ Hn1). unfold h. by rewrite c_proc_held. }
  unfold proc_field, deref. step_prim.
  rewrite <- (neutral_touch _ Hn1). unfold h. rewrite touch_held by done. fold h. unfold g1.
  assert (proc_at (upd_sl r (set_sl_locked 1) h) i = proc_at s i) as -> by by destruct r.
  rewrite upd_sl_upd_sl. unfold h.
  rewrite (release_neutral _ (neutral_upd_sl _ _)); [done|done|]. by apply kr_locks.
Qed.

Definition sl_released (r : slref) : kstate -> kstate :=
  upd_sl r (fun l => set_sl_pid 0 (set_sl_locked 0 l)).

(** Releasing wakes the waiters. *)
Lemma sleep_unlock_eq r s :
  kready s -> lock_ok (sl_lk r) ->
  sleep_unlock r s =
    Ok tt (upd_procs (imap (wake (Some (sl_chan r)) (curproc s))) (sl_released r (touch s))).
Proof.
  intros Hk Hr. pose proof (kr_cpu s Hk) as Hc. unfold sleep_unlock.
  rewrite (bind_ok _ _ _ _ _ (acquire_free _ _ Hc (kr_locks s Hk _ Hr))).
  set (h := held (sl_lk r) s). step_prim. rewrite upd_sl_upd_sl. fold (sl_released r h).
  assert (neutral (sl_released r)) as Hn by apply neutral_upd_sl.
  assert (cpu_wf (sl_released r h)) as Hc1.
  { apply (neutral_cpu_wf _ Hn). apply cpu_wf_held; [done|]. pose proof (kr_noff s Hk). lia. }
  rewrite wakeup_spec; [|done| |].
  2: { intros i Hi. apply (neutral_lock_free _ Hn). apply lock_free_held; [by destruct r|].
       by apply (kr_locks s Hk (LProc i)). }
  2: { destruct r; apply (kr_nprocs s Hk). }
  assert (curproc (sl_released r h) = curproc s) as ->.
  { unfold curproc. rewrite (neutral_cpu_of _ Hn). unfold h. by rewrite c_proc_held. }
  rewrite <- (neutral_touch _ Hn). unfold h. rewrite touch_held by done.
  rewrite (release_neutral _ (neutral_compose _ _ (neutral_procs _) Hn)); [done|done|]. by apply kr_locks.
Qed.

(** The current process holds the lock. *)
Definition sl_mine (r : slref) s : bool :=
  negb (sl_locked (sl_at s r) =? 0) &&
  match curproc s with
  | Some i => u32 (sl_pid (sl_at s r)) =? p_pid (proc_at s i)
  | None => false
  end.

Lemma holdingsleep_eq r s i :
  kready s -> lock_ok (sl_lk r) -> curproc s = Some i ->
  holdingsleep r s = Ok (sl_mine r s) (touch s).
Proof.
  intros Hk Hr Hi. pose proof (kr_cpu s Hk) as Hc. unfold holdingsleep, sl_mine.
  rewrite (bind_ok _ _ _ _ _ (acquire_free _ _ Hc (kr_locks s Hk _ Hr))).
  set (h := held (sl_lk r) s). step_prim. assert (sl_at h r = sl_at s r) as -> by by destruct r.
  assert (cpu_wf h) as Hc1.
  { apply cpu_wf_held; [done|]. pose proof (kr_noff s Hk). lia. }
  destruct (Z.eqb_spec (sl_locked (sl_at s r)) 0) as [E|E]; cbn [negb andb]; step_prim.
  - unfold h. rewrite (release_neutral _ neutral_id) by (done || by apply kr_locks). done.
  - rewrite (myproc_eq _ Hc1). unfold h. rewrite touch_held by done.
    unfold curproc at 1. rewrite c_proc_held by done. fold (curproc s). rewrite Hi.
    unfold proc_field, deref. step_prim.
    rewrite (release_neutral _ neutral_id) by (done || by apply kr_locks). done.
Qed.
End sleeplock_props.
