(* ===== verification/Kmem.v ===== *)
(** * [kalloc], [kfree], [freerange] of [vm.c]: the physical page allocator

    The free pages form a singly linked list threaded through their first
    eight bytes; [kmem.freelist] points to the first.  [kmem_inv s l] says that
    the list in memory is exactly [l], without repetition, of page aligned
    addresses between the end of the kernel image and [PHYSTOP]; the operations
    are shown to implement a stack of pages on top of it. *)

From S2P Require Import Prelude Layout Memory State Spinlock.

Definition upd_mem (f : memory -> memory) : K unit :=
  modify (fun s => set_k_mem (f (k_mem s)) s).

Section kmem.
  Context {L : LinkMap}.

Definition kfree (pa : Z) : K unit :=
  if negb (pa mod PGSIZE =? 0) || (pa <? l_end) || (PHYSTOP <=? pa) then panic "kfree" else
  upd_mem (fun m => memset m pa 1 PGSIZE);;
  acquire LKmem;;
  fl ← gets k_freelist;
  upd_mem (fun m => store64 m pa fl);;
  modify (set_k_freelist pa);;
  release LKmem.

(** [for(; p + PGSIZE <= pa_end; p += PGSIZE) kfree(p)], at most [fuel] rounds. *)
Fixpoint freerange_loop (fuel : nat) (p pa_end : Z) : K unit :=
  match fuel with
  | O => block
  | S fuel =>
      if p + PGSIZE <=? pa_end
      then kfree p;; freerange_loop fuel (p + PGSIZE) pa_end
      else mret tt
  end.
Definition freerange (pa_start pa_end : Z) : K unit :=
  let p := PGROUNDUP pa_start in
  freerange_loop (S (Z.to_nat ((pa_end - p) / PGSIZE))) p pa_end.

Definition kalloc : K Z :=
  acquire LKmem;;
  r ← gets k_freelist;
  (if negb (r =? 0) then m ← gets k_mem; modify (set_k_freelist (load64 m r)) else mret tt);;
  release LKmem;;
  (if negb (r =? 0) then upd_mem (fun m => memset m r 5 PGSIZE) else mret tt);;
  mret r.

(** ** Frame: the fields the allocator and its clients may write *)

Definition vm_upd (b : bool) (m : memory) (f : Z) (s : kstate) : kstate :=
  set_k_mem m (set_k_freelist f (if b then touch s else s)).
Definition vm_frame (s s' : kstate) : Prop := exists b m f, s' = vm_upd b m f s.

(** ** The list in memory *)

Definition page_ok (a : Z) : Prop := a mod PGSIZE = 0 /\ l_end <= a < PHYSTOP.

Fixpoint chain (m : memory) (p : Z) (l : list Z) : Prop :=
  match l with
  | [] => p = 0
  | a :: l => p = a /\ chain m (load64 m a) l
  end.

Record kmem_inv (s : kstate) (l : list Z) : Prop := {
  ki_chain : chain (k_mem s) (k_freelist s) l;
  ki_nodup : NoDup l;
  ki_pages : Forall page_ok l;
  ki_mem : mem_wf (k_mem s);
  ki_cpu : cpu_wf s;
  ki_lock : lock_free LKmem s
}.

Section frame.
  Implicit Types s : kstate.

Lemma cpu_wf_vm_upd b m f s : cpu_wf s -> cpu_wf (vm_upd b m f s).
Proof. intros. destruct b; [by apply cpu_wf_touch in H|done]. Qed.

Lemma lock_free_vm_upd b m f s l : lock_free l s -> lock_free l (vm_upd b m f s).
Proof. by destruct b. Qed.

Lemma vm_upd_vm_upd b b' m m' f f' s :
  cpu_wf s -> vm_upd b m f (vm_upd b' m' f' s) = vm_upd (b || b') m f s.
Proof.
  intros Hc. destruct b, b'; try done. unfold vm_upd; cbn [orb].
  change (touch (set_k_mem _ ?x)) with (set_k_mem m' (touch x)).
  change (touch (set_k_freelist _ ?x)) with (set_k_freelist f' (touch x)).
  by rewrite touch_touch.
Qed.

Lemma vm_upd_self s : vm_upd false (k_mem s) (k_freelist s) s = s.
Proof. by destruct s. Qed.

Lemma vm_frame_refl s : vm_frame s s.
Proof. exists false, (k_mem s), (k_freelist s). by rewrite vm_upd_self. Qed.

Lemma vm_frame_trans s s' s'' : cpu_wf s -> vm_frame s s' -> vm_frame s' s'' -> vm_frame s s''.
Proof.
  intros Hc (b & m & f & ->) (b' & m' & f' & ->). rewrite vm_upd_vm_upd by done.
  by exists (b' || b), m', f'.
Qed.
End frame.
End kmem.

Section kmem_correct.
  Context `{HL : LinkOk}.
  Implicit Types (s : kstate) (l : list Z).

Lemma page_ok_pos a : page_ok a -> 0 < a.
Proof. intros [_ H]. destruct HL as [Hl _ _ _ _]. unfold KERNELBASE in *. lia. Qed.

Lemma page_ok_addr a : page_ok a -> page_addr a.
Proof.
  intros Ha. pose proof (page_ok_pos a Ha). destruct Ha as [Hm Hr]. split; [done|].
  change PHYSTOP with (2 ^ 31 + 2 ^ 27) in Hr. lia.
Qed.

(** Distinct pages do not overlap. *)
Lemma page_ok_disjoint a b : page_ok a -> page_ok b -> a <> b -> a + PGSIZE <= b \/ b + PGSIZE <= a.
Proof.
  intros [Ha _] [Hb _] ?. unfold PGSIZE in *.
  pose proof (Z.div_mod a 4096). pose proof (Z.div_mod b 4096). lia.
Qed.

Lemma chain_ext m m' p l :
  Forall (fun a => load64 m' a = load64 m a) l -> chain m p l -> chain m' p l.
Proof.
  revert p. induction l as [|a l IH]; intros p H Hc; [done|].
  inversion H as [|?? Ha Hl]; subst. destruct Hc as [-> Hc]. split; [done|].
  rewrite Ha. by apply IH.
Qed.

(** Writing one page does not disturb a list of other pages. *)
Lemma chain_write m m' p l a :
  page_ok a -> Forall page_ok l -> a ∉ l ->
  (forall x, x < a \/ a + PGSIZE <= x -> load8 m' x = load8 m x) ->
  chain m p l -> chain m' p l.
Proof.
  intros Ha Hl Hn Hm. apply chain_ext. apply Forall_forall. intros b Hb.
  rewrite Forall_forall in Hl. specialize (Hl b Hb).
  assert (a <> b) as Hne by (intros ->; exact (Hn Hb)).
  destruct (page_ok_disjoint a b Ha Hl Hne); apply load64_ext; intros x Hx;
    apply Hm; unfold PGSIZE in *; lia.
Qed.

(** What [kalloc] and [kfree] do to the state. *)
Definition kalloc_upd s (r : Z) : kstate :=
  if r =? 0 then touch s
  else vm_upd true (memset (k_mem s) r 5 PGSIZE) (load64 (k_mem s) r) s.
Definition kfree_upd s (pa : Z) : kstate :=
  vm_upd true (store64 (memset (k_mem s) pa 1 PGSIZE) pa (k_freelist s)) pa s.

Lemma kalloc_eq s :
  cpu_wf s -> lock_free LKmem s ->
  kalloc s = Ok (k_freelist s) (kalloc_upd s (k_freelist s)).
Proof.
  intros Hc Hl. unfold kalloc, upd_mem. rewrite (bind_ok _ _ _ _ _ (acquire_free _ _ Hc Hl)).
  step_prim. change (k_freelist (held LKmem s)) with (k_freelist s).
  change (k_mem (held LKmem s)) with (k_mem s). unfold kalloc_upd.
  destruct (Z.eqb_spec (k_freelist s) 0) as [E|E]; cbn [negb]; step_prim;
    rewrite (release_held LKmem s) by done; f_equal; unfold restore, vm_upd; by kstate_eq.
Qed.

Lemma kfree_eq s pa :
  cpu_wf s -> lock_free LKmem s -> page_ok pa -> kfree pa s = Ok tt (kfree_upd s pa).
Proof.
  intros Hc Hl [Hm Hr]. unfold kfree.
  destruct (Z.eqb_spec (pa mod PGSIZE) 0); [|done]. destruct (Z.ltb_spec pa l_end); [lia|].
  destruct (Z.leb_spec PHYSTOP pa); [lia|]. cbn [negb orb]. unfold upd_mem. step_prim.
  set (s0 := set_k_mem _ s).
  assert (cpu_wf s0 /\ lock_free LKmem s0) as [Hc0 Hl0] by done.
  rewrite (acquire_free _ _ Hc0 Hl0). rewrite (release_held LKmem s0) by done.
  apply (f_equal (Ok tt)). unfold restore, kfree_upd, vm_upd. by kstate_eq.
Qed.

(** [kfree] rejects every address that is not a page of the free range. *)
Lemma kfree_panics s pa : ~ page_ok pa -> panics (kfree pa) s "kfree".
Proof.
  intros H. unfold panics, kfree, page_ok in *.
  destruct (Z.eqb_spec (pa mod PGSIZE) 0), (Z.ltb_spec pa l_end), (Z.leb_spec PHYSTOP pa);
    cbn [negb orb]; try (by eexists). lia.
Qed.

Lemma kmem_inv_kalloc s a l :
  kmem_inv s (a :: l) -> a = k_freelist s /\ 0 < a /\ page_ok a /\ (a ∉ l) /\
  kmem_inv (kalloc_upd s a) l.
Proof.
  intros [[Ea Hch] Hnd Hp Hm Hc Hl]. symmetry in Ea.
  apply NoDup_cons in Hnd as [Hn Hnd]. apply Forall_cons in Hp as [Ha Hp].
  pose proof (page_ok_pos a Ha). split; [done|]. do 3 (split; [done|]).
  unfold kalloc_upd. destruct (Z.eqb_spec a 0); [lia|].
  split; [|exact Hnd|exact Hp| | |].
  - cbn [vm_upd k_mem k_freelist set_k_mem set_k_freelist].
    apply (chain_write (k_mem s) _ _ _ a); [done..| |done]. intros x Hx.
    rewrite load8_memset by (unfold PGSIZE; lia). case_decide; [lia|done].
  - cbn. auto with halo.
  - by apply cpu_wf_vm_upd.
  - by apply lock_free_vm_upd.
Qed.

Lemma kmem_inv_touch s l : kmem_inv s l -> kmem_inv (touch s) l.
Proof. intros [? ? ? ? ? ?]. split; auto. by apply cpu_wf_touch. Qed.

Lemma chain_head_range m p l : chain m p l -> Forall page_ok l -> 0 <= p < 2 ^ 64.
Proof.
  destruct l as [|a l]; [simpl; lia|]. intros [-> _] [Ha _]%Forall_cons.
  destruct (page_ok_addr a Ha). lia.
Qed.

Lemma kmem_inv_kfree s pa l :
  kmem_inv s l -> page_ok pa -> pa ∉ l -> kmem_inv (kfree_upd s pa) (pa :: l).
Proof.
  intros [Hch Hnd Hp Hm Hc Hl] Ha Hn. unfold kfree_upd. split.
  - split; [done|]. cbn [vm_upd k_mem k_freelist set_k_mem set_k_freelist].
    rewrite load64_store64_same by by eapply chain_head_range.
    apply (chain_write (k_mem s) _ _ _ pa); [done..| |done]. intros x Hx.
    rewrite load8_store64_other by (unfold PGSIZE in *; lia).
    rewrite load8_memset by (unfold PGSIZE; lia). case_decide; [lia|done].
  - by constructor.
  - by constructor.
  - cbn. auto with halo.
  - by apply cpu_wf_vm_upd.
  - by apply lock_free_vm_upd.
Qed.

(** ** The specification: a stack of pages *)

Lemma kalloc_spec s a l :
  kmem_inv s (a :: l) ->
  kalloc s = Ok a (kalloc_upd s a) /\ kmem_inv (kalloc_upd s a) l /\ page_ok a /\ a ∉ l.
Proof.
  intros H. destruct (kmem_inv_kalloc s a l H) as (Ea & ? & ? & ? & ?).
  destruct H as [? ? ? ? Hc Hl]. rewrite kalloc_eq by done. by rewrite <- Ea.
Qed.

Lemma kalloc_empty s : kmem_inv s [] -> kalloc s = Ok 0 (touch s).
Proof. intros [Hch ? ? ? Hc Hl]. rewrite kalloc_eq by done. simpl in Hch. by rewrite Hch. Qed.

(** Either outcome of [kalloc], for clients. *)
Lemma kalloc_cases s l :
  kmem_inv s l ->
  (l = [] /\ kalloc s = Ok 0 (touch s) /\ kmem_inv (touch s) []) \/
  (exists a l', l = a :: l' /\ kalloc s = Ok a (kalloc_upd s a) /\
     kmem_inv (kalloc_upd s a) l' /\ page_ok a /\ a ∉ l').
Proof.
  intros H. destruct l as [|a l].
  - left. auto using kalloc_empty, kmem_inv_touch.
  - right. exists a, l. pose proof (kalloc_spec s a l H). tauto.
Qed.

Lemma kfree_spec s pa l :
  kmem_inv s l -> page_ok pa -> pa ∉ l ->
  kfree pa s = Ok tt (kfree_upd s pa) /\ kmem_inv (kfree_upd s pa) (pa :: l).
Proof.
  intros H Ha Hn. split; [|by apply kmem_inv_kfree].
  destruct H. by apply kfree_eq.
Qed.

(** ** Frames and contents *)

Lemma kalloc_upd_frame s r : vm_frame s (kalloc_upd s r).
Proof.
  unfold kalloc_upd. case_match; [|by eexists _, _, _].
  exists true, (k_mem s), (k_freelist s). by kstate_eq.
Qed.

Lemma kfree_upd_frame s pa : vm_frame s (kfree_upd s pa).
Proof. by eexists _, _, _. Qed.

Lemma kalloc_upd_mem s r x :
  load8 (k_mem (kalloc_upd s r)) x =
    if decide (r <> 0 /\ r <= x < r + PGSIZE) then 5 else load8 (k_mem s) x.
Proof.
  unfold kalloc_upd. destruct (Z.eqb_spec r 0) as [->|]; cbn [vm_upd k_mem set_k_mem].
  - rewrite decide_False by tauto. done.
  - rewrite load8_memset by (unfold PGSIZE; lia). repeat case_decide; tauto || done.
Qed.

Lemma kfree_upd_mem s pa x :
  (x < pa \/ pa + PGSIZE <= x) -> load8 (k_mem (kfree_upd s pa)) x = load8 (k_mem s) x.
Proof.
  intros Hx. unfold kfree_upd; cbn [vm_upd k_mem set_k_mem].
  rewrite load8_store64_other by (unfold PGSIZE in *; lia).
  rewrite load8_memset by (unfold PGSIZE; lia). case_decide; [lia|done].
Qed.

(** ** [freerange] *)

(** The [n] pages starting at [p]. *)
Definition pages (p : Z) (n : nat) : list Z := (fun i => p + Z.of_nat i * PGSIZE) <$> seq 0 n.

Lemma pages_S p n : pages p (S n) = p :: pages (p + PGSIZE) n.
Proof.
  unfold pages. cbn [seq fmap list_fmap]. f_equal; [lia|].
  rewrite <- fmap_S_seq, <- list_fmap_compose. apply list_fmap_ext. intros i x _.
  unfold compose. lia.
Qed.

Lemma elem_of_pages p n x :
  x ∈ pages p n <-> exists i, (i < n)%nat /\ x = p + Z.of_nat i * PGSIZE.
Proof.
  unfold pages. rewrite list_elem_of_fmap. setoid_rewrite elem_of_seq.
  split; intros (i & ? & ?); exists i; ((split; [lia|done]) || (split; [done|lia])).
Qed.

Lemma freerange_loop_spec n fuel p pa_end s l :
  (n < fuel)%nat ->
  p mod PGSIZE = 0 -> l_end <= p -> pa_end <= PHYSTOP ->
  p + Z.of_nat n * PGSIZE <= pa_end \/ n = 0%nat ->
  pa_end < p + (Z.of_nat n + 1) * PGSIZE ->
  Forall (fun a => a ∉ l) (pages p n) -> kmem_inv s l ->
  returns (freerange_loop fuel p pa_end) s
    (fun _ s' => kmem_inv s' (rev (pages p n) ++ l) /\ vm_frame s s').
Proof.
  revert fuel p s l. induction n as [|n IH]; intros [|fuel] p s l Hf Hm Hp He Hle Hlt Hn Hi;
    try lia; cbn [freerange_loop].
  - destruct (Z.leb_spec (p + PGSIZE) pa_end); [lia|]. apply returns_ret.
    split; [done|apply vm_frame_refl].
  - destruct (Z.leb_spec (p + PGSIZE) pa_end); [|unfold PGSIZE in *; lia].
    rewrite pages_S in *. apply Forall_cons in Hn as [Hn1 Hn].
    assert (page_ok p) as Hok by (split; [done|unfold PGSIZE in *; lia]).
    destruct (kfree_spec s p l Hi Hok Hn1) as [E Hi'].
    eapply returns_ok_bind; [exact E|].
    eapply returns_mono; [apply (IH _ _ _ (p :: l)); try done; unfold PGSIZE in *; try lia|].
    + by rewrite <- Z.add_mod_idemp_r, Z.add_0_r by lia.
    + rewrite Forall_forall in *. intros x Hx [->|Hx']%elem_of_cons; [|by eapply Hn].
      apply elem_of_pages in Hx as (i & ? & ?). unfold PGSIZE in *. lia.
    + intros _ s' [Hs Hf']. split.
      * cbn [rev]. by rewrite <- app_assoc.
      * eapply vm_frame_trans; [by destruct Hi|apply kfree_upd_frame|done].
Qed.

(** After [kinit]'s [freerange(end, PHYSTOP)] the free list holds exactly the
    pages of the physical range. *)
Lemma freerange_end s :
  kmem_inv s [] ->
  returns (freerange l_end PHYSTOP) s (fun _ s' => vm_frame s s' /\
    exists l, kmem_inv s' l /\ forall a, a ∈ l <-> page_ok a).
Proof.
  intros Hi. destruct HL as [He _ _ _ _].
  assert (0 <= l_end <= 2 ^ 64 - PGSIZE) as Hr.
  { unfold PGSIZE, KERNELBASE in *. change PHYSTOP with (2 ^ 31 + 2 ^ 27) in He. lia. }
  destruct (PGROUNDUP_spec _ Hr) as [Hm Hp]. set (p := PGROUNDUP l_end) in *.
  unfold freerange. fold p. set (n := Z.to_nat ((PHYSTOP - p) / PGSIZE)).
  assert (PHYSTOP mod PGSIZE = 0) as HPm by done.
  assert (p <= PHYSTOP) as HpP.
  { unfold PGSIZE in *. pose proof (Z.div_mod p 4096). pose proof (Z.div_mod PHYSTOP 4096). lia. }
  assert (Z.of_nat n * PGSIZE = PHYSTOP - p) as Hn.
  { unfold n. rewrite Z2Nat.id by (apply Z.div_pos; unfold PGSIZE in *; lia).
    unfold PGSIZE in *. pose proof (Z.div_mod (PHYSTOP - p) 4096).
    assert ((PHYSTOP - p) mod 4096 = 0); [|lia].
    rewrite Zminus_mod, HPm, Hm. done. }
  clearbody n. clearbody p.
  eapply returns_mono; [apply (freerange_loop_spec n _ p PHYSTOP s []); try done; try lia|].
  - by apply Forall_true; intros ? ?%not_elem_of_nil.
  - intros _ s' [Hs Hf]. split; [done|]. exists (rev (pages p n) ++ []). split; [done|].
    intros a. rewrite app_nil_r, !list_elem_of_In, <- in_rev, <- !list_elem_of_In, elem_of_pages. split.
    + intros (i & Hi' & ->). split.
      * unfold PGSIZE in *. rewrite Z.mod_add by lia. done.
      * unfold PGSIZE in *. lia.
    + intros [Ham Har]. exists (Z.to_nat ((a - p) / PGSIZE)).
      unfold PGSIZE in *. pose proof (Z.div_mod (a - p) 4096). pose proof (Z.div_mod p 4096).
      pose proof (Z.div_mod a 4096).
      assert ((a - p) mod 4096 = 0) by (by rewrite Zminus_mod, Ham, Hm).
      rewrite Z2Nat.id by (apply Z.div_pos; lia). lia.
Qed.
End kmem_correct.
