(* ===== verification/PageTable.v ===== *)
(** * [walk] and [mappages] of [vm.c]: Sv39 page tables in memory

    A page table is a tree of three levels of pages, each holding 512 entries
    of 64 bits.  [tbl m root id] is the address of the table page named [id]
    in the memory [m]; [pte_of m root va] is the leaf entry that [walk] finds
    for [va] (0 when an inner table is missing), the abstraction all the
    specifications of this file speak about.  [vm_inv] ties a page table to the
    free list: all table pages are distinct, valid and not free. *)

From S2P Require Import Prelude Layout Memory State Spinlock Kmem.

Section pagetable.
  Context {L : LinkMap}.

Definition rd64 (a : Z) : K Z := gets (fun s => load64 (k_mem s) a).
Definition wr64 (a v : Z) : K unit := upd_mem (fun m => store64 m a v).

(** The loop [for(level = 2; level > 0; level--)] and the final [return]. *)
Fixpoint walk_loop (level : nat) (pagetable va : Z) (alloc : bool) : K Z :=
  match level with
  | O => mret (pagetable + 8 * PX 0 va)
  | S level' =>
      let pte := pagetable + 8 * PX (Z.of_nat level) va in
      v ← rd64 pte;
      if flag v PTE_V then walk_loop level' (PTE2PA v) va alloc
      else if negb alloc then mret 0 else
      pt ← kalloc;
      if pt =? 0 then mret 0 else
      upd_mem (fun m => memset m pt 0 PGSIZE);;
      wr64 pte (Z.lor (PA2PTE pt) PTE_V);;
      walk_loop level' pt va alloc
  end.

Definition walk (pagetable va : Z) (alloc : bool) : K Z :=
  if MAXVA <=? va then panic "walk" else walk_loop 2 pagetable va alloc.

(** The [for(;;)] of [mappages]; [a] reaches [last] after
    [(last - a) / PGSIZE] rounds of the 64-bit addition. *)
Fixpoint mappages_loop (fuel : nat) (pagetable a last pa perm : Z) : K Z :=
  match fuel with
  | O => block
  | S fuel =>
      pte ← walk pagetable a true;
      if pte =? 0 then mret (-1) else
      v ← rd64 pte;
      if flag v PTE_V then panic "mappages: remap" else
      wr64 pte (Z.lor (Z.lor (PA2PTE pa) (u64 perm)) PTE_V);;
      if a =? last then mret 0
      else mappages_loop fuel pagetable (u64 (a + PGSIZE)) last (u64 (pa + PGSIZE)) perm
  end.

Definition mappages (pagetable va size pa perm : Z) : K Z :=
  if size =? 0 then panic "mappages: size" else
  let a := PGROUNDDOWN va in
  let last := PGROUNDDOWN (u64 (va + size - 1)) in
  mappages_loop (S (Z.to_nat (u64 (last - a) / PGSIZE))) pagetable a last pa perm.

Definition kvmmap (kpg va pa sz perm : Z) : K unit :=
  r ← mappages kpg va sz pa perm;
  if negb (r =? 0) then panic "kvmmap" else mret tt.

(** ** The tree in memory *)

(** Names of table pages: the root, a second level table, a third level one. *)
Inductive tid := T2 | T1 (i : Z) | T0 (i j : Z).
#[export] Instance tid_eq_dec : EqDecision tid.
Proof. solve_decision. Defined.
Definition tid_ok (id : tid) : Prop :=
  match id with
  | T2 => True
  | T1 i => 0 <= i < 512
  | T0 i j => 0 <= i < 512 /\ 0 <= j < 512
  end.
Definition child (id : tid) (i : Z) : option tid :=
  match id with
  | T2 => Some (T1 i)
  | T1 k => Some (T0 k i)
  | T0 _ _ => None
  end.

Definition next (m : memory) (t i : Z) : option Z :=
  let v := load64 m (t + 8 * i) in
  if flag v PTE_V then Some (PTE2PA v) else None.

Definition tbl (m : memory) (root : Z) (id : tid) : option Z :=
  match id with
  | T2 => Some root
  | T1 i => next m root i
  | T0 i j => match next m root i with Some t => next m t j | None => None end
  end.

Definition leaf_id (va : Z) : tid := T0 (PX 2 va) (PX 1 va).
Definition pt_addr (m : memory) (root va : Z) : option Z :=
  (fun t => t + 8 * PX 0 va) <$> tbl m root (leaf_id va).
Definition pte_of (m : memory) (root va : Z) : Z :=
  match pt_addr m root va with Some p => load64 m p | None => 0 end.

(** The entry [mappages] stores. *)
Definition pte_entry (pa perm : Z) : Z := Z.lor (Z.lor (PA2PTE pa) (u64 perm)) PTE_V.

(** [m'] maps the [k] pages from [a] on to the pages from [pa] on, and every
    other address as [m] does. *)
Definition mapped_as (m m' : memory) (root a : Z) (k : nat) (pa perm : Z) : Prop :=
  forall va, 0 <= va < MAXVA ->
    pte_of m' root va =
      if decide (a <= va < a + Z.of_nat k * PGSIZE)
      then pte_entry (pa + (PGROUNDDOWN va - a)) perm else pte_of m root va.

(** ** Invariant *)

Record pt_wf (m : memory) (root : Z) : Prop := {
  pt_pages : forall id t, tid_ok id -> tbl m root id = Some t -> page_ok t;
  pt_inj : forall id id' t, tid_ok id -> tid_ok id' ->
    tbl m root id = Some t -> tbl m root id' = Some t -> id = id'
}.

Record vm_inv (s : kstate) (root : Z) (l : list Z) : Prop := {
  vi_kmem : kmem_inv s l;
  vi_wf : pt_wf (k_mem s) root;
  vi_disj : forall id t, tid_ok id -> tbl (k_mem s) root id = Some t -> t ∉ l
}.

Definition in_page (x t : Z) : Prop := t <= x < t + PGSIZE.

(** Every page of the free list [l] is still free, in [l'], or has become a table. *)
Definition is_table (m : memory) (root t : Z) : Prop := exists id, tid_ok id /\ tbl m root id = Some t.
Definition kept (m' : memory) (root : Z) (l l' : list Z) : Prop :=
  forall t, t ∈ l -> t ∈ l' \/ is_table m' root t.

(** What [walk] and [mappages] may change: new table pages come from the free
    list, existing ones stay in place, and no byte outside the free pages and
    the tables changes. *)
Record pt_grow (root : Z) (s : kstate) (l : list Z) (s' : kstate) (l' : list Z) : Prop := {
  pe_frame : vm_frame s s';
  pe_free : l' ⊆ l;
  pe_mono : forall id t, tid_ok id -> tbl (k_mem s) root id = Some t -> tbl (k_mem s') root id = Some t;
  pe_tbl : forall id t, tid_ok id -> tbl (k_mem s') root id = Some t ->
    tbl (k_mem s) root id = Some t \/ t ∈ l;
  pe_data : forall x, (forall t, t ∈ l -> ~ in_page x t) ->
    (forall id t, tid_ok id -> tbl (k_mem s) root id = Some t -> ~ in_page x t) ->
    load8 (k_mem s') x = load8 (k_mem s) x
}.
End pagetable.

Section pagetable_correct.
  Context `{HL : LinkOk}.
  Implicit Types (s : kstate) (l : list Z) (m : memory).

Lemma leaf_id_ok va : tid_ok (leaf_id va).
Proof. split; apply PX_range; lia. Qed.

Lemma same_leaf va va' :
  va' / PGSIZE = va / PGSIZE -> leaf_id va' = leaf_id va /\ PX 0 va' = PX 0 va.
Proof.
  intros E. assert (forall k, 0 <= k -> PX k va' = PX k va) as H.
  { intros k Hk. rewrite !PX_eq by done. rewrite Z.pow_add_r by lia.
    change (2 ^ 12) with PGSIZE. rewrite <- !Z.div_div by (unfold PGSIZE; lia || apply Z.pow_pos_nonneg; lia).
    by rewrite E. }
  unfold leaf_id. by rewrite !H.
Qed.

Lemma tbl_child m root p i c :
  child p i = Some c -> tbl m root c = match tbl m root p with Some t => next m t i | None => None end.
Proof. destruct p; simpl; intros [= <-]; done. Qed.

Lemma child_inj p p' i i' c : child p i = Some c -> child p' i' = Some c -> p = p' /\ i = i'.
Proof. destruct p, p'; simpl; intros [= <-] [=]; by subst. Qed.

Lemma child_ok p i c : child p i = Some c -> tid_ok p -> 0 <= i < 512 -> tid_ok c.
Proof. destruct p; simpl; intros [= <-]; simpl; tauto. Qed.

(** Entries of distinct (table, index) pairs do not overlap. *)
Lemma word_disjoint m root id id' t t' i i' :
  pt_wf m root -> tid_ok id -> tid_ok id' ->
  tbl m root id = Some t -> tbl m root id' = Some t' ->
  0 <= i < 512 -> 0 <= i' < 512 -> (id, i) <> (id', i') ->
  t + 8 * i + 8 <= t' + 8 * i' \/ t' + 8 * i' + 8 <= t + 8 * i.
Proof.
  intros [Hp Hi] ? ? Ht Ht' ? ? Hne. destruct (decide (t = t')) as [<-|Hd].
  - assert (id = id') as <- by eauto. assert (i <> i') by congruence. lia.
  - destruct (page_ok_disjoint t t'); eauto; unfold PGSIZE in *; lia.
Qed.

(** [m'] is [m] with one free page [a] turned into an empty table entered at
    index [i] of the table [p]. *)
Record grown (m m' : memory) (root : Z) (p : tid) (t i a : Z) : Prop := {
  gr_other : forall x, ~ in_page x a -> (x < t + 8 * i \/ t + 8 * i + 8 <= x) ->
    load8 m' x = load8 m x;
  gr_entry : load64 m' (t + 8 * i) = Z.lor (PA2PTE a) PTE_V;
  gr_zero : forall k, 0 <= k < 512 -> load64 m' (a + 8 * k) = 0
}.

Section grow.
    Context (m m' : memory) (root : Z) (p c : tid) (t i a : Z).
    Context (Hwf : pt_wf m root) (Hp : tid_ok p) (Ht : tbl m root p = Some t).
    Context (Hc : child p i = Some c) (Hi : 0 <= i < 512) (Hnone : next m t i = None).
    Context (Ha : page_ok a) (Hfresh : forall id t, tid_ok id -> tbl m root id = Some t -> t <> a).
    Context (Hg : grown m m' root p t i a).

Lemma grow_word id t' k :
  tid_ok id -> tbl m root id = Some t' -> 0 <= k < 512 -> (id, k) <> (p, i) ->
  load64 m' (t' + 8 * k) = load64 m (t' + 8 * k).
Proof.
  intros Hid Ht' Hk Hne. apply load64_ext. intros x Hx. apply (gr_other _ _ _ _ _ _ _ Hg).
  - assert (page_ok t') as Hpt by (by eapply pt_pages).
    destruct (page_ok_disjoint t' a Hpt Ha) as [|]; [by eapply Hfresh|..];
      unfold in_page, PGSIZE in *; lia.
  - pose proof (word_disjoint m root id p t' t k i Hwf Hid Hp Ht' Ht Hk Hi Hne). lia.
Qed.

Lemma grow_next id t' k :
  tid_ok id -> tbl m root id = Some t' -> 0 <= k < 512 -> (id, k) <> (p, i) ->
  next m' t' k = next m t' k.
Proof. intros. unfold next. by erewrite grow_word. Qed.

Lemma grow_next_entry : next m' t i = Some a.
Proof.
  unfold next. rewrite (gr_entry _ _ _ _ _ _ _ Hg), flag_V_lor. f_equal.
  apply PTE2PA_PA2PTE; [by apply page_ok_addr|done].
Qed.

Lemma grow_tbl id :
  tid_ok id -> tbl m' root id = if decide (id = c) then Some a else tbl m root id.
Proof.
  assert (forall q k d, child q k = Some d -> tid_ok q -> 0 <= k < 512 ->
    tbl m' root q = tbl m root q -> q <> c ->
    tbl m' root d = if decide (d = c) then Some a else tbl m root d) as Hstep.
  { intros q k d Hd Hq Hk Eq Hqc. rewrite !(tbl_child _ _ _ _ _ Hd), Eq. case_decide as E.
    - subst d. destruct (child_inj _ _ _ _ _ Hc Hd) as [<- <-]. rewrite Ht.
      apply grow_next_entry.
    - destruct (tbl m root q) as [t'|] eqn:Et; [|done]. eapply grow_next; eauto.
      intros [= -> ->]. rewrite Hc in Hd. congruence. }
  assert (c <> T2) as HcT by (intros ->; by destruct p).
  assert (forall k, 0 <= k < 512 ->
    tbl m' root (T1 k) = if decide (T1 k = c) then Some a else tbl m root (T1 k)) as H1.
  { intros k Hk. by apply (Hstep T2 k). }
  destruct id as [|k|k j]; intros Hid; [by rewrite decide_False|by apply H1|].
  destruct Hid as [Hk Hj]. destruct (decide (T1 k = c)) as [E|E].
  - rewrite (tbl_child m' root (T1 k) j), (tbl_child m root (T1 k) j) by done.
    rewrite H1, decide_True, decide_False by (done || intros <-; done).
    assert (tbl m root (T1 k) = None) as ->.
    { rewrite E, (tbl_child _ _ _ _ _ Hc), Ht. done. }
    unfold next. by rewrite (gr_zero _ _ _ _ _ _ _ Hg).
  - apply (Hstep (T1 k) j); try done. by rewrite H1, decide_False.
Qed.

Lemma grow_wf : pt_wf m' root.
Proof.
  split.
  - intros id t' Hid. rewrite grow_tbl by done. case_decide; [by intros [= <-]|].
    by apply pt_pages.
  - intros id id' t' Hid Hid'. rewrite !grow_tbl by done.
    repeat case_decide; subst; try done.
    + intros [= <-] E. by destruct (Hfresh _ _ Hid' E).
    + intros E [= <-]. by destruct (Hfresh _ _ Hid E).
    + by apply (pt_inj _ _ Hwf).
Qed.

Lemma grow_pte va : pte_of m' root va = pte_of m root va.
Proof.
  unfold pte_of, pt_addr. rewrite grow_tbl by apply leaf_id_ok.
  pose proof (PX_range 0 va ltac:(lia)). case_decide as E.
  - rewrite E, (tbl_child _ _ _ _ _ Hc), Ht, Hnone. simpl.
    by apply (gr_zero _ _ _ _ _ _ _ Hg).
  - destruct (tbl m root (leaf_id va)) as [t'|] eqn:Et; [|done]. simpl.
    apply (grow_word (leaf_id va)); try done; [apply leaf_id_ok|].
    intros E'. apply (f_equal fst) in E'. simpl in E'. clear - Hc E'. by subst p.
Qed.
End grow.

(** ** Reading *)

Lemma walk_read s pagetable va :
  0 <= va < MAXVA ->
  walk pagetable va false s = Ok (default 0 (pt_addr (k_mem s) pagetable va)) s.
Proof.
  intros Hva. unfold walk. destruct (Z.leb_spec MAXVA va); [lia|].
  cbn [walk_loop negb]. unfold rd64. step_prim. change (Z.of_nat 2) with 2. change (Z.of_nat 1) with 1.
  unfold pt_addr, tbl, leaf_id, next.
  destruct (flag (load64 (k_mem s) (pagetable + 8 * PX 2 va)) PTE_V); step_prim; [|done].
  by destruct (flag (load64 (k_mem s) (_ + 8 * PX 1 va)) PTE_V).
Qed.

(** When the tables exist, [walk] allocates nothing. *)
Lemma walk_present s pagetable va p alloc :
  0 <= va < MAXVA -> pt_addr (k_mem s) pagetable va = Some p -> walk pagetable va alloc s = Ok p s.
Proof.
  intros Hva. unfold walk. destruct (Z.leb_spec MAXVA va); [lia|].
  cbn [walk_loop negb]. unfold rd64. step_prim. change (Z.of_nat 2) with 2. change (Z.of_nat 1) with 1.
  unfold pt_addr, tbl, leaf_id, next.
  destruct (flag (load64 (k_mem s) (pagetable + 8 * PX 2 va)) PTE_V); [|done].
  destruct (flag (load64 (k_mem s) (_ + 8 * PX 1 va)) PTE_V); [|done].
  cbn. by intros [= <-].
Qed.

Lemma pt_addr_pos s root l va p : vm_inv s root l -> pt_addr (k_mem s) root va = Some p -> 0 < p.
Proof.
  intros [_ Hwf _]. unfold pt_addr. destruct (tbl (k_mem s) root (leaf_id va)) as [t|] eqn:Ht; [|done].
  cbn. intros [= <-]. pose proof (pt_pages _ _ Hwf _ _ (leaf_id_ok va) Ht) as Hpt.
  pose proof (page_ok_pos t Hpt). pose proof (PX_range 0 va). lia.
Qed.

Lemma walk_panics s pagetable va alloc : MAXVA <= va -> panics (walk pagetable va alloc) s "walk".
Proof. intros. unfold walk, panics. destruct (Z.leb_spec MAXVA va); [eexists; done|lia]. Qed.

(** ** Growing *)

Lemma vm_inv_cpu s root l : vm_inv s root l -> cpu_wf s.
Proof. by intros [[]]. Qed.

Lemma pt_grow_refl root s l : pt_grow root s l s l.
Proof. split; auto using vm_frame_refl. Qed.

Lemma pt_grow_trans root s l s' l' s'' l'' :
  cpu_wf s -> pt_grow root s l s' l' -> pt_grow root s' l' s'' l'' -> pt_grow root s l s'' l''.
Proof.
  intros Hc [F U M T D] [F' U' M' T' D']. split.
  - by eapply vm_frame_trans.
  - by etransitivity.
  - auto.
  - intros id t Hid Ht. destruct (T' _ _ Hid Ht) as [|]; [auto|]. right. by apply U.
  - intros x H1 H2. rewrite D'.
    + by apply D.
    + intros t Ht. apply H1. by apply U.
    + intros id t Hid Ht. destruct (T _ _ Hid Ht) as [|]; eauto.
Qed.

Lemma kept_refl m root l : kept m root l l.
Proof. by left. Qed.

Lemma is_table_grow root s l s' l' t :
  pt_grow root s l s' l' -> is_table (k_mem s) root t -> is_table (k_mem s') root t.
Proof. intros Hg (id & Hid & Ht). exists id. split; [done|]. by apply Hg. Qed.

Lemma kept_trans root l s1 l1 s2 l2 :
  kept (k_mem s1) root l l1 -> pt_grow root s1 l1 s2 l2 -> kept (k_mem s2) root l1 l2 ->
  kept (k_mem s2) root l l2.
Proof.
  intros H1 Hg H2 t Ht. destruct (H1 t Ht) as [Hin|Htab]; [by apply H2|]. right. by eapply is_table_grow.
Qed.

(** One missing level: the page taken from the free list becomes a table. *)
Lemma grow_step s root l a p c t i :
  let m2 := store64 (memset (k_mem (kalloc_upd s a)) a 0 PGSIZE) (t + 8 * i) (Z.lor (PA2PTE a) PTE_V) in
  let s' := set_k_mem m2 (kalloc_upd s a) in
  vm_inv s root (a :: l) -> kmem_inv (kalloc_upd s a) l -> page_ok a -> a ∉ l ->
  tid_ok p -> tbl (k_mem s) root p = Some t -> child p i = Some c -> 0 <= i < 512 ->
  next (k_mem s) t i = None ->
  vm_inv s' root l /\ pt_grow root s (a :: l) s' l /\ tbl (k_mem s') root c = Some a /\
  (forall va, pte_of (k_mem s') root va = pte_of (k_mem s) root va).
Proof.
  intros m2 s' [Hk Hwf Hd] Hk' Ha Hn Hp Ht Hc Hi Hnone.
  assert (forall id t, tid_ok id -> tbl (k_mem s) root id = Some t -> t <> a) as Hfresh.
  { intros id t' Hid Ht' ->. apply (Hd _ _ Hid Ht'). by left. }
  assert (page_ok t) as Hpt by (by eapply pt_pages).
  assert (t <> a) as Hta by (by eapply Hfresh).
  pose proof (page_ok_disjoint t a Hpt Ha Hta) as Hdis.
  assert (0 <= Z.lor (PA2PTE a) PTE_V < 2 ^ 64) as Hrange.
  { destruct (page_ok_addr a Ha). rewrite lor_PA2PTE, PA2PTE_eq by done.
    change PTE_V with 1. unfold PGSIZE in *. pose proof (Z.div_mod a 4096).
    assert (0 <= a / 4096 < 2 ^ 44); [|lia].
    split; [apply Z.div_pos; lia|apply Z.div_lt_upper_bound; lia]. }
  assert (a <> 0) as Hnz by (pose proof (page_ok_pos a Ha); lia).
  assert (grown (k_mem s) m2 root p t i a) as Hg.
  { split.
    - intros x Hx Hx'. unfold m2. rewrite load8_store64_other by done.
      rewrite load8_memset by (unfold PGSIZE; lia). unfold in_page in Hx.
      case_decide; [done|]. rewrite kalloc_upd_mem, decide_False by tauto. done.
    - unfold m2. by rewrite load64_store64_same.
    - intros k Hk0. unfold m2. rewrite load64_store64_other by (unfold PGSIZE in *; lia).
      apply load64_memset_zero; unfold PGSIZE; lia. }
  assert (k_mem s' = m2) as Em by done.
  pose proof (grow_tbl (k_mem s) m2 root p c t i a Hwf Hp Ht Hc Hi Hnone Ha Hfresh Hg) as Htbl.
  assert (vm_frame s s') as Hframe.
  { eapply vm_frame_trans; [by destruct Hk|apply kalloc_upd_frame|].
    exists false, m2, (k_freelist (kalloc_upd s a)). unfold s'. by kstate_eq. }
  assert (kmem_inv s' l) as Hk2.
  { destruct Hk' as [Hch Hnd Hpg Hm Hcpu Hlk]. split; [|done|done| |done|done].
    - apply (chain_ext (k_mem (kalloc_upd s a))); [|done]. apply Forall_forall. intros b Hb.
      assert (page_ok b) as Hbp by by (rewrite Forall_forall in Hpg; apply Hpg).
      assert (b <> a) as Hba by (intros Eb; rewrite Eb in Hb; exact (Hn Hb)).
      assert (t <> b) as Htb by (intros Eb; rewrite Eb in Ht; apply (Hd _ _ Hp Ht); by right).
      pose proof (page_ok_disjoint t b Hpt Hbp Htb). pose proof (page_ok_disjoint b a Hbp Ha Hba).
      unfold s', m2. cbn [k_mem set_k_mem].
      rewrite load64_store64_other, load64_memset_other; unfold PGSIZE in *; (split; lia) || lia || done.
    - unfold s', m2. cbn [k_mem set_k_mem]. auto with halo. }
  pose proof (grow_wf (k_mem s) m2 root p c t i a Hwf Hp Ht Hc Hi Hnone Ha Hfresh Hg) as Hwf2.
  pose proof (grow_pte (k_mem s) m2 root p c t i a Hwf Hp Ht Hc Hi Hnone Ha Hfresh Hg) as Hpte2.
  clearbody s' m2.
  split; [|split; [|split; [|by rewrite Em]]].
  - split; [exact Hk2|by rewrite Em|]. intros id t' Hid. rewrite Em, Htbl by done.
    case_decide; [by intros [= <-]|]. intros E. pose proof (Hd _ _ Hid E) as Hx.
    intros Hin. apply Hx. by right.
  - split; [done|by intros x Hx; right| | |]; rewrite ?Em.
    + intros id t' Hid E. rewrite Htbl by done. case_decide as E'; [|done].
      rewrite E', (tbl_child _ _ _ _ _ Hc), Ht, Hnone in E. done.
    + intros id t' Hid. rewrite Htbl by done. case_decide; [|by left].
      intros [= <-]. right. by left.
    + intros x Hx Hx'. apply (gr_other _ _ _ _ _ _ _ Hg).
      * apply Hx. by left.
      * specialize (Hx' _ _ Hp Ht). unfold in_page, PGSIZE in Hx'. lia.
  - rewrite Em, Htbl by by eapply child_ok. by rewrite decide_True.
Qed.

(** The table reached when [level] levels are still to be walked. *)
Definition path (level : nat) (va : Z) : tid :=
  match level with O => leaf_id va | S O => T1 (PX 2 va) | _ => T2 end.

Lemma child_path k va : (k <= 1)%nat -> child (path (S k) va) (PX (Z.of_nat (S k)) va) = Some (path k va).
Proof. destruct k as [|[|]]; [done|done|lia]. Qed.

Lemma path_ok k va : tid_ok (path k va).
Proof. destruct k as [|[|]]; simpl; auto using PX_range, leaf_id_ok with halo lia. Qed.

(** The outcome of [walk] with [alloc] from [level] on: it takes at most
    [level] pages, and fails only when there are fewer. *)
Definition walk_post (level : nat) (root : Z) s l (va r : Z) s' : Prop :=
  exists l', vm_inv s' root l' /\ pt_grow root s l s' l' /\
    (forall va', pte_of (k_mem s') root va' = pte_of (k_mem s) root va') /\
    (length l <= length l' + level)%nat /\ kept (k_mem s') root l l' /\
    (r = 0 /\ l' = [] /\ (length l < level)%nat \/ 0 < r /\ pt_addr (k_mem s') root va = Some r).

Lemma kalloc_touch_inv s root : vm_inv s root [] -> vm_inv (touch s) root [] /\ pt_grow root s [] (touch s) [].
Proof.
  intros [Hk Hw Hd]. split.
  - split; [by apply kmem_inv_touch|done|done].
  - split; auto. exists true, (k_mem s), (k_freelist s). by kstate_eq.
Qed.

Lemma walk_loop_alloc level pagetable va root s l :
  (level <= 2)%nat -> vm_inv s root l ->
  tbl (k_mem s) root (path level va) = Some pagetable ->
  returns (walk_loop level pagetable va true) s (walk_post level root s l va).
Proof.
  revert pagetable s l. induction level as [|k IH]; intros pt s l Hk Hi Ht.
  - apply returns_ret. exists l. split; [done|]. split; [apply pt_grow_refl|].
    split; [done|]. split; [lia|]. split; [apply kept_refl|]. right. pose proof (PX_range 0 va ltac:(lia)).
    destruct (pt_pages _ _ (vi_wf _ _ _ Hi) _ _ (leaf_id_ok va) Ht) as [Hm Hr].
    pose proof (page_ok_pos pt (conj Hm Hr)). split; [lia|]. unfold pt_addr.
    change (path 0 va) with (leaf_id va) in Ht. by rewrite Ht.
  - cbn [walk_loop]. unfold rd64. eapply returns_ok_bind; [done|].
    set (i := PX (Z.of_nat (S k)) va).
    assert (0 <= i < 512) as Hir by (apply PX_range; lia).
    assert (child (path (S k) va) i = Some (path k va)) as Hc by (apply child_path; lia).
    assert (tbl (k_mem s) root (path k va) = next (k_mem s) pt i) as Hn.
    { by rewrite (tbl_child _ _ _ _ _ Hc), Ht. }
    destruct (flag (load64 (k_mem s) (pt + 8 * i)) PTE_V) eqn:Hf.
    + eapply returns_mono; [apply (IH _ s l); [lia|done|]; rewrite Hn; unfold next; by rewrite Hf|].
      intros r s' (l' & ? & ? & ? & ? & ? & Hr). exists l'. do 3 (split; [done|]). split; [lia|]. split; [done|].
      destruct Hr as [(? & ? & ?)|?]; [left; repeat split; try done; lia|by right].
    + cbn [negb]. assert (next (k_mem s) pt i = None) as Hnone by (unfold next; by rewrite Hf).
      destruct (kalloc_cases s l (vi_kmem _ _ _ Hi)) as [(-> & E & Hk2)|(a & l' & -> & E & Hk2 & Ha & Hn2)].
      * eapply returns_ok_bind; [exact E|]. cbn [Z.eqb]. apply returns_ret.
        destruct (kalloc_touch_inv s root Hi). exists [].
        do 3 (split; [done|]). split; [cbn; lia|]. split; [apply kept_refl|]. left. repeat split. cbn; lia.
      * eapply returns_ok_bind; [exact E|].
        pose proof (page_ok_pos a Ha). destruct (Z.eqb_spec a 0); [lia|].
        destruct (grow_step s root l' a (path (S k) va) (path k va) pt i Hi Hk2 Ha Hn2
          (path_ok _ _) Ht Hc Hir Hnone) as (Hi' & Hg & Ht' & Hp).
        eapply returns_ok_bind; [done|]. eapply returns_ok_bind; [done|].
        match goal with |- returns _ ?s1 _ => change s1 with
          (set_k_mem (store64 (memset (k_mem (kalloc_upd s a)) a 0 PGSIZE) (pt + 8 * i)
             (Z.lor (PA2PTE a) PTE_V)) (kalloc_upd s a)) end.
        eapply returns_mono; [apply (IH a _ l'); [lia|exact Hi'|exact Ht']|].
        intros r s' (l'' & Hi'' & Hg' & Hp' & Hlen & Hkept & Hr). exists l''. split; [done|].
        split; [by eapply pt_grow_trans; [eapply vm_inv_cpu|..]|].
        split; [intros va'; by rewrite Hp', Hp|]. cbn [length]. split; [lia|]. split.
        { intros t' [->|Ht'']%elem_of_cons; [|by apply Hkept].
          right. exists (path k va). split; [apply path_ok|]. by apply Hg'; [apply path_ok|]. }
        destruct Hr as [(? & ? & ?)|?]; [left; repeat split; try done; lia|by right].
Qed.

Lemma walk_alloc va root s l :
  0 <= va < MAXVA -> vm_inv s root l ->
  returns (walk root va true) s (walk_post 2 root s l va).
Proof.
  intros Hva Hi. unfold walk. destruct (Z.leb_spec MAXVA va); [lia|].
  by apply walk_loop_alloc.
Qed.

(** ** Writing a leaf entry *)

Lemma leaf_write s root l va p v :
  let s' := set_k_mem (store64 (k_mem s) p v) s in
  vm_inv s root l -> 0 <= va < MAXVA -> pt_addr (k_mem s) root va = Some p -> 0 <= v < 2 ^ 64 ->
  vm_inv s' root l /\ pt_grow root s l s' l /\
  (forall id, tid_ok id -> tbl (k_mem s') root id = tbl (k_mem s) root id) /\
  (forall va', 0 <= va' < MAXVA -> pte_of (k_mem s') root va' =
     if decide (va' / PGSIZE = va / PGSIZE) then v else pte_of (k_mem s) root va').
Proof.
  intros s' [Hk Hwf Hd] Hva Hp Hv. unfold pt_addr in Hp.
  destruct (tbl (k_mem s) root (leaf_id va)) as [t|] eqn:Ht; [|done].
  assert (t + 8 * PX 0 va = p) as Ep by (by simplify_eq/=). clear Hp.
  pose proof (PX_range 0 va ltac:(lia)) as Hi. pose proof (leaf_id_ok va) as Hlok.
  assert (page_ok t) as Hpt by (by eapply pt_pages).
  assert (forall id t' k, tid_ok id -> tbl (k_mem s) root id = Some t' -> 0 <= k < 512 ->
    (id, k) <> (leaf_id va, PX 0 va) -> load64 (k_mem s') (t' + 8 * k) = load64 (k_mem s) (t' + 8 * k)) as Hw.
  { intros id t' k Hid Ht' Hk0 Hne. apply load64_store64_other.
    pose proof (word_disjoint _ root id (leaf_id va) t' t k _ Hwf Hid Hlok Ht' Ht Hk0 Hi Hne). lia. }
  assert (forall q k c, child q k = Some c -> tid_ok q -> 0 <= k < 512 ->
    tbl (k_mem s') root q = tbl (k_mem s) root q -> tbl (k_mem s') root c = tbl (k_mem s) root c) as Hstep.
  { intros q k c Hc Hq Hk0 E. rewrite !(tbl_child _ _ _ _ _ Hc), E.
    destruct (tbl (k_mem s) root q) eqn:Eq; [|done]. unfold next. rewrite (Hw q); try done.
    intros E2. apply (f_equal fst) in E2. simpl in E2. by rewrite E2 in Hc. }
  assert (forall id, tid_ok id -> tbl (k_mem s') root id = tbl (k_mem s) root id) as Htbl.
  { assert (forall k, 0 <= k < 512 -> tbl (k_mem s') root (T1 k) = tbl (k_mem s) root (T1 k)) as H1.
    { intros k Hk0. by apply (Hstep T2 k). }
    intros [|k|k j] Hid; [done|by apply H1|]. destruct Hid. by apply (Hstep (T1 k) j); auto. }
  split; [|split; [|split; [exact Htbl|]]].
  - split.
    + destruct Hk as [Hch Hnd Hpg Hm Hcpu Hlk]. split; [|done|done| |done|done].
      * apply (chain_ext (k_mem s)); [|done]. apply Forall_forall. intros b Hb.
        assert (page_ok b) as Hbp by by (rewrite Forall_forall in Hpg; apply Hpg).
        assert (t <> b) as Htb by (intros Eb; rewrite Eb in Ht; by apply (Hd _ _ Hlok Ht)).
        pose proof (page_ok_disjoint t b Hpt Hbp Htb). apply load64_store64_other.
        unfold PGSIZE in *. lia.
      * unfold s'. cbn [k_mem set_k_mem]. auto with halo.
    + split.
      * intros id t' Hid. rewrite Htbl by done. by apply (pt_pages _ _ Hwf).
      * intros id id' t' Hid Hid'. rewrite !Htbl by done. by apply (pt_inj _ _ Hwf).
    + intros id t' Hid. rewrite Htbl by done. by apply Hd.
  - split.
    + exists false, (k_mem s'), (k_freelist s). unfold s'. by kstate_eq.
    + done.
    + intros id t' Hid. by rewrite Htbl.
    + intros id t' Hid. rewrite Htbl by done. by left.
    + intros x _ Hx. specialize (Hx _ _ Hlok Ht). unfold in_page, PGSIZE in Hx.
      apply load8_store64_other. lia.
  - intros va' Hva'. unfold pte_of, pt_addr. rewrite Htbl by apply leaf_id_ok.
    case_decide as E.
    + assert (leaf_id va' = leaf_id va /\ PX 0 va' = PX 0 va) as [-> ->] by by apply same_leaf.
      rewrite Ht. simpl. rewrite Ep. by apply load64_store64_same.
    + destruct (tbl (k_mem s) root (leaf_id va')) as [t'|] eqn:Ht'; [|done]. simpl.
      apply (Hw (leaf_id va')); try done; [apply leaf_id_ok|apply PX_range; lia|].
      intros [= E2 E1 E0]. apply E. apply PX_inj; try done. intros k Hk0.
      assert (k = 0 \/ k = 1 \/ k = 2) as [->|[->| ->]] by lia; done.
Qed.

(** ** [mappages] *)

Lemma pte_entry_range pa perm : page_addr pa -> 0 <= perm < 2 ^ 10 -> 0 <= pte_entry pa perm < 2 ^ 64.
Proof.
  intros [Hm Hr] Hp. unfold pte_entry. rewrite u64_id by lia. rewrite <- Z.lor_assoc.
  pose proof (flags_with_V perm Hp). rewrite lor_PA2PTE, PA2PTE_eq by done.
  unfold PGSIZE. assert (0 <= pa / 4096 < 2 ^ 44); [|lia].
  split; [apply Z.div_pos; lia|apply Z.div_lt_upper_bound; lia].
Qed.

(** The stored entry is valid and decodes to the page and the flags. *)
Lemma pte_entry_decode pa perm :
  page_addr pa -> 0 <= perm < 2 ^ 10 ->
  flag (pte_entry pa perm) PTE_V = true /\ PTE2PA (pte_entry pa perm) = pa /\
  PTE_FLAGS (pte_entry pa perm) = Z.lor perm PTE_V.
Proof.
  intros Ha Hp. unfold pte_entry. rewrite u64_id by lia. split; [apply flag_V_lor|].
  rewrite <- Z.lor_assoc. pose proof (flags_with_V perm Hp).
  by rewrite PTE2PA_PA2PTE, PTE_FLAGS_PA2PTE.
Qed.

Lemma mapped_as_step m m1 m2 root a k pa perm :
  a mod PGSIZE = 0 ->
  (forall va, 0 <= va < MAXVA -> pte_of m1 root va =
     if decide (va / PGSIZE = a / PGSIZE) then pte_entry pa perm else pte_of m root va) ->
  mapped_as m1 m2 root (a + PGSIZE) k (pa + PGSIZE) perm ->
  mapped_as m m2 root a (S k) pa perm.
Proof.
  intros Ha H1 H2 va Hva. rewrite H2, H1 by done.
  pose proof (same_page a va Ha). unfold PGSIZE in *.
  repeat case_decide; try lia; try done; f_equal; [lia|].
  rewrite PGROUNDDOWN_eq. unfold PGSIZE. pose proof (Z.div_mod a 4096). lia.
Qed.

Definition map_post (root : Z) s l a (n : nat) pa perm (r : Z) s' : Prop :=
  exists k l', vm_inv s' root l' /\ pt_grow root s l s' l' /\
    mapped_as (k_mem s) (k_mem s') root a k pa perm /\ (length l <= length l' + 2 * n)%nat /\
    kept (k_mem s') root l l' /\
    (r = 0 /\ k = n \/ r = -1 /\ (k < n)%nat /\ l' = [] /\ (length l < 2 * n)%nat).

Lemma mappages_loop_S fuel pt a last pa perm :
  mappages_loop (S fuel) pt a last pa perm =
    (pte ← walk pt a true;
     if pte =? 0 then mret (-1) else
     v ← rd64 pte;
     if flag v PTE_V then panic "mappages: remap" else
     wr64 pte (pte_entry pa perm);;
     if a =? last then mret 0
     else mappages_loop fuel pt (u64 (a + PGSIZE)) last (u64 (pa + PGSIZE)) perm).
Proof. done. Qed.

Lemma mappages_loop_spec n a last pa perm root s l :
  vm_inv s root l ->
  a mod PGSIZE = 0 -> 0 <= a -> last = a + Z.of_nat n * PGSIZE -> last + PGSIZE <= MAXVA ->
  page_addr pa -> pa + Z.of_nat n * PGSIZE < 2 ^ 56 -> 0 <= perm < 2 ^ 10 ->
  (forall va, a <= va < last + PGSIZE -> flag (pte_of (k_mem s) root va) PTE_V = false) ->
  returns (mappages_loop (S n) root a last pa perm) s (map_post root s l a (S n) pa perm).
Proof.
  revert a pa s l. induction n as [|n IH]; intros a pa s l Hi Ha Ha0 Hlast Hmax Hpa Hpa2 Hperm Hinv;
    change PGSIZE with 4096 in *; change MAXVA with (2 ^ 38) in *.
  all: rewrite mappages_loop_S.
  all: destruct (walk_alloc a root s l ltac:(change MAXVA with (2 ^ 38); lia) Hi)
    as (r & s1 & E & l1 & Hi1 & Hg1 & Hp1 & Hlen & Hkept1 & Hr).
  all: eapply returns_ok_bind; [exact E|].
  all: destruct Hr as [(-> & -> & Hlen0)|[Hr0 Hr]].
  1,3: cbn [Z.eqb]; apply returns_ret; exists 0%nat, []; split; [done|split; [done|split; [|split; [|split; [done|]]]]];
    [intros va _; rewrite decide_False by lia; apply Hp1|cbn in *; lia|right; repeat split; lia].
  all: destruct (Z.eqb_spec r 0); [lia|]; unfold rd64, wr64, upd_mem.
  all: eapply returns_ok_bind; [done|].
  all: assert (load64 (k_mem s1) r = pte_of (k_mem s) root a) as ->
    by (rewrite <- Hp1; unfold pte_of; by rewrite Hr).
  all: rewrite Hinv by lia.
  all: eapply returns_ok_bind; [done|].
  all: destruct (leaf_write s1 root l1 a r (pte_entry pa perm) Hi1 ltac:(change MAXVA with (2 ^ 38); lia) Hr
    (pte_entry_range _ _ Hpa Hperm)) as (Hi2 & Hg2 & Ht2 & Hp2).
  all: set (s2 := set_k_mem _ s1) in *; clearbody s2.
  all: assert (pt_grow root s l s2 l1) as Hg by (eapply pt_grow_trans; [by eapply vm_inv_cpu|done..]).
  all: assert (kept (k_mem s2) root l l1) as Hkept by (eapply kept_trans; [exact Hkept1|exact Hg2|apply kept_refl]).
  all: assert (forall va, 0 <= va < MAXVA -> pte_of (k_mem s2) root va =
     if decide (va / PGSIZE = a / PGSIZE) then pte_entry pa perm else pte_of (k_mem s) root va) as Hone
    by (intros va Hva; rewrite Hp2 by done; by rewrite Hp1).
  - destruct (Z.eqb_spec a last); [|lia]. apply returns_ret. exists 1%nat, l1.
    split; [done|split; [done|split; [|split; [lia|split; [done|by left]]]]].
    apply (mapped_as_step _ (k_mem s2)); [done..|]. intros va _. rewrite decide_False; [done|].
    unfold PGSIZE. lia.
  - destruct (Z.eqb_spec a last); [lia|]. destruct Hpa as [Hpam Hpar].
    rewrite (u64_id (a + PGSIZE)), (u64_id (pa + PGSIZE)) by (unfold PGSIZE; lia).
    change PGSIZE with 4096.
    eapply returns_mono; [apply (IH (a + 4096) (pa + 4096) s2 l1 Hi2)|]; try lia; try done.
    + by apply (aligned_add a).
    + split; [by apply (aligned_add pa)|lia].
    + intros va Hva. rewrite Hone by (change MAXVA with (2 ^ 38); lia).
      rewrite decide_False; [apply Hinv; lia|].
      rewrite same_page by done. unfold PGSIZE. lia.
    + intros r' s' (k & l' & Hi' & Hg' & Hm' & Hlen' & Hkept' & Hr'). exists (S k), l'.
      split; [done|]. split; [by eapply pt_grow_trans; [eapply vm_inv_cpu|..]|].
      split; [by apply (mapped_as_step _ (k_mem s2))|]. split; [lia|].
      split; [by eapply kept_trans; [exact Hkept|..]|].
      destruct Hr' as [[-> ->]|(-> & ? & -> & ?)]; [by left|]. right. repeat split; lia.
Qed.

(** The pages touched by [mappages(va, size)]. *)
Definition npages (va size : Z) : nat :=
  Z.to_nat ((PGROUNDDOWN (va + size - 1) - PGROUNDDOWN va) / PGSIZE).

Lemma npages_spec va size :
  0 <= va -> 0 < size ->
  PGROUNDDOWN (va + size - 1) = PGROUNDDOWN va + Z.of_nat (npages va size) * PGSIZE.
Proof.
  intros Hva Hs. unfold npages. rewrite !PGROUNDDOWN_eq.
  assert (va / PGSIZE <= (va + size - 1) / PGSIZE) by (apply Z.div_le_mono; unfold PGSIZE; lia).
  replace (PGSIZE * ((va + size - 1) / PGSIZE) - PGSIZE * (va / PGSIZE))
    with (((va + size - 1) / PGSIZE - va / PGSIZE) * PGSIZE) by ring.
  rewrite Z.div_mul by done. unfold PGSIZE in *. lia.
Qed.

(** Every run of [mappages] on unmapped pages maps all of them, or stops with
    -1 because the free list ran out, having mapped a prefix. *)
Lemma mappages_spec va size pa perm root s l :
  vm_inv s root l -> 0 <= va -> 0 < size -> va + size <= MAXVA ->
  page_addr pa -> pa + size + PGSIZE < 2 ^ 56 -> 0 <= perm < 2 ^ 10 ->
  (forall va', PGROUNDDOWN va <= va' < PGROUNDDOWN (va + size - 1) + PGSIZE ->
     flag (pte_of (k_mem s) root va') PTE_V = false) ->
  returns (mappages root va size pa perm) s
    (map_post root s l (PGROUNDDOWN va) (S (npages va size)) pa perm).
Proof.
  intros Hi Hva Hsz Hmax Hpa Hpa2 Hperm Hinv.
  pose proof (npages_spec va size Hva Hsz) as Hn.
  destruct (PGROUNDDOWN_spec va) as [Hm Hr]. destruct (PGROUNDDOWN_spec (va + size - 1)) as [Hm' Hr'].
  assert (0 <= PGROUNDDOWN va) by (rewrite PGROUNDDOWN_eq; unfold PGSIZE; pose proof (Z.div_pos va 4096); lia).
  assert (MAXVA mod PGSIZE = 0) as HMm by done.
  assert (PGROUNDDOWN (va + size - 1) + PGSIZE <= MAXVA) as HM.
  { unfold PGSIZE in *. pose proof (Z.div_mod MAXVA 4096).
    pose proof (Z.div_mod (PGROUNDDOWN (va + size - 1)) 4096). lia. }
  unfold mappages. destruct (Z.eqb_spec size 0); [lia|].
  change MAXVA with (2 ^ 38) in *.
  rewrite (u64_id (va + size - 1)) by lia. rewrite Hn in *.
  replace (PGROUNDDOWN va + Z.of_nat (npages va size) * PGSIZE - PGROUNDDOWN va)
    with (Z.of_nat (npages va size) * PGSIZE) by lia.
  rewrite u64_id by (unfold PGSIZE in *; lia). rewrite Z.div_mul, Nat2Z.id by done.
  apply mappages_loop_spec; try done. unfold PGSIZE in *. lia.
Qed.

Lemma mappages_remap va size pa perm root s l :
  vm_inv s root l -> 0 <= va < MAXVA -> size <> 0 ->
  flag (pte_of (k_mem s) root (PGROUNDDOWN va)) PTE_V = true ->
  panics (mappages root va size pa perm) s "mappages: remap".
Proof.
  intros Hi Hva Hsz Hf. unfold mappages. destruct (Z.eqb_spec size 0); [done|].
  rewrite mappages_loop_S. destruct (PGROUNDDOWN_spec va) as [_ Hr].
  assert (0 <= PGROUNDDOWN va) by (rewrite PGROUNDDOWN_eq; unfold PGSIZE; pose proof (Z.div_pos va 4096); lia).
  unfold panics, pte_of in *. destruct (pt_addr (k_mem s) root (PGROUNDDOWN va)) as [p|] eqn:Hp; [|done].
  rewrite (bind_ok _ _ _ _ _ (walk_present s root (PGROUNDDOWN va) p true ltac:(lia) Hp)).
  pose proof (pt_addr_pos s root l _ p Hi Hp). destruct (Z.eqb_spec p 0); [lia|].
  unfold rd64. step_prim. rewrite Hf. eauto.
Qed.
End pagetable_correct.
