(* ===== verification/Uvm.v ===== *)
(** * User address spaces: the rest of [vm.c], and [spaceswap.c]

    Translation ([walkaddr]), unmapping, growing and shrinking ([uvmunmap],
    [uvmalloc], [uvmdealloc]), creation, copying and destruction of page
    tables, and the copies between user and kernel memory.  A kernel buffer a
    C function fills through [dst] is returned as the list of bytes stored
    there; one it reads through [src] is passed as a list of bytes. *)

From S2P Require Import Prelude Layout Memory State Spinlock Sched Uart Print Kmem PageTable.

Definition PTE_RWX : Z := Z.lor PTE_R (Z.lor PTE_W PTE_X).

Section uvm.
  Context {L : LinkMap}.

Definition walkaddr (pagetable va : Z) : K Z :=
  if MAXVA <=? va then mret 0 else
  pte ← walk pagetable va false;
  if pte =? 0 then panic "walkaddr:pte:0" else
  v ← rd64 pte;
  if negb (flag v PTE_V) then panic "walkaddr:PTE_V" else
  if negb (flag v PTE_U) then panic "walkaddr:PTE_U" else
  let pa := PTE2PA v in
  if pa =? 0 then panic "walkaddr: pa is zero" else mret pa.

Definition uvmclear (pagetable va : Z) : K unit :=
  pte ← walk pagetable va false;
  if pte =? 0 then panic "uvmclear" else
  v ← rd64 pte;
  wr64 pte (Z.land v (Z.lnot PTE_U)).

(** [for(a = va; a < va + npages*PGSIZE; a += PGSIZE)]. *)
Fixpoint uvmunmap_loop (fuel : nat) (pagetable a stop : Z) (do_free : bool) : K unit :=
  match fuel with
  | O => block
  | S fuel =>
      if negb (a <? stop) then mret tt else
      pte ← walk pagetable a false;
      if pte =? 0 then panic "uvmunmap: walk" else
      v ← rd64 pte;
      if negb (flag v PTE_V) then panic "uvmunmap: not mapped" else
      if PTE_FLAGS v =? PTE_V then panic "uvmunmap: not a leaf" else
      (if do_free then kfree (PTE2PA v) else mret tt);;
      wr64 pte 0;;
      uvmunmap_loop fuel pagetable (u64 (a + PGSIZE)) stop do_free
  end.
Definition uvmunmap (pagetable va npages : Z) (do_free : bool) : K unit :=
  if negb (va mod PGSIZE =? 0) then panic "uvmunmap: not aligned" else
  uvmunmap_loop (S (Z.to_nat npages)) pagetable va (u64 (va + npages * PGSIZE)) do_free.

(** [npages] is an [int] in the code. *)
Definition uvmdealloc (pagetable oldsz newsz : Z) : K Z :=
  if oldsz <=? newsz then mret oldsz else
  (if PGROUNDUP newsz <? PGROUNDUP oldsz
   then let npages := i32 ((PGROUNDUP oldsz - PGROUNDUP newsz) / PGSIZE) in
        uvmunmap pagetable (PGROUNDUP newsz) npages true
   else mret tt);;
  mret newsz.

Fixpoint uvmalloc_loop (fuel : nat) (pagetable a oldsz newsz : Z) : K Z :=
  match fuel with
  | O => block
  | S fuel =>
      if negb (a <? newsz) then mret newsz else
      mem ← kalloc;
      if mem =? 0 then uvmdealloc pagetable a oldsz;; mret 0 else
      upd_mem (fun m => memset m mem 0 PGSIZE);;
      r ← mappages pagetable a PGSIZE mem (Z.lor PTE_W (Z.lor PTE_X (Z.lor PTE_R PTE_U)));
      if negb (r =? 0) then kfree mem;; uvmdealloc pagetable a oldsz;; mret 0 else
      uvmalloc_loop fuel pagetable (u64 (a + PGSIZE)) oldsz newsz
  end.
Definition uvmalloc (pagetable oldsz newsz : Z) : K Z :=
  if newsz <? oldsz then mret oldsz else
  let oldsz := PGROUNDUP oldsz in
  uvmalloc_loop (S (Z.to_nat ((newsz - oldsz + PGSIZE - 1) / PGSIZE))) pagetable oldsz oldsz newsz.

(** A table is freed after its children; the tables the kernel builds are three
    levels deep. *)
Fixpoint freewalk (levels : nat) (pagetable : Z) : K unit :=
  match levels with
  | O => block
  | S levels =>
      (fix loop (n : nat) (i : Z) : K unit :=
         match n with
         | O => mret tt
         | S n =>
             pte ← rd64 (pagetable + 8 * i);
             (if flag pte PTE_V && negb (flag pte PTE_RWX)
              then freewalk levels (PTE2PA pte);; wr64 (pagetable + 8 * i) 0
              else if flag pte PTE_V then panic "freewalk: leaf" else mret tt);;
             loop n (i + 1)
         end) 512%nat 0;;
      kfree pagetable
  end.

Definition uvmfree (pagetable sz : Z) : K unit :=
  (if 0 <? sz then uvmunmap pagetable 0 (PGROUNDUP sz / PGSIZE) true else mret tt);;
  freewalk 3 pagetable.

Definition proc_freepagetable (pagetable sz : Z) : K unit :=
  uvmunmap pagetable TRAMPOLINE 1 false;;
  uvmunmap pagetable TRAPFRAME 1 false;;
  uvmfree pagetable sz.

(** [for(i = 0; i < sz; i += PGSIZE)] of [uvmcopy]; the result is [None] on
    the fall-through [return 0] and [Some i] at [goto err]. *)
Fixpoint uvmcopy_loop (fuel : nat) (old new sz i : Z) : K (option Z) :=
  match fuel with
  | O => block
  | S fuel =>
      if negb (i <? sz) then mret None else
      pte ← walk old i false;
      if pte =? 0 then panic "uvmcopy: pte should exist" else
      v ← rd64 pte;
      if negb (flag v PTE_V) then panic "uvmcopy: page not present" else
      let pa := PTE2PA v in
      let flags := PTE_FLAGS v in
      mem ← kalloc;
      if mem =? 0 then mret (Some i) else
      upd_mem (fun m => memmove m mem pa PGSIZE);;
      r ← mappages new i PGSIZE mem flags;
      if negb (r =? 0) then kfree mem;; mret (Some i) else
      uvmcopy_loop fuel old new sz (u64 (i + PGSIZE))
  end.
Definition uvmcopy (old new sz : Z) : K Z :=
  r ← uvmcopy_loop (S (Z.to_nat ((sz + PGSIZE - 1) / PGSIZE))) old new sz 0;
  match r with
  | None => mret 0
  | Some i => uvmunmap new 0 (i / PGSIZE) true;; mret (-1)
  end.

Fixpoint uvmcpy_loop (fuel : nat) (old new sz i : Z) : K Z :=
  match fuel with
  | O => block
  | S fuel =>
      if negb (i <? sz) then mret 0 else
      pte ← walk old i false;
      if pte =? 0 then panic "uvmcpy walk\n" else
      v ← rd64 pte;
      if negb (flag v PTE_V) then panic "uvmcpy: page not present\n" else
      let pa := PTE2PA v in
      let flags := PTE_FLAGS v in
      mem ← kalloc;
      if mem =? 0 then panic "uvmcpy: kalloc\n" else
      upd_mem (fun m => memmove m mem pa PGSIZE);;
      r ← mappages new i PGSIZE mem flags;
      if negb (r =? 0) then kfree mem;; panic "uvmcpy mappages\n" else
      uvmcpy_loop fuel old new sz (u64 (i + PGSIZE))
  end.
Definition uvmcpy (old new sz : Z) : K Z :=
  uvmcpy_loop (S (Z.to_nat ((sz + PGSIZE - 1) / PGSIZE))) old new sz 0.

(** [src] is a kernel array of [sz] bytes. *)
Definition uvminit (pagetable : Z) (src : list Z) (sz : Z) : K unit :=
  if PGSIZE <? sz then panic "inituvm: more than a page" else
  mem ← kalloc;
  upd_mem (fun m => memset m mem 0 PGSIZE);;
  mappages pagetable 0 PGSIZE mem (Z.lor PTE_W (Z.lor PTE_R (Z.lor PTE_X PTE_U)));;
  upd_mem (fun m => store_bytes m mem (take (Z.to_nat sz) src)).

Definition uvmcreate : K Z :=
  pagetable ← kalloc;
  if pagetable =? 0 then panic "uvmcreate kalloc panic..\n" else
  upd_mem (fun m => memset m pagetable 0 PGSIZE);;
  mret pagetable.

(** ** Copies *)

(** [copyin]: the result and the bytes stored from [dst] on.  The count
    [PGSIZE - (srcva + va0)] is the code's.  [memmove] takes it as a [uint]: a
    count that does not fit would leave a gap in [dst], which would have to be a
    kernel buffer of 4 GiB; no caller has one, and the model stops there. *)
Fixpoint copyin_loop (fuel : nat) (pagetable srcva len : Z) (dst : list Z) : K (Z * list Z) :=
  match fuel with
  | O => block
  | S fuel =>
      if negb (0 <? len) then mret (0, dst) else
      let va0 := PGROUNDDOWN srcva in
      pa0 ← walkaddr pagetable va0;
      if pa0 =? 0 then panic "copyin:pa0 == 0\n" else
      let n := u64 (PGSIZE - (srcva + va0)) in
      let n := if len <? n then len else n in
      if negb (u32 n =? n) then block else
      bs ← gets (fun s => load_bytes (k_mem s) (pa0 + (srcva - va0)) (Z.to_nat (u32 n)));
      copyin_loop fuel pagetable (u64 (va0 + PGSIZE)) (len - n) (dst ++ bs)
  end.
Definition copyin (pagetable srcva len : Z) : K (Z * list Z) :=
  copyin_loop (S (Z.to_nat len)) pagetable srcva len [].

(** The inner [while(n > 0)] of [copyinstr] reading from [p]: the bytes
    stored, whether the terminator was met, and the remaining [max]. *)
Fixpoint copyinstr_page (m : memory) (p : Z) (n : nat) (max : Z) (dst : list Z) : list Z * bool * Z :=
  match n with
  | O => (dst, false, max)
  | S n =>
      let c := load8 m p in
      if c =? 0 then (dst ++ [0], true, max)
      else copyinstr_page m (p + 1) n (max - 1) (dst ++ [c])
  end.
Fixpoint copyinstr_loop (fuel : nat) (pagetable srcva max : Z) (got_null : bool) (dst : list Z)
  : K (Z * list Z) :=
  match fuel with
  | O => block
  | S fuel =>
      if negb (negb got_null && (0 <? max))
      then if got_null then mret (0, dst)
        else printf (str "got_null = 1" ++ [NL]) [];; mret (-1, dst)
      else
      let va0 := PGROUNDDOWN srcva in
      pa0 ← walkaddr pagetable va0;
      if pa0 =? 0 then mret (-1, dst) else
      let n := PGSIZE - (srcva - va0) in
      let n := if max <? n then max else n in
      m ← gets k_mem;
      let '(dst, got_null, max) := copyinstr_page m (pa0 + (srcva - va0)) (Z.to_nat n) max dst in
      copyinstr_loop fuel pagetable (u64 (va0 + PGSIZE)) max got_null dst
  end.
Definition copyinstr (pagetable srcva max : Z) : K (Z * list Z) :=
  copyinstr_loop (S (S (Z.to_nat max))) pagetable srcva max false [].

(** [copyoutpg]: [src] holds the [len] bytes. *)
Fixpoint copyoutpg_loop (fuel : nat) (pagetable dstva : Z) (src : list Z) (len : Z) : K Z :=
  match fuel with
  | O => block
  | S fuel =>
      if negb (0 <? len) then mret 0 else
      let va0 := PGROUNDDOWN dstva in
      pa0 ← walkaddr pagetable va0;
      if pa0 =? 0 then mret (-1) else
      let n := PGSIZE - (dstva - va0) in
      let n := if len <? n then len else n in
      upd_mem (fun m => store_bytes m (pa0 + (dstva - va0)) (take (Z.to_nat n) src));;
      copyoutpg_loop fuel pagetable (u64 (va0 + PGSIZE)) (drop (Z.to_nat n) src) (len - n)
  end.
Definition copyoutpg (pagetable dstva : Z) (src : list Z) (len : Z) : K Z :=
  copyoutpg_loop (S (Z.to_nat len)) pagetable dstva src len.

(** ** [spaceswap.c] *)

Definition either_copyout (user_dst : bool) (dst : Z) (src : list Z) (len : Z) : K Z :=
  p ← myproc;
  if user_dst then
    pt ← proc_field p_pagetable p;
    copyoutpg pt dst src len
  else
    upd_mem (fun m => store_bytes m dst (take (Z.to_nat (u32 len)) src));;
    mret 0.

Definition either_copyin (user_src : bool) (src len : Z) : K (Z * list Z) :=
  p ← myproc;
  if user_src then
    pt ← proc_field p_pagetable p;
    copyin pt src len
  else
    bs ← gets (fun s => load_bytes (k_mem s) src (Z.to_nat (u32 len)));
    mret (0, bs).
End uvm.
