(* ===== verification/UvmProps.v ===== *)
(** * Correctness of the user address space operations *)

From S2P Require Import Prelude Layout Memory State Spinlock Kmem PageTable Uvm.

Section uvm_props.
  Context `{HL : LinkOk}.
  Implicit Types (s : kstate) (l : list Z) (m : memory).

(** ** Writes outside the tables *)

Lemma tables_ext m m' root :
  pt_wf m root ->
  (forall id t, tid_ok id -> tbl m root id = Some t ->
     forall x, in_page x t -> load8 m' x = load8 m x) ->
  (forall id, tid_ok id -> tbl m' root id = tbl m root id) /\
  (forall va, pte_of m' root va = pte_of m root va) /\ pt_wf m' root.
Proof.
  intros Hwf Hm.
  assert (forall id t k, tid_ok id -> tbl m root id = Some t -> 0 <= k < 512 ->
    load64 m' (t + 8 * k) = load64 m (t + 8 * k)) as Hw.
  { intros id t k Hid Ht Hk. apply load64_ext. intros x Hx.
    apply (Hm id t Hid Ht). unfold in_page, PGSIZE. lia. }
  assert (forall q k c, child q k = Some c -> tid_ok q -> 0 <= k < 512 ->
    tbl m' root q = tbl m root q -> tbl m' root c = tbl m root c) as Hstep.
  { intros q k c Hc Hq Hk E. rewrite !(tbl_child _ _ _ _ _ Hc), E.
    destruct (tbl m root q) eqn:Eq; [|done]. unfold next. by rewrite (Hw q). }
  assert (forall id, tid_ok id -> tbl m' root id = tbl m root id) as Htbl.
  { assert (forall k, 0 <= k < 512 -> tbl m' root (T1 k) = tbl m root (T1 k)) as H1.
    { intros k Hk. by apply (Hstep T2 k). }
    intros [|k|k j] Hid; [done|by apply H1|]. destruct Hid. by apply (Hstep (T1 k) j); auto. }
  split; [done|split].
  - intros va. unfold pte_of, pt_addr. rewrite Htbl by apply leaf_id_ok.
    destruct (tbl m root (leaf_id va)) as [t|] eqn:Ht; [|done]. simpl.
    apply (Hw (leaf_id va)); auto using leaf_id_ok. apply PX_range. lia.
  - split.
    + intros id t Hid. rewrite Htbl by done. by apply (pt_pages _ _ Hwf).
    + intros id id' t Hid Hid'. rewrite !Htbl by done. by apply (pt_inj _ _ Hwf).
Qed.

(** A page that is neither free nor a table: memory the page table may map. *)
Definition data_page s root l (pa : Z) : Prop :=
  page_ok pa /\ (pa ∉ l) /\ forall id, tid_ok id -> tbl (k_mem s) root id <> Some pa.

Lemma page_sep a b x : page_ok a -> page_ok b -> in_page x a -> in_page x b -> a = b.
Proof.
  intros Ha Hb H1 H2. destruct (decide (a = b)); [done|].
  destruct (page_ok_disjoint a b Ha Hb); [done|..]; unfold in_page, PGSIZE in *; lia.
Qed.

(** Writing to data pages only. *)
Lemma data_write s m' root l :
  let s' := set_k_mem m' s in
  vm_inv s root l -> mem_wf m' ->
  (forall x pa, page_ok pa -> in_page x pa -> ~ data_page s root l pa -> load8 m' x = load8 (k_mem s) x) ->
  vm_inv s' root l /\
  (forall id, tid_ok id -> tbl m' root id = tbl (k_mem s) root id) /\
  (forall va, pte_of m' root va = pte_of (k_mem s) root va).
Proof.
  intros s' [Hk Hwf Hd] Hm' Hm.
  destruct (tables_ext (k_mem s) m' root Hwf) as (Ht & Hp & Hwf').
  { intros id t Hid Et x Hx. apply (Hm x t); [by eapply pt_pages|done|].
    intros (_ & _ & H). by apply (H id). }
  split; [|done]. split; [|exact Hwf'|].
  - destruct Hk as [Hch Hnd Hpg _ Hcpu Hlk]. split; [|done|done|done|done|done].
    apply (chain_ext (k_mem s)); [|done]. apply Forall_forall. intros b Hb.
    assert (page_ok b) as Hbp by by (rewrite Forall_forall in Hpg; apply Hpg).
    apply load64_ext. intros x Hx. apply (Hm x b); [done|unfold in_page, PGSIZE; lia|].
    intros (_ & H & _). by apply H.
  - intros id t Hid. unfold s'. cbn [k_mem set_k_mem]. rewrite Ht by done. by apply Hd.
Qed.

(** ** [walkaddr]: address translation *)

(** What the code calls a user page. *)
Definition user_pte (v : Z) : Prop := flag v PTE_V = true /\ flag v PTE_U = true /\ PTE2PA v <> 0.

Lemma walkaddr_eq s root l va :
  vm_inv s root l -> 0 <= va < MAXVA ->
  walkaddr root va s =
    let v := pte_of (k_mem s) root va in
    match pt_addr (k_mem s) root va with
    | None => Panic "walkaddr:pte:0" s
    | Some _ =>
        if negb (flag v PTE_V) then Panic "walkaddr:PTE_V" s
        else if negb (flag v PTE_U) then Panic "walkaddr:PTE_U" s
        else if PTE2PA v =? 0 then Panic "walkaddr: pa is zero" s
        else Ok (PTE2PA v) s
    end.
Proof.
  intros Hi Hva. unfold walkaddr. destruct (Z.leb_spec MAXVA va); [lia|].
  rewrite (bind_ok _ _ _ _ _ (walk_read s root va Hva)). unfold pte_of. cbv zeta.
  destruct (pt_addr (k_mem s) root va) as [p|] eqn:Hp; cbn [default from_option id]; [|done].
  pose proof (pt_addr_pos s root l va p Hi Hp). destruct (Z.eqb_spec p 0); [lia|].
  unfold rd64. step_prim.
  destruct (flag (load64 (k_mem s) p) PTE_V); cbn [negb]; [|done].
  destruct (flag (load64 (k_mem s) p) PTE_U); cbn [negb]; [|done].
  by destruct (PTE2PA (load64 (k_mem s) p) =? 0).
Qed.

Lemma walkaddr_user s root l va :
  vm_inv s root l -> 0 <= va < MAXVA -> user_pte (pte_of (k_mem s) root va) ->
  walkaddr root va s = Ok (PTE2PA (pte_of (k_mem s) root va)) s.
Proof.
  intros Hi Hva (Hv & Hu & Hz). rewrite (walkaddr_eq s root l) by done. cbv zeta.
  destruct (pt_addr (k_mem s) root va) eqn:Hp.
  - rewrite Hv, Hu. cbn [negb]. by destruct (Z.eqb_spec (PTE2PA (pte_of (k_mem s) root va)) 0).
  - unfold pte_of in Hv. by rewrite Hp in Hv.
Qed.

Lemma pte_of_page m root va va' : va' / PGSIZE = va / PGSIZE -> pte_of m root va' = pte_of m root va.
Proof. intros E. destruct (same_leaf va va' E) as [E1 E2]. unfold pte_of, pt_addr. by rewrite E1, E2. Qed.

(** The physical address a user address translates to. *)
Definition phys m (root va : Z) : Z := PTE2PA (pte_of m root va) + va mod PGSIZE.

(** [a, b) is mapped to user pages that are nobody else's, one per page. *)
Record user_range s root l (a b : Z) : Prop := {
  ur_bounds : 0 <= a /\ b <= MAXVA;
  ur_pte : forall va, a <= va < b -> user_pte (pte_of (k_mem s) root va);
  ur_data : forall va, a <= va < b -> data_page s root l (PTE2PA (pte_of (k_mem s) root va));
  ur_inj : forall va va', a <= va < b -> a <= va' < b ->
    PTE2PA (pte_of (k_mem s) root va) = PTE2PA (pte_of (k_mem s) root va') -> va / PGSIZE = va' / PGSIZE
}.

Lemma user_range_sub s root l a b a' b' :
  a <= a' -> b' <= b -> user_range s root l a b -> user_range s root l a' b'.
Proof. intros ? ? [? ? ? ?]. split; intros; [lia|eauto with lia..]. Qed.

Lemma user_range_write s m' root l a b :
  (forall id, tid_ok id -> tbl m' root id = tbl (k_mem s) root id) ->
  (forall va, pte_of m' root va = pte_of (k_mem s) root va) ->
  user_range s root l a b -> user_range (set_k_mem m' s) root l a b.
Proof.
  intros Ht Hp [B P D I]. split; [done|..]; cbn [k_mem set_k_mem].
  - intros. rewrite Hp. by apply P.
  - intros va Hva. rewrite Hp. destruct (D va Hva) as (? & ? & Hd). split; [done|split; [done|]].
    intros id Hid. cbn [k_mem set_k_mem]. rewrite Ht by done. by apply Hd.
  - intros va va' Hva Hva'. rewrite !Hp. by apply I.
Qed.

Lemma phys_inj s root l a b va va' :
  user_range s root l a b -> a <= va < b -> a <= va' < b ->
  phys (k_mem s) root va = phys (k_mem s) root va' -> va = va'.
Proof.
  intros [_ _ D I] Hva Hva'. unfold phys. intros E.
  destruct (D va Hva) as ([Hm _] & _). destruct (D va' Hva') as ([Hm' _] & _).
  pose proof (I va va' Hva Hva'). unfold PGSIZE in *.
  pose proof (Z.mod_pos_bound va 4096). pose proof (Z.mod_pos_bound va' 4096).
  pose proof (Z.div_mod va 4096). pose proof (Z.div_mod va' 4096).
  pose proof (Z.div_mod (PTE2PA (pte_of (k_mem s) root va)) 4096).
  pose proof (Z.div_mod (PTE2PA (pte_of (k_mem s) root va')) 4096). lia.
Qed.

(** ** [copyoutpg] *)

(** [m'] is [m] with the bytes [src] written to the user addresses from
    [dstva] on. *)
Definition user_written m m' (root dstva : Z) (src : list Z) : Prop :=
  (forall i b, src !! i = Some b -> load8 m' (phys m root (dstva + Z.of_nat i)) = u8 b) /\
  (forall x, (forall i, (i < length src)%nat -> x <> phys m root (dstva + Z.of_nat i)) ->
     load8 m' x = load8 m x).

(** One round of the loop: the bytes up to the end of the page. *)
Lemma user_write_page s root l dstva src n :
  let va0 := PGROUNDDOWN dstva in
  let m' := store_bytes (k_mem s) (PTE2PA (pte_of (k_mem s) root va0) + (dstva - va0)) (take n src) in
  vm_inv s root l -> user_range s root l dstva (dstva + Z.of_nat n) ->
  (0 < n)%nat -> (n <= length src)%nat -> dstva - va0 + Z.of_nat n <= PGSIZE ->
  user_written (k_mem s) m' root dstva (take n src) /\
  vm_inv (set_k_mem m' s) root l /\
  (forall id, tid_ok id -> tbl m' root id = tbl (k_mem s) root id) /\
  (forall va, pte_of m' root va = pte_of (k_mem s) root va).
Proof.
  intros va0 m' Hi Hr Hn Hlen Hpg. destruct (PGROUNDDOWN_spec dstva) as [Hm Hd]. fold va0 in Hm, Hd.
  assert (forall i, 0 <= i < Z.of_nat n ->
    PTE2PA (pte_of (k_mem s) root va0) + (dstva - va0) + i = phys (k_mem s) root (dstva + i)) as Hphys.
  { intros i Hi'. unfold phys. assert ((dstva + i) / PGSIZE = va0 / PGSIZE) as E.
    { apply same_page; [done|]. lia. }
    rewrite (pte_of_page _ root va0 (dstva + i) E).
    unfold PGSIZE in *. pose proof (Z.div_mod (dstva + i) 4096). pose proof (Z.div_mod va0 4096). lia. }
  assert (data_page s root l (PTE2PA (pte_of (k_mem s) root va0))) as Hdp.
  { rewrite <- (pte_of_page _ root va0 dstva); [apply (ur_data _ _ _ _ _ Hr); lia|].
    apply same_page; [done|lia]. }
  assert (length (take n src) = n) as Hl by (by apply length_take_le).
  split.
  - split.
    + intros i b Hb. assert (i < n)%nat as Hin by (rewrite <- Hl; by eapply lookup_lt_Some).
      rewrite <- Hphys by lia. unfold m'. rewrite load8_store_bytes, Hl.
      rewrite decide_True by lia. replace (Z.to_nat _) with i by lia. by rewrite Hb.
    + intros x Hx. unfold m'. rewrite load8_store_bytes, Hl. case_decide as Hc; [|done].
      exfalso. set (j := Z.to_nat (x - (PTE2PA (pte_of (k_mem s) root va0) + (dstva - va0)))).
      apply (Hx j); [rewrite Hl; lia|]. rewrite <- Hphys by lia. lia.
  - apply data_write; [done|apply mem_wf_store_bytes; by destruct Hi as [[]]|].
    intros x pa Hpa Hx Hnd. unfold m'. rewrite load8_store_bytes, Hl. case_decide as Hc; [|done].
    exfalso. apply Hnd. destruct Hdp as [Hpo Hrest].
    rewrite (page_sep pa (PTE2PA (pte_of (k_mem s) root va0)) x); try done.
    unfold in_page, PGSIZE in *. lia.
Qed.

Lemma set_k_mem_self s : set_k_mem (k_mem s) s = s.
Proof. by destruct s. Qed.

Lemma user_written_nil m root dstva : user_written m m root dstva [].
Proof. split; [by intros ? ? ?|done]. Qed.

Lemma user_written_app s m1 m2 root l dstva src1 src2 :
  user_range s root l dstva (dstva + Z.of_nat (length src1 + length src2)) ->
  (forall va, pte_of m1 root va = pte_of (k_mem s) root va) ->
  user_written (k_mem s) m1 root dstva src1 ->
  user_written m1 m2 root (dstva + Z.of_nat (length src1)) src2 ->
  user_written (k_mem s) m2 root dstva (src1 ++ src2).
Proof.
  intros Hr Hp [W1 U1] [W2 U2].
  assert (forall va, phys m1 root va = phys (k_mem s) root va) as Hph by (intros; unfold phys; by rewrite Hp).
  split.
  - intros i b Hb. destruct (decide (i < length src1)%nat).
    + rewrite lookup_app_l in Hb by done. rewrite U2; [by apply W1|].
      intros j Hj. rewrite Hph. intros E. apply (phys_inj s root l _ _ _ _ Hr) in E; lia.
    + rewrite lookup_app_r in Hb by lia. rewrite <- (W2 _ _ Hb), Hph. f_equal. f_equal. lia.
  - intros x Hx. rewrite length_app in Hx. rewrite U2.
    + apply U1. intros i Hi. apply Hx. lia.
    + intros i Hi. rewrite Hph. specialize (Hx (length src1 + i)%nat ltac:(lia)).
      by replace (dstva + Z.of_nat (length src1) + Z.of_nat i)
        with (dstva + Z.of_nat (length src1 + i)) by lia.
Qed.

Lemma copyoutpg_loop_spec fuel s root l dstva src :
  (length src < fuel)%nat -> vm_inv s root l ->
  user_range s root l dstva (dstva + Z.of_nat (length src)) ->
  exists m', copyoutpg_loop fuel root dstva src (Z.of_nat (length src)) s = Ok 0 (set_k_mem m' s) /\
    user_written (k_mem s) m' root dstva src /\ vm_inv (set_k_mem m' s) root l /\
    (forall va, pte_of m' root va = pte_of (k_mem s) root va).
Proof.
  revert s dstva src. induction fuel as [|fuel IH]; intros s dstva src Hf Hi Hr; [lia|].
  cbn [copyoutpg_loop]. destruct (Z.ltb_spec 0 (Z.of_nat (length src))) as [Hlen|Hlen]; cbn [negb].
  2: { destruct src; [|simpl in Hlen; lia]. exists (k_mem s). rewrite set_k_mem_self.
       split; [done|]. split; [apply user_written_nil|done]. }
  destruct (PGROUNDDOWN_spec dstva) as [Hm Hd]. set (va0 := PGROUNDDOWN dstva) in *.
  pose proof (ur_bounds _ _ _ _ _ Hr) as [Hlo Hhi].
  assert (0 <= va0) by (unfold va0; rewrite PGROUNDDOWN_eq; unfold PGSIZE; pose proof (Z.div_pos dstva 4096); lia).
  assert (pte_of (k_mem s) root va0 = pte_of (k_mem s) root dstva) as Epte.
  { symmetry. apply pte_of_page. apply same_page; [done|lia]. }
  assert (user_pte (pte_of (k_mem s) root va0)) as Hu by (rewrite Epte; apply (ur_pte _ _ _ _ _ Hr); lia).
  rewrite (bind_ok _ _ _ _ _ (walkaddr_user s root l va0 Hi ltac:(lia) Hu)).
  destruct (Z.eqb_spec (PTE2PA (pte_of (k_mem s) root va0)) 0) as [E0|_]; [by destruct Hu as (_ & _ & ?)|].
  cbv zeta.
  set (n := if Z.of_nat (length src) <? PGSIZE - (dstva - va0) then Z.of_nat (length src) else PGSIZE - (dstva - va0)).
  assert (0 < n /\ n <= Z.of_nat (length src) /\ dstva - va0 + n <= PGSIZE /\
    (n < Z.of_nat (length src) -> dstva + n = va0 + PGSIZE)) as (Hn0 & Hn1 & Hn2 & Hn3).
  { unfold n. destruct (Z.ltb_spec (Z.of_nat (length src)) (PGSIZE - (dstva - va0))); lia. }
  clearbody n.
  destruct (user_write_page s root l dstva src (Z.to_nat n)) as (Hw & Hi1 & Ht1 & Hp1);
    try done; try lia; [eapply user_range_sub; [..|exact Hr]; lia|].
  fold va0 in Hw, Hi1, Ht1, Hp1. unfold upd_mem. step_prim.
  set (m1 := store_bytes _ _ _) in *. clearbody m1.
  assert (length (drop (Z.to_nat n) src) = length src - Z.to_nat n)%nat as Hld by apply length_drop.
  assert (length (take (Z.to_nat n) src) = Z.to_nat n) as Hlt by (apply length_take_le; lia).
  destruct (decide (n < Z.of_nat (length src))) as [Hmore|Hlast].
  - rewrite u64_id by (change MAXVA with (2 ^ 38) in Hhi; lia). rewrite <- (Hn3 Hmore).
    replace (Z.of_nat (length src) - n) with (Z.of_nat (length (drop (Z.to_nat n) src))) by lia.
    destruct (IH (set_k_mem m1 s) (dstva + n) (drop (Z.to_nat n) src)) as (m2 & E & Hw2 & Hi2 & Hp2);
      [lia|done| |].
    { apply user_range_write; [done..|]. eapply user_range_sub; [..|exact Hr]; lia. }
    cbn [k_mem set_k_mem] in *. exists m2. split; [exact E|].
    split; [|split; [done|intros; by rewrite Hp2, Hp1]].
    rewrite <- (take_drop (Z.to_nat n) src). eapply (user_written_app s m1); try done.
    + by rewrite Hlt, Hld; replace (Z.to_nat n + (length src - Z.to_nat n))%nat with (length src) by lia.
    + rewrite Hlt. by rewrite Z2Nat.id by lia.
  - assert (n = Z.of_nat (length src)) as En by lia.
    rewrite (take_ge src) in Hw by lia. rewrite (drop_ge src) by lia.
    replace (Z.of_nat (length src) - n) with 0 by lia.
    exists m1. destruct fuel; [lia|]. cbn [copyoutpg_loop]. done.
Qed.

(** ** [copyin] and [copyinstr] *)

(** The bytes at the user addresses from [va] on. *)
Definition user_bytes m (root va : Z) (n : nat) : list Z :=
  (fun i => load8 m (phys m root (va + Z.of_nat i))) <$> seq 0 n.

Lemma lookup_user_bytes m root va n i :
  (i < n)%nat -> user_bytes m root va n !! i = Some (load8 m (phys m root (va + Z.of_nat i))).
Proof.
  intros. unfold user_bytes. rewrite list_lookup_fmap, lookup_seq_lt by done. done.
Qed.

Lemma length_user_bytes m root va n : length (user_bytes m root va n) = n.
Proof. unfold user_bytes. by rewrite length_fmap, length_seq. Qed.

Lemma phys_va0 m root va :
  phys m root va = PTE2PA (pte_of m root (PGROUNDDOWN va)) + (va - PGROUNDDOWN va).
Proof.
  destruct (PGROUNDDOWN_spec va) as [Hm Hd]. unfold phys.
  rewrite (pte_of_page m root (PGROUNDDOWN va) va) by (apply same_page; done).
  rewrite PGROUNDDOWN_eq. unfold PGSIZE. pose proof (Z.div_mod va 4096). lia.
Qed.

Lemma user_bytes_in_page m root va n :
  va - PGROUNDDOWN va + Z.of_nat n <= PGSIZE ->
  user_bytes m root va n = load_bytes m (phys m root va) n.
Proof.
  intros Hn. apply list_eq. intros i. destruct (decide (i < n)%nat).
  - rewrite lookup_user_bytes, lookup_load_bytes by done. do 2 f_equal.
    destruct (PGROUNDDOWN_spec va) as [Hm Hd]. rewrite !phys_va0.
    assert (PGROUNDDOWN (va + Z.of_nat i) = PGROUNDDOWN va) as ->; [|lia].
    rewrite !(PGROUNDDOWN_eq (va + _)).
    assert ((va + Z.of_nat i) / PGSIZE = PGROUNDDOWN va / PGSIZE) as -> by (apply same_page; [done|lia]).
    unfold PGSIZE in *. pose proof (Z.div_mod (PGROUNDDOWN va) 4096). lia.
  - rewrite !lookup_ge_None_2; rewrite ?length_user_bytes, ?length_load_bytes; (lia || done).
Qed.

(** The page count of [copyin] is right below the second page only; above,
    the loop copies [len] physically contiguous bytes in one round. *)
Lemma copyin_high s root l srcva len :
  vm_inv s root l -> PGSIZE <= srcva < MAXVA -> 0 < len < 2 ^ 32 ->
  user_pte (pte_of (k_mem s) root srcva) ->
  copyin root srcva len s = Ok (0, load_bytes (k_mem s) (phys (k_mem s) root srcva) (Z.to_nat len)) s.
Proof.
  intros Hi Hva Hlen Hu. unfold copyin.
  destruct (PGROUNDDOWN_spec srcva) as [Hm Hd].
  assert (PGSIZE <= PGROUNDDOWN srcva) as Hva0.
  { unfold PGSIZE in *. pose proof (Z.div_mod (PGROUNDDOWN srcva) 4096). lia. }
  assert (pte_of (k_mem s) root (PGROUNDDOWN srcva) = pte_of (k_mem s) root srcva) as Epte.
  { symmetry. apply pte_of_page. by apply same_page. }
  rewrite <- Epte in Hu.
  cbn [copyin_loop]. destruct (Z.ltb_spec 0 len); [|lia]. cbn [negb].
  rewrite (bind_ok _ _ _ _ _ (walkaddr_user s root l (PGROUNDDOWN srcva) Hi ltac:(unfold PGSIZE in *; lia) Hu)).
  destruct (Z.eqb_spec (PTE2PA (pte_of (k_mem s) root (PGROUNDDOWN srcva))) 0) as [E0|_];
    [by destruct Hu as (_ & _ & ?)|]. cbv zeta.
  assert (u64 (PGSIZE - (srcva + PGROUNDDOWN srcva)) = 2 ^ 64 + PGSIZE - (srcva + PGROUNDDOWN srcva)) as ->.
  { unfold u64. symmetry. apply (Z.mod_unique _ _ (-1));
      change MAXVA with (2 ^ 38) in *; unfold PGSIZE in *; lia. }
  destruct (Z.ltb_spec len (2 ^ 64 + PGSIZE - (srcva + PGROUNDDOWN srcva)));
    [|change MAXVA with (2 ^ 38) in *; unfold PGSIZE in *; lia].
  rewrite u32_id, Z.eqb_refl by lia. cbn [negb]. step_prim. rewrite <- phys_va0, Z.sub_diag. cbn [app].
  destruct (Z.to_nat len) eqn:E; [lia|]. done.
Qed.

(** The first page, where the count is right. *)
Lemma copyin_low s root l srcva len :
  vm_inv s root l -> 0 <= srcva -> 0 < len -> srcva + len <= PGSIZE ->
  user_pte (pte_of (k_mem s) root srcva) ->
  copyin root srcva len s = Ok (0, load_bytes (k_mem s) (phys (k_mem s) root srcva) (Z.to_nat len)) s.
Proof.
  intros Hi Hva Hlen Hpg Hu. unfold copyin.
  assert (PGROUNDDOWN srcva = 0) as E0 by (rewrite PGROUNDDOWN_eq, Z.div_small by lia; done).
  assert (pte_of (k_mem s) root 0 = pte_of (k_mem s) root srcva) as Epte.
  { symmetry. rewrite <- E0. apply pte_of_page. apply same_page; rewrite E0; [done|lia]. }
  pose proof Hu as Hu0. rewrite <- Epte in Hu0.
  cbn [copyin_loop]. rewrite (proj2 (Z.ltb_lt 0 len)) by done. cbn [negb]. cbv zeta.
  rewrite E0, (bind_ok _ _ _ _ _ (walkaddr_user s root l 0 Hi ltac:(by change MAXVA with (2 ^ 38)) Hu0)).
  destruct (Z.eqb_spec (PTE2PA (pte_of (k_mem s) root 0)) 0) as [Ez|_]; [by destruct Hu0 as (_ & _ & ?)|].
  rewrite Z.add_0_r, (u64_id (PGSIZE - srcva)) by (unfold PGSIZE in *; lia).
  assert ((if len <? PGSIZE - srcva then len else PGSIZE - srcva) = len) as -> by (case_bool; lia).
  rewrite u32_id, Z.eqb_refl by (unfold PGSIZE in *; lia). cbn [negb]. step_prim.
  rewrite (phys_va0 _ _ srcva), E0, Z.sub_diag. cbn [app].
  destruct (Z.to_nat len) eqn:E; [lia|]. done.
Qed.

Lemma copyin_in_page s root l srcva len :
  vm_inv s root l -> 0 <= srcva < MAXVA -> 0 < len ->
  srcva - PGROUNDDOWN srcva + len <= PGSIZE ->
  user_pte (pte_of (k_mem s) root srcva) ->
  copyin root srcva len s = Ok (0, user_bytes (k_mem s) root srcva (Z.to_nat len)) s.
Proof.
  intros Hi Hva Hlen Hpg Hu. destruct (PGROUNDDOWN_spec srcva) as [Hm Hd].
  rewrite user_bytes_in_page by lia. destruct (decide (srcva < PGSIZE)) as [Hlow|Hhigh].
  - apply (copyin_low s root l); try done; [lia|]. rewrite PGROUNDDOWN_eq, Z.div_small in Hpg by lia. lia.
  - apply (copyin_high s root l); try done; [lia|]. unfold PGSIZE in *; lia.
Qed.

(** [copyinstr] *)

Lemma copyinstr_page_full m p n max dst bs :
  length bs = n -> Forall (fun b => b <> 0) bs ->
  (forall i b, bs !! i = Some b -> load8 m (p + Z.of_nat i) = b) ->
  copyinstr_page m p n max dst = (dst ++ bs, false, max - Z.of_nat n).
Proof.
  revert p max dst bs. induction n as [|n IH]; intros p max dst [|b bs] Hl Hnz Hb; try done.
  - cbn. rewrite app_nil_r. f_equal. lia.
  - cbn [copyinstr_page]. apply Forall_cons in Hnz as [Hb0 Hnz].
    pose proof (Hb 0%nat b eq_refl) as E. rewrite Z.add_0_r in E. rewrite E.
    destruct (Z.eqb_spec b 0); [done|].
    rewrite (IH (p + 1) (max - 1) (dst ++ [b]) bs).
    + rewrite <- app_assoc. f_equal. lia.
    + simpl in Hl. lia.
    + done.
    + intros i c Hc. rewrite <- (Hb (S i) c Hc). f_equal. lia.
Qed.

Lemma copyinstr_page_null m p n max dst bs :
  (length bs < n)%nat -> Forall (fun b => b <> 0) bs ->
  (forall i b, bs !! i = Some b -> load8 m (p + Z.of_nat i) = b) ->
  load8 m (p + Z.of_nat (length bs)) = 0 ->
  copyinstr_page m p n max dst = (dst ++ bs ++ [0], true, max - Z.of_nat (length bs)).
Proof.
  revert p n max dst. induction bs as [|b bs IH]; intros p [|n] max dst Hl Hnz Hb Hz; simpl in Hl; try lia.
  - cbn [copyinstr_page]. simpl in Hz. rewrite Z.add_0_r in Hz. rewrite Hz. cbn. f_equal. lia.
  - cbn [copyinstr_page]. apply Forall_cons in Hnz as [Hb0 Hnz].
    pose proof (Hb 0%nat b eq_refl) as E. rewrite Z.add_0_r in E. rewrite E.
    destruct (Z.eqb_spec b 0); [done|]. rewrite IH.
    + rewrite <- app_assoc. cbn [length]. f_equal. lia.
    + lia.
    + done.
    + intros i c Hc. rewrite <- (Hb (S i) c Hc). f_equal. lia.
    + rewrite <- Hz. f_equal. cbn [length]. lia.
Qed.
(** The loop of [copyinstr] on a string [bs] at [va] whose terminator is in
    range: page after page, up to the terminator. *)
Lemma copyinstr_loop_spec fuel s root l va max dst bs :
  (length bs + 1 < fuel)%nat -> vm_inv s root l ->
  0 <= va -> va + Z.of_nat (length bs) < MAXVA -> Z.of_nat (length bs) < max ->
  (forall a, va <= a <= va + Z.of_nat (length bs) -> user_pte (pte_of (k_mem s) root a)) ->
  user_bytes (k_mem s) root va (length bs) = bs -> Forall (fun b => b <> 0) bs ->
  load8 (k_mem s) (phys (k_mem s) root (va + Z.of_nat (length bs))) = 0 ->
  copyinstr_loop fuel root va max false dst s = Ok (0, dst ++ bs ++ [0]) s.
Proof.
  revert va max dst bs. induction fuel as [|fuel IH]; intros va max dst bs Hf Hi Hva Hmax Hlen Hu Hb Hnz Hz; [lia|].
  cbn [copyinstr_loop negb andb]. destruct (Z.ltb_spec 0 max); [|lia]. cbn [negb].
  destruct (PGROUNDDOWN_spec va) as [Hm Hd].
  assert (0 <= PGROUNDDOWN va) by (rewrite PGROUNDDOWN_eq; unfold PGSIZE; pose proof (Z.div_pos va 4096); lia).
  assert (pte_of (k_mem s) root (PGROUNDDOWN va) = pte_of (k_mem s) root va) as Epte.
  { symmetry. apply pte_of_page. by apply same_page. }
  assert (user_pte (pte_of (k_mem s) root (PGROUNDDOWN va))) as Hu0 by (rewrite Epte; apply Hu; lia).
  rewrite (bind_ok _ _ _ _ _ (walkaddr_user s root l (PGROUNDDOWN va) Hi ltac:(lia) Hu0)).
  destruct (Z.eqb_spec (PTE2PA (pte_of (k_mem s) root (PGROUNDDOWN va))) 0) as [E0|_];
    [by destruct Hu0 as (_ & _ & ?)|]. cbv zeta. step_prim. rewrite <- phys_va0.
  set (n := if max <? PGSIZE - (va - PGROUNDDOWN va) then max else PGSIZE - (va - PGROUNDDOWN va)).
  assert (0 < n <= max /\ n <= PGSIZE - (va - PGROUNDDOWN va) /\ (n < max -> n = PGSIZE - (va - PGROUNDDOWN va))) as (Hn & Hn1 & Hn2).
  { subst n. destruct (Z.ltb_spec max (PGSIZE - (va - PGROUNDDOWN va))); unfold PGSIZE in *; lia. }
  clearbody n.
  assert (forall i, Z.of_nat i < n -> phys (k_mem s) root (va + Z.of_nat i) = phys (k_mem s) root va + Z.of_nat i) as Hphys.
  { intros i Hin. rewrite !phys_va0.
    assert (PGROUNDDOWN (va + Z.of_nat i) = PGROUNDDOWN va) as ->; [|lia].
    rewrite !(PGROUNDDOWN_eq (va + _)).
    assert ((va + Z.of_nat i) / PGSIZE = PGROUNDDOWN va / PGSIZE) as -> by (apply same_page; [done|lia]).
    unfold PGSIZE in *. pose proof (Z.div_mod (PGROUNDDOWN va) 4096). lia. }
  assert (forall i b, Z.of_nat i < n -> bs !! i = Some b -> load8 (k_mem s) (phys (k_mem s) root va + Z.of_nat i) = b) as Hbs.
  { intros i b Hin Hib. rewrite <- Hphys by done. pose proof (lookup_lt_Some _ _ _ Hib).
    rewrite <- Hb in Hib. rewrite lookup_user_bytes in Hib by done. by simplify_eq. }
  destruct (decide (Z.of_nat (length bs) < n)) as [Hin|Hin].
  - rewrite (copyinstr_page_null _ _ _ _ _ bs); [|lia|done|intros; apply Hbs; [|done]|].
    + destruct fuel; [lia|]. done.
    + pose proof (lookup_lt_Some _ _ _ H1). lia.
    + by rewrite <- Hphys by lia.
  - rewrite (copyinstr_page_full _ _ _ _ _ (take (Z.to_nat n) bs)).
    + assert (n = PGSIZE - (va - PGROUNDDOWN va)) as En by lia.
      change MAXVA with (2 ^ 38) in *.
      rewrite u64_id by (unfold PGSIZE in *; lia).
      replace (PGROUNDDOWN va + PGSIZE) with (va + n) by lia. rewrite Z2Nat.id by lia.
      assert (length (drop (Z.to_nat n) bs) = length bs - Z.to_nat n)%nat as Hld by by rewrite length_drop.
      assert (va + n + Z.of_nat (length (drop (Z.to_nat n) bs)) = va + Z.of_nat (length bs)) as Eend by lia.
      rewrite (IH (va + n) (max - n) _ (drop (Z.to_nat n) bs)); rewrite ?Eend; try lia; try done.
      * rewrite <- !app_assoc. rewrite (app_assoc (take _ _)), take_drop. done.
      * intros a Ha. apply Hu. lia.
      * apply list_eq. intros i. rewrite lookup_drop.
        destruct (decide (i < length (drop (Z.to_nat n) bs))%nat) as [Hi'|Hi'].
        -- rewrite lookup_user_bytes by done.
           pose proof (lookup_user_bytes (k_mem s) root va (length bs) (Z.to_nat n + i)) as E.
           rewrite Hb in E. rewrite E by lia. do 3 f_equal. lia.
        -- rewrite !lookup_ge_None_2; [done|lia|rewrite length_user_bytes; lia].
      * by apply Forall_drop.
    + rewrite length_take. lia.
    + by apply Forall_take.
    + intros i b Hib. pose proof (lookup_lt_Some _ _ _ Hib) as Hlt. rewrite length_take in Hlt.
      rewrite lookup_take_lt in Hib by lia. apply Hbs; [lia|done].
Qed.
End uvm_props.
