(* ===== verification/UvmGrow.v ===== *)
(** * Growing an address space, a page at a time

    Every round of [uvmalloc] takes a page from the free list, clears it and maps
    it at the next address; [grown_to] collects what holds of the new range.
    Three free pages per round are enough: the page itself and at most two new
    tables. *)

From S2P Require Import Prelude Layout Memory State Spinlock Kmem PageTable Uvm UvmProps.

(** The permissions [uvmalloc] maps with. *)
Definition user_perm : Z := Z.lor PTE_W (Z.lor PTE_X (Z.lor PTE_R PTE_U)).

Section grow.
  Context `{HL : LinkOk}.
  Implicit Types (s : kstate) (l : list Z).

(** Every page that was free is free, a table or in [D]. *)
Definition kept_or (m' : memory) (root : Z) l l' (D : Z -> Prop) : Prop :=
  forall t, t ∈ l -> t ∈ l' \/ is_table m' root t \/ D t.

(** The range [a, b) is user memory, cleared, made of pages that were free. *)
Record grown_to s l s' l' (root a b : Z) : Prop := {
  gt_inv : vm_inv s' root l';
  gt_grow : pt_grow root s l s' l';
  gt_pte : forall va, 0 <= va < MAXVA -> ~ a <= va < b -> pte_of (k_mem s') root va = pte_of (k_mem s) root va;
  gt_range : user_range s' root l' a b;
  gt_page : forall va, a <= va < b -> PTE2PA (pte_of (k_mem s') root va) ∈ l;
  gt_zero : forall va, a <= va < b -> load8 (k_mem s') (phys (k_mem s') root va) = 0;
  gt_kept : kept_or (k_mem s') root l l' (fun t => exists va, a <= va < b /\ PTE2PA (pte_of (k_mem s') root va) = t)
}.

Definition clear_page s (mem : Z) : kstate :=
  set_k_mem (memset (k_mem (kalloc_upd s mem)) mem 0 PGSIZE) (kalloc_upd s mem).

Lemma clear_page_mem s mem x :
  mem <> 0 -> load8 (k_mem (clear_page s mem)) x = if decide (in_page x mem) then 0 else load8 (k_mem s) x.
Proof.
  intros Hm. unfold clear_page. cbn [k_mem set_k_mem]. rewrite load8_memset by done. unfold in_page.
  case_decide; [done|]. rewrite kalloc_upd_mem, decide_False by tauto. done.
Qed.

(** A page taken from the free list and filled. *)
Lemma take_page_spec s root mem l m' :
  vm_inv s root (mem :: l) -> mem_wf m' ->
  (forall x, ~ in_page x mem -> load8 m' x = load8 (k_mem s) x) ->
  let s1 := set_k_mem m' (kalloc_upd s mem) in
  vm_inv s1 root l /\ pt_grow root s (mem :: l) s1 l /\ data_page s1 root l mem /\
  (forall va, pte_of m' root va = pte_of (k_mem s) root va) /\
  (forall id, tid_ok id -> tbl m' root id = tbl (k_mem s) root id).
Proof.
  intros [Hk Hwf Hd] Hm' Hx s1. destruct (kalloc_spec s mem l Hk) as (E & Hk1 & Hok & Hnin).
  pose proof (page_ok_pos _ Hok) as Hpos.
  destruct (tables_ext (k_mem s) m' root Hwf) as (Ht & Hp & Hwf').
  { intros id t Hid Et x Hin. apply Hx. intros Hin'.
    apply (Hd id t Hid Et). rewrite (page_sep t mem x); [by left|by eapply pt_pages|done..]. }
  assert (kmem_inv s1 l) as Hk1'.
  { destruct Hk1 as [Hch Hnd Hpg Hmw Hcpu Hlk]. split; [|exact Hnd|exact Hpg|exact Hm'|exact Hcpu|exact Hlk].
    apply (chain_write (k_mem (kalloc_upd s mem)) _ _ _ mem); [exact Hok|exact Hpg|exact Hnin| |exact Hch].
    intros x Hout. unfold s1. cbn [k_mem set_k_mem]. rewrite Hx by (unfold in_page; lia).
    rewrite kalloc_upd_mem, decide_False; [done|lia]. }
  split; [|split; [|split; [|done]]].
  - split; [done|done|]. intros id t Hid. unfold s1. cbn [k_mem set_k_mem]. rewrite Ht by done.
    intros Et Hin. apply (Hd id t Hid Et). by right.
  - split.
    + eapply vm_frame_trans; [apply Hk|apply kalloc_upd_frame|]. by eexists false, _, _.
    + intros y Hy. by right.
    + intros id t Hid. unfold s1. cbn [k_mem set_k_mem]. by rewrite Ht.
    + intros id t Hid. unfold s1. cbn [k_mem set_k_mem]. rewrite Ht by done. by left.
    + intros x Hout _. unfold s1. cbn [k_mem set_k_mem]. apply Hx. apply Hout. by left.
  - split; [done|]. split; [done|]. intros id Hid. unfold s1. cbn [k_mem set_k_mem]. rewrite Ht by done. intros Et.
    apply (Hd id mem Hid Et). by left.
Qed.

(** And cleared. *)
Lemma clear_page_spec s root mem l :
  vm_inv s root (mem :: l) ->
  kalloc s = Ok mem (kalloc_upd s mem) /\ 0 < mem /\
  vm_inv (clear_page s mem) root l /\ pt_grow root s (mem :: l) (clear_page s mem) l /\
  data_page (clear_page s mem) root l mem /\
  (forall va, pte_of (k_mem (clear_page s mem)) root va = pte_of (k_mem s) root va) /\
  (forall x, in_page x mem -> load8 (k_mem (clear_page s mem)) x = 0).
Proof.
  intros Hi. destruct (kalloc_spec s mem l (vi_kmem _ _ _ Hi)) as (E & Hk1 & Hok & Hnin).
  pose proof (page_ok_pos _ Hok) as Hpos.
  assert (forall x, load8 (k_mem (clear_page s mem)) x = if decide (in_page x mem) then 0 else load8 (k_mem s) x) as Hx
    by (intros; apply clear_page_mem; lia).
  destruct (take_page_spec s root mem l (k_mem (clear_page s mem)) Hi) as (H1 & H2 & H3 & H4 & _).
  - apply mem_wf_memset, Hk1.
  - intros x Hout. by rewrite Hx, decide_False.
  - split; [done|]. split; [done|]. do 4 (split; [done|]). intros x Hin. by rewrite Hx, decide_True.
Qed.

(** Data pages stay data pages, with their contents, while tables grow. *)
Lemma data_page_grow s root l s' l' pa :
  vm_inv s root l -> pt_grow root s l s' l' -> data_page s root l pa ->
  data_page s' root l' pa /\ forall x, in_page x pa -> load8 (k_mem s') x = load8 (k_mem s) x.
Proof.
  intros [Hk Hwf Hd] [_ Hsub _ Ht Hx] (Hok & Hnin & Hnt). split; [split; [done|split]|].
  - set_solver.
  - intros id Hid Et. destruct (Ht id pa Hid Et) as [H|H]; [by apply (Hnt id)|done].
  - intros x Hin. apply Hx.
    + intros t Hin' Hp. assert (page_ok t) as Ht'.
      { exact (proj1 (Forall_forall _ _) (ki_pages _ _ Hk) t Hin'). }
      rewrite (page_sep t pa x Ht' Hok Hp Hin) in Hin'. done.
    + intros id t Hid Et Hp. apply (Hnt id Hid). rewrite Et. f_equal.
      apply (page_sep t pa x); [by eapply pt_pages|done..].
Qed.

(** The mapping has not changed. *)
Definition same_map m m' (root : Z) : Prop := forall va, 0 <= va < MAXVA -> pte_of m' root va = pte_of m root va.

(** Mapping one page at an unmapped address: done, or refused for want of two
    free pages. *)
Lemma map_page_cases s root l pa a perm :
  vm_inv s root l -> page_addr pa -> pa + 2 * PGSIZE < 2 ^ 56 -> 0 <= perm < 2 ^ 10 ->
  a mod PGSIZE = 0 -> 0 <= a -> a + PGSIZE <= MAXVA ->
  (forall va, a <= va < a + PGSIZE -> flag (pte_of (k_mem s) root va) PTE_V = false) ->
  exists r s' l', mappages root a PGSIZE pa perm s = Ok r s' /\
    vm_inv s' root l' /\ pt_grow root s l s' l' /\ kept (k_mem s') root l l' /\
    (r = 0 /\ (length l <= length l' + 2)%nat /\
      (forall va, 0 <= va < MAXVA -> pte_of (k_mem s') root va =
         if decide (a <= va < a + PGSIZE) then pte_entry pa perm else pte_of (k_mem s) root va) \/
     r = -1 /\ l' = [] /\ (length l < 2)%nat /\ same_map (k_mem s) (k_mem s') root).
Proof.
  intros Hi Hpa Hpa2 Hperm Ha Ha0 Hmax Hu.
  assert (PGROUNDDOWN a = a /\ PGROUNDDOWN (a + PGSIZE - 1) = a) as [E1 E2].
  { rewrite !PGROUNDDOWN_eq. unfold PGSIZE in *. pose proof (Z.div_mod a 4096). split; [lia|].
    rewrite <- (Z.div_unique (a + 4096 - 1) 4096 (a / 4096) 4095); lia. }
  assert (npages a PGSIZE = 0%nat) as E3 by (unfold npages; by rewrite E1, E2, Z.sub_diag).
  destruct (mappages_spec a PGSIZE pa perm root s l Hi Ha0 ltac:(done) Hmax Hpa
    ltac:(lia) Hperm
    ltac:(rewrite E1, E2; exact Hu))
    as (r & s' & E & k & l' & Hi' & Hg & Hm & Hl & Hkept & Hr).
  rewrite E1, E3 in *. exists r, s', l'. split; [done|]. split; [done|]. split; [done|]. split; [done|].
  destruct Hr as [[-> ->]|(-> & Hk & -> & Hlt)]; [left|right].
  - split; [done|]. split; [lia|]. intros va Hva. rewrite Hm by done. change (Z.of_nat 1 * PGSIZE) with PGSIZE.
    case_decide; [|done]. assert (PGROUNDDOWN va = a) as ->; [|by rewrite Z.sub_diag, Z.add_0_r].
    rewrite PGROUNDDOWN_eq. unfold PGSIZE in *. pose proof (Z.div_mod a 4096).
    rewrite <- (Z.div_unique va 4096 (a / 4096) (va - a)); lia.
  - split; [done|]. split; [done|]. split; [lia|]. intros va Hva. rewrite Hm by done.
    assert (k = 0%nat) as -> by lia. by rewrite decide_False by lia.
Qed.

(** The page a data page. *)
Lemma map_fresh_cases s root l mem a perm :
  vm_inv s root l -> data_page s root l mem -> 0 <= perm < 2 ^ 10 ->
  a mod PGSIZE = 0 -> 0 <= a -> a + PGSIZE <= MAXVA ->
  (forall va, a <= va < a + PGSIZE -> flag (pte_of (k_mem s) root va) PTE_V = false) ->
  exists r s' l', mappages root a PGSIZE mem perm s = Ok r s' /\
    vm_inv s' root l' /\ pt_grow root s l s' l' /\ kept (k_mem s') root l l' /\
    (r = 0 /\ (length l <= length l' + 2)%nat /\
      (forall va, 0 <= va < MAXVA -> pte_of (k_mem s') root va =
         if decide (a <= va < a + PGSIZE) then pte_entry mem perm else pte_of (k_mem s) root va) \/
     r = -1 /\ l' = [] /\ (length l < 2)%nat /\ same_map (k_mem s) (k_mem s') root).
Proof.
  intros Hi [Hok _]. apply map_page_cases; [done|by apply page_ok_addr|].
  destruct Hok as [_ Hr]. change PHYSTOP with (2 ^ 31 + 2 ^ 27) in Hr. unfold PGSIZE. lia.
Qed.

Lemma user_entry_ok mem : page_ok mem -> PTE2PA (pte_entry mem user_perm) = mem /\ user_pte (pte_entry mem user_perm).
Proof.
  intros Hok. pose proof (page_ok_pos mem Hok).
  destruct (pte_entry_decode mem user_perm (page_ok_addr _ Hok) ltac:(done)) as (H1 & H2 & H3).
  split; [done|]. split; [done|]. split; [|lia].
  unfold flag. unfold pte_entry. rewrite <- Z.lor_assoc.
  assert (forall x, Z.testbit (Z.lor x (Z.lor (u64 user_perm) PTE_V)) 4 = true) as Hb.
  { intros x. rewrite Z.lor_spec. by rewrite orb_true_r. }
  apply negb_true_iff, Z.eqb_neq. intros E. apply (f_equal (fun z => Z.testbit z 4)) in E.
  rewrite Z.land_spec, Hb in E. done.
Qed.

(** User ranges stay while tables grow. *)
Lemma user_range_grow s root l s' l' a b :
  vm_inv s root l -> pt_grow root s l s' l' ->
  (forall va, a <= va < b -> pte_of (k_mem s') root va = pte_of (k_mem s) root va) ->
  user_range s root l a b -> user_range s' root l' a b.
Proof.
  intros Hi Hg Hp [Hb Hu Hd Hj]. split; [done|..].
  - intros va Hva. rewrite Hp by done. by apply Hu.
  - intros va Hva. rewrite Hp by done. by apply (data_page_grow s root l s' l' _ Hi Hg), Hd.
  - intros va va' Hva Hva'. rewrite !Hp by done. by apply Hj.
Qed.

Lemma grown_to_nil s l root a : vm_inv s root l -> 0 <= a <= MAXVA -> grown_to s l s l root a a.
Proof. intros Hi Ha. split; [done|apply pt_grow_refl|done|split; intros; lia|intros; lia|intros; lia|by left]. Qed.

(** One page. *)
Lemma grown_to_page s root mem l a s' l' :
  vm_inv s root (mem :: l) -> a mod PGSIZE = 0 -> 0 <= a -> a + PGSIZE <= MAXVA ->
  vm_inv s' root l' -> pt_grow root (clear_page s mem) l s' l' -> kept (k_mem s') root l l' ->
  (forall va, 0 <= va < MAXVA -> pte_of (k_mem s') root va =
     if decide (a <= va < a + PGSIZE) then pte_entry mem user_perm else pte_of (k_mem (clear_page s mem)) root va) ->
  grown_to s (mem :: l) s' l' root a (a + PGSIZE).
Proof.
  intros Hi Ha Ha0 Hmax Hi' Hg Hkept Hm. assert (PGSIZE = 4096) as HP by done.
  destruct (clear_page_spec s root mem l Hi) as (_ & Hpos & Hi1 & Hg1 & Hd1 & Hp1 & Hz1).
  destruct (data_page_grow _ _ _ _ _ _ Hi1 Hg Hd1) as [Hd' Hx].
  destruct (user_entry_ok mem (proj1 Hd1)) as [Hpa Hup].
  assert (forall va, a <= va < a + PGSIZE -> pte_of (k_mem s') root va = pte_entry mem user_perm /\ va / PGSIZE = a / PGSIZE) as Hin.
  { intros va Hva. rewrite Hm, decide_True by lia. split; [done|]. unfold PGSIZE in *. pose proof (Z.div_mod a 4096).
    symmetry. apply (Z.div_unique va 4096 (a / 4096) (va - a)); lia. }
  split; [done|eapply pt_grow_trans; [eapply vm_inv_cpu, Hi|done..]| |split| | |].
  - intros va Hva Hout. rewrite Hm, decide_False by done. apply Hp1.
  - lia.
  - intros va Hva. by destruct (Hin va Hva) as [-> _].
  - intros va Hva. destruct (Hin va Hva) as [-> _]. by rewrite Hpa.
  - intros va va' Hva Hva' _. destruct (Hin va Hva) as [_ ->], (Hin va' Hva') as [_ ->]. done.
  - intros va Hva. destruct (Hin va Hva) as [-> _]. rewrite Hpa. by left.
  - intros va Hva. unfold phys. destruct (Hin va Hva) as [-> _]. rewrite Hpa.
    assert (in_page (mem + va mod PGSIZE) mem) as Hip by (unfold in_page; pose proof (Z.mod_pos_bound va PGSIZE eq_refl); lia).
    rewrite Hx by done. by apply Hz1.
  - intros t [->|Ht]%elem_of_cons; [|destruct (Hkept t Ht); [by left|right; by left]].
    right. right. exists a. destruct (Hin a ltac:(lia)) as [-> _]. split; [lia|done].
Qed.

(** Two ranges in a row. *)
Lemma grown_to_trans s l s1 l1 s2 l2 root a c b :
  0 <= a <= c -> c <= b <= MAXVA -> vm_inv s root l ->
  grown_to s l s1 l1 root a c -> grown_to s1 l1 s2 l2 root c b -> grown_to s l s2 l2 root a b.
Proof.
  intros Ha Hc Hi [Hi1 Hg1 Hp1 Hr1 Hpg1 Hz1 Hk1] [Hi2 Hg2 Hp2 Hr2 Hpg2 Hz2 Hk2].
  pose proof (pe_free _ _ _ _ _ Hg1) as Hsub.
  assert (forall va, a <= va < c -> pte_of (k_mem s2) root va = pte_of (k_mem s1) root va) as Hfirst by (intros; apply Hp2; lia).
  pose proof (user_range_grow _ _ _ _ _ _ _ Hi1 Hg2 Hfirst Hr1) as Hr1'.
  assert (forall va va', a <= va < c -> c <= va' < b ->
    PTE2PA (pte_of (k_mem s1) root va) <> PTE2PA (pte_of (k_mem s2) root va')) as Hsep.
  { intros va va' Hva Hva' E. destruct (ur_data _ _ _ _ _ Hr1 va Hva) as (_ & Hnin & _). apply Hnin. rewrite E.
    by apply Hpg2. }
  split; [done|eapply pt_grow_trans; [eapply vm_inv_cpu, Hi|done..]| |split| | |].
  - intros va Hva Hout. rewrite Hp2, Hp1 by (done || lia). done.
  - destruct (ur_bounds _ _ _ _ _ Hr1), (ur_bounds _ _ _ _ _ Hr2). lia.
  - intros va Hva. destruct (decide (va < c)); [apply Hr1'|apply Hr2]; lia.
  - intros va Hva. destruct (decide (va < c)); [apply Hr1'|apply Hr2]; lia.
  - intros va va' Hva Hva'. destruct (decide (va < c)), (decide (va' < c)).
    + apply Hr1'; lia.
    + rewrite (Hfirst va) by lia. intros E. destruct (Hsep va va'); [lia..|done].
    + rewrite (Hfirst va') by lia. intros E. destruct (Hsep va' va); [lia..|done].
    + apply Hr2; lia.
  - intros va Hva. destruct (decide (va < c)); [rewrite Hfirst by lia; apply Hpg1; lia|apply Hsub, Hpg2; lia].
  - intros va Hva. destruct (decide (va < c)); [|apply Hz2; lia]. unfold phys. rewrite Hfirst by lia.
    destruct (data_page_grow _ _ _ _ _ _ Hi1 Hg2 (ur_data _ _ _ _ _ Hr1 va ltac:(lia))) as [_ Hx].
    rewrite Hx by (unfold in_page; pose proof (Z.mod_pos_bound va PGSIZE eq_refl); lia). apply (Hz1 va). lia.
  - intros t Ht. destruct (Hk1 t Ht) as [Hin|[Htab|(va & Hva & <-)]].
    + destruct (Hk2 t Hin) as [?|[?|(va & Hva & ?)]]; [by left|right; by left|]. right. right. exists va. split; [lia|done].
    + right. left. by eapply is_table_grow.
    + right. right. exists va. rewrite Hfirst by done. split; [lia|done].
Qed.

(** The rounds [uvmalloc] makes. *)
Definition grow_pages (oldsz newsz : Z) : nat := Z.to_nat ((newsz - PGROUNDUP oldsz + PGSIZE - 1) / PGSIZE).

Lemma grow_pages_spec oldsz newsz :
  0 <= oldsz <= newsz -> newsz <= MAXVA ->
  let a := PGROUNDUP oldsz in
  a mod PGSIZE = 0 /\ 0 <= a /\ a + Z.of_nat (grow_pages oldsz newsz) * PGSIZE = Z.max a (PGROUNDUP newsz) /\
  (newsz <= a + Z.of_nat (grow_pages oldsz newsz) * PGSIZE < newsz + PGSIZE \/
   grow_pages oldsz newsz = 0%nat /\ newsz <= a) /\
  Z.max a (PGROUNDUP newsz) <= MAXVA.
Proof.
  intros Ho Hn a. change MAXVA with (2 ^ 38) in *.
  assert (0 <= oldsz <= 2 ^ 64 - PGSIZE /\ 0 <= newsz <= 2 ^ 64 - PGSIZE) as [H1 H2] by (unfold PGSIZE; lia).
  destruct (PGROUNDUP_spec oldsz H1) as [Ha Hal]. destruct (PGROUNDUP_spec newsz H2) as [Hb Hbl].
  fold a in Ha, Hal. unfold grow_pages. fold a. set (b := PGROUNDUP newsz) in *. unfold PGSIZE in *.
  pose proof (Z.div_mod a 4096). pose proof (Z.div_mod b 4096).
  assert ((newsz - a + 4096 - 1) / 4096 = Z.max 0 ((b - a) / 4096)) as ->.
  { symmetry. apply (Z.div_unique _ _ _ (newsz - a + 4095 - 4096 * Z.max 0 (b / 4096 - a / 4096))).
    - left. lia.
    - assert ((b - a) / 4096 = b / 4096 - a / 4096) as ->; [|lia].
      symmetry. apply (Z.div_unique _ _ _ 0); lia. }
  assert ((b - a) / 4096 = b / 4096 - a / 4096) as ->.
  { symmetry. apply (Z.div_unique _ _ _ 0); lia. }
  lia.
Qed.
End grow.
