(* ===== verification/UvmShrink.v ===== *)
(** * Shrinking an address space: [uvmunmap] with [do_free], and [uvmdealloc]

    Every round gives the page back to the allocator and clears the entry;
    [shrunk_to] collects what holds of the range that was unmapped.  The tables
    stay. *)

From S2P Require Import Prelude Layout Memory State Spinlock Sched Kmem PageTable Uvm UvmProps UvmGrow.

Section shrink.
  Context `{HL : LinkOk}.
  Implicit Types (s : kstate) (l : list Z).

(** The range [a, b), and only it, has been unmapped; [l'] is the free list. *)
Record shrunk_to s l s' l' (root a b : Z) : Prop := {
  sh_inv : vm_inv s' root l';
  sh_frame : vm_frame s s';
  sh_tbl : forall id, tid_ok id -> tbl (k_mem s') root id = tbl (k_mem s) root id;
  sh_pte : forall va, 0 <= va < MAXVA -> pte_of (k_mem s') root va =
    if decide (a <= va < b) then 0 else pte_of (k_mem s) root va;
  sh_free : forall t, t ∈ l' <-> t ∈ l \/ exists va, a <= va < b /\ PTE2PA (pte_of (k_mem s) root va) = t;
  sh_data : forall x, (forall va, a <= va < b -> ~ in_page x (PTE2PA (pte_of (k_mem s) root va))) ->
    (forall id t, tid_ok id -> tbl (k_mem s) root id = Some t -> ~ in_page x t) ->
    load8 (k_mem s') x = load8 (k_mem s) x
}.

Lemma shrunk_refl s l root a b : vm_inv s root l -> b <= a -> shrunk_to s l s l root a b.
Proof.
  intros Hi Hab. split; try done.
  - apply vm_frame_refl.
  - intros va _. by rewrite decide_False by lia.
  - intros t. split; [by left|]. intros [?|(va & ? & _)]; [done|lia].
Qed.

(** A page given back. *)
Lemma free_page_spec s root l pa :
  vm_inv s root l -> data_page s root l pa ->
  kfree pa s = Ok tt (kfree_upd s pa) /\ vm_inv (kfree_upd s pa) root (pa :: l) /\
  (forall id, tid_ok id -> tbl (k_mem (kfree_upd s pa)) root id = tbl (k_mem s) root id) /\
  (forall va, pte_of (k_mem (kfree_upd s pa)) root va = pte_of (k_mem s) root va).
Proof.
  intros [Hk Hwf Hd] (Hok & Hnin & Hnt). destruct (kfree_spec s pa l Hk Hok Hnin) as [E Hk'].
  destruct (tables_ext (k_mem s) (k_mem (kfree_upd s pa)) root Hwf) as (Ht & Hp & Hwf').
  { intros id t Hid Et x Hx. apply kfree_upd_mem. assert (~ in_page x pa) as Hnx; [|unfold in_page in Hnx; lia].
    intros Hx'. apply (Hnt id Hid). rewrite Et. f_equal.
    apply (page_sep t pa x); [by eapply pt_pages|done..]. }
  split; [done|]. split; [|done]. split; [done|done|]. intros id t Hid. rewrite Ht by done.
  intros Et [->|Hin]%elem_of_cons; [by apply (Hnt id)|by apply (Hd id t Hid Et)].
Qed.

(** What [uvmunmap] asks of an entry: valid and a leaf. *)
Definition leaf_pte (v : Z) : Prop := flag v PTE_V = true /\ (PTE_FLAGS v =? PTE_V) = false.

Lemma user_leaf v : user_pte v -> leaf_pte v.
Proof.
  intros (Hv & Hu & _). split; [done|]. apply Z.eqb_neq. intros E.
  assert (Z.testbit (PTE_FLAGS v) 4 = true) as Hb.
  { unfold PTE_FLAGS. rewrite Z.land_spec. unfold PTE_U in Hu. rewrite flag_testbit in Hu by lia. by rewrite Hu. }
  rewrite E in Hb. done.
Qed.

Lemma leaf_pte_flags v v' : PTE_FLAGS v = PTE_FLAGS v' -> leaf_pte v -> leaf_pte v'.
Proof.
  unfold leaf_pte. intros E. rewrite E. intros [Hv ->]. split; [|done]. unfold PTE_V in *. rewrite flag_testbit in * by lia.
  apply (f_equal (fun z => Z.testbit z 0)) in E. unfold PTE_FLAGS in E. rewrite !Z.land_spec, !andb_true_r in E. by rewrite <- E.
Qed.

(** The range [a, b) is mapped, to data pages of its own; the guard page of
    [exec], which is not a user page, may be among them. *)
Record mapped_range s root l (a b : Z) : Prop := {
  mr_bounds : 0 <= a /\ b <= MAXVA;
  mr_pte : forall va, a <= va < b -> leaf_pte (pte_of (k_mem s) root va);
  mr_data : forall va, a <= va < b -> data_page s root l (PTE2PA (pte_of (k_mem s) root va));
  mr_inj : forall va va', a <= va < b -> a <= va' < b ->
    PTE2PA (pte_of (k_mem s) root va) = PTE2PA (pte_of (k_mem s) root va') -> va / PGSIZE = va' / PGSIZE
}.

Lemma user_mapped s root l a b : user_range s root l a b -> mapped_range s root l a b.
Proof. intros [Hb Hu Hd Hj]. split; [done| |done|done]. intros va Hva. by apply user_leaf, Hu. Qed.

Lemma mapped_range_sub s root l a b a' b' :
  a <= a' -> b' <= b -> mapped_range s root l a b -> mapped_range s root l a' b'.
Proof. intros ? ? [? ? ? ?]. split; intros; [lia|eauto with lia..]. Qed.

(** One round. *)
Definition unmapped s (root a : Z) (p : Z) : kstate :=
  let s1 := kfree_upd s (PTE2PA (pte_of (k_mem s) root a)) in set_k_mem (store64 (k_mem s1) p 0) s1.

Lemma in_page_range a va : a mod PGSIZE = 0 -> va / PGSIZE = a / PGSIZE <-> a <= va < a + PGSIZE.
Proof. intros Ha. unfold PGSIZE in *. pose proof (Z.div_mod a 4096). pose proof (Z.div_mod va 4096).
  pose proof (Z.mod_pos_bound va 4096 eq_refl). split; [lia|]. intros H'. symmetry. apply (Z.div_unique va 4096 _ (va - a)); lia. Qed.

Lemma unmap_page s root l a :
  a mod PGSIZE = 0 -> vm_inv s root l -> mapped_range s root l a (a + PGSIZE) ->
  exists p, p <> 0 /\ walk root a false s = Ok p s /\ rd64 p s = Ok (pte_of (k_mem s) root a) s /\
    kfree (PTE2PA (pte_of (k_mem s) root a)) s = Ok tt (kfree_upd s (PTE2PA (pte_of (k_mem s) root a))) /\
    shrunk_to s l (unmapped s root a p) (PTE2PA (pte_of (k_mem s) root a) :: l) root a (a + PGSIZE).
Proof.
  intros Ha Hi [Hb Hu Hd Hj]. assert (PGSIZE = 4096) as HP by done.
  assert (0 <= a < MAXVA) as Hva by lia. specialize (Hu a ltac:(lia)). specialize (Hd a ltac:(lia)).
  set (v := pte_of (k_mem s) root a) in *. set (pa := PTE2PA v) in *.
  pose proof (walk_read s root a Hva) as E. unfold v, pte_of in *.
  destruct (pt_addr (k_mem s) root a) as [p|] eqn:Hp; [|destruct Hu as [Hu _]; discriminate Hu].
  assert (exists t, tbl (k_mem s) root (leaf_id a) = Some t /\ t + 8 * PX 0 a = p) as (tb & Et & Ep).
  { unfold pt_addr in Hp. destruct (tbl (k_mem s) root (leaf_id a)) as [t|]; [|discriminate Hp].
    exists t. split; [reflexivity|]. injection Hp as <-. reflexivity. }
  exists p. pose proof (pt_addr_pos s root l a p Hi Hp). split; [lia|]. split; [exact E|]. split; [done|].
  destruct (free_page_spec s root l pa Hi Hd) as (Ek & Hi1 & Ht1 & Hp1). split; [done|].
  assert (pt_addr (k_mem (kfree_upd s pa)) root a = Some p) as Hp'.
  { unfold pt_addr in *. by rewrite Ht1 by apply leaf_id_ok. }
  destruct (leaf_write (kfree_upd s pa) root (pa :: l) a p 0 Hi1 Hva Hp' ltac:(lia)) as (Hi2 & Hg2 & Ht2 & Hpt2).
  unfold unmapped. unfold pte_of. rewrite Hp. fold pa. set (s2 := set_k_mem _ _) in *.
  assert (forall va, a <= va < a + PGSIZE -> pte_of (k_mem s) root va = pte_of (k_mem s) root a) as Hin.
  { intros va Hva'. apply pte_of_page. by apply in_page_range. }
  split; [exact Hi2| | | | |].
  - eapply vm_frame_trans; [eapply vm_inv_cpu, Hi|apply kfree_upd_frame|apply Hg2].
  - intros id Hid. by rewrite Ht2, Ht1.
  - intros va Hva'. rewrite Hpt2, Hp1 by done. pose proof (in_page_range a va Ha).
    destruct (decide (va / PGSIZE = a / PGSIZE)) as [H1|H1], (decide (a <= va < a + PGSIZE)) as [H2|H2];
      [reflexivity|destruct H2; by apply H0|destruct H1; by apply H0|reflexivity].
  - intros t. rewrite elem_of_cons. split.
    + intros [->|?]; [right|by left]. exists a. split; [lia|]. unfold pte_of. by rewrite Hp.
    + intros [?|(va & Hva' & <-)]; [by right|left]. rewrite Hin by done. unfold pte_of. by rewrite Hp.
  - intros x Hx Hxt. specialize (Hxt (leaf_id a) tb (leaf_id_ok a) Et). pose proof (PX_range 0 a ltac:(lia)).
    unfold s2. cbn [k_mem set_k_mem]. rewrite load8_store64_other by (unfold in_page in Hxt; lia).
    apply kfree_upd_mem. specialize (Hx a ltac:(lia)). unfold pte_of in Hx. rewrite Hp in Hx. fold pa in Hx.
    unfold in_page in Hx. lia.
Qed.

Lemma shrunk_trans s l s1 l1 s2 l2 root a c b :
  0 <= a <= c -> c <= b <= MAXVA -> vm_inv s root l ->
  shrunk_to s l s1 l1 root a c -> shrunk_to s1 l1 s2 l2 root c b -> shrunk_to s l s2 l2 root a b.
Proof.
  intros Ha Hc Hi [I1 F1 T1 P1 E1 D1] [I2 F2 T2 P2 E2 D2].
  assert (forall va, c <= va < b -> pte_of (k_mem s1) root va = pte_of (k_mem s) root va) as Hsame.
  { intros va Hva. rewrite P1, decide_False by lia. reflexivity. }
  split; [exact I2|eapply vm_frame_trans; [eapply vm_inv_cpu, Hi|done..]| | | |].
  - intros id Hid. by rewrite T2, T1.
  - intros va Hva. rewrite P2, P1 by done.
    destruct (decide (c <= va < b)), (decide (a <= va < c)), (decide (a <= va < b)); (reflexivity || lia).
  - intros t. rewrite E2, E1. split.
    + intros [[?|(va & ? & ?)]|(va & Hva & Ev)]; [by left|right; exists va; split; [lia|done]|].
      right. exists va. rewrite Hsame in Ev by done. split; [lia|done].
    + intros [?|(va & Hva & Ev)]; [by left; left|]. destruct (decide (va < c)).
      * left; right. exists va. split; [lia|done].
      * right. exists va. rewrite Hsame by lia. split; [lia|done].
  - intros x Hx Hxt. rewrite D2, D1; [reflexivity|intros; apply Hx; lia|done|..].
    + intros va Hva. rewrite Hsame by done. apply Hx. lia.
    + intros id t Hid. rewrite T1 by done. by apply Hxt.
Qed.

Lemma mapped_range_rest s l s1 pa root a b :
  a mod PGSIZE = 0 -> a + PGSIZE <= b -> mapped_range s root l a b -> pa = PTE2PA (pte_of (k_mem s) root a) ->
  shrunk_to s l s1 (pa :: l) root a (a + PGSIZE) -> mapped_range s1 root (pa :: l) (a + PGSIZE) b.
Proof.
  intros Ha Hab [Hb Hu Hd Hj] -> [_ _ Ht Hp _ _]. assert (PGSIZE = 4096) as HP by done.
  assert (forall va, a + PGSIZE <= va < b -> pte_of (k_mem s1) root va = pte_of (k_mem s) root va) as Hsame.
  { intros va Hva. rewrite Hp, decide_False by lia. reflexivity. }
  split; [lia| | |].
  - intros va Hva. rewrite Hsame by done. apply Hu. lia.
  - intros va Hva. rewrite Hsame by done. destruct (Hd va ltac:(lia)) as (Hok & Hnin & Hnt). split; [done|]. split.
    + intros [E|Hin]%elem_of_cons; [|done]. apply Hj in E; [|lia..]. apply (in_page_range a va Ha) in E. lia.
    + intros id Hid. rewrite Ht by done. by apply Hnt.
  - intros va va' Hva Hva'. rewrite !Hsame by done. apply Hj; lia.
Qed.

Lemma uvmunmap_loop_spec n fuel s l root a :
  (n < fuel)%nat -> a mod PGSIZE = 0 -> vm_inv s root l -> mapped_range s root l a (a + Z.of_nat n * PGSIZE) ->
  exists s' l', uvmunmap_loop fuel root a (a + Z.of_nat n * PGSIZE) true s = Ok tt s' /\
    shrunk_to s l s' l' root a (a + Z.of_nat n * PGSIZE) /\ length l' = (length l + n)%nat.
Proof.
  revert fuel s l a. induction n as [|n IH]; intros [|fuel] s l a Hf Ha Hi Hr; try lia; cbn [uvmunmap_loop].
  - destruct (Z.ltb_spec a (a + Z.of_nat 0 * PGSIZE)); [lia|]. exists s, l. split; [done|]. split; [|lia].
    apply shrunk_refl; [done|lia].
  - assert (PGSIZE = 4096) as HP by done. pose proof (mr_bounds _ _ _ _ _ Hr) as Hb. change MAXVA with (2 ^ 38) in *.
    destruct (Z.ltb_spec a (a + Z.of_nat (S n) * PGSIZE)); [cbn [negb]|lia].
    destruct (unmap_page s root l a Ha Hi) as (p & Hp & E1 & E2 & E3 & Hs1).
    { eapply mapped_range_sub; [| |exact Hr]; lia. }
    destruct (mr_pte _ _ _ _ _ Hr a ltac:(lia)) as [Hv Hfl].
    rewrite (bind_ok _ _ _ _ _ E1). destruct (Z.eqb_spec p 0); [done|]. rewrite (bind_ok _ _ _ _ _ E2), Hv, Hfl. cbn [negb].
    rewrite (bind_ok _ _ _ _ _ E3). rewrite (bind_ok _ _ _ tt (unmapped s root a p)) by done.
    set (pa := PTE2PA _) in *. rewrite u64_id by lia.
    replace (a + Z.of_nat (S n) * PGSIZE) with (a + PGSIZE + Z.of_nat n * PGSIZE) in * by lia.
    destruct (IH fuel (unmapped s root a p) (pa :: l) (a + PGSIZE)) as (s2 & l2 & E4 & Hs2 & Hl2).
    + lia.
    + rewrite <- Zplus_mod_idemp_l, Ha. reflexivity.
    + exact (sh_inv _ _ _ _ _ _ _ Hs1).
    + by apply (mapped_range_rest s l _ pa root a); [|lia|..].
    + exists s2, l2. split; [exact E4|]. split; [|rewrite Hl2; cbn [length]; lia].
      eapply (shrunk_trans s l _ _ s2 l2 root a (a + PGSIZE)); [lia|change MAXVA with (2 ^ 38); lia|done..].
Qed.

(** [uvmunmap] of a whole user range. *)
Lemma uvmunmap_spec n s l root a :
  a mod PGSIZE = 0 -> vm_inv s root l -> mapped_range s root l a (a + Z.of_nat n * PGSIZE) ->
  exists s' l', uvmunmap root a (Z.of_nat n) true s = Ok tt s' /\
    shrunk_to s l s' l' root a (a + Z.of_nat n * PGSIZE) /\ length l' = (length l + n)%nat.
Proof.
  intros Ha Hi Hr. unfold uvmunmap. rewrite Ha. cbn [Z.eqb negb]. rewrite Nat2Z.id.
  pose proof (mr_bounds _ _ _ _ _ Hr) as Hb. change MAXVA with (2 ^ 38) in Hb.
  assert (PGSIZE = 4096) as HP by done. rewrite u64_id by lia. apply uvmunmap_loop_spec; (done || lia).
Qed.

(** [uvmdealloc] of a mapped range, with the sizes as the code rounds them. *)
Lemma uvmdealloc_spec s l root oldsz newsz :
  vm_inv s root l -> 0 <= newsz < oldsz -> oldsz <= MAXVA ->
  mapped_range s root l (PGROUNDUP newsz) (PGROUNDUP oldsz) ->
  exists s' l', uvmdealloc root oldsz newsz s = Ok newsz s' /\
    shrunk_to s l s' l' root (PGROUNDUP newsz) (PGROUNDUP oldsz) /\
    length l' = (length l + grow_pages newsz oldsz)%nat.
Proof.
  intros Hi Hsz Hmax Hr. assert (PGSIZE = 4096) as HP by done.
  destruct (grow_pages_spec newsz oldsz ltac:(lia) Hmax) as (Ha & Ha0 & E & Hn & Hm).
  unfold uvmdealloc. destruct (Z.leb_spec oldsz newsz); [lia|].
  destruct (Z.ltb_spec (PGROUNDUP newsz) (PGROUNDUP oldsz)).
  - rewrite Z.max_r in E, Hm by lia. set (n := grow_pages newsz oldsz) in *.
    assert (i32 ((PGROUNDUP oldsz - PGROUNDUP newsz) / PGSIZE) = Z.of_nat n) as ->.
    { rewrite <- E. replace (PGROUNDUP newsz + Z.of_nat n * PGSIZE - PGROUNDUP newsz) with (Z.of_nat n * PGSIZE) by lia.
      rewrite Z.div_mul by lia. apply i32_id. change MAXVA with (2 ^ 38) in *. lia. }
    rewrite <- E in Hr |- *. destruct (uvmunmap_spec n s l root (PGROUNDUP newsz) Ha Hi Hr) as (s' & l' & Eu & Hs & Hl).
    exists s', l'. rewrite (bind_ok _ _ _ _ _ Eu). done.
  - exists s, l. split; [done|]. split; [by apply shrunk_refl|].
    rewrite Z.max_l in E by lia. assert (grow_pages newsz oldsz = 0%nat) as -> by lia. lia.
Qed.
End shrink.
