(* ===== verification/UvmAlloc.v ===== *)
(** * [uvmalloc] on every path

    The loop either maps the whole range or runs out of pages; then it gives
    back what it mapped, through [uvmdealloc], and returns 0. *)

From S2P Require Import Prelude Layout Memory State Spinlock Sched Kmem PageTable Uvm UvmProps UvmGrow UvmShrink.

Section alloc.
  Context `{HL : LinkOk}.
  Implicit Types (s : kstate) (l : list Z).

(** The valid entry of an address, if any: what the hardware translates. *)
Definition leaf (m : memory) (root va : Z) : option Z :=
  if flag (pte_of m root va) PTE_V then Some (pte_of m root va) else None.

(** Only tables may have been added: every address is translated as before, the
    free list holds no page that was not free, and every page that was free is
    free again or has become a table. *)
Record given_back s l s' l' (root : Z) : Prop := {
  gb_inv : vm_inv s' root l';
  gb_grow : pt_grow root s l s' l';
  gb_leaf : forall va, 0 <= va < MAXVA -> leaf (k_mem s') root va = leaf (k_mem s) root va;
  gb_kept : kept (k_mem s') root l l'
}.

(** Unmapping what was mapped. *)
Lemma shrink_back s l s1 l1 s2 l2 root a b :
  vm_inv s root l -> vm_inv s1 root l1 -> pt_grow root s l s1 l1 ->
  (forall va, 0 <= va < MAXVA -> ~ a <= va < b -> pte_of (k_mem s1) root va = pte_of (k_mem s) root va) ->
  (forall va, a <= va < b -> PTE2PA (pte_of (k_mem s1) root va) ∈ l /\ flag (pte_of (k_mem s) root va) PTE_V = false) ->
  kept_or (k_mem s1) root l l1 (fun t => exists va, a <= va < b /\ PTE2PA (pte_of (k_mem s1) root va) = t) ->
  shrunk_to s1 l1 s2 l2 root a b -> given_back s l s2 l2 root.
Proof.
  intros Hi Hi1 Hg1 Hp1 Hr Hk1 [Hi2 F2 T2 P2 E2 D2]. pose proof Hg1 as [F1 Hsub M1 T1 D1]. split; [exact Hi2|split| |].
  - eapply vm_frame_trans; [eapply vm_inv_cpu, Hi|done..].
  - intros t [Ht|(va & Hva & <-)]%E2; [by apply Hsub|by apply Hr].
  - intros id t Hid Ht. rewrite T2 by done. by apply M1.
  - intros id t Hid. rewrite T2 by done. by apply T1.
  - intros x Hx Hxt. rewrite D2; [by apply D1|..].
    + intros va Hva. apply Hx. by apply Hr.
    + intros id t Hid Et. destruct (T1 id t Hid Et); [by eapply Hxt|by apply Hx].
  - intros va Hva. unfold leaf. rewrite P2 by done. destruct (decide (a <= va < b)) as [H|H].
    + destruct (Hr va H) as [_ ->]. reflexivity.
    + by rewrite Hp1.
  - intros t Ht. destruct (Hk1 t Ht) as [?|[(id & Hid & Et)|Hva]]; [left|right|left]; try (apply E2; by auto).
    exists id. split; [done|]. by rewrite T2.
Qed.

(** The error path from a partly mapped range. *)
Lemma dealloc_back s l s1 l1 s2 l2 root o a :
  0 <= o <= a -> o mod PGSIZE = 0 -> a mod PGSIZE = 0 -> vm_inv s root l ->
  (forall va, o <= va < a -> flag (pte_of (k_mem s) root va) PTE_V = false) ->
  grown_to s l s1 l1 root o a -> vm_inv s2 root l2 -> pt_grow root s1 l1 s2 l2 -> same_map (k_mem s1) (k_mem s2) root ->
  kept (k_mem s2) root l1 l2 ->
  exists r s' l', uvmdealloc root a o s2 = Ok r s' /\ given_back s l s' l' root.
Proof.
  intros Ho Hom Ham Hi Hu [Hi1 Hg1 Hp1 Hr1 Hpg1 _ Hk1] Hi2 Hg2 Hsame Hk2.
  pose proof (ur_bounds _ _ _ _ _ Hr1) as Hb. change MAXVA with (2 ^ 38) in Hb.
  assert (pt_grow root s l s2 l2) as Hg by (eapply pt_grow_trans; [eapply vm_inv_cpu, Hi|done..]).
  assert (kept_or (k_mem s2) root l l2 (fun t => exists va, o <= va < a /\ PTE2PA (pte_of (k_mem s2) root va) = t)) as Hk.
  { intros t Ht. destruct (Hk1 t Ht) as [Hin|[Htab|(va & Hva & <-)]].
    - destruct (Hk2 t Hin); [by left|right; by left].
    - right. left. exact (is_table_grow _ _ _ _ _ _ Hg2 Htab).
    - right. right. exists va. split; [done|]. by rewrite Hsame by (change MAXVA with (2 ^ 38); lia). }
  assert (PGROUNDUP o = o /\ PGROUNDUP a = a) as [Eo Ea] by (split; apply PGROUNDUP_aligned; try done; unfold PGSIZE; lia).
  destruct (Z.eq_dec a o) as [->|Hne].
  - exists o, s2, l2. unfold uvmdealloc. destruct (Z.leb_spec o o); [|lia]. split; [done|]. split; [done|done| |].
    2: { intros t Ht. destruct (Hk t Ht) as [?|[?|(va & ? & _)]]; [by left|by right|lia]. }
    intros va Hva. assert (pte_of (k_mem s2) root va = pte_of (k_mem s) root va) as Ee.
    { rewrite Hsame by done. apply Hp1; [done|lia]. }
    unfold leaf. by rewrite Ee.
  - assert (user_range s2 root l2 (PGROUNDUP o) (PGROUNDUP a)) as Hr2.
    { rewrite Eo, Ea. eapply user_range_grow; [exact Hi1|exact Hg2| |exact Hr1].
      intros va Hva. apply Hsame. change MAXVA with (2 ^ 38). lia. }
    destruct (uvmdealloc_spec s2 l2 root a o Hi2 ltac:(lia) ltac:(change MAXVA with (2 ^ 38); lia) (user_mapped _ _ _ _ _ Hr2)) as (s' & l' & E & Hs & _).
    rewrite Eo, Ea in *. exists o, s', l'. split; [exact E|].
    eapply (shrink_back s l s2 l2 s' l' root o a); try done.
    + intros va Hva Hout. rewrite Hsame, Hp1 by done. done.
    + intros va Hva. assert (0 <= va < MAXVA) as Hva' by (change MAXVA with (2 ^ 38); lia).
      rewrite Hsame by done. split; [by apply Hpg1|by apply Hu].
Qed.

Lemma uvmalloc_loop_S fuel pt a oldsz newsz :
  uvmalloc_loop (S fuel) pt a oldsz newsz =
    (if negb (a <? newsz) then mret newsz else
     mem ← kalloc;
     if mem =? 0 then uvmdealloc pt a oldsz;; mret 0 else
     upd_mem (fun m => memset m mem 0 PGSIZE);;
     r ← mappages pt a PGSIZE mem user_perm;
     if negb (r =? 0) then kfree mem;; uvmdealloc pt a oldsz;; mret 0 else
     uvmalloc_loop fuel pt (u64 (a + PGSIZE)) oldsz newsz).
Proof. done. Qed.

(** Giving back the page that could not be mapped. *)
Lemma unmappable_page s root mem l s1 s2 :
  vm_inv s root (mem :: l) -> vm_inv s1 root l -> pt_grow root s (mem :: l) s1 l -> data_page s1 root l mem ->
  vm_inv s2 root [] -> pt_grow root s1 l s2 [] -> kept (k_mem s2) root l [] ->
  kfree mem s2 = Ok tt (kfree_upd s2 mem) /\ vm_inv (kfree_upd s2 mem) root [mem] /\
  pt_grow root s (mem :: l) (kfree_upd s2 mem) [mem] /\ kept (k_mem (kfree_upd s2 mem)) root (mem :: l) [mem] /\
  (forall va, pte_of (k_mem (kfree_upd s2 mem)) root va = pte_of (k_mem s2) root va).
Proof.
  intros Hi Hi1 Hg1 Hd1 Hi2 Hg2 Hk2. destruct (data_page_grow _ _ _ _ _ _ Hi1 Hg2 Hd1) as [Hd2 _].
  destruct (free_page_spec s2 root [] mem Hi2 Hd2) as (E & Hi3 & Ht3 & Hp3).
  split; [done|]. split; [done|]. split; [|split; [|done]].
  2: { intros t [->|Ht]%elem_of_cons; [left; by left|]. destruct (Hk2 t Ht) as [[]%not_elem_of_nil|(id & Hid & Et)].
       right. exists id. split; [done|]. by rewrite Ht3. }
  pose proof (pt_grow_trans root s (mem :: l) _ l s2 [] (vm_inv_cpu _ _ _ Hi) Hg1 Hg2) as [F U M T D]. split.
  - eapply vm_frame_trans; [eapply vm_inv_cpu, Hi|exact F|apply kfree_upd_frame].
  - intros x Hx. apply list_elem_of_singleton in Hx as ->. by left.
  - intros id t Hid Et. rewrite Ht3 by done. by apply M.
  - intros id t Hid. rewrite Ht3 by done. by apply T.
  - intros x Hx Hxt. rewrite kfree_upd_mem; [by apply D|]. specialize (Hx mem ltac:(by left)). unfold in_page in Hx. lia.
Qed.

Lemma uvmalloc_loop_cases n fuel s0 l0 s l root o a newsz :
  (n < fuel)%nat -> vm_inv s0 root l0 -> grown_to s0 l0 s l root o a ->
  0 <= o <= a -> o mod PGSIZE = 0 -> a mod PGSIZE = 0 ->
  newsz <= a + Z.of_nat n * PGSIZE < newsz + PGSIZE \/ n = 0%nat /\ newsz <= a -> a + Z.of_nat n * PGSIZE <= MAXVA ->
  (forall va, o <= va < a + Z.of_nat n * PGSIZE -> flag (pte_of (k_mem s0) root va) PTE_V = false) ->
  exists r s' l', uvmalloc_loop fuel root a o newsz s = Ok r s' /\
    (r = newsz /\ grown_to s0 l0 s' l' root o (a + Z.of_nat n * PGSIZE) /\ (length l <= length l' + 3 * n)%nat \/
     r = 0 /\ given_back s0 l0 s' l' root /\ (length l < 3 * n)%nat).
Proof.
  revert fuel s l a. induction n as [|n IH]; intros [|fuel] s l a Hf H0 Hg Ho Hom Ham Hn Hmax Hu; try lia;
    rewrite uvmalloc_loop_S.
  - destruct (Z.ltb_spec a newsz); [lia|]. exists newsz, s, l. split; [done|]. left.
    rewrite Z.add_0_r. split; [done|]. split; [done|lia].
  - assert (PGSIZE = 4096) as HP by done. destruct (Z.ltb_spec a newsz); [cbn [negb]|lia].
    pose proof (gt_inv _ _ _ _ _ _ _ Hg) as Hi.
    assert (forall va, o <= va < a -> flag (pte_of (k_mem s0) root va) PTE_V = false) as Huo by (intros; apply Hu; lia).
    destruct l as [|mem l].
    + rewrite (bind_ok _ _ _ _ _ (kalloc_empty s (vi_kmem _ _ _ Hi))). cbn [Z.eqb].
      destruct (kalloc_touch_inv s root Hi) as [Hi1 Hg1].
      destruct (dealloc_back s0 l0 s [] (touch s) [] root o a Ho Hom Ham H0 Huo Hg Hi1 Hg1 ltac:(done) (kept_refl _ _ _)) as (r & s' & l' & E & Hb).
      rewrite (bind_ok _ _ _ _ _ E). exists 0, s', l'. split; [done|]. right. split; [done|]. split; [done|]. cbn [length]. lia.
    + destruct (clear_page_spec s root mem l Hi) as (E & Hpos & Hic & Hgc & Hdc & Hpc & _). rewrite (bind_ok _ _ _ _ _ E).
      destruct (Z.eqb_spec mem 0); [lia|]. rewrite (bind_ok _ _ _ tt (clear_page s mem)) by done.
      destruct (map_fresh_cases (clear_page s mem) root l mem a user_perm Hic Hdc ltac:(done) Ham ltac:(lia) ltac:(lia))
        as (r & s1 & l1 & E1 & Hi1 & Hg1 & Hk1 & Hr).
      { intros va Hva. rewrite Hpc, (gt_pte _ _ _ _ _ _ _ Hg) by lia. apply Hu. lia. }
      rewrite (bind_ok _ _ _ _ _ E1). destruct Hr as [(-> & Hl1 & Hm)|(-> & -> & Hlt & Hsame)]; cbn [Z.eqb negb].
      * rewrite u64_id by (change MAXVA with (2 ^ 38) in *; lia).
        pose proof (grown_to_page s root mem l a s1 l1 Hi Ham ltac:(lia) ltac:(lia) Hi1 Hg1 Hk1 Hm) as Hpage.
        pose proof (grown_to_trans s0 l0 s (mem :: l) s1 l1 root o a (a + PGSIZE) Ho ltac:(lia) H0 Hg Hpage) as Hg'.
        destruct (IH fuel s1 l1 (a + PGSIZE)) as (r & s' & l' & E2 & Hr); try done; try lia.
        -- rewrite <- Zplus_mod_idemp_l, Ham. done.
        -- intros va Hva. apply Hu. lia.
        -- exists r, s', l'. split; [done|]. cbn [length].
           replace (a + Z.of_nat (S n) * PGSIZE) with (a + PGSIZE + Z.of_nat n * PGSIZE) by lia.
           destruct Hr as [(-> & Hg2 & Hl2)|(-> & Hb & Hl2)]; [left|right]; (split; [done|]); (split; [done|lia]).
      * destruct (unmappable_page s root mem l (clear_page s mem) s1 Hi Hic Hgc Hdc Hi1 Hg1 Hk1) as (E2 & Hi2 & Hg2 & Hk2 & Hp2). rewrite (bind_ok _ _ _ _ _ E2).
        destruct (dealloc_back s0 l0 s (mem :: l) (kfree_upd s1 mem) [mem] root o a Ho Hom Ham H0 Huo Hg Hi2 Hg2)
          as (r & s' & l' & E3 & Hb).
        { intros va Hva. rewrite Hp2, Hsame by done. apply Hpc. }
        { exact Hk2. }
        rewrite (bind_ok _ _ _ _ _ E3). exists 0, s', l'. split; [done|]. right. split; [done|]. split; [done|]. cbn [length]. lia.
Qed.

(** [uvmalloc] on every path. *)
Lemma uvmalloc_cases s l root oldsz newsz :
  let a := PGROUNDUP oldsz in
  vm_inv s root l -> 0 <= oldsz <= newsz -> newsz <= MAXVA ->
  (forall va, a <= va < PGROUNDUP newsz -> flag (pte_of (k_mem s) root va) PTE_V = false) ->
  exists r s' l', uvmalloc root oldsz newsz s = Ok r s' /\
    (r = newsz /\ grown_to s l s' l' root a (Z.max a (PGROUNDUP newsz)) /\
       (length l <= length l' + 3 * grow_pages oldsz newsz)%nat \/
     r = 0 /\ given_back s l s' l' root /\ (length l < 3 * grow_pages oldsz newsz)%nat).
Proof.
  intros a Hi Hsz Hmax Hu.
  destruct (grow_pages_spec oldsz newsz Hsz Hmax) as (Ha & Ha0 & E & Hn & Hm). fold a in Ha, Ha0, E, Hn, Hm.
  rewrite <- E in *. unfold uvmalloc. destruct (Z.ltb_spec newsz oldsz); [lia|].
  apply uvmalloc_loop_cases; try done; try (fold (grow_pages oldsz newsz); lia).
  - apply grown_to_nil; [done|]. unfold PGSIZE in *. lia.
  - intros va Hva. apply Hu. lia.
Qed.

(** With enough free pages. *)
Lemma uvmalloc_spec s l root oldsz newsz :
  let a := PGROUNDUP oldsz in
  vm_inv s root l -> 0 <= oldsz <= newsz -> newsz <= MAXVA -> (3 * grow_pages oldsz newsz <= length l)%nat ->
  (forall va, a <= va < PGROUNDUP newsz -> flag (pte_of (k_mem s) root va) PTE_V = false) ->
  exists s' l', uvmalloc root oldsz newsz s = Ok newsz s' /\
    grown_to s l s' l' root a (Z.max a (PGROUNDUP newsz)) /\
    (length l <= length l' + 3 * grow_pages oldsz newsz)%nat.
Proof.
  intros a Hi Hsz Hmax Hlen Hu.
  destruct (uvmalloc_cases s l root oldsz newsz Hi Hsz Hmax Hu) as (r & s' & l' & E & [(-> & H)|(-> & _ & H)]); [|lia].
  by exists s', l'.
Qed.
End alloc.
