(* ===== verification/UvmCopy.v ===== *)
(** * Copying an address space: [uvmcopy]

    Two page tables live side by side; [fork] fills the new one page by page
    with copies of the pages the old one maps.  [copied_to] collects what holds
    of a range that has been copied. *)

From S2P Require Import Prelude Layout Memory State Spinlock Kmem PageTable Uvm UvmProps UvmGrow UvmShrink UvmAlloc.

Section copy.
  Context `{HL : LinkOk}.
  Implicit Types (s : kstate) (l : list Z).

(** Two page tables that share no table page. *)
Record two_spaces s (old new : Z) l : Prop := {
  ts_old : vm_inv s old l;
  ts_new : vm_inv s new l;
  ts_disj : forall id id' t, tid_ok id -> tid_ok id' ->
    tbl (k_mem s) old id = Some t -> tbl (k_mem s) new id' <> Some t
}.

Lemma two_spaces_sym s old new l : two_spaces s old new l -> two_spaces s new old l.
Proof. intros [Ho Hn Hd]. split; [done..|]. intros id id' t Hid Hid' E E'. by apply (Hd id' id t). Qed.

(** A page neither of them uses as a table, and not free. *)
Definition both_data s (old new : Z) l (pa : Z) : Prop := data_page s old l pa /\ data_page s new l pa.

(** While the new page table grows, the old one keeps its tables and entries. *)
Lemma other_grow s old new l s' l' :
  two_spaces s old new l -> vm_inv s' new l' -> pt_grow new s l s' l' ->
  two_spaces s' old new l' /\
  (forall va, pte_of (k_mem s') old va = pte_of (k_mem s) old va) /\
  (forall id, tid_ok id -> tbl (k_mem s') old id = tbl (k_mem s) old id).
Proof.
  intros [Ho Hn Hd] Hn' Hg. pose proof Ho as [Hk Hwf Hdo].
  pose proof (pe_free _ _ _ _ _ Hg) as Hsub.
  destruct (tables_ext (k_mem s) (k_mem s') old Hwf) as (Ht & Hp & Hwf').
  { intros id t Hid Et x Hin. pose proof (pt_pages _ _ Hwf id t Hid Et) as Hok. apply (pe_data _ _ _ _ _ Hg).
    - intros t' Hin' Hx. apply (Hdo id t Hid Et).
      rewrite (page_sep t t' x); [done|done| |done|done].
      exact (proj1 (Forall_forall _ _) (ki_pages _ _ Hk) t' Hin').
    - intros id' t' Hid' Et' Hx. apply (Hd id id' t Hid Hid' Et).
      rewrite (page_sep t t' x); [done|done| |done|done]. by apply (pt_pages _ _ (vi_wf _ _ _ Hn) id'). }
  split; [|done]. split.
  - split; [apply Hn'|done|]. intros id t Hid. rewrite Ht by done. intros Et Hin. apply (Hdo id t Hid Et). set_solver.
  - done.
  - intros id id' t Hid Hid'. rewrite Ht by done. intros Et Et'.
    destruct (pe_tbl _ _ _ _ _ Hg id' t Hid' Et') as [E|E]; [by apply (Hd id id' t)|by apply (Hdo id t)].
Qed.

Lemma both_data_grow s old new l s' l' pa :
  two_spaces s old new l -> vm_inv s' new l' -> pt_grow new s l s' l' -> both_data s old new l pa ->
  both_data s' old new l' pa /\ forall x, in_page x pa -> load8 (k_mem s') x = load8 (k_mem s) x.
Proof.
  intros Hts Hn' Hg [[Hok [Hnin Hot]] Hdn]. destruct (other_grow _ _ _ _ _ _ Hts Hn' Hg) as (_ & _ & Ht).
  destruct (data_page_grow _ _ _ _ _ _ (ts_new _ _ _ _ Hts) Hg Hdn) as [Hdn' Hx].
  split; [|done]. split; [|done]. split; [done|]. split; [apply Hdn'|].
  intros id Hid. rewrite Ht by done. by apply Hot.
Qed.

(** The range [a, b) has been copied. *)
Record copied_to s l s' l' (old new a b : Z) : Prop := {
  ct_two : two_spaces s' old new l';
  ct_grow : pt_grow new s l s' l';
  ct_flags : forall va, a <= va < b ->
    PTE_FLAGS (pte_of (k_mem s') new va) = PTE_FLAGS (pte_of (k_mem s) old va);
  ct_page : forall va, a <= va < b ->
    PTE2PA (pte_of (k_mem s') new va) ∈ l /\ both_data s' old new l' (PTE2PA (pte_of (k_mem s') new va));
  ct_inj : forall va va', a <= va < b -> a <= va' < b ->
    PTE2PA (pte_of (k_mem s') new va) = PTE2PA (pte_of (k_mem s') new va') -> va / PGSIZE = va' / PGSIZE;
  ct_bytes : forall va, a <= va < b -> load8 (k_mem s') (phys (k_mem s') new va) = load8 (k_mem s) (phys (k_mem s) old va);
  ct_rest : forall va, 0 <= va < MAXVA -> ~ a <= va < b -> pte_of (k_mem s') new va = pte_of (k_mem s) new va;
  ct_kept : kept_or (k_mem s') new l l' (fun t => exists va, a <= va < b /\ PTE2PA (pte_of (k_mem s') new va) = t)
}.

Lemma phys_in_page pa va : in_page (pa + va mod PGSIZE) pa.
Proof. unfold in_page. pose proof (Z.mod_pos_bound va PGSIZE eq_refl). lia. Qed.

Lemma copied_to_nil s l old new a : two_spaces s old new l -> copied_to s l s l old new a a.
Proof. intros Hts. split; [done|apply pt_grow_refl|intros; lia..|done|by left]. Qed.

(** What has not been copied yet is as it was. *)
Lemma copied_to_rest s l s1 l1 old new a c va :
  two_spaces s old new l -> copied_to s l s1 l1 old new a c -> c <= va < MAXVA -> 0 <= va ->
  flag (pte_of (k_mem s) old va) PTE_V = true /\ both_data s old new l (PTE2PA (pte_of (k_mem s) old va)) /\
    flag (pte_of (k_mem s) new va) PTE_V = false ->
  flag (pte_of (k_mem s1) old va) PTE_V = true /\ both_data s1 old new l1 (PTE2PA (pte_of (k_mem s1) old va)) /\
    flag (pte_of (k_mem s1) new va) PTE_V = false.
Proof.
  intros Hts [T1 G1 _ _ _ _ R1 _] Hva Hva0 (Hv & Hd & Hu). destruct (other_grow _ _ _ _ _ _ Hts (ts_new _ _ _ _ T1) G1) as (_ & -> & _).
  split; [done|]. split; [by apply (both_data_grow _ _ _ _ _ _ _ Hts (ts_new _ _ _ _ T1) G1 Hd)|]. by rewrite R1 by lia.
Qed.

(** Two ranges in a row. *)
Lemma copied_to_trans s l s1 l1 s2 l2 old new a c b :
  0 <= a <= c -> c <= b <= MAXVA -> two_spaces s old new l ->
  (forall va, c <= va < b -> both_data s old new l (PTE2PA (pte_of (k_mem s) old va))) ->
  copied_to s l s1 l1 old new a c -> copied_to s1 l1 s2 l2 old new c b -> copied_to s l s2 l2 old new a b.
Proof.
  intros Ha Hc Hts Hsrc [T1 G1 F1 P1 I1 B1 R1 K1] [T2 G2 F2 P2 I2 B2 R2 K2].
  destruct (other_grow _ _ _ _ _ _ Hts (ts_new _ _ _ _ T1) G1) as (_ & Ho1 & _).
  pose proof (pe_free _ _ _ _ _ G1) as Hsub.
  assert (forall va, a <= va < c -> pte_of (k_mem s2) new va = pte_of (k_mem s1) new va) as Hfirst.
  { intros va Hva. apply R2; lia. }
  assert (forall va, a <= va < c -> both_data s2 old new l2 (PTE2PA (pte_of (k_mem s1) new va)) /\
    forall x, in_page x (PTE2PA (pte_of (k_mem s1) new va)) -> load8 (k_mem s2) x = load8 (k_mem s1) x) as Hkeep.
  { intros va Hva. apply (both_data_grow s1 old new l1); try done; [apply T2|by apply P1]. }
  assert (forall va va', a <= va < c -> c <= va' < b ->
    PTE2PA (pte_of (k_mem s1) new va) <> PTE2PA (pte_of (k_mem s2) new va')) as Hsep.
  { intros va va' Hva Hva' E. destruct (P1 va Hva) as [_ [[_ [Hnin _]] _]]. apply Hnin. rewrite E. by apply P2. }
  split; [done|eapply pt_grow_trans; [eapply vm_inv_cpu, Hts|done..]| | | | | |].
  - intros va Hva. destruct (decide (va < c)); [rewrite Hfirst by lia; apply F1; lia|rewrite F2 by lia; by rewrite Ho1].
  - intros va Hva. destruct (decide (va < c)).
    + rewrite Hfirst by lia. split; [apply P1; lia|apply Hkeep; lia].
    + split; [apply Hsub, P2; lia|apply P2; lia].
  - intros va va' Hva Hva'. destruct (decide (va < c)), (decide (va' < c)).
    + rewrite !Hfirst by lia. apply I1; lia.
    + rewrite (Hfirst va) by lia. intros E. destruct (Hsep va va'); [lia..|done].
    + rewrite (Hfirst va') by lia. intros E. destruct (Hsep va' va); [lia..|done].
    + apply I2; lia.
  - intros va Hva. destruct (decide (va < c)).
    + unfold phys at 1. rewrite Hfirst by lia. destruct (Hkeep va ltac:(lia)) as [_ Hx].
      rewrite Hx by apply phys_in_page. apply (B1 va). lia.
    + rewrite B2 by lia. unfold phys. rewrite Ho1.
      destruct (both_data_grow s old new l s1 l1 _ Hts (ts_new _ _ _ _ T1) G1 (Hsrc va ltac:(lia))) as [_ Hx].
      apply Hx, phys_in_page.
  - intros va Hva Hout. rewrite R2, R1 by (done || lia). done.
  - intros t Ht. destruct (K1 t Ht) as [Hin|[Htab|(va & Hva & <-)]].
    + destruct (K2 t Hin) as [?|[?|(va & Hva & ?)]]; [by left|right; by left|]. right. right. exists va. split; [lia|done].
    + right. left. exact (is_table_grow _ _ _ _ _ _ G2 Htab).
    + right. right. exists va. rewrite Hfirst by done. split; [lia|done].
Qed.

(** [uvmcopy] of one page: taken, filled from the old space's page and mapped with its flags. *)
Definition copy_page s (mem pa : Z) : kstate :=
  set_k_mem (memmove (k_mem (kalloc_upd s mem)) mem pa PGSIZE) (kalloc_upd s mem).

Lemma flags_valid v : flag v PTE_V = true -> Z.lor (PTE_FLAGS v) PTE_V = PTE_FLAGS v /\ 0 <= PTE_FLAGS v < 2 ^ 10.
Proof.
  intros Hv. unfold PTE_FLAGS. change 0x3FF with (Z.ones 10). rewrite Z.land_ones by lia. split; [|apply Z.mod_pos_bound; lia].
  apply Z.bits_inj'. intros n Hn. rewrite Z.lor_spec. unfold PTE_V in *. rewrite Z.shiftl_1_l, Z.pow2_bits_eqb by lia.
  destruct (Z.eqb_spec 0 n) as [<-|]; [|by rewrite orb_false_r].
  rewrite orb_true_r, Z.mod_pow2_bits_low by lia. by rewrite flag_testbit in Hv by lia.
Qed.

(** The page taken and filled: both spaces keep their entries. *)
Lemma copy_page_spec s old new mem l pa :
  two_spaces s old new (mem :: l) -> data_page s old (mem :: l) pa ->
  let s1 := copy_page s mem pa in
  two_spaces s1 old new l /\ pt_grow new s (mem :: l) s1 l /\ both_data s1 old new l mem /\
  (forall va, pte_of (k_mem s1) old va = pte_of (k_mem s) old va) /\
  (forall va, pte_of (k_mem s1) new va = pte_of (k_mem s) new va) /\
  (forall x, in_page x mem -> load8 (k_mem s1) x = load8 (k_mem s) (x - mem + pa)).
Proof.
  intros [Ho Hn Hd] Hod s1. destruct (kalloc_spec s mem l (vi_kmem _ _ _ Hn)) as (_ & Hk1 & Hok & _).
  pose proof (page_ok_pos _ Hok) as Hpos. assert (pa <> mem) as Hne by (destruct Hod as (_ & Hx & _); intros ->; apply Hx; by left).
  assert (forall x, load8 (k_mem s1) x = if decide (in_page x mem) then load8 (k_mem s) (x - mem + pa) else load8 (k_mem s) x) as Hm1.
  { intros x. unfold s1, copy_page. cbn [k_mem set_k_mem]. rewrite load8_memmove by (apply Hk1 || done).
    unfold in_page. case_decide as Hx; rewrite kalloc_upd_mem, decide_False; try done; [|tauto].
    intros [_ Hx']. apply Hne. apply (page_sep pa mem (x - mem + pa)); [apply Hod|done|unfold in_page; lia|done]. }
  assert (forall x, ~ in_page x mem -> load8 (k_mem s1) x = load8 (k_mem s) x) as Hout by (intros x Hx; by rewrite Hm1, decide_False).
  assert (mem_wf (k_mem s1)) as Hwf by apply mem_wf_memmove, Hk1.
  destruct (take_page_spec s new mem l (k_mem s1) Hn Hwf Hout) as (Hn1 & Hg1 & Hdn1 & Hpn1 & Htn1).
  destruct (take_page_spec s old mem l (k_mem s1) Ho Hwf Hout) as (Ho1 & _ & Hdo1 & Hpo1 & Hto1).
  change (set_k_mem (k_mem s1) (kalloc_upd s mem)) with s1 in *.
  split; [|split; [done|split; [done|split; [done|split; [done|]]]]].
  - split; [done|done|]. intros id id' t Hid Hid'. rewrite Hto1, Htn1 by done. by apply Hd.
  - intros x Hx. by rewrite Hm1, decide_True.
Qed.

(** And mapped: [copied_to] one page further. *)
Lemma copied_to_page s old new mem l a s' l' :
  two_spaces s old new (mem :: l) -> a mod PGSIZE = 0 -> 0 <= a -> a + PGSIZE <= MAXVA ->
  let v := pte_of (k_mem s) old a in
  let s1 := copy_page s mem (PTE2PA v) in
  flag v PTE_V = true -> data_page s old (mem :: l) (PTE2PA v) ->
  vm_inv s' new l' -> pt_grow new s1 l s' l' -> kept (k_mem s') new l l' ->
  (forall va, 0 <= va < MAXVA -> pte_of (k_mem s') new va =
     if decide (a <= va < a + PGSIZE) then pte_entry mem (PTE_FLAGS v) else pte_of (k_mem s1) new va) ->
  copied_to s (mem :: l) s' l' old new a (a + PGSIZE).
Proof.
  intros Hts Ha Ha0 Hmax v s1 Hv Hod Hn' Hg Hkept Hm.
  destruct (copy_page_spec s old new mem l (PTE2PA v) Hts Hod) as (Hts1 & Hg1 & Hd1 & _ & Hpn1 & Hb1). fold s1 in Hts1, Hg1, Hd1, Hpn1, Hb1.
  destruct (flags_valid v Hv) as [Hfl Hfr].
  destruct (other_grow _ _ _ _ _ _ Hts1 Hn' Hg) as (Hts' & _).
  destruct (both_data_grow _ _ _ _ _ _ mem Hts1 Hn' Hg Hd1) as [Hdm Hxm].
  destruct (pte_entry_decode mem (PTE_FLAGS v) (page_ok_addr _ (proj1 (proj1 Hd1))) Hfr) as (Hdv & Hdp & Hdf).
  assert (forall va, a <= va < a + PGSIZE -> pte_of (k_mem s') new va = pte_entry mem (PTE_FLAGS v) /\
    pte_of (k_mem s) old va = v /\ va / PGSIZE = a / PGSIZE) as Hin.
  { intros va Hva. pose proof (proj2 (in_page_range a va Ha) Hva) as Hpg.
    rewrite Hm, decide_True by (done || lia). split; [done|]. split; [|done]. unfold v. by apply pte_of_page. }
  split; [done|eapply pt_grow_trans; [eapply vm_inv_cpu, Hts|done..]| | | | | |].
  - intros va Hva. destruct (Hin va Hva) as (-> & -> & _). by rewrite Hdf.
  - intros va Hva. destruct (Hin va Hva) as (-> & _). rewrite Hdp. split; [by left|done].
  - intros va va' Hva Hva' _. destruct (Hin va Hva) as (_ & _ & ->), (Hin va' Hva') as (_ & _ & ->). done.
  - intros va Hva. unfold phys. destruct (Hin va Hva) as (-> & -> & _). rewrite Hdp, Hxm by apply phys_in_page.
    rewrite Hb1 by apply phys_in_page. f_equal. lia.
  - intros va Hva Hx. rewrite Hm, decide_False by done. by rewrite Hpn1.
  - intros t [->|Ht]%elem_of_cons; [|destruct (Hkept t Ht); [by left|right; by left]].
    right. right. exists a. destruct (Hin a ltac:(unfold PGSIZE; lia)) as [-> _]. split; [unfold PGSIZE; lia|done].
Qed.

(** Reading the entry of a valid page, as the loops of [vm.c] do. *)
Lemma walk_valid s root l va :
  vm_inv s root l -> 0 <= va < MAXVA -> flag (pte_of (k_mem s) root va) PTE_V = true ->
  exists p, p <> 0 /\ pt_addr (k_mem s) root va = Some p /\ walk root va false s = Ok p s /\
    rd64 p s = Ok (pte_of (k_mem s) root va) s.
Proof.
  intros Hi Hva Hv. pose proof (walk_read s root va Hva) as E. unfold pte_of in *.
  destruct (pt_addr (k_mem s) root va) as [p|] eqn:Hp; [|done].
  exists p. pose proof (pt_addr_pos s root l va p Hi Hp). split; [lia|]. split; [done|]. split; [exact E|]. done.
Qed.

(** The loop stopped at [i] with [s']: everything below [i] was copied, and only
    tables were added since. *)
Definition stopped_at s l s' l' (old new a i : Z) : Prop :=
  exists s1 l1, copied_to s l s1 l1 old new a i /\ vm_inv s' new l' /\ pt_grow new s1 l1 s' l' /\
    same_map (k_mem s1) (k_mem s') new /\ kept (k_mem s') new l1 l'.

(** One page, copied or refused. *)
Lemma copy_page_cases s old new mem l a :
  two_spaces s old new (mem :: l) -> a mod PGSIZE = 0 -> 0 <= a -> a + PGSIZE <= MAXVA ->
  let v := pte_of (k_mem s) old a in
  flag v PTE_V = true -> both_data s old new (mem :: l) (PTE2PA v) ->
  (forall va, a <= va < a + PGSIZE -> flag (pte_of (k_mem s) new va) PTE_V = false) ->
  exists r s1 l1, mappages new a PGSIZE mem (PTE_FLAGS v) (copy_page s mem (PTE2PA v)) = Ok r s1 /\
    (r = 0 /\ copied_to s (mem :: l) s1 l1 old new a (a + PGSIZE) /\ (length l <= length l1 + 2)%nat \/
     r = -1 /\ (length l < 2)%nat /\ kfree mem s1 = Ok tt (kfree_upd s1 mem) /\
       stopped_at s (mem :: l) (kfree_upd s1 mem) [mem] old new a a).
Proof.
  intros Hts Ha Ha0 Hmax v Hv Hod Hu.
  destruct (copy_page_spec s old new mem l (PTE2PA v) Hts (proj1 Hod)) as (Hts1 & Hg1 & Hd1 & _ & Hpn1 & _).
  destruct (flags_valid v Hv) as [_ Hfr].
  destruct (map_fresh_cases (copy_page s mem (PTE2PA v)) new l mem a (PTE_FLAGS v) (ts_new _ _ _ _ Hts1) (proj2 Hd1) Hfr Ha Ha0 Hmax)
    as (r & s1 & l1 & E & Hi1 & Hg & Hk & Hr).
  { intros va Hva. rewrite Hpn1. by apply Hu. }
  exists r, s1, l1. split; [done|]. destruct Hr as [(-> & Hl & Hm)|(-> & -> & Hl & Hsame)]; [left|right].
  - split; [done|]. split; [|done]. by eapply copied_to_page; [| | | | |apply Hod|..].
  - destruct (unmappable_page s new mem l _ s1 (ts_new _ _ _ _ Hts) (ts_new _ _ _ _ Hts1) Hg1 (proj2 Hd1) Hi1 Hg Hk) as (Ek & Hi2 & Hg2 & Hk2 & Hp2).
    do 3 (split; [done|]). exists s, (mem :: l). split; [by apply copied_to_nil|]. split; [done|]. split; [done|].
    split; [|exact Hk2]. intros va Hva. rewrite Hp2, Hsame by done. apply Hpn1.
Qed.

Lemma stopped_at_trans s l s1 l1 s' l' old new a c i :
  0 <= a <= c -> c <= i <= MAXVA -> two_spaces s old new l ->
  (forall va, c <= va < i -> both_data s old new l (PTE2PA (pte_of (k_mem s) old va))) ->
  copied_to s l s1 l1 old new a c -> stopped_at s1 l1 s' l' old new c i -> stopped_at s l s' l' old new a i.
Proof.
  intros Ha Hc Hts Hsrc H1 (s2 & l2 & H2 & Hi & Hg & Hs). exists s2, l2. split; [|done].
  by apply (copied_to_trans s l s1 l1 s2 l2 old new a c).
Qed.

Lemma uvmcopy_loop_cases n fuel s l old new a sz :
  (n < fuel)%nat -> two_spaces s old new l ->
  a mod PGSIZE = 0 -> 0 <= a -> sz <= a + Z.of_nat n * PGSIZE < sz + PGSIZE \/ n = 0%nat /\ sz <= a ->
  a + Z.of_nat n * PGSIZE <= MAXVA ->
  (forall va, a <= va < a + Z.of_nat n * PGSIZE ->
     flag (pte_of (k_mem s) old va) PTE_V = true /\ both_data s old new l (PTE2PA (pte_of (k_mem s) old va)) /\
     flag (pte_of (k_mem s) new va) PTE_V = false) ->
  exists r s' l', uvmcopy_loop fuel old new sz a s = Ok r s' /\
    (r = None /\ copied_to s l s' l' old new a (a + Z.of_nat n * PGSIZE) /\ (length l <= length l' + 3 * n)%nat \/
     exists k, r = Some (a + Z.of_nat k * PGSIZE) /\ (k < n)%nat /\ (length l < 3 * n)%nat /\
       stopped_at s l s' l' old new a (a + Z.of_nat k * PGSIZE)).
Proof.
  revert fuel s l a. induction n as [|n IH]; intros [|fuel] s l a Hf Hts Ha Ha0 Hn Hmax Hsrc; try lia;
    cbn [uvmcopy_loop].
  - destruct (Z.ltb_spec a sz); [lia|]. exists None, s, l. split; [done|]. left. rewrite Z.add_0_r.
    split; [done|]. split; [by apply copied_to_nil|lia].
  - assert (PGSIZE = 4096) as HP by done. destruct (Z.ltb_spec a sz); [cbn [negb]|lia].
    destruct (Hsrc a ltac:(lia)) as (Hv & Hd & _).
    destruct (walk_valid s old l a (ts_old _ _ _ _ Hts) ltac:(lia) Hv) as (p & Hp & _ & E1 & E2).
    rewrite (bind_ok _ _ _ _ _ E1). destruct (Z.eqb_spec p 0); [done|]. rewrite (bind_ok _ _ _ _ _ E2). rewrite Hv. cbn [negb].
    destruct l as [|mem l].
    + rewrite (bind_ok _ _ _ _ _ (kalloc_empty s (vi_kmem _ _ _ (ts_new _ _ _ _ Hts)))). cbn [Z.eqb].
      destruct (kalloc_touch_inv s new (ts_new _ _ _ _ Hts)) as [Hi1 Hg1].
      exists (Some a), (touch s), []. split; [done|]. right. exists 0%nat. rewrite Z.add_0_r. split; [done|].
      split; [lia|]. split; [cbn; lia|]. exists s, []. split; [by apply copied_to_nil|]. do 3 (split; [done|]). apply kept_refl.
    + destruct (kalloc_spec s mem l (vi_kmem _ _ _ (ts_new _ _ _ _ Hts))) as (E3 & _ & Hok & _).
      pose proof (page_ok_pos _ Hok). rewrite (bind_ok _ _ _ _ _ E3). destruct (Z.eqb_spec mem 0); [lia|].
      rewrite (bind_ok _ _ _ tt (copy_page s mem (PTE2PA (pte_of (k_mem s) old a)))) by done.
      destruct (copy_page_cases s old new mem l a Hts Ha Ha0 ltac:(lia) Hv Hd) as (r & s1 & l1 & E4 & Hr).
      { intros va Hva. apply Hsrc. lia. }
      rewrite (bind_ok _ _ _ _ _ E4). destruct Hr as [(-> & Hc1 & Hl1)|(-> & Hl1 & E5 & Hst)]; cbn [Z.eqb negb].
      * rewrite u64_id by (change MAXVA with (2 ^ 38) in *; lia).
        assert (forall va, a + PGSIZE <= va < a + Z.of_nat (S n) * PGSIZE ->
          both_data s old new (mem :: l) (PTE2PA (pte_of (k_mem s) old va))) as Hrest by (intros; apply Hsrc; lia).
        destruct (IH fuel s1 l1 (a + PGSIZE)) as (r & s2 & l2 & E5 & Hr); try done; try lia.
        -- apply Hc1.
        -- rewrite <- Zplus_mod_idemp_l, Ha. done.
        -- intros va Hva. apply (copied_to_rest s (mem :: l) s1 l1 old new a (a + PGSIZE) va Hts Hc1 ltac:(lia) ltac:(lia)), Hsrc. lia.
        -- exists r, s2, l2. split; [done|]. cbn [length]. destruct Hr as [(-> & Hc2 & Hl2)|(k & -> & Hk & Hl2 & Hst)]; [left|right].
           ++ split; [done|]. split; [|lia].
              replace (a + Z.of_nat (S n) * PGSIZE) with (a + PGSIZE + Z.of_nat n * PGSIZE) in * by lia.
              by apply (copied_to_trans s (mem :: l) s1 l1 s2 l2 old new a (a + PGSIZE)); [lia|lia|..].
           ++ exists (S k). replace (a + Z.of_nat (S k) * PGSIZE) with (a + PGSIZE + Z.of_nat k * PGSIZE) by lia.
              split; [done|]. split; [lia|]. split; [lia|].
              apply (stopped_at_trans s (mem :: l) s1 l1 s2 l2 old new a (a + PGSIZE)); [lia|lia|done| |done|done].
              intros va Hva. apply Hrest. lia.
      * rewrite (bind_ok _ _ _ _ _ E5). exists (Some a), (kfree_upd s1 mem), [mem]. split; [done|]. right. exists 0%nat.
        rewrite Z.add_0_r. split; [done|]. split; [lia|]. split; [cbn [length]; lia|done].
Qed.

(** Giving back a partial copy. *)
Lemma copy_back s l s' l' old new k :
  two_spaces s old new l ->
  (forall va, 0 <= va < Z.of_nat k * PGSIZE -> leaf_pte (pte_of (k_mem s) old va) /\ flag (pte_of (k_mem s) new va) PTE_V = false) ->
  Z.of_nat k * PGSIZE <= MAXVA -> stopped_at s l s' l' old new 0 (Z.of_nat k * PGSIZE) ->
  exists s2 l2, uvmunmap new 0 (Z.of_nat k) true s' = Ok tt s2 /\ given_back s l s2 l2 new.
Proof.
  intros Hts Hsrc Hmax (s1 & l1 & [T1 G1 F1 P1 I1 B1 R1 K1] & Hi & Hg & Hsame & Hk).
  pose proof Hts as [_ Hn _]. assert (PGSIZE = 4096) as HP by done.
  assert (forall va, 0 <= va < 0 + Z.of_nat k * PGSIZE -> 0 <= va < Z.of_nat k * PGSIZE /\ 0 <= va < MAXVA) as Hin by lia.
  destruct (uvmunmap_spec k s' l' new 0 eq_refl Hi) as (s2 & l2 & E & Hs & _).
  - split; [lia|..].
    + intros va [Hva Hva']%Hin. rewrite Hsame by done. destruct (Hsrc va Hva) as [Hl _].
      eapply leaf_pte_flags; [symmetry; by apply F1|done].
    + intros va [Hva Hva']%Hin. rewrite Hsame by done. apply (data_page_grow s1 new l1 s' l' _ (ts_new _ _ _ _ T1) Hg). by apply P1.
    + intros va va' [Hva Hva']%Hin [Hvb Hvb']%Hin. rewrite !Hsame by done. by apply I1.
  - exists s2, l2. split; [done|]. rewrite Z.add_0_l in Hs, Hin.
    eapply (shrink_back s l s' l' s2 l2 new); [done|done|eapply pt_grow_trans; [eapply vm_inv_cpu, Hn|done..]| | | |exact Hs].
    + intros va Hva Hout. rewrite Hsame by done. by apply R1.
    + intros va Hva. rewrite Hsame by (apply Hin; done). split; [by apply P1|by apply Hsrc].
    + intros t Ht. destruct (K1 t Ht) as [Hx|[Hx|(va & Hva & <-)]].
      * destruct (Hk t Hx); [by left|right; by left].
      * right. left. exact (is_table_grow _ _ _ _ _ _ Hg Hx).
      * right. right. exists va. split; [done|]. by rewrite Hsame by (apply Hin; done).
Qed.
End copy.
