(* ===== verification/Console.v ===== *)
(** * The console, [console.c], and the UART interrupt of [memlayout.c]

    Input is edited in a ring of [INPUT_MAX] bytes with three 32-bit counters:
    [r] read by processes, [w] committed lines, [e] being edited. *)

From S2P Require Import Prelude Layout Memory CString State Spinlock Sched Uart Print Kmem PageTable Uvm.

Definition INPUT_MAX : Z := 128.
Definition CONSOLE : nat := 1.
(** [C('D')], [C('U')], [C('H')] *)
Definition CTRL_D : Z := 4.
Definition CTRL_U : Z := 21.
Definition CTRL_H : Z := 8.
Definition DEL : Z := 127.
Definition CR : Z := 13.

Definition upd_cons (f : cons_state -> cons_state) (s : kstate) : kstate := set_k_cons (f (k_cons s)) s.
Definition get_cons : K cons_state := gets k_cons.
(** [cons.buf[i % INPUT_MAX]] *)
Definition cons_at (c : cons_state) (i : Z) : Z := cons_buf c !!! Z.to_nat (i mod INPUT_MAX).

Section console.
  Context {L : LinkMap} {Ot : Others}.

Fixpoint consolewrite_loop (fuel : nat) (user_src : bool) (src n i : Z) : K Z :=
  match fuel with
  | O => block
  | S fuel =>
      if negb (i <? n) then mret i else
      rb ← either_copyin user_src (u64 (src + i)) 1;
      let '(r, bs) := (rb : Z * list Z) in
      if r =? -1 then mret i else
      uartputc (nth 0 bs 0);;
      consolewrite_loop fuel user_src src n (i + 1)
  end.
Definition consolewrite (user_src : bool) (src n : Z) : K Z :=
  consolewrite_loop (S (Z.to_nat n)) user_src src n 0.

(** [while(cons.r == cons.w)]: true when the process was killed. *)
Fixpoint cons_wait (fuel : nat) : K bool :=
  match fuel with
  | O => block
  | S fuel =>
      c ← get_cons;
      if negb (cons_r c =? cons_w c) then mret false else
      p ← myproc;
      k ← proc_field p_killed p;
      if negb (k =? 0) then mret true else
      sleep ChConsR LCons;;
      cons_wait fuel
  end.

Fixpoint consoleread_loop (fuel : nat) (user_dst : bool) (dst n target : Z) : K (option Z) :=
  match fuel with
  | O => block
  | S fuel =>
      if negb (0 <? n) then mret (Some n) else
      killed ← cons_wait (S patience);
      if (killed : bool) then mret None else
      cs ← get_cons;
      let c := cons_at cs (cons_r cs) in
      modify (upd_cons (fun x => set_cons_r (u32 (cons_r x + 1)) x));;
      if c =? CTRL_D then
        (if n <? target then modify (upd_cons (fun x => set_cons_r (u32 (cons_r x - 1)) x)) else mret tt);;
        mret (Some n)
      else
      r ← either_copyout user_dst dst [c] 1;
      if r =? -1 then mret (Some n) else
      if c =? NL then mret (Some (n - 1))
      else consoleread_loop fuel user_dst (u64 (dst + 1)) (n - 1) target
  end.
Definition consoleread (user_dst : bool) (dst n : Z) : K Z :=
  acquire LCons;;
  r ← consoleread_loop (S (Z.to_nat n)) user_dst dst n n;
  match r with
  | None => release LCons;; mret (-1)
  | Some n' => release LCons;; mret (n - n')
  end.

Definition consoleinit : K unit :=
  initlock LCons "console";;
  modify (fun s => set_k_devsw (upd_at CONSOLE (set_sw_read DevConsole) (k_devsw s)) s);;
  modify (fun s => set_k_devsw (upd_at CONSOLE (set_sw_write DevConsole) (k_devsw s)) s).

(** Erase back to the start of the line. *)
Fixpoint kill_line (fuel : nat) : K unit :=
  match fuel with
  | O => block
  | S fuel =>
      c ← get_cons;
      if negb (cons_e c =? cons_w c) && negb (cons_at c (u32 (cons_e c - 1)) =? NL) then
        modify (upd_cons (fun x => set_cons_e (u32 (cons_e x - 1)) x));;
        consputc BACKSPACE;;
        kill_line fuel
      else mret tt
  end.

Definition consoleintr (c : Z) : K unit :=
  acquire LCons;;
  cs ← get_cons;
  (if c =? CTRL_U then kill_line (S (Z.to_nat (u32 (cons_e cs - cons_w cs))))
   else if (c =? CTRL_H) || (c =? DEL) then
     if negb (cons_e cs =? cons_w cs) then
       modify (upd_cons (fun x => set_cons_e (u32 (cons_e x - 1)) x));;
       consputc BACKSPACE
     else mret tt
   else if negb (c =? 0) && (u32 (cons_e cs - cons_r cs) <? INPUT_MAX) then
     let c := if c =? CR then NL else c in
     consputc c;;
     modify (upd_cons (fun x =>
       set_cons_buf (<[Z.to_nat (cons_e x mod INPUT_MAX) := u8 c]> (cons_buf x)) x));;
     modify (upd_cons (fun x => set_cons_e (u32 (cons_e x + 1)) x));;
     cs ← get_cons;
     if ((c =? NL) || (c =? CTRL_D)) || (cons_e cs =? u32 (cons_r cs + INPUT_MAX)) then
       modify (upd_cons (fun x => set_cons_w (cons_e x) x));;
       wakeup ChConsR
     else mret tt
   else mret tt);;
  release LCons.

(** [for(;;)] over the received bytes. *)
Fixpoint uartinterrupt_loop (fuel : nat) : K unit :=
  match fuel with
  | O => block
  | S fuel =>
      c ← uartgetc;
      if c =? -1 then mret tt else
      consoleintr c;;
      uartinterrupt_loop fuel
  end.
Definition uartinterrupt : K unit :=
  u ← gets k_uart;
  uartinterrupt_loop (S (length (uart_rx u)));;
  acquire LUart;;
  uartstart;;
  release LUart.
End console.
