(* ===== verification/Ondisk.v ===== *)
(** * The on-disk structures of [fs.h]: little-endian layouts

    A block is a list of [BSIZE] bytes.  The structs the code overlays on
    [b->data] are decoded and encoded at their C offsets: [struct superblock]
    (36 bytes), [struct dinode] (64 bytes) and [struct dirent] (16 bytes). *)

From S2P Require Import Prelude Layout Memory State CString.

(** ** Fields of a block *)

Definition get_le (k : nat) (l : list Z) (off : nat) : Z := le_dec (take k (drop off l)).
Definition put_le (k : nat) (v : Z) (l : list Z) (off : nat) : list Z := set_range l off (le_enc k v).

Abbreviation get16 := (get_le 2).
Abbreviation get32 := (get_le 4).
Abbreviation put16 := (put_le 2).
Abbreviation put32 := (put_le 4).

Definition BPB : Z := BSIZE * 8.
Definition IPB : Z := BSIZE / 64.
Definition NINDIRECT : Z := BSIZE / 4.
Definition MAXFILE : Z := NDIRECT + NINDIRECT.
Definition DIRSIZ : nat := 14.
Definition BMAPBLOCK (b : Z) (sb : superblock) : Z := u32 (b / BPB + sb_bmapstart sb).
Definition BBLOCK (b : Z) (sb : superblock) : Z := u32 (b / BPB + sb_bmapstart sb).
Definition IBLOCK (i : Z) (sb : superblock) : Z := u32 (i / IPB + sb_inodestart sb).
Definition FSMAGIC : Z := 0x10203040.
Definition T_DIR : Z := 1.
Definition T_FILE : Z := 2.
Definition T_DEVICE : Z := 3.

(** [memmove(sb, f->data, sizeof( *sb))]. *)
Definition dec_superblock (l : list Z) : superblock :=
  mkSuperblock (get32 l 0) (get32 l 4) (get32 l 8) (get32 l 12) (get32 l 16)
    (get32 l 20) (get32 l 24) (get32 l 28) (get32 l 32).

(** [struct dinode] at byte [o] of the block. *)
Record dinode := mkDinode {
  di_type : Z;
  di_major : Z;
  di_minor : Z;
  di_nlink : Z;
  di_size : Z;
  di_addrs : list Z
}.
Definition get_addrs (l : list Z) (o : nat) : list Z := (fun i => get32 l (o + 4 * i)) <$> seq 0 13.
Fixpoint put_addrs (a : list Z) (l : list Z) (o : nat) : list Z :=
  match a with
  | [] => l
  | x :: a => put_addrs a (put32 x l o) (o + 4)
  end.
Definition get_dinode (l : list Z) (o : nat) : dinode :=
  mkDinode (i16 (get16 l o)) (i16 (get16 l (o + 2))) (i16 (get16 l (o + 4))) (i16 (get16 l (o + 6)))
    (get32 l (o + 8)) (get_addrs l (o + 12)).
Definition put_dinode (d : dinode) (l : list Z) (o : nat) : list Z :=
  let l := put16 (di_type d) l o in
  let l := put16 (di_major d) l (o + 2) in
  let l := put16 (di_minor d) l (o + 4) in
  let l := put16 (di_nlink d) l (o + 6) in
  let l := put32 (di_size d) l (o + 8) in
  put_addrs (di_addrs d) l (o + 12).

(** [struct dirent]: its 16 bytes. *)
Record dirent := mkDirent { de_inum : Z; de_name : list Z }.
#[export] Instance dirent_inhabited : Inhabited dirent := populate (mkDirent 0 (replicate DIRSIZ 0)).
Definition dec_dirent (l : list Z) : dirent := mkDirent (get16 l 0) (take DIRSIZ (drop 2 l)).
Definition enc_dirent (d : dirent) : list Z := le_enc 2 (de_inum d) ++ de_name d.

(** ** Reading back what was written *)

Section ondisk.
  Implicit Types (l : list Z).

Lemma get_put_same k v l o :
  (o + k <= length l)%nat -> get_le k (put_le k v l o) o = v mod 2 ^ (8 * Z.of_nat k).
Proof.
  intros Hl. unfold get_le, put_le.
  rewrite <- (length_le_enc k v) at 1. rewrite slice_set_range_same by by rewrite length_le_enc.
  apply le_dec_enc.
Qed.

Lemma length_put k v l o : (o + k <= length l)%nat -> length (put_le k v l o) = length l.
Proof. intros. unfold put_le. by rewrite length_set_range by by rewrite length_le_enc. Qed.

Lemma slice_set_range_other {A} (l l' : list A) n k o :
  (n + length l' <= length l)%nat -> (o + k <= n \/ n + length l' <= o)%nat ->
  take k (drop o (set_range l n l')) = take k (drop o l).
Proof.
  intros Hl Ho. apply list_eq. intros i. destruct (decide (i < k)%nat).
  - rewrite !lookup_take_lt, !lookup_drop by done. apply lookup_set_range_out; lia.
  - by rewrite !lookup_take_ge by lia.
Qed.

Lemma get_put_other k k' v l o o' :
  (o + k <= length l)%nat -> (o' + k' <= o \/ o + k <= o')%nat ->
  get_le k' (put_le k v l o) o' = get_le k' l o'.
Proof.
  intros Hl Ho. unfold get_le, put_le. rewrite slice_set_range_other; rewrite ?length_le_enc; done.
Qed.

Lemma length_put_addrs a l o : (o + 4 * length a <= length l)%nat -> length (put_addrs a l o) = length l.
Proof.
  revert l o. induction a as [|x a IH]; intros l o Hl; [done|]. cbn [put_addrs length] in *.
  rewrite IH by (rewrite length_put; lia). by rewrite length_put by lia.
Qed.

Lemma get_put_addrs_other k a l o o' :
  (o + 4 * length a <= length l)%nat -> (o' + k <= o \/ o + 4 * length a <= o')%nat ->
  get_le k (put_addrs a l o) o' = get_le k l o'.
Proof.
  revert l o. induction a as [|x a IH]; intros l o Hl Ho; [done|]. cbn [put_addrs length] in *.
  rewrite IH by (rewrite ?length_put; lia). apply get_put_other; lia.
Qed.

Lemma get_put_addrs a l o i x :
  (o + 4 * length a <= length l)%nat -> a !! i = Some x ->
  get32 (put_addrs a l o) (o + 4 * i) = u32 x.
Proof.
  revert l o i. induction a as [|y a IH]; intros l o i Hl Hi; [done|]. cbn [put_addrs length] in *.
  destruct i as [|i].
  - injection Hi as <-. rewrite get_put_addrs_other by (rewrite ?length_put; lia).
    rewrite Nat.mul_0_r, Nat.add_0_r. by rewrite get_put_same by lia.
  - replace (o + 4 * S i)%nat with (o + 4 + 4 * i)%nat by lia.
    apply IH; [rewrite length_put; lia|done].
Qed.

(** The fields of a dinode fit their C types. *)
Record dinode_wf (d : dinode) : Prop := {
  dw_type : - 2 ^ 15 <= di_type d < 2 ^ 15;
  dw_major : - 2 ^ 15 <= di_major d < 2 ^ 15;
  dw_minor : - 2 ^ 15 <= di_minor d < 2 ^ 15;
  dw_nlink : - 2 ^ 15 <= di_nlink d < 2 ^ 15;
  dw_size : 0 <= di_size d < 2 ^ 32;
  dw_len : length (di_addrs d) = 13%nat;
  dw_addrs : Forall (fun a => 0 <= a < 2 ^ 32) (di_addrs d)
}.

Lemma i16_mod v : - 2 ^ 15 <= v < 2 ^ 15 -> i16 (v mod 2 ^ (8 * Z.of_nat 2)) = v.
Proof.
  intros H. unfold i16. change (2 ^ (8 * Z.of_nat 2)) with (2 ^ 16). rewrite Z.add_mod_idemp_l by lia.
  rewrite Z.mod_small; lia.
Qed.

Lemma get_put_dinode d l o :
  dinode_wf d -> (o + 64 <= length l)%nat -> get_dinode (put_dinode d l o) o = d.
Proof.
  intros [Ht Hm Hn Hk Hs Hl Ha] Ho. unfold get_dinode, put_dinode.
  set (l1 := put16 (di_type d) l o). set (l2 := put16 (di_major d) l1 (o + 2)).
  set (l3 := put16 (di_minor d) l2 (o + 4)). set (l4 := put16 (di_nlink d) l3 (o + 6)).
  set (l5 := put32 (di_size d) l4 (o + 8)).
  assert (length l1 = length l) as E1 by (apply length_put; lia).
  assert (length l2 = length l) as E2 by (unfold l2; rewrite length_put; lia).
  assert (length l3 = length l) as E3 by (unfold l3; rewrite length_put; lia).
  assert (length l4 = length l) as E4 by (unfold l4; rewrite length_put; lia).
  assert (length l5 = length l) as E5 by (unfold l5; rewrite length_put; lia).
  destruct d as [ty ma mi nl sz ad]. cbn [di_type di_major di_minor di_nlink di_size di_addrs] in *.
  f_equal.
  1-4: rewrite get_put_addrs_other by lia; unfold l5; rewrite get_put_other by lia.
  - unfold l4. rewrite get_put_other by lia. unfold l3. rewrite get_put_other by lia. unfold l2. rewrite get_put_other by lia. unfold l1. rewrite get_put_same by lia. by apply i16_mod.
  - unfold l4. rewrite get_put_other by lia. unfold l3. rewrite get_put_other by lia. unfold l2. rewrite get_put_same by lia. by apply i16_mod.
  - unfold l4. rewrite get_put_other by lia. unfold l3. rewrite get_put_same by lia. by apply i16_mod.
  - unfold l4. rewrite get_put_same by lia. by apply i16_mod.
  - rewrite get_put_addrs_other by lia. unfold l5. rewrite get_put_same by lia. by apply Z.mod_small.
  - unfold get_addrs. apply list_eq. intros i. rewrite list_lookup_fmap.
    destruct (decide (i < 13)%nat).
    + rewrite lookup_seq_lt by done. cbn [fmap option_fmap option_map]. change (0 + i)%nat with i.
      destruct (lookup_lt_is_Some_2 ad i) as [x Hx]; [lia|].
      rewrite (get_put_addrs ad l5 (o + 12) i x) by (done || lia). rewrite Hx. f_equal.
      apply u32_id. by eapply (Forall_lookup_1 _ _ _ _ Ha).
    + rewrite lookup_seq_ge by lia. by rewrite lookup_ge_None_2 by lia.
Qed.

Lemma length_put_dinode d l o :
  length (di_addrs d) = 13%nat -> (o + 64 <= length l)%nat -> length (put_dinode d l o) = length l.
Proof.
  intros Hd Ho. unfold put_dinode.
  repeat first [rewrite length_put_addrs | rewrite length_put]; lia.
Qed.

(** Writing one dinode leaves the others of its block alone. *)
Lemma get_put_dinode_other d l o o' :
  length (di_addrs d) = 13%nat -> (o + 64 <= length l)%nat -> (o' + 64 <= o \/ o + 64 <= o')%nat ->
  get_dinode (put_dinode d l o) o' = get_dinode l o'.
Proof.
  intros Hd Ho Hoo.
  assert (forall k p, (o' <= p)%nat -> (p + k <= o' + 64)%nat ->
    get_le k (put_dinode d l o) p = get_le k l p) as Hg.
  { intros k p Hp Hk. unfold put_dinode.
    set (l1 := put16 (di_type d) l o). set (l2 := put16 (di_major d) l1 (o + 2)).
    set (l3 := put16 (di_minor d) l2 (o + 4)). set (l4 := put16 (di_nlink d) l3 (o + 6)).
    set (l5 := put32 (di_size d) l4 (o + 8)).
    assert (length l1 = length l) as E1 by (apply length_put; lia).
    assert (length l2 = length l) as E2 by (unfold l2; rewrite length_put; lia).
    assert (length l3 = length l) as E3 by (unfold l3; rewrite length_put; lia).
    assert (length l4 = length l) as E4 by (unfold l4; rewrite length_put; lia).
    assert (length l5 = length l) as E5 by (unfold l5; rewrite length_put; lia).
    rewrite get_put_addrs_other by lia. unfold l5. rewrite get_put_other by lia.
    unfold l4. rewrite get_put_other by lia. unfold l3. rewrite get_put_other by lia.
    unfold l2. rewrite get_put_other by lia. unfold l1. by rewrite get_put_other by lia. }
  unfold get_dinode. f_equal; try (rewrite Hg by lia; done).
  unfold get_addrs. apply list_fmap_ext. intros i x Hx. apply Hg.
  - lia.
  - assert (x < 13)%nat; [|lia]. apply lookup_seq in Hx. lia.
Qed.

Lemma dec_enc_dirent d :
  0 <= de_inum d < 2 ^ 16 -> length (de_name d) = DIRSIZ -> dec_dirent (enc_dirent d) = d.
Proof.
  intros Hi Hn. destruct d as [inum name]. cbn [de_inum de_name] in *.
  unfold dec_dirent, enc_dirent, get_le. cbn [de_inum de_name]. f_equal.
  - rewrite drop_0. rewrite take_app_length' by by rewrite length_le_enc.
    rewrite le_dec_enc. by apply Z.mod_small.
  - rewrite drop_app_length' by by rewrite length_le_enc. by rewrite take_ge by lia.
Qed.
End ondisk.
