(* ===== verification/Bio.v ===== *)
(** * The buffer cache of [fs.c]

    [NBUF] buffers on a doubly linked list headed by [bcache.head], most
    recently released first.  [bget] looks a block up from the front, and
    recycles the first unused buffer from the back; [brelease] moves a buffer
    nobody uses to the front.  The disk driver is an interface: [virt.c]
    promises that [virt_disk_rw] transfers one block (see [Virtio.v]).

    [ring bc l] says that the links of [bc] spell the list [l] in both
    directions; [cache_inv] adds that [l] is all the buffers and that no block
    is cached twice. *)

From S2P Require Import Prelude Layout Memory State Spinlock Sched Sleeplock Ondisk.

(** ** The disk driver, as the cache sees it *)

Class BlockDev := { virt_disk_rw : nat -> bool -> K unit }.

(** Block [n] of the disk: sectors [2n] and [2n+1], in 32-bit arithmetic. *)
Definition disk_block (s : kstate) (n : Z) : list Z :=
  default (replicate (Z.to_nat BSIZE) 0) (k_disk s !! (u32 (n * 2) / 2)).
Definition disk_write (s : kstate) (n : Z) (l : list Z) : kstate :=
  set_k_disk (<[u32 (n * 2) / 2 := l]> (k_disk s)) s.

(** The process [p] runs with interrupts as it likes but holds no spin lock, and
    no other process waits for the disk. *)
Definition disk_chan (c : chan) : Prop :=
  match c with ChBuf _ | ChDiskFree => True | _ => False end.
Record quiet (s : kstate) (p : nat) : Prop := {
  qt_p : (p < NPROC)%nat;
  qt_running : p_state (proc_at s p) = RUNNING;
  qt_chan : p_chan (proc_at s p) = None;
  qt_noff : noff (cpu_of s) = 0;
  qt_waiters : forall i c, p_state (proc_at s i) = SLEEPING -> disk_chan c -> p_chan (proc_at s i) <> Some c
}.

(** What the driver promises a process whose transfer the disk completes:
    a read fills the buffer, a write stores it, [b->disk] ends at 0, and only
    the driver's own structures change besides.  [VirtioDisk.v] proves it of
    [virt.c]. *)
Class BlockDevOk (D : BlockDev) := {
  dev_inv : virtio -> Prop;
  dev_read s i p :
    kready s -> quiet s p -> dev_inv (k_virtio s) -> (i < NBUF)%nat -> curproc s = Some p ->
    exists v, dev_inv v /\
      virt_disk_rw i false s = Ok tt (set_k_virtio v
        (upd_buf i (fun b => set_b_disk 0 (set_b_data (disk_block s (b_blockno b)) b)) (touch s)));
  dev_write s i p :
    kready s -> quiet s p -> dev_inv (k_virtio s) -> (i < NBUF)%nat -> curproc s = Some p ->
    exists v, dev_inv v /\
      virt_disk_rw i true s = Ok tt (set_k_virtio v
        (disk_write (upd_buf i (set_b_disk 0) (touch s)) (b_blockno (buf_at s i)) (b_data (buf_at s i))))
}.

(** A disk that completes every transfer at once. *)
Definition instant_disk : BlockDev := {|
  virt_disk_rw i w :=
    b ← gets (fun s => buf_at s i);
    (if (w : bool) then modify (fun s => disk_write s (b_blockno b) (b_data b))
     else modify (fun s => upd_buf i (set_b_data (disk_block s (b_blockno b))) s));;
    modify (upd_buf i (set_b_disk 0));;
    modify touch
|}.

(** ** The list *)

(** [&bcache.head] *)
Definition HEAD : nat := NBUF.

Definition nxt (bc : bcache_state) (r : nat) : nat :=
  if decide (r = HEAD) then head_next bc else b_next (bufs bc !!! r).
Definition prv (bc : bcache_state) (r : nat) : nat :=
  if decide (r = HEAD) then head_prev bc else b_prev (bufs bc !!! r).
(** [r->next = x] and [r->prev = x]. *)
Definition set_nxt (r x : nat) (bc : bcache_state) : bcache_state :=
  if decide (r = HEAD) then set_head_next x bc else set_bufs (upd_at r (set_b_next x) (bufs bc)) bc.
Definition set_prv (r x : nat) (bc : bcache_state) : bcache_state :=
  if decide (r = HEAD) then set_head_prev x bc else set_bufs (upd_at r (set_b_prev x) (bufs bc)) bc.

Definition upd_bcache (f : bcache_state -> bcache_state) (s : kstate) : kstate :=
  set_k_bcache (f (k_bcache s)) s.

Definition init_bcache_links (b : nat) (bc : bcache_state) : bcache_state :=
  let bc := set_nxt b (nxt bc HEAD) bc in
  set_prv b HEAD bc.
Definition init_bcache_head (b : nat) (bc : bcache_state) : bcache_state :=
  let bc := set_prv (nxt bc HEAD) b bc in
  set_nxt HEAD b bc.
Definition init_bcache : K unit :=
  initlock LBcache "bcache";;
  modify (upd_bcache (fun bc => set_nxt HEAD HEAD (set_prv HEAD HEAD bc)));;
  for_each (seq 0 NBUF) (fun b =>
    modify (upd_bcache (init_bcache_links b));;
    sleep_initlock (SBuf b) "buffer";;
    modify (upd_bcache (init_bcache_head b))).

(** [for(r = start; r != &bcache.head; r = dir r) if(p r) return r]: [None] on
    running out of fuel, which a well-formed list never does. *)
Fixpoint scan (fuel : nat) (dir : nat -> nat) (p : nat -> bool) (r : nat) : option (option nat) :=
  match fuel with
  | O => None
  | S fuel =>
      if decide (r = HEAD) then Some None
      else if p r then Some (Some r) else scan fuel dir p (dir r)
  end.

Section bio.
  Context {Ot : Others} {D : BlockDev}.

Definition bget (dev blockno : Z) : K nat :=
  acquire LBcache;;
  bc ← gets k_bcache;
  let hit r := (b_dev (bufs bc !!! r) =? dev) && (b_blockno (bufs bc !!! r) =? blockno) in
  match scan (S NBUF) (nxt bc) hit (nxt bc HEAD) with
  | None => block
  | Some (Some r) =>
      modify (upd_buf r (fun b => set_b_refcnt (u32 (b_refcnt b + 1)) b));;
      release LBcache;;
      sleep_lock (SBuf r);;
      mret r
  | Some None =>
      let unused r := b_refcnt (bufs bc !!! r) =? 0 in
      match scan (S NBUF) (prv bc) unused (prv bc HEAD) with
      | None => block
      | Some (Some r) =>
          modify (upd_buf r (fun b => set_b_blockno blockno (set_b_dev dev (set_b_vaild 0 (set_b_refcnt 1 b)))));;
          release LBcache;;
          sleep_lock (SBuf r);;
          mret r
      | Some None => release LBcache;; panic "bget panic..\n"
      end
  end.

Definition bread (dev blockno : Z) : K nat :=
  r ← bget dev blockno;
  b ← gets (fun s => buf_at s r);
  (if b_vaild b =? 0
   then virt_disk_rw r false;; modify (upd_buf r (set_b_vaild 1)) else mret tt);;
  mret r.

Definition bwrite (b : nat) : K unit :=
  h ← holdingsleep (SBuf b);
  if negb h then panic "bwrite" else virt_disk_rw b true.

(** The links part of [brelease]. *)
Definition unlink (b : nat) (bc : bcache_state) : bcache_state :=
  let bc := set_prv (nxt bc b) (prv bc b) bc in
  set_nxt (prv bc b) (nxt bc b) bc.
Definition push_front (b : nat) (bc : bcache_state) : bcache_state :=
  let bc := set_nxt b (nxt bc HEAD) bc in
  let bc := set_prv b HEAD bc in
  let bc := set_prv (nxt bc HEAD) b bc in
  set_nxt HEAD b bc.

Definition brelease (b : nat) : K unit :=
  h ← holdingsleep (SBuf b);
  if negb h then panic "brelease holdingsleep panic\n" else
  sleep_unlock (SBuf b);;
  acquire LBcache;;
  modify (upd_buf b (fun x => set_b_refcnt (u32 (b_refcnt x - 1)) x));;
  rc ← gets (fun s => b_refcnt (buf_at s b));
  (if rc =? 0 then modify (upd_bcache (fun bc => push_front b (unlink b bc))) else mret tt);;
  release LBcache.
End bio.

#[export] Instance instant_disk_ok : BlockDevOk instant_disk.
Proof.
  refine {| dev_inv := fun _ => True |}.
  - intros s i p Hk _ _ Hi Hp. exists (k_virtio s). split; [done|]. unfold virt_disk_rw, instant_disk. step_prim.
    apply (f_equal (Ok tt)). rewrite <- (neutral_touch (upd_buf i (set_b_disk 0))) by by split.
    set (f := fun b => set_b_data (disk_block s (b_blockno b)) b).
    change (touch (upd_buf i (set_b_data (disk_block s (b_blockno (buf_at s i)))) s)) with
      (upd_buf i (set_b_data (disk_block s (b_blockno (buf_at s i)))) (touch s)).
    unfold upd_buf. kstate_eq. cbn [bufs set_bufs]. rewrite upd_at_upd_at.
    change (k_bcache (touch s)) with (k_bcache s).
    unfold set_bufs; cbn. f_equal.
  - intros s i p Hk _ _ Hi Hp. exists (k_virtio s). split; [done|]. done.
Defined.

(** ** Doubly linked lists *)

(** From [x] the links [n] spell [l] and end in [y], and the links [p] go back. *)
Fixpoint seg (n p : nat -> nat) (x : nat) (l : list nat) (y : nat) : Prop :=
  match l with
  | [] => n x = y /\ p y = x
  | a :: l => n x = a /\ p a = x /\ seg n p a l y
  end.

Section seg.
  Implicit Types (n p : nat -> nat) (x y r : nat) (l : list nat).

Lemma seg_ext n n' p p' x l y :
  (forall z, z ∈ x :: l -> n' z = n z) -> (forall z, z ∈ l ++ [y] -> p' z = p z) ->
  seg n p x l y -> seg n' p' x l y.
Proof.
  revert x. induction l as [|a l IH]; intros x Hn Hp.
  - intros [? ?]. split; [rewrite Hn by set_solver|rewrite Hp by set_solver]; done.
  - intros (? & ? & ?). split; [by rewrite Hn by set_solver|]. split; [by rewrite Hp by set_solver|].
    apply IH; [|intros; apply Hp; set_solver|done]. intros z Hz. apply Hn. set_solver.
Qed.

Lemma seg_app n p x l1 a l2 y :
  seg n p x (l1 ++ a :: l2) y <-> seg n p x l1 a /\ seg n p a l2 y.
Proof.
  revert x. induction l1 as [|b l1 IH]; intros x; cbn; [tauto|]. rewrite IH. tauto.
Qed.

Lemma seg_next n p x l y : seg n p x l y -> n x = nth 0 (l ++ [y]) 0%nat.
Proof. destruct l; cbn; tauto. Qed.

Lemma seg_next_elem n p x l y : seg n p x l y -> n x ∈ l ++ [y].
Proof. destruct l; cbn; [intros [-> _]; set_solver|intros (-> & _); set_solver]. Qed.

Lemma seg_prev_elem n p x l y : seg n p x l y -> p y ∈ x :: l.
Proof.
  revert x. induction l as [|a l IH]; intros x; cbn; [intros [_ ->]; set_solver|].
  intros (_ & _ & H). apply IH in H. set_solver.
Qed.

(** Taking [r] out. *)
Lemma seg_unlink n p x l1 r l2 y :
  seg n p x (l1 ++ r :: l2) y -> NoDup (l1 ++ r :: l2) ->
  x ∉ l1 ++ r :: l2 -> y ∉ l1 ++ r :: l2 ->
  seg (fun z => if decide (z = p r) then n r else n z)
      (fun z => if decide (z = n r) then p r else p z) x (l1 ++ l2) y.
Proof.
  rewrite seg_app. intros [H1 H2] Hnd Hx Hy.
  pose proof (seg_next_elem _ _ _ _ _ H2) as Hnr. pose proof (seg_prev_elem _ _ _ _ _ H1) as Hpr.
  revert x H1 Hx Hpr. induction l1 as [|a l1 IH]; intros x H1 Hx Hpr.
  - destruct H1 as [E1 E2]. rewrite E2. cbn [app] in *. apply NoDup_cons in Hnd as [Hr Hnd].
    destruct l2 as [|b l2]; cbn [seg] in *.
    + destruct H2 as [-> ?]. by rewrite !decide_True.
    + destruct H2 as (-> & ? & H2). rewrite !decide_True by done. split; [done|]. split; [done|].
      apply NoDup_cons in Hnd as [Hb Hnd].
      eapply seg_ext; [| |exact H2]; intros z Hz; cbn; rewrite decide_False; try done.
      * intros ->. apply Hx. set_solver.
      * intros ->. apply elem_of_app in Hz as [Hz|Hz]; [done|].
        apply Hy. apply list_elem_of_singleton in Hz as ->. set_solver.
  - cbn [app] in *. apply NoDup_cons in Hnd as [Ha Hnd]. destruct H1 as (E1 & E2 & H1).
    cbn [seg]. assert (p r <> x) as Hprx.
    { pose proof (seg_prev_elem _ _ _ _ _ H1) as Hq. intros Ex. apply Hx. rewrite <- Ex. set_solver. }
    assert (n r <> a) as Hnra.
    { intros Ea. rewrite Ea in Hnr. apply elem_of_app in Hnr as [Hz|Hz]; [set_solver|].
      apply Hy. apply list_elem_of_singleton in Hz as <-. set_solver. }
    rewrite !decide_False by done. split; [done|]. split; [done|].
    apply IH; [done|set_solver|done|exact Ha|by eapply seg_prev_elem].
Qed.

(** Putting [r] at the front. *)
Lemma seg_push n p x l r :
  seg n p x l x -> r ∉ l -> r <> x -> x ∉ l -> NoDup l ->
  seg (fun z => if decide (z = x) then r else if decide (z = r) then n x else n z)
      (fun z => if decide (z = n x) then r else if decide (z = r) then x else p z) x (r :: l) x.
Proof.
  intros H Hr Hrx Hx Hnd. pose proof (seg_next_elem _ _ _ _ _ H) as Hn. cbn [seg].
  assert (n x <> r) as Hnr.
  { intros E. rewrite E in Hn. apply elem_of_app in Hn as [?|Hn]; [done|].
    by apply list_elem_of_singleton in Hn. }
  rewrite decide_True by done. split; [done|]. rewrite decide_False by done. rewrite decide_True by done.
  split; [done|]. destruct l as [|a l]; cbn [seg] in *.
  - destruct H as [E1 E2]. rewrite E1. by rewrite decide_False, decide_True, decide_True by done.
  - destruct H as (E1 & E2 & H). rewrite E1. rewrite decide_False, !decide_True by done.
    split; [done|]. split; [done|]. apply NoDup_cons in Hnd as [Ha Hnd].
    eapply seg_ext; [| |exact H]; intros z Hz.
    + rewrite !decide_False; [done|set_solver|set_solver].
    + rewrite !decide_False; [done| |]; intros ->; apply elem_of_app in Hz as [Hz|Hz];
        try apply list_elem_of_singleton in Hz; set_solver.
Qed.
End seg.

(** The links of [bc] spell [l], front to back. *)
Definition ring (bc : bcache_state) (l : list nat) : Prop := seg (nxt bc) (prv bc) HEAD l HEAD.

(** The cache invariant: the ring is a permutation of the buffers, and two
    buffers never hold the same block (device 0 marks buffers never used). *)
Record cache_inv (bc : bcache_state) (l : list nat) : Prop := {
  ci_ring : ring bc l;
  ci_perm : l ≡ₚ seq 0 NBUF;
  ci_len : length (bufs bc) = NBUF;
  ci_ref : forall r, (r < NBUF)%nat -> 0 <= b_refcnt (bufs bc !!! r) < 2 ^ 32;
  ci_uniq : forall r r', (r < NBUF)%nat -> (r' < NBUF)%nat -> b_dev (bufs bc !!! r) <> 0 ->
    b_dev (bufs bc !!! r) = b_dev (bufs bc !!! r') ->
    b_blockno (bufs bc !!! r) = b_blockno (bufs bc !!! r') -> r = r'
}.

Section ring.
  Implicit Types (bc : bcache_state) (l : list nat).

Lemma cache_nodup bc l : cache_inv bc l -> NoDup l.
Proof. intros [_ P _ _ _]. rewrite P. apply NoDup_seq. Qed.
Lemma cache_elem bc l r : cache_inv bc l -> r ∈ l <-> (r < NBUF)%nat.
Proof. intros [_ P _ _ _]. rewrite P, elem_of_seq. lia. Qed.
Lemma cache_head bc l : cache_inv bc l -> HEAD ∉ l.
Proof. intros H. rewrite (cache_elem _ _ _ H). unfold HEAD. lia. Qed.

Lemma nxt_set_nxt r x bc z :
  length (bufs bc) = NBUF -> (r <= NBUF)%nat ->
  nxt (set_nxt r x bc) z = if decide (z = r) then x else nxt bc z.
Proof.
  intros Hl Hr. unfold nxt, set_nxt, HEAD. destruct (decide (r = NBUF)) as [->|]; cbn.
  - by case_decide.
  - destruct (decide (z = r)) as [->|].
    + rewrite decide_False by done. by rewrite upd_at_eq by lia.
    + case_decide; [done|]. by rewrite upd_at_ne.
Qed.
Lemma prv_set_prv r x bc z :
  length (bufs bc) = NBUF -> (r <= NBUF)%nat ->
  prv (set_prv r x bc) z = if decide (z = r) then x else prv bc z.
Proof.
  intros Hl Hr. unfold prv, set_prv, HEAD. destruct (decide (r = NBUF)) as [->|]; cbn.
  - by case_decide.
  - destruct (decide (z = r)) as [->|].
    + rewrite decide_False by done. by rewrite upd_at_eq by lia.
    + case_decide; [done|]. by rewrite upd_at_ne.
Qed.

(** Updates that keep the links. *)
Lemma nxt_upd f r bc z : (forall b, b_next (f b) = b_next b) ->
  nxt (set_bufs (upd_at r f (bufs bc)) bc) z = nxt bc z.
Proof. intros E. unfold nxt. cbn. case_decide; [done|]. by apply upd_at_proj. Qed.
Lemma prv_upd f r bc z : (forall b, b_prev (f b) = b_prev b) ->
  prv (set_bufs (upd_at r f (bufs bc)) bc) z = prv bc z.
Proof. intros E. unfold prv. cbn. case_decide; [done|]. by apply upd_at_proj. Qed.
Lemma nxt_set_prv r x bc z : nxt (set_prv r x bc) z = nxt bc z.
Proof. unfold set_prv. case_decide; [done|]. by apply nxt_upd. Qed.
Lemma prv_set_nxt r x bc z : prv (set_nxt r x bc) z = prv bc z.
Proof. unfold set_nxt. case_decide; [done|]. by apply prv_upd. Qed.
Lemma length_set_nxt r x bc : length (bufs (set_nxt r x bc)) = length (bufs bc).
Proof. unfold set_nxt. case_decide; [done|]. apply length_upd_at. Qed.
Lemma length_set_prv r x bc : length (bufs (set_prv r x bc)) = length (bufs bc).
Proof. unfold set_prv. case_decide; [done|]. apply length_upd_at. Qed.

(** A field of the buffers that link updates do not touch. *)
Lemma proj_set_nxt {B} (g : buf -> B) r x bc z :
  (forall b, g (set_b_next x b) = g b) -> g (bufs (set_nxt r x bc) !!! z) = g (bufs bc !!! z).
Proof. intros E. unfold set_nxt. case_decide; [done|]. by apply upd_at_proj. Qed.
Lemma proj_set_prv {B} (g : buf -> B) r x bc z :
  (forall b, g (set_b_prev x b) = g b) -> g (bufs (set_prv r x bc) !!! z) = g (bufs bc !!! z).
Proof. intros E. unfold set_prv. case_decide; [done|]. by apply upd_at_proj. Qed.

Lemma nodes_le bc l z : cache_inv bc l -> z ∈ l ++ [HEAD] -> (z <= NBUF)%nat.
Proof.
  intros H [Hz|Hz]%elem_of_app; [apply (cache_elem _ _ _ H) in Hz; lia|].
  apply list_elem_of_singleton in Hz. unfold HEAD in Hz. lia.
Qed.

(** Pushing a buffer that is not in the list. *)
Lemma ring_push_front bc l r :
  ring bc l -> length (bufs bc) = NBUF -> (r < NBUF)%nat -> r ∉ l -> HEAD ∉ l -> NoDup l ->
  Forall (fun z => (z < NBUF)%nat) l -> ring (push_front r bc) (r :: l).
Proof.
  intros Hring Hl1 Hrn Hr' Hh' Hnd' Hlt. assert (r <> HEAD) as Hrh by (unfold HEAD; lia).
  pose proof (seg_push _ _ _ _ r Hring Hr' Hrh Hh' Hnd') as Hseg.
  pose proof (seg_next_elem _ _ _ _ _ Hring) as Hn1.
  assert (nxt bc HEAD <> r) as Hne.
  { intros E. rewrite E in Hn1. apply elem_of_app in Hn1 as [|Hn1]; [done|]. by apply list_elem_of_singleton in Hn1. }
  assert (nxt bc HEAD <= NBUF)%nat as Hle1.
  { apply elem_of_app in Hn1 as [Hn1|Hn1]; [apply Nat.lt_le_incl; exact (proj1 (Forall_forall _ _) Hlt _ Hn1)|].
    apply list_elem_of_singleton in Hn1 as ->. done. }
  unfold ring, push_front. set (bc2 := set_nxt r (nxt bc HEAD) bc). set (bc3 := set_prv r HEAD bc2).
  assert (length (bufs bc2) = NBUF /\ length (bufs bc3) = NBUF) as [Hl2 Hl3].
  { unfold bc3, bc2. by rewrite length_set_prv, length_set_nxt. }
  assert (forall z, nxt bc3 z = if decide (z = r) then nxt bc HEAD else nxt bc z) as En3.
  { intros z. unfold bc3, bc2. rewrite nxt_set_prv. rewrite nxt_set_nxt by (done || lia). done. }
  assert (forall z, prv bc3 z = if decide (z = r) then HEAD else prv bc z) as Ep3.
  { intros z. unfold bc3. rewrite prv_set_prv by (done || lia). unfold bc2. by rewrite prv_set_nxt. }
  clearbody bc3. cbv zeta.
  assert (nxt bc3 HEAD = nxt bc HEAD) as EH by (rewrite En3; by rewrite decide_False).
  eapply seg_ext; [..|exact Hseg]; intros z _; cbn.
  - rewrite nxt_set_nxt by (rewrite ?length_set_prv; unfold HEAD; done || lia).
    case_decide; [done|]. by rewrite nxt_set_prv, En3.
  - rewrite prv_set_nxt, EH. rewrite prv_set_prv by done. case_decide; [done|]. by rewrite Ep3.
Qed.

(** [brelease]'s surgery moves [r] to the front. *)
Lemma ring_move_front bc l1 r l2 :
  cache_inv bc (l1 ++ r :: l2) -> ring (push_front r (unlink r bc)) (r :: l1 ++ l2).
Proof.
  intros H. pose proof (cache_nodup _ _ H) as Hnd. pose proof (cache_head _ _ H) as Hh.
  destruct H as [Hr Hp Hl Hc Hu]. assert (cache_inv bc (l1 ++ r :: l2)) as H by done.
  assert (r < NBUF)%nat as Hrn by (apply (cache_elem _ _ r H); set_solver).
  pose proof (proj1 (seg_app _ _ _ _ _ _ _) Hr) as [H1 H2].
  assert (nxt bc r <= NBUF)%nat as Hnle.
  { apply (nodes_le bc _ _ H). pose proof (seg_next_elem _ _ _ _ _ H2). set_solver. }
  assert (prv bc r <= NBUF)%nat as Hple.
  { apply (nodes_le bc _ _ H). pose proof (seg_prev_elem _ _ _ _ _ H1). set_solver. }
  pose proof (seg_unlink _ _ _ _ _ _ _ Hr Hnd Hh Hh) as Hseg.
  assert (NoDup (l1 ++ l2) /\ (r ∉ l1 ++ l2) /\ (HEAD ∉ l1 ++ l2)) as (Hnd' & Hr' & Hh').
  { rewrite NoDup_app, NoDup_cons in Hnd. rewrite NoDup_app. set_solver. }
  assert (nxt bc r <> r) as Hnr.
  { pose proof (seg_next_elem _ _ _ _ _ H2) as Hin. intros E. rewrite E in Hin.
    apply elem_of_app in Hin as [|Hin]; [set_solver|]. apply list_elem_of_singleton in Hin. unfold HEAD in *. lia. }
  apply ring_push_front; try done.
  - eapply seg_ext; [..|exact Hseg]; intros z _; cbn; unfold unlink.
    + rewrite prv_set_prv by done. rewrite decide_False by done.
      rewrite nxt_set_nxt by (by rewrite ?length_set_prv). by rewrite !nxt_set_prv.
    + rewrite prv_set_nxt. by rewrite prv_set_prv.
  - unfold unlink. by rewrite length_set_nxt, length_set_prv.
  - apply Forall_forall. intros z Hz. apply (cache_elem _ _ z H). set_solver.
Qed.
End ring.

(** ** Searching the list *)

Section scan.
  Implicit Types (n p : nat -> nat) (l : list nat).

Lemma scan_seg n p q x l fuel :
  seg n p x l HEAD -> HEAD ∉ l -> (length l < fuel)%nat ->
  scan fuel n q (n x) = Some (find q l).
Proof.
  revert x fuel. induction l as [|a l IH]; intros x [|fuel] Hs Hh Hf; cbn in Hf; try lia; cbn [scan find].
  - destruct Hs as [-> _]. by rewrite decide_True.
  - destruct Hs as (-> & _ & Hs). rewrite decide_False by (intros ->; set_solver).
    destruct (q a); [done|]. apply IH; [done|set_solver|lia].
Qed.

Lemma seg_rev n p x l y : seg n p x l y -> seg p n y (rev l) x.
Proof.
  revert x. induction l as [|a l IH]; intros x; cbn; [tauto|]. intros (? & ? & Hs).
  apply seg_app. split; [by apply IH|done].
Qed.

Lemma scan_fwd bc l q : cache_inv bc l -> scan (S NBUF) (nxt bc) q (nxt bc HEAD) = Some (find q l).
Proof.
  intros H. apply (scan_seg _ (prv bc)); [apply H|by eapply cache_head|].
  rewrite (Permutation_length (ci_perm _ _ H)), length_seq. lia.
Qed.

Lemma scan_bwd bc l q : cache_inv bc l -> scan (S NBUF) (prv bc) q (prv bc HEAD) = Some (find q (rev l)).
Proof.
  intros H. apply (scan_seg _ (nxt bc)); [apply seg_rev, H| |].
  - rewrite list_elem_of_In, <- in_rev, <- list_elem_of_In. by eapply cache_head.
  - rewrite length_rev, (Permutation_length (ci_perm _ _ H)), length_seq. lia.
Qed.
End scan.

(** ** [bget] and [brelease] on the abstract cache

    Abstractly the cache is the list [l] of buffers, most recently used first. *)

(** The buffer holding the block. *)
Definition holds (bc : bcache_state) (dev blockno : Z) (r : nat) : bool :=
  (b_dev (bufs bc !!! r) =? dev) && (b_blockno (bufs bc !!! r) =? blockno).
Definition unused (bc : bcache_state) (r : nat) : bool := b_refcnt (bufs bc !!! r) =? 0.

Section bio_props.
  Context {Ot : Others} {D : BlockDev}.
  Implicit Types (s : kstate) (l : list nat) (r : nat).

Lemma find_elem (q : nat -> bool) l r : find q l = Some r -> r ∈ l /\ q r = true.
Proof. intros H%find_some. by rewrite list_elem_of_In. Qed.
Lemma find_none_elem (q : nat -> bool) l r : find q l = None -> r ∈ l -> q r = false.
Proof. intros H Hr. eapply find_none; [done|]. by apply list_elem_of_In. Qed.

Lemma find_rev_elem (q : nat -> bool) l r : find q (rev l) = Some r -> r ∈ l /\ q r = true.
Proof.
  intros [H1 H2]%find_elem. split; [|done].
  rewrite list_elem_of_In, <- in_rev, <- list_elem_of_In in H1. done.
Qed.

(** Changing one buffer without its links. *)
Lemma cache_inv_upd bc l r (f : buf -> buf) :
  let b' := f (bufs bc !!! r) in
  cache_inv bc l -> (r < NBUF)%nat ->
  (forall b, b_next (f b) = b_next b) -> (forall b, b_prev (f b) = b_prev b) ->
  0 <= b_refcnt b' < 2 ^ 32 ->
  (b_dev b' <> 0 -> forall r', (r' < NBUF)%nat -> holds bc (b_dev b') (b_blockno b') r' = true -> r' = r) ->
  cache_inv (set_bufs (upd_at r f (bufs bc)) bc) l.
Proof.
  intros b' [Hr Hp Hl Hc Hu] Hrn Hn Hpv Hrc Hh.
  assert (forall z, (z < NBUF)%nat ->
    bufs (set_bufs (upd_at r f (bufs bc)) bc) !!! z = if decide (z = r) then b' else bufs bc !!! z) as Hz.
  { intros z Hz. cbn. case_decide as E; [subst; by rewrite upd_at_eq by lia|by rewrite upd_at_ne]. }
  split; [|done|by cbn; rewrite length_upd_at| |].
  - eapply seg_ext; [..|exact Hr]; intros z _; [by apply nxt_upd|by apply prv_upd].
  - intros z Hzn. rewrite Hz by done. case_decide; auto.
  - intros z z' Hzn Hzn'. rewrite !Hz by done. unfold holds in Hh.
    repeat case_decide; subst; try done; try (by apply Hu).
    + intros Hd Ed Eb. symmetry. apply Hh; [done|done|]. rewrite Ed, Eb, !Z.eqb_refl. done.
    + intros Hd Ed Eb. apply Hh; [by rewrite <- Ed|done|]. rewrite Ed, Eb, !Z.eqb_refl. done.
Qed.

(** Fields the invariant does not speak of. *)
Lemma cache_inv_frame bc l r (f : buf -> buf) :
  cache_inv bc l -> (r < NBUF)%nat ->
  (forall b, b_next (f b) = b_next b) -> (forall b, b_prev (f b) = b_prev b) ->
  (forall b, b_refcnt (f b) = b_refcnt b) -> (forall b, b_dev (f b) = b_dev b) ->
  (forall b, b_blockno (f b) = b_blockno b) ->
  cache_inv (set_bufs (upd_at r f (bufs bc)) bc) l.
Proof.
  intros H Hrn Hn Hp Hc Hd Hb. apply cache_inv_upd; try done.
  - rewrite Hc. by apply (ci_ref _ _ H).
  - rewrite Hd, Hb. unfold holds. intros Hnz r' Hr' [E1 E2]%andb_prop.
    apply Z.eqb_eq in E1, E2. apply (ci_uniq _ _ H); try done. by rewrite E1.
Qed.

Definition bget_hit_upd (b : buf) : buf := set_b_refcnt (u32 (b_refcnt b + 1)) b.
Definition bget_new_upd (dev blockno : Z) (b : buf) : buf :=
  set_b_blockno blockno (set_b_dev dev (set_b_vaild 0 (set_b_refcnt 1 b))).
(** The state after [bget] gave the process [i] the buffer [r]. *)
Definition bget_upd (f : buf -> buf) r (pid : Z) s : kstate :=
  sl_taken (SBuf r) pid (upd_buf r f (touch s)).

Lemma kready_upd_buf r f s : kready s -> kready (upd_buf r f s).
Proof. intros H. apply (kready_neutral (upd_buf r f)); auto using neutral_upd_buf. apply length_upd_at. Qed.
Lemma kready_upd_sl (r : slref) f s : kready s -> kready (upd_sl r f s).
Proof.
  intros H. apply (kready_neutral (upd_sl r f)); auto using neutral_upd_sl; by destruct r; cbn; rewrite ?length_upd_at.
Qed.
Lemma kready_bget_upd f r pid s : kready s -> kready (bget_upd f r pid s).
Proof. intros. by apply kready_upd_sl, kready_upd_buf, kready_touch. Qed.

(** The buffer is chosen and the cache is unlocked: what is left is to wait for
    the buffer's own lock, whoever holds it. *)
Definition bget_wait r : K nat := sleep_lock (SBuf r);; mret r.

Lemma bget_finish f r s :
  kready s ->
  (modify (upd_buf r f);; release LBcache;; sleep_lock (SBuf r);; mret r) (held LBcache s)
  = bget_wait r (upd_buf r f (touch s)).
Proof.
  intros Hk. unfold modify, bget_wait. step_prim.
  by rewrite (release_neutral _ (neutral_upd_buf r f) LBcache s (kr_cpu s Hk) (kr_locks s Hk LBcache I)).
Qed.

(** Nobody holds it. *)
Lemma bget_wait_free f r s i :
  kready s -> (r < NBUF)%nat -> curproc s = Some i -> sl_locked (sl_at s (SBuf r)) = 0 ->
  (forall b, b_sk (f b) = b_sk b) ->
  bget_wait r (upd_buf r f (touch s)) = Ok r (bget_upd f r (p_pid (proc_at s i)) s).
Proof.
  intros Hk Hr Hi Hsl Hf. unfold bget_wait. step_prim. rewrite (sleep_lock_free (SBuf r) _ i).
  - rewrite <- (neutral_touch _ (neutral_upd_buf r f)), touch_touch by apply Hk. done.
  - by apply kready_upd_buf, kready_touch.
  - done.
  - unfold curproc. rewrite (neutral_cpu_of _ (neutral_upd_buf r f)). rewrite c_proc_touch by apply Hk. done.
  - cbn. unfold buf_at, upd_buf. kred. cbn. rewrite upd_at_eq by (by rewrite (kr_nbufs s Hk)).
    by rewrite Hf.
Qed.

Lemma bget_hit s l dev blockno r :
  kready s -> cache_inv (k_bcache s) l -> find (holds (k_bcache s) dev blockno) l = Some r ->
  bget dev blockno s = bget_wait r (upd_buf r bget_hit_upd (touch s)).
Proof.
  intros Hk Hci Hfind. unfold bget.
  rewrite (bind_ok _ _ _ _ _ (acquire_free _ _ (kr_cpu s Hk) (kr_locks s Hk LBcache I))).
  rewrite (bind_ok _ _ _ _ _ (eq_refl : gets k_bcache (held LBcache s) = Ok (k_bcache s) (held LBcache s))).
  cbv zeta. rewrite (scan_fwd _ _ _ Hci). fold (holds (k_bcache s) dev blockno). rewrite Hfind. by apply bget_finish.
Qed.

Lemma bget_miss s l dev blockno r :
  kready s -> cache_inv (k_bcache s) l ->
  find (holds (k_bcache s) dev blockno) l = None ->
  find (unused (k_bcache s)) (rev l) = Some r ->
  bget dev blockno s = bget_wait r (upd_buf r (bget_new_upd dev blockno) (touch s)).
Proof.
  intros Hk Hci Hmiss Hfind. unfold bget.
  rewrite (bind_ok _ _ _ _ _ (acquire_free _ _ (kr_cpu s Hk) (kr_locks s Hk LBcache I))).
  rewrite (bind_ok _ _ _ _ _ (eq_refl : gets k_bcache (held LBcache s) = Ok (k_bcache s) (held LBcache s))).
  cbv zeta. rewrite (scan_fwd _ _ _ Hci). fold (holds (k_bcache s) dev blockno). rewrite Hmiss.
  rewrite (scan_bwd _ _ _ Hci). fold (unused (k_bcache s)). rewrite Hfind. by apply bget_finish.
Qed.

Lemma bget_full s l dev blockno :
  kready s -> cache_inv (k_bcache s) l ->
  find (holds (k_bcache s) dev blockno) l = None ->
  find (unused (k_bcache s)) (rev l) = None ->
  panics (bget dev blockno) s "bget panic..\n".
Proof.
  intros Hk Hci Hmiss Hfind. unfold bget, panics.
  rewrite (bind_ok _ _ _ _ _ (acquire_free _ _ (kr_cpu s Hk) (kr_locks s Hk LBcache I))).
  rewrite (bind_ok _ _ _ _ _ (eq_refl : gets k_bcache (held LBcache s) = Ok (k_bcache s) (held LBcache s))).
  cbv zeta. rewrite (scan_fwd _ _ _ Hci). fold (holds (k_bcache s) dev blockno). rewrite Hmiss.
  rewrite (scan_bwd _ _ _ Hci). fold (unused (k_bcache s)). rewrite Hfind.
  rewrite (bind_ok _ _ _ _ _ (release_neutral _ neutral_id LBcache s (kr_cpu s Hk) (kr_locks s Hk LBcache I))).
  by eexists.
Qed.

(** [bget] keeps the invariant and the order. *)
Lemma cache_inv_bget_upd f s l r pid :
  (r < NBUF)%nat ->
  cache_inv (k_bcache (upd_buf r f (touch s))) l -> cache_inv (k_bcache (bget_upd f r pid s)) l.
Proof. intros Hr H. by apply cache_inv_frame. Qed.

Lemma cache_inv_bget_hit s l r :
  cache_inv (k_bcache s) l -> (r < NBUF)%nat -> cache_inv (k_bcache (upd_buf r bget_hit_upd (touch s))) l.
Proof.
  intros H Hr. change (k_bcache (touch s)) with (k_bcache s).
  apply cache_inv_upd; try done; [apply u32_range|].
  cbn. unfold holds. intros Hnz r' Hr' [E1 E2]%andb_prop.
  apply Z.eqb_eq in E1, E2. apply (ci_uniq _ _ H); try done. by rewrite E1.
Qed.

Lemma cache_inv_bget_miss s l r dev blockno :
  cache_inv (k_bcache s) l -> (r < NBUF)%nat -> find (holds (k_bcache s) dev blockno) l = None ->
  cache_inv (k_bcache (upd_buf r (bget_new_upd dev blockno) (touch s))) l.
Proof.
  intros H Hr Hm. change (k_bcache (touch s)) with (k_bcache s).
  apply cache_inv_upd; try done. cbn. intros _ r' Hr' E.
  rewrite (find_none_elem _ _ r' Hm) in E; [done|]. by apply (cache_elem _ _ _ H).
Qed.

(** ** [bread] *)

(** The contents of a block: the valid cached copy, or the disk's. *)
Definition cached (bc : bcache_state) (dev n : Z) : option nat :=
  find (fun r => holds bc dev n r && negb (b_vaild (bufs bc !!! r) =? 0)) (seq 0 NBUF).
Definition block_of s (dev n : Z) : list Z :=
  match cached (k_bcache s) dev n with
  | Some r => b_data (buf_at s r)
  | None => disk_block s n
  end.

(** [s'] is [s] with the buffer [r] changed, and possibly the driver's state. *)
Definition buf_step r (f : buf -> buf) s s' : Prop :=
  exists v, s' = set_k_virtio v (upd_buf r f (touch s)).

(** The buffer as [bread] hands it out. *)
Record bread_buf (b b' : buf) (dev n pid : Z) (data : list Z) : Prop := {
  bb_dev : b_dev b' = dev;
  bb_blockno : b_blockno b' = n;
  bb_vaild : b_vaild b' <> 0;
  bb_data : b_data b' = data;
  bb_next : b_next b' = b_next b;
  bb_prev : b_prev b' = b_prev b;
  bb_ref : b_refcnt b' = (if (b_dev b =? dev) && (b_blockno b =? n) then u32 (b_refcnt b + 1) else 1);
  bb_sk : sl_locked (b_sk b') = 1 /\ sl_pid (b_sk b') = i32 pid
}.

Definition bread_post dev n r s l p s' : Prop :=
  kready s' /\ cache_inv (k_bcache s') l /\ curproc s' = Some p /\ (r < NBUF)%nat /\
  exists f, buf_step r f s s' /\
    bread_buf (buf_at s r) (buf_at s' r) dev n (p_pid (proc_at s p)) (block_of s dev n).

Lemma upd_buf_upd_buf r f g s : upd_buf r f (upd_buf r g s) = upd_buf r (fun b => f (g b)) s.
Proof. unfold upd_buf. kstate_eq. cbn. by rewrite upd_at_upd_at. Qed.

Lemma buf_at_upd r f s : kready s -> (r < NBUF)%nat -> buf_at (upd_buf r f s) r = f (buf_at s r).
Proof. intros Hk Hr. unfold buf_at, upd_buf. kred. cbn. rewrite upd_at_eq; [done|]. by rewrite (kr_nbufs s Hk). Qed.
Lemma buf_at_upd_ne r r' f s : r <> r' -> buf_at (upd_buf r f s) r' = buf_at s r'.
Proof. intros. unfold buf_at, upd_buf. kred. cbn. by rewrite upd_at_ne. Qed.

Lemma bget_upd_eq f r pid s :
  bget_upd f r pid s =
    upd_buf r (fun b => set_b_sk (set_sl_pid (i32 pid) (set_sl_locked 1 (b_sk (f b)))) (f b)) (touch s).
Proof. unfold bget_upd, sl_taken, upd_sl. apply upd_buf_upd_buf. Qed.

Lemma kready_virtio v s : kready s -> kready (set_k_virtio v s).
Proof. intros H. apply (kready_neutral (set_k_virtio v)); auto. by split. Qed.

Lemma curproc_upd_buf r f s : curproc (upd_buf r f s) = curproc s.
Proof. unfold curproc. by rewrite (neutral_cpu_of _ (neutral_upd_buf r f)). Qed.
Lemma curproc_virtio v s : curproc (set_k_virtio v s) = curproc s.
Proof. done. Qed.

(** [quiet] looks at the processes and the nesting depth only. *)
Lemma quiet_ext s s' p : k_proc s' = k_proc s -> noff (cpu_of s') = noff (cpu_of s) -> quiet s p -> quiet s' p.
Proof.
  intros Ep En [H1 H2 H3 H4 H5].
  assert (forall i, proc_at s' i = proc_at s i) as Ei by (intros; unfold proc_at; by rewrite Ep).
  split; rewrite ?Ei, ?En; try done. intros i c. rewrite Ei. apply H5.
Qed.
Lemma quiet_neutral g s p : neutral g -> k_proc (g s) = k_proc s -> quiet s p -> quiet (g s) p.
Proof. intros Hg Ep. apply quiet_ext; [done|]. by rewrite (neutral_cpu_of g Hg). Qed.
Lemma quiet_touch s p : kready s -> quiet s p -> quiet (touch s) p.
Proof. intros Hk. apply quiet_ext; [done|]. apply noff_touch, Hk. Qed.

(** [bread] after its [bget]. *)
Lemma bread_tail `{!BlockDevOk D} f r s l p dev n (HB : bget dev n s = Ok r (bget_upd f r (p_pid (proc_at s p)) s)) :
  kready s -> quiet s p -> dev_inv (k_virtio s) -> curproc s = Some p -> (r < NBUF)%nat ->
  cache_inv (k_bcache (bget_upd f r (p_pid (proc_at s p)) s)) l ->
  (forall b, b_sk (f b) = b_sk b) -> (forall b, b_next (f b) = b_next b) -> (forall b, b_prev (f b) = b_prev b) ->
  (forall b, b_data (f b) = b_data b) ->
  let b := f (buf_at s r) in
  b_dev b = dev -> b_blockno b = n ->
  b_refcnt b = (if holds (k_bcache s) dev n r then u32 (b_refcnt (buf_at s r) + 1) else 1) ->
  (if b_vaild b =? 0 then cached (k_bcache s) dev n = None else cached (k_bcache s) dev n = Some r) ->
  exists s', bread dev n s = Ok r s' /\ bread_post dev n r s l p s' /\ dev_inv (k_virtio s').
Proof.
  intros Hk Hq Hv Hp Hr Hci Hsk Hnx Hpv Hda b Hd Hn Href Hca. unfold bread. rewrite (bind_ok _ _ _ _ _ HB).
  rewrite bget_upd_eq in *. set (g := fun b => set_b_sk _ (f b)) in *.
  set (s1 := upd_buf r g (touch s)) in *.
  assert (kready s1) as Hk1 by by apply kready_upd_buf, kready_touch.
  assert (curproc s1 = Some p) as Hp1.
  { unfold s1. rewrite curproc_upd_buf, curproc_touch; [done|apply Hk]. }
  assert (buf_at s1 r = g (buf_at s r)) as Hb1 by by apply (buf_at_upd r g (touch s)), Hr; apply kready_touch.
  step_prim. rewrite Hb1. change (b_vaild (g (buf_at s r))) with (b_vaild b).
  destruct (Z.eqb_spec (b_vaild b) 0) as [E|E].
  - assert (quiet s1 p) as Hq1 by (apply (quiet_neutral (upd_buf r g)); [apply neutral_upd_buf|done|by apply quiet_touch]).
    destruct (dev_read s1 r p Hk1 Hq1 Hv Hr Hp1) as (v & Hv' & ->).
    set (h := fun b => set_b_disk 0 (set_b_data (disk_block s1 (b_blockno b)) b)).
    set (F := fun b => set_b_vaild 1 (h (g b))).
    assert (upd_buf r (set_b_vaild 1) (set_k_virtio v (upd_buf r h (touch s1))) =
      set_k_virtio v (upd_buf r F (touch s))) as ->.
    { unfold s1. rewrite <- (neutral_touch _ (neutral_upd_buf r g)), touch_touch by apply Hk.
      rewrite upd_buf_upd_buf. change (upd_buf r (set_b_vaild 1) (set_k_virtio v ?x)) with
        (set_k_virtio v (upd_buf r (set_b_vaild 1) x)). by rewrite upd_buf_upd_buf. }
    exists (set_k_virtio v (upd_buf r F (touch s))). split; [done|]. split; [|done].
    assert (buf_at (set_k_virtio v (upd_buf r F (touch s))) r = F (buf_at s r)) as HF
      by (apply (buf_at_upd r F (touch s)); [by apply kready_touch|done]).
    split; [by apply kready_virtio, kready_upd_buf, kready_touch|].
    split; [|split; [rewrite curproc_virtio, curproc_upd_buf, curproc_touch; [done|apply Hk]|split; [done|]]].
    + assert (k_bcache (set_k_virtio v (upd_buf r F (touch s))) =
        set_bufs (upd_at r (fun b => set_b_vaild 1 (h b)) (bufs (k_bcache s1))) (k_bcache s1)) as ->.
      { unfold s1, F, upd_buf. cbn. by rewrite upd_at_upd_at. }
      by apply cache_inv_frame.
    + exists F. split; [by exists v|]. rewrite HF. unfold block_of. rewrite Hca. unfold F, h, g. fold b in Href. split; cbn; try done. fold b. by rewrite Hn.
  - exists s1. split; [done|]. split; [|done]. split; [done|]. split; [done|]. split; [done|]. split; [done|].
    exists g. split; [by exists (k_virtio s)|]. rewrite Hb1. unfold block_of. rewrite Hca. unfold g. split; cbn; done.
Qed.

(** The buffer [bget] chooses: the block's own, else the least recently
    released one nobody uses. *)
Definition bget_target (bc : bcache_state) l (dev n : Z) : option nat :=
  match find (holds bc dev n) l with
  | Some r => Some r
  | None => find (unused bc) (rev l)
  end.

Lemma holds_uniq bc l dev n r r' :
  cache_inv bc l -> dev <> 0 -> (r < NBUF)%nat -> (r' < NBUF)%nat ->
  holds bc dev n r = true -> holds bc dev n r' = true -> r = r'.
Proof.
  intros H Hd Hr Hr' [E1 E2]%andb_prop [E3 E4]%andb_prop. apply Z.eqb_eq in E1, E2, E3, E4.
  apply (ci_uniq _ _ H); try done; congruence.
Qed.

Lemma cached_hit bc l dev n r :
  cache_inv bc l -> dev <> 0 -> (r < NBUF)%nat -> holds bc dev n r = true ->
  cached bc dev n = if b_vaild (bufs bc !!! r) =? 0 then None else Some r.
Proof.
  intros H Hd Hr Hh. unfold cached.
  destruct (find _ (seq 0 NBUF)) as [r'|] eqn:E.
  - apply find_elem in E as [Hr' [Hh' Hv]%andb_prop]. apply elem_of_seq in Hr'.
    rewrite (holds_uniq bc l dev n r r') by (done || lia). by destruct (b_vaild _ =? 0).
  - assert (r ∈ seq 0 NBUF) as Hin by (apply elem_of_seq; lia).
    pose proof (find_none_elem _ _ r E Hin) as Hn. cbv beta in Hn. rewrite Hh in Hn.
    by destruct (b_vaild _ =? 0).
Qed.

Lemma cached_miss bc l dev n :
  cache_inv bc l -> find (holds bc dev n) l = None -> cached bc dev n = None.
Proof.
  intros H Hm. unfold cached. destruct (find _ (seq 0 NBUF)) as [r'|] eqn:E; [|done].
  apply find_elem in E as [Hr' [Hh' _]%andb_prop]. apply elem_of_seq in Hr'.
  rewrite (find_none_elem _ _ r' Hm) in Hh'; [done|]. apply (cache_elem _ _ _ H). lia.
Qed.

Lemma bread_ok `{!BlockDevOk D} s l p dev n r :
  kready s -> quiet s p -> cache_inv (k_bcache s) l -> dev_inv (k_virtio s) -> curproc s = Some p -> dev <> 0 ->
  bget_target (k_bcache s) l dev n = Some r -> sl_locked (b_sk (buf_at s r)) = 0 ->
  exists s', bread dev n s = Ok r s' /\ bread_post dev n r s l p s' /\ dev_inv (k_virtio s').
Proof.
  intros Hk Hq Hci Hv Hp Hd Ht Hsl. unfold bget_target in Ht.
  destruct (find (holds (k_bcache s) dev n) l) as [r'|] eqn:E.
  - assert (r' = r) as -> by congruence.
    pose proof (bget_hit s l dev n r Hk Hci E) as HB.
    apply find_elem in E as [Hr Hh]. apply (cache_elem _ _ _ Hci) in Hr.
    rewrite (bget_wait_free bget_hit_upd r s p) in HB by done.
    pose proof (cached_hit _ _ _ _ _ Hci Hd Hr Hh) as Hca.
    pose proof Hh as [E1 E2]%andb_prop. apply Z.eqb_eq in E1, E2.
    eapply bread_tail; try done.
    + by apply cache_inv_bget_upd, cache_inv_bget_hit.
    + by rewrite Hh.
    + rewrite Hca. change (b_vaild (bget_hit_upd (buf_at s r))) with (b_vaild (bufs (k_bcache s) !!! r)).
      by destruct (b_vaild (bufs (k_bcache s) !!! r) =? 0).
  - pose proof (bget_miss s l dev n r Hk Hci E Ht) as HB.
    apply find_rev_elem in Ht as [Hr _]. pose proof Hr as Hrl. apply (cache_elem _ _ _ Hci) in Hr.
    rewrite (bget_wait_free (bget_new_upd dev n) r s p) in HB by done.
    eapply bread_tail; try done.
    + by apply cache_inv_bget_upd, cache_inv_bget_miss.
    + cbn. by rewrite (find_none_elem _ _ r E Hrl).
    + cbn. by eapply cached_miss.
Qed.

(** Blocks other than the one evicted keep their contents; the evicted one
    falls back to the disk. *)
Lemma block_of_other s s' r f dev' n' :
  kready s -> buf_step r f s s' -> (r < NBUF)%nat ->
  holds (k_bcache s) dev' n' r = false -> holds (k_bcache s') dev' n' r = false ->
  block_of s' dev' n' = block_of s dev' n'.
Proof.
  intros Hk [v ->] Hr Hh Hh'. unfold block_of.
  assert (forall z, z <> r -> bufs (k_bcache (set_k_virtio v (upd_buf r f (touch s)))) !!! z = bufs (k_bcache s) !!! z) as Hz.
  { intros z Hzr. exact (buf_at_upd_ne r z f (touch s) (not_eq_sym Hzr)). }
  set (s' := set_k_virtio v (upd_buf r f (touch s))) in *.
  assert (cached (k_bcache s') dev' n' = cached (k_bcache s) dev' n') as Hc.
  { unfold cached. generalize (seq 0 NBUF). intros zs. induction zs as [|z zs IH]; [done|]. cbn [find].
    destruct (decide (z = r)) as [->|Hzr].
    - by rewrite Hh, Hh'.
    - assert (holds (k_bcache s') dev' n' z = holds (k_bcache s) dev' n' z) as ->
        by (unfold holds; by rewrite Hz).
      by rewrite Hz, IH. }
  rewrite Hc. destruct (cached (k_bcache s) dev' n') as [z|] eqn:E; [|done].
  unfold cached in E. apply find_elem in E as [_ [Ez _]%andb_prop].
  assert (z <> r) by (intros ->; congruence). unfold buf_at. by rewrite Hz.
Qed.

(** ** [brelease] *)

Lemma proj_move_front {B} (g : buf -> B) r bc z :
  (forall b x, g (set_b_next x b) = g b) -> (forall b x, g (set_b_prev x b) = g b) ->
  g (bufs (push_front r (unlink r bc)) !!! z) = g (bufs bc !!! z).
Proof.
  intros Hn Hp. unfold push_front, unlink. cbv zeta.
  repeat first [rewrite proj_set_nxt by auto | rewrite proj_set_prv by auto]. done.
Qed.

Lemma length_move_front r bc : length (bufs (push_front r (unlink r bc))) = length (bufs bc).
Proof. unfold push_front, unlink. by rewrite ?length_set_nxt, ?length_set_prv, ?length_set_nxt, ?length_set_prv, ?length_set_nxt, ?length_set_prv. Qed.

Lemma cache_inv_move_front bc l1 r l2 :
  cache_inv bc (l1 ++ r :: l2) -> cache_inv (push_front r (unlink r bc)) (r :: l1 ++ l2).
Proof.
  intros H. pose proof (ring_move_front _ _ _ _ H) as Hr. destruct H as [_ Hp Hl Hc Hu]. split; [done|..].
  - by rewrite Permutation_middle.
  - by rewrite length_move_front.
  - intros z Hz. rewrite (proj_move_front b_refcnt) by done. auto.
  - intros z z' Hz Hz'. rewrite !(proj_move_front b_dev), !(proj_move_front b_blockno) by done. auto.
Qed.

Definition brelease_buf (b : buf) : buf :=
  set_b_refcnt (u32 (b_refcnt b - 1)) (set_b_sk (set_sl_pid 0 (set_sl_locked 0 (b_sk b))) b).
Definition brelease_bc r (bc : bcache_state) : bcache_state :=
  let bc1 := set_bufs (upd_at r brelease_buf (bufs bc)) bc in
  if u32 (b_refcnt (bufs bc !!! r) - 1) =? 0 then push_front r (unlink r bc1) else bc1.
(** What [brelease] does: drop the sleep lock, wake its waiters, count down,
    move to the front. *)
Definition brelease_upd r s : kstate :=
  upd_bcache (brelease_bc r) (upd_procs (imap (wake (Some (ChBufLock r)) (curproc s))) (touch s)).

Lemma neutral_upd_bcache f : neutral (upd_bcache f).
Proof. by split. Qed.

Lemma kready_procs f s :
  (forall ps, length (f ps) = length ps) -> kready s -> kready (upd_procs f s).
Proof. intros Hf H. apply (kready_neutral (upd_procs f)); auto using neutral_procs. cbn. apply Hf. Qed.

Lemma proc_at_imap f s i : exists g, proc_at (upd_procs (imap f) s) i = g (proc_at s i) /\ (g = f i \/ g = id).
Proof.
  unfold proc_at, upd_procs. cbn [k_proc set_k_proc procs set_procs]. rewrite !list_lookup_total_alt, list_lookup_imap.
  destruct (procs (k_proc s) !! i) as [x|]; [exists (f i)|exists id]; cbn; tauto.
Qed.

Lemma quiet_wake c m s p : quiet s p -> quiet (upd_procs (imap (wake c m)) s) p.
Proof.
  intros [H1 H2 H3 H4 H5].
  assert (forall i, proc_at (upd_procs (imap (wake c m)) s) i = proc_at s i \/
    p_state (proc_at s i) = SLEEPING /\ p_state (proc_at (upd_procs (imap (wake c m)) s) i) = RUNNABLE) as Hw.
  { intros i. destruct (proc_at_imap (wake c m) s i) as (g & E & [-> | ->]); [|by left]. rewrite E. unfold wake.
    case_bool_decide as Hb; [right; split; [apply Hb|done]|by left]. }
  split; try done.
  - destruct (Hw p) as [-> | [E _]]; [done|congruence].
  - destruct (Hw p) as [-> | [E _]]; [done|congruence].
  - intros i c'. destruct (Hw i) as [-> | [_ E]]; [apply H5|congruence].
Qed.

Lemma kready_wake c m s : kready s -> kready (upd_procs (imap (wake c m)) s).
Proof. intros. apply kready_procs; [|done]. intros. by rewrite length_imap. Qed.

Lemma brelease_eq r s p :
  kready s -> (r < NBUF)%nat -> curproc s = Some p -> sl_mine (SBuf r) s = true ->
  brelease r s = Ok tt (brelease_upd r s).
Proof.
  intros Hk Hr Hp Hm. unfold brelease.
  rewrite (bind_ok _ _ _ _ _ (holdingsleep_eq (SBuf r) s p Hk Hr Hp)). rewrite Hm. cbn [negb].
  assert (kready (touch s)) as Hkt by by apply kready_touch.
  rewrite (bind_ok _ _ _ _ _ (sleep_unlock_eq (SBuf r) (touch s) Hkt Hr)).
  rewrite touch_touch, curproc_touch by apply Hk. cbn [sl_chan].
  set (s2 := upd_procs _ _).
  assert (kready s2) as Hk2 by by apply kready_wake, kready_upd_sl, kready_touch.
  rewrite (bind_ok _ _ _ _ _ (acquire_free _ _ (kr_cpu s2 Hk2) (kr_locks s2 Hk2 LBcache I))).
  set (f1 := fun x => set_b_refcnt (u32 (b_refcnt x - 1)) x). step_prim.
  assert (buf_at (upd_buf r f1 (held LBcache s2)) r = brelease_buf (buf_at s r)) as ->.
  { unfold buf_at, upd_buf. kred. cbn [bufs set_bufs]. rewrite upd_at_eq.
    - change (k_bcache (held LBcache s2)) with (k_bcache (sl_released (SBuf r) (touch s))).
      unfold sl_released, upd_sl, upd_buf. cbn. rewrite upd_at_eq; [done|]. by rewrite (kr_nbufs s Hk).
    - change (k_bcache (held LBcache s2)) with (k_bcache s2). by rewrite (kr_nbufs s2 Hk2). }
  cbn [brelease_buf b_refcnt set_b_refcnt]. change (b_refcnt (buf_at s r)) with (b_refcnt (bufs (k_bcache s) !!! r)).
  set (g := fun bc => let bc1 := set_bufs (upd_at r f1 (bufs bc)) bc in
    if u32 (b_refcnt (bufs (k_bcache s) !!! r) - 1) =? 0 then push_front r (unlink r bc1) else bc1).
  assert ((if u32 (b_refcnt (bufs (k_bcache s) !!! r) - 1) =? 0
     then modify (upd_bcache (fun bc => push_front r (unlink r bc))) else mret tt)
    (upd_buf r f1 (held LBcache s2)) = Ok tt (upd_bcache g (held LBcache s2))) as Eg.
  { unfold g. by destruct (u32 _ =? 0). }
  unfold modify, mret, prog_ret in Eg. rewrite Eg.
  rewrite (release_neutral _ (neutral_upd_bcache g) LBcache s2 (kr_cpu s2 Hk2) (kr_locks s2 Hk2 LBcache I)).
  apply (f_equal (Ok tt)). unfold brelease_upd.
  assert (touch s2 = s2) as ->.
  { unfold s2, sl_released. rewrite <- (neutral_touch _ (neutral_compose _ _ (neutral_procs _) (neutral_upd_sl (SBuf r) _))).
    by rewrite touch_touch by apply Hk. }
  unfold s2. change (k_bcache s) with (k_bcache (touch s)) in *. unfold upd_bcache, sl_released, upd_sl, upd_buf.
  kstate_eq. cbn [k_bcache set_k_bcache upd_procs set_k_proc]. unfold g, brelease_bc. cbn [bufs set_bufs].
  by rewrite upd_at_upd_at.
Qed.

(** Where [brelease] puts the buffer in the order. *)
Definition brelease_order (bc : bcache_state) r l : list nat :=
  if b_refcnt (bufs bc !!! r) =? 1 then r :: filter (fun x => x <> r) l else l.

Lemma cache_inv_brelease bc l r :
  cache_inv bc l -> (r < NBUF)%nat -> 1 <= b_refcnt (bufs bc !!! r) ->
  cache_inv (brelease_bc r bc) (brelease_order bc r l).
Proof.
  intros H Hr Hrc. pose proof (ci_ref _ _ H r Hr) as Hrange.
  assert (cache_inv (set_bufs (upd_at r brelease_buf (bufs bc)) bc) l) as H1.
  { apply cache_inv_upd; try done; [apply u32_range|]. cbn. intros Hnz r' Hr' [E1 E2]%andb_prop.
    apply Z.eqb_eq in E1, E2. apply (ci_uniq _ _ H); try done. by rewrite E1. }
  unfold brelease_bc, brelease_order. rewrite u32_id by lia.
  destruct (Z.eqb_spec (b_refcnt (bufs bc !!! r) - 1) 0), (Z.eqb_spec (b_refcnt (bufs bc !!! r)) 1); try lia; [|done].
  assert (r ∈ l) as Hin by by apply (cache_elem _ _ _ H).
  apply list_elem_of_split in Hin as (l1 & l2 & ->).
  pose proof (cache_nodup _ _ H) as Hnd. apply NoDup_app in Hnd as (Hnd1 & Hd & Hnd2).
  apply NoDup_cons in Hnd2 as [Hr2 Hnd2].
  rewrite filter_app, filter_cons_False by tauto.
  rewrite !(list_filter_all (fun x => x <> r)); [by apply cache_inv_move_front| |].
  - apply Forall_forall. intros x Hx ->. done.
  - apply Forall_forall. intros x Hx ->. apply (Hd r Hx). by left.
Qed.
End bio_props.
