(* ===== verification/Block.v ===== *)
(** * The block layer's contract with the inode layer

    Between operations of a process no buffer is in use and every valid buffer
    agrees with the disk ([fs_ready]); between [bread] and [brelease] exactly
    one buffer is in use ([holding]).  The lemmas [bread_block],
    [brelease_block], [bwrite_block] move between these states; a caller that
    changes a block and does not write it back cannot use [brelease_block],
    because the cache would no longer agree with the disk. *)

From S2P Require Import Prelude Layout Memory State Spinlock Sched Sleeplock Ondisk Bio.

Definition ROOTDEV : Z := 1.
Definition ROOTINO : Z := 1.

(** ** What the block layer leaves alone *)

Record io_frame (s s' : kstate) : Prop := {
  fr_inodes : k_inodes s' = k_inodes s;
  fr_sb : k_sb s' = k_sb s;
  fr_files : k_files s' = k_files s;
  fr_mem : k_mem s' = k_mem s;
  fr_freelist : k_freelist s' = k_freelist s;
  fr_uart : k_uart s' = k_uart s;
  fr_cur : curproc s' = curproc s;
  fr_procs : forall i, exists st, proc_at s' i = set_p_state st (proc_at s i)
}.

#[export] Instance io_frame_refl : Reflexive io_frame.
Proof. intros s. split; try done. intros i. exists (p_state (proc_at s i)). by destruct (proc_at s i). Qed.
#[export] Instance io_frame_trans : Transitive io_frame.
Proof.
  intros s s' s'' [A B C D E F G H] [A' B' C' D' E' F' G' H'].
  split; try congruence. intros i. destruct (H i) as [st E1], (H' i) as [st' E2]. exists st'. by rewrite E2, E1.
Qed.

Lemma io_frame_pid s s' i : io_frame s s' -> p_pid (proc_at s' i) = p_pid (proc_at s i).
Proof. intros H. destruct (fr_procs _ _ H i) as [st ->]. done. Qed.

Section block.
  Context {Ot : Others} {D : BlockDev} `{!BlockDevOk D}.
  Implicit Types (s : kstate) (r p : nat) (dev n : Z).

(** Every valid buffer but those of [X] holds what the disk holds. *)
Definition clean_but (X : nat -> Prop) s : Prop :=
  forall r, (r < NBUF)%nat -> ~ X r -> b_vaild (buf_at s r) <> 0 -> b_dev (buf_at s r) <> 0 ->
    b_data (buf_at s r) = disk_block s (b_blockno (buf_at s r)).
Definition idle_but (X : nat -> Prop) s : Prop :=
  forall r, (r < NBUF)%nat -> ~ X r -> sl_locked (b_sk (buf_at s r)) = 0 /\ b_refcnt (buf_at s r) = 0.

Record fs_base s p : Prop := {
  fb_ready : kready s;
  fb_cache : exists l, cache_inv (k_bcache s) l;
  fb_dev : dev_inv (k_virtio s);
  fb_blocks : forall r, (r < NBUF)%nat -> b_dev (buf_at s r) <> 0 ->
    b_dev (buf_at s r) = ROOTDEV /\ 0 <= b_blockno (buf_at s r) < 2 ^ 31;
  fb_cur : curproc s = Some p;
  fb_pid : 0 <= p_pid (proc_at s p) < 2 ^ 32;
  fb_quiet : quiet s p
}.
(** No buffer in use. *)
Record fs_ready s p : Prop := {
  fs_rbase : fs_base s p;
  fs_idle : idle_but (fun _ => False) s;
  fs_clean : clean_but (fun _ => False) s
}.
(** The buffer [r] is the process's, holding [d] for block [n]. *)
Record holding s p r n (d : list Z) : Prop := {
  ho_base : fs_base s p;
  ho_r : (r < NBUF)%nat;
  ho_idle : idle_but (eq r) s;
  ho_clean : clean_but (eq r) s;
  ho_sk : sl_locked (b_sk (buf_at s r)) = 1 /\ sl_pid (b_sk (buf_at s r)) = i32 (p_pid (proc_at s p));
  ho_ref : b_refcnt (buf_at s r) = 1;
  ho_dev : b_dev (buf_at s r) = ROOTDEV;
  ho_blockno : b_blockno (buf_at s r) = n;
  ho_vaild : b_vaild (buf_at s r) <> 0;
  ho_data : b_data (buf_at s r) = d
}.

Lemma u32_i32 x : 0 <= x < 2 ^ 32 -> u32 (i32 x) = x.
Proof.
  intros H. unfold u32, i32. rewrite Zminus_mod, Z.mod_mod by lia.
  rewrite <- Zminus_mod. replace (x + 2 ^ 31 - 2 ^ 31) with x by lia. by apply Z.mod_small.
Qed.

Lemma block_of_clean s p dev n : fs_ready s p -> dev <> 0 -> block_of s dev n = disk_block s n.
Proof.
  intros [_ _ Hc] Hd. unfold block_of. destruct (cached (k_bcache s) dev n) as [r|] eqn:E; [|done].
  unfold cached in E. apply find_elem in E as [Hr [[E1 E2]%andb_prop E3]%andb_prop].
  apply Z.eqb_eq in E1, E2. apply negb_true_iff, Z.eqb_neq in E3. apply elem_of_seq in Hr.
  change (bufs (k_bcache s) !!! r) with (buf_at s r) in *.
  rewrite (Hc r) by (done || lia || congruence). by rewrite E2.
Qed.

(** With no buffer in use, [bget] always finds one. *)
Lemma target_idle s p l dev n :
  fs_ready s p -> cache_inv (k_bcache s) l ->
  exists r, bget_target (k_bcache s) l dev n = Some r /\ (r < NBUF)%nat.
Proof.
  intros [_ Hi _] Hl. unfold bget_target.
  destruct (find (holds (k_bcache s) dev n) l) as [r|] eqn:E.
  { exists r. split; [done|]. apply find_elem in E as [Hr _]. by apply (cache_elem _ _ _ Hl). }
  destruct (find (unused (k_bcache s)) (rev l)) as [r|] eqn:E2.
  { exists r. split; [done|]. apply find_rev_elem in E2 as [Hr _]. by apply (cache_elem _ _ _ Hl). }
  exfalso. assert (O ∈ rev l) as H0.
  { rewrite list_elem_of_In, <- in_rev, <- list_elem_of_In. apply (cache_elem _ _ _ Hl). unfold NBUF. lia. }
  pose proof (find_none_elem _ _ _ E2 H0) as Hu. unfold unused in Hu.
  destruct (Hi O) as [_ Hr0]; [unfold NBUF; lia|tauto|].
  change (bufs (k_bcache s) !!! O) with (buf_at s O) in Hu. by rewrite Hr0 in Hu.
Qed.

Lemma buf_step_other r f s s' z : buf_step r f s s' -> z <> r -> buf_at s' z = buf_at s z.
Proof. intros [v ->] Hz. exact (buf_at_upd_ne r z f (touch s) (not_eq_sym Hz)). Qed.

Lemma buf_step_frame r f s s' : cpu_wf s -> buf_step r f s s' -> io_frame s s'.
Proof.
  intros Hc [v ->]. split; try done.
  - by rewrite curproc_virtio, curproc_upd_buf, curproc_touch.
  - intros i. exists (p_state (proc_at s i)). change (proc_at (set_k_virtio v _) i) with (proc_at s i).
    by destruct (proc_at s i).
Qed.

Lemma quiet_buf_step r f s s' p : kready s -> buf_step r f s s' -> quiet s p -> quiet s' p.
Proof.
  intros Hk [v ->] Hq. apply (quiet_neutral (fun s => set_k_virtio v (upd_buf r f s))); [by split|done|].
  by apply quiet_touch.
Qed.

Lemma bread_block s p n :
  fs_ready s p -> 0 <= n < 2 ^ 31 ->
  exists r s', bread ROOTDEV n s = Ok r s' /\ holding s' p r n (disk_block s n) /\
    io_frame s s' /\ k_disk s' = k_disk s.
Proof.
  intros Hs Hn. pose proof Hs as [[Hk [l Hl] Hv Hbl Hp Hpid Hq] Hi Hc].
  assert (ROOTDEV <> 0) as Hd by done.
  destruct (target_idle s p l ROOTDEV n Hs Hl) as (r & Ht & Hr).
  destruct (Hi r Hr) as [Hsl Hrc]; [tauto|].
  destruct (bread_ok s l p ROOTDEV n r Hk Hq Hl Hv Hp Hd Ht Hsl) as (s' & E & Hpost & Hv').
  destruct Hpost as (Hk' & Hl' & Hp' & _ & f & Hst & Hb).
  rewrite (block_of_clean s p) in Hb by done.
  pose proof (buf_step_frame r f s s' (kr_cpu s Hk) Hst) as Hfr.
  assert (k_disk s' = k_disk s) as Hdk by (destruct Hst as [v ->]; done).
  exists r, s'. split; [done|]. split; [|done].
  destruct Hb as [B1 B2 B3 B4 B5 B6 B7 B8].
  split; try done.
  - split; try done; [by exists l| |by rewrite (io_frame_pid s s')|by apply (quiet_buf_step r f s)].
    intros z Hz Hnz. destruct (decide (z = r)) as [->|]; [by rewrite B1, B2|].
    rewrite (buf_step_other r f s s' z) in * by done. by apply Hbl.
  - intros z Hz Hne. rewrite (buf_step_other r f s s' z) by (done || congruence). apply Hi; [done|tauto].
  - intros z Hz Hne. rewrite (buf_step_other r f s s' z) by (done || congruence).
    unfold disk_block. rewrite Hdk. apply Hc; [done|tauto].
  - by rewrite (io_frame_pid s s').
  - rewrite B7, Hrc. by case_match.
Qed.

(** A buffer after [brelease], up to its links. *)
Lemma proj_brelease {B} (g : buf -> B) r s z :
  (forall b x, g (set_b_next x b) = g b) -> (forall b x, g (set_b_prev x b) = g b) ->
  (r < NBUF)%nat -> kready s ->
  g (buf_at (brelease_upd r s) z) = g (if decide (z = r) then brelease_buf (buf_at s r) else buf_at s z).
Proof.
  intros Hn Hp Hr Hk. unfold brelease_upd, buf_at, upd_bcache. cbn [k_bcache set_k_bcache].
  change (k_bcache (upd_procs _ (touch s))) with (k_bcache s). unfold brelease_bc.
  assert (g (bufs (set_bufs (upd_at r brelease_buf (bufs (k_bcache s))) (k_bcache s)) !!! z) =
    g (if decide (z = r) then brelease_buf (bufs (k_bcache s) !!! r) else bufs (k_bcache s) !!! z)) as E.
  { cbn [bufs set_bufs]. case_decide as Ez.
    - subst z. by rewrite upd_at_eq by by rewrite (kr_nbufs s Hk).
    - by rewrite upd_at_ne by congruence. }
  cbv zeta. destruct (u32 _ =? 0); [|exact E]. rewrite (proj_move_front g) by done. exact E.
Qed.

(** Waking changes the state of a process at most. *)
Lemma proc_at_wake c m s i : exists st, proc_at (upd_procs (imap (wake c m)) s) i = set_p_state st (proc_at s i).
Proof.
  unfold proc_at, upd_procs. cbn [k_proc set_k_proc procs set_procs].
  destruct (procs (k_proc s) !! i) as [x|] eqn:E.
  - rewrite (list_lookup_total_correct _ _ _ E).
    assert (imap (wake c m) (procs (k_proc s)) !! i = Some (wake c m i x)) as E2 by (by rewrite list_lookup_imap, E).
    rewrite (list_lookup_total_correct _ _ _ E2). unfold wake.
    case_match; [by exists RUNNABLE|]. exists (p_state x). by destruct x.
  - assert (imap (wake c m) (procs (k_proc s)) !! i = None) as E2 by (by rewrite list_lookup_imap, E).
    exists UNUSED. by rewrite !list_lookup_total_alt, E2, E.
Qed.

Lemma brelease_frame r s : cpu_wf s -> io_frame s (brelease_upd r s).
Proof.
  intros Hc. unfold brelease_upd. split; try done.
  - unfold curproc. rewrite (neutral_cpu_of _ (neutral_upd_bcache _)), (neutral_cpu_of _ (neutral_procs _)).
    by apply curproc_touch.
  - intros i. change (proc_at (upd_bcache _ ?x) i) with (proc_at x i).
    destruct (proc_at_wake (Some (ChBufLock r)) (curproc s) (touch s) i) as [st E]. by exists st.
Qed.

Lemma brelease_block s p r n :
  holding s p r n (disk_block s n) ->
  exists s', brelease r s = Ok tt s' /\ fs_ready s' p /\ io_frame s s' /\ k_disk s' = k_disk s.
Proof.
  intros [[Hk [l Hl] Hv Hbl Hp Hpid Hq] Hr Hi Hc [Hs1 Hs2] Href Hdev Hbn Hva Hda].
  exists (brelease_upd r s). split; [|split; [|split; [apply brelease_frame, Hk|done]]].
  - apply (brelease_eq r s p); try done. unfold sl_mine. rewrite Hp. cbn [sl_at].
    by rewrite Hs1, Hs2, u32_i32, Z.eqb_refl.
  - pose proof (brelease_frame r s (kr_cpu s Hk)) as Hfr.
    split; [split| |].
    + apply (kready_neutral (upd_bcache (brelease_bc r))); auto using neutral_upd_bcache, kready_wake, kready_touch.
      cbn. unfold brelease_bc. cbv zeta. case_match; rewrite ?length_move_front; cbn; by rewrite length_upd_at.
    + eexists. apply cache_inv_brelease; [exact Hl|done|]. change (1 <= b_refcnt (buf_at s r)). lia.
    + done.
    + intros z Hz. rewrite (proj_brelease b_dev), (proj_brelease b_blockno) by done.
      case_decide; [subst z|]; by apply Hbl.
    + by rewrite (fr_cur _ _ Hfr).
    + by rewrite (io_frame_pid _ _ _ Hfr).
    + apply (quiet_neutral (upd_bcache (brelease_bc r))); auto using neutral_upd_bcache, quiet_wake, quiet_touch.
    + intros z Hz _. rewrite (proj_brelease (fun b => sl_locked (b_sk b))) by done.
      rewrite (proj_brelease b_refcnt) by done. case_decide.
      * cbn. by rewrite Href.
      * apply Hi; [done|congruence].
    + intros z Hz _. rewrite (proj_brelease b_vaild), (proj_brelease b_dev), (proj_brelease b_data),
        (proj_brelease b_blockno) by done.
      change (disk_block (brelease_upd r s)) with (disk_block s). case_decide.
      * intros _ _. cbn. by rewrite Hda, Hbn.
      * apply Hc; [done|congruence].
Qed.

Lemma bwrite_block s p r n d :
  holding s p r n d ->
  exists s', bwrite r s = Ok tt s' /\ holding s' p r n d /\ disk_block s' n = d /\
    k_disk s' = k_disk (disk_write s n d) /\ io_frame s s'.
Proof.
  intros Hh. pose proof Hh as [[Hk [l Hl] Hv Hbl Hp Hpid Hq] Hr Hi Hc [Hs1 Hs2] Href Hdev Hbn Hva Hda].
  unfold bwrite. rewrite (bind_ok _ _ _ _ _ (holdingsleep_eq (SBuf r) s p Hk Hr Hp)).
  assert (sl_mine (SBuf r) s = true) as ->.
  { unfold sl_mine. rewrite Hp. cbn [sl_at]. by rewrite Hs1, Hs2, u32_i32, Z.eqb_refl. }
  cbn [negb]. assert (kready (touch s)) as Hkt by by apply kready_touch.
  assert (curproc (touch s) = Some p) as Hpt by (by rewrite curproc_touch by apply Hk).
  destruct (dev_write (touch s) r p Hkt (quiet_touch s p Hk Hq) Hv Hr Hpt) as (v & Hv' & ->).
  rewrite touch_touch by apply Hk. change (buf_at (touch s) r) with (buf_at s r). rewrite Hbn, Hda.
  set (s1 := upd_buf r (set_b_disk 0) (touch s)).
  exists (set_k_virtio v (disk_write s1 n d)). split; [done|].
  assert (forall z, buf_at (set_k_virtio v (disk_write s1 n d)) z =
    if decide (z = r) then set_b_disk 0 (buf_at s r) else buf_at s z) as Hb.
  { intros z. change (buf_at (set_k_virtio v (disk_write s1 n d)) z) with (buf_at s1 z). unfold s1.
    case_decide as E; [subst z; by rewrite buf_at_upd|]. by rewrite buf_at_upd_ne. }
  assert (disk_block (set_k_virtio v (disk_write s1 n d)) n = d) as Hdn.
  { unfold disk_block, disk_write. cbn. by rewrite lookup_insert_eq. }
  assert (curproc (set_k_virtio v (disk_write s1 n d)) = curproc s) as Hcur.
  { rewrite Hp, <- Hpt. exact (curproc_upd_buf r _ (touch s)). }
  split; [|split; [done|split; [done|]]].
  - split; [split| | | | |..]; rewrite ?Hb, ?decide_True by done; try done.
    + apply kready_virtio. apply (kready_neutral (fun s => disk_write s n d)); auto; [by split|].
      by apply kready_upd_buf.
    + exists l. by apply cache_inv_frame.
    + intros z Hz. rewrite Hb. case_decide; [subst z|]; by apply Hbl.
    + apply (quiet_neutral (fun s => set_k_virtio v (disk_write (upd_buf r (set_b_disk 0) s) n d))); [by split|done|].
      by apply quiet_touch.
    + intros z Hz Hne. rewrite Hb, decide_False by congruence. by apply Hi.
    + intros z Hz Hne. rewrite Hb, decide_False by congruence. intros Hvz Hdz.
      destruct (Hbl z Hz Hdz) as [Hdz1 Hbz]. destruct (Hbl r Hr ltac:(by rewrite Hdev)) as [_ Hbr].
      rewrite Hbn in Hbr. unfold disk_block, disk_write. cbn [k_disk set_k_disk set_k_virtio].
      assert (b_blockno (buf_at s z) <> n) as Hnz.
      { intros E. apply Hne. symmetry. apply (ci_uniq _ _ Hl z r); try done.
        - change (b_dev (buf_at s z) = b_dev (buf_at s r)). congruence.
        - change (b_blockno (buf_at s z) = b_blockno (buf_at s r)). congruence. }
      rewrite !u32_id, !Z.div_mul by lia. rewrite lookup_insert_ne by done.
      rewrite (Hc z Hz Hne Hvz Hdz). unfold disk_block. by rewrite u32_id, Z.div_mul by lia.
  - split; try done. intros i. exists (p_state (proc_at s i)).
    change (proc_at (set_k_virtio v (disk_write s1 n d)) i) with (proc_at s i). by destruct (proc_at s i).
Qed.

(** Changing the data of the buffer in use. *)
Lemma upd_data_block s p r n d f :
  holding s p r n d ->
  holding (upd_buf r (fun x => set_b_data (f (b_data x)) x) s) p r n (f d) /\
  io_frame s (upd_buf r (fun x => set_b_data (f (b_data x)) x) s).
Proof.
  intros [[Hk [l Hl] Hv Hbl Hp Hpid Hq] Hr Hi Hc [Hs1 Hs2] Href Hdev Hbn Hva Hda].
  set (s' := upd_buf _ _ s).
  assert (forall z, buf_at s' z =
    if decide (z = r) then set_b_data (f (b_data (buf_at s r))) (buf_at s r) else buf_at s z) as Hb.
  { intros z. unfold s'. case_decide as E; [subst z; by rewrite buf_at_upd|]. by rewrite buf_at_upd_ne. }
  assert (curproc s' = curproc s) as Hcur by apply curproc_upd_buf.
  split.
  - split; [split| | | | |..]; rewrite ?Hb, ?decide_True by done; try done.
    + by apply kready_upd_buf.
    + exists l. by apply cache_inv_frame.
    + intros z Hz. rewrite Hb. case_decide; [subst z|]; by apply Hbl.
    + apply (quiet_neutral (upd_buf r (fun x => set_b_data (f (b_data x)) x))); auto using neutral_upd_buf.
    + intros z Hz Hne. rewrite Hb, decide_False by congruence. by apply Hi.
    + intros z Hz Hne. rewrite Hb, decide_False by congruence. by apply Hc.
    + cbn. by rewrite Hda.
  - split; try done. intros i. exists (p_state (proc_at s i)).
    change (proc_at s' i) with (proc_at s i). by destruct (proc_at s i).
Qed.

(** Change the data of the buffer in use, write it and release it. *)
Definition write_back (r : nat) (f : list Z -> list Z) : K unit :=
  modify (upd_buf r (fun b => set_b_data (f (b_data b)) b));;
  bwrite r;;
  brelease r.

Lemma write_back_ok s p r n d f :
  holding s p r n d -> 0 <= n < 2 ^ 31 ->
  exists s', write_back r f s = Ok tt s' /\ fs_ready s' p /\ io_frame s s' /\ disk_block s' n = f d /\
    (forall n', 0 <= n' < 2 ^ 31 -> n' <> n -> disk_block s' n' = disk_block s n').
Proof.
  intros H Hn. destruct (upd_data_block s p r n d f H) as [H2 F2]. unfold write_back.
  set (s2 := upd_buf r _ s) in *. rewrite (bind_ok _ _ s tt s2) by done.
  destruct (bwrite_block s2 p r n _ H2) as (s3 & E3 & H3 & B3 & D3 & F3). rewrite (bind_ok _ _ _ _ _ E3).
  rewrite <- B3 in H3. destruct (brelease_block s3 p r n H3) as (s4 & E4 & Hs4 & F4 & D4).
  exists s4. split; [done|]. split; [done|]. split; [by etransitivity; [exact F2|]; etransitivity|].
  assert (forall m, disk_block s4 m = disk_block s3 m) as E34 by (intros; unfold disk_block; by rewrite D4).
  rewrite E34. split; [exact B3|].
  intros n' Hr Hne. rewrite E34. unfold disk_block. rewrite D3.
  unfold disk_write. cbn [k_disk set_k_disk]. rewrite !u32_id, !Z.div_mul by lia.
  by rewrite lookup_insert_ne.
Qed.

(** Updates of other kernel data keep the block layer's states. *)
Record io_neutral (g : kstate -> kstate) : Prop := {
  in_neutral : neutral g;
  in_bcache : forall s, k_bcache (g s) = k_bcache s;
  in_virtio : forall s, k_virtio (g s) = k_virtio s;
  in_disk : forall s, k_disk (g s) = k_disk s;
  in_proc : forall s, k_proc (g s) = k_proc s;
  in_inodes : forall s, length (k_inodes (g s)) = length (k_inodes s);
  in_files : forall s, length (k_files (g s)) = length (k_files s)
}.

Lemma fs_base_neutral g s p : io_neutral g -> fs_base s p -> fs_base (g s) p.
Proof.
  intros [Hn Hb Hv Hd Hpr Hin Hf] [Hk [l Hl] Hvi Hbl Hp Hpid Hq].
  assert (buf_at (g s) = buf_at s) as Eb by (unfold buf_at; by rewrite Hb).
  split; rewrite ?Eb, ?Hb, ?Hv; try done.
  - apply (kready_neutral g); auto; by rewrite ?Hpr, ?Hb.
  - by exists l.
  - unfold curproc. by rewrite (neutral_cpu_of g Hn).
  - unfold proc_at. by rewrite Hpr.
  - by apply (quiet_neutral g).
Qed.

Lemma fs_ready_neutral g s p : io_neutral g -> fs_ready s p -> fs_ready (g s) p.
Proof.
  intros Hg [Hb Hi Hc]. pose proof (fs_base_neutral g s p Hg Hb) as Hb'. destruct Hg.
  split; [done|..]; unfold idle_but, clean_but, buf_at, disk_block in *; by rewrite in_bcache0, ?in_disk0.
Qed.

Lemma holding_neutral g s p r n d : io_neutral g -> holding s p r n d -> holding (g s) p r n d.
Proof.
  intros Hg [Hb Hr Hi Hc Hsk Href Hdev Hbn Hva Hda].
  pose proof (fs_base_neutral g s p Hg Hb) as Hb'. destruct Hg.
  split; try done; unfold idle_but, clean_but, buf_at, disk_block, proc_at in *;
    by rewrite in_bcache0, ?in_disk0, ?in_proc0.
Qed.

Lemma disk_block_ext s s' n : k_disk s' = k_disk s -> disk_block s' n = disk_block s n.
Proof. unfold disk_block. by intros ->. Qed.

Lemma fs_ready_touch s p : fs_ready s p -> fs_ready (touch s) p.
Proof.
  intros [[Hk Hl Hv Hbl Hp Hpid Hq] Hi Hc]. split; [split|exact Hi|exact Hc]; try done.
  - by apply kready_touch.
  - by rewrite curproc_touch by apply Hk.
  - by apply quiet_touch.
Qed.

Lemma io_neutral_inode i f : io_neutral (upd_inode i f).
Proof. split; auto using neutral_upd_inode. intros s. apply length_upd_at. Qed.

Lemma fs_ready_inode s p i f : fs_ready s p -> fs_ready (upd_inode i f s) p.
Proof. apply fs_ready_neutral, io_neutral_inode. Qed.
End block.

(** The same kernel over another device. *)
Lemma fs_ready_dev {D D' : BlockDev} {HD : BlockDevOk D} {HD' : BlockDevOk D'} v s p :
  @fs_ready D HD s p -> dev_inv (BlockDevOk := HD') v -> @fs_ready D' HD' (set_k_virtio v s) p.
Proof.
  intros [[Hk [l Hl] _ Hbl Hp Hpid Hq] Hi Hc] Hv. split; [split|exact Hi|exact Hc]; try done.
  - by apply kready_virtio.
  - by exists l.
  - by apply (quiet_ext s).
Qed.
