(* ===== verification/BioInit.v ===== *)
(** * [init_bcache]: the buffer cache after boot

    The links of all buffers are built one after the other; the result
    satisfies the cache invariant, with the last buffer first. *)

From S2P Require Import Prelude Layout Memory State Spinlock Sched Sleeplock Ondisk Bio Block.

Section links.
  Implicit Types (bc : bcache_state) (l : list nat).

(** Both halves of an iteration, with the buffer changed in between. *)
Lemma ring_init_step (f : buf -> buf) bc l b :
  let bc1 := init_bcache_links b bc in
  ring bc l -> length (bufs bc) = NBUF -> (b < NBUF)%nat -> b ∉ l -> NoDup l ->
  Forall (fun z => (z < NBUF)%nat) l ->
  (forall x, b_next (f x) = b_next x) -> (forall x, b_prev (f x) = b_prev x) ->
  ring (init_bcache_head b (set_bufs (upd_at b f (bufs bc1)) bc1)) (b :: l).
Proof.
  intros bc1 Hr Hl Hb Hnin Hnd Hlt Hn Hp.
  assert (HEAD ∉ l) as Hh by (intros H; apply (proj1 (Forall_forall _ _) Hlt) in H; unfold HEAD in H; lia).
  pose proof (ring_push_front bc l b Hr Hl Hb Hnin Hh Hnd Hlt) as H.
  change (push_front b bc) with (init_bcache_head b bc1) in H.
  assert (length (bufs bc1) = NBUF) as Hl1 by (unfold bc1, init_bcache_links; by rewrite length_set_prv, length_set_nxt).
  assert (nxt bc1 HEAD <= NBUF)%nat as Hle.
  { unfold bc1, init_bcache_links. rewrite nxt_set_prv, nxt_set_nxt, decide_False by (done || unfold HEAD; lia).
    pose proof (seg_next_elem _ _ _ _ _ Hr) as Hin. apply elem_of_app in Hin as [Hin|Hin].
    - apply Nat.lt_le_incl. exact (proj1 (Forall_forall _ _) Hlt _ Hin).
    - apply list_elem_of_singleton in Hin as ->. done. }
  clearbody bc1. set (bc2 := set_bufs (upd_at b f (bufs bc1)) bc1).
  assert (length (bufs bc2) = NBUF) as Hl2 by (cbn; by rewrite length_upd_at).
  assert (forall z, nxt bc2 z = nxt bc1 z) as En by (intros; by apply nxt_upd).
  assert (forall z, prv bc2 z = prv bc1 z) as Ep by (intros; by apply prv_upd).
  clearbody bc2. eapply seg_ext; [..|exact H]; intros z _; unfold init_bcache_head; cbv zeta.
  - rewrite !nxt_set_nxt by (rewrite ?length_set_prv; done || unfold HEAD; lia). by rewrite !nxt_set_prv, En.
  - rewrite !prv_set_nxt, En. by rewrite !prv_set_prv, Ep by done.
Qed.

Lemma proj_init_step {B} (g : buf -> B) (f : buf -> buf) bc b z :
  (forall x y, g (set_b_next x y) = g y) -> (forall x y, g (set_b_prev x y) = g y) ->
  let bc1 := init_bcache_links b bc in
  g (bufs (init_bcache_head b (set_bufs (upd_at b f (bufs bc1)) bc1)) !!! z) =
    g (upd_at b f (bufs bc1) !!! z).
Proof.
  intros Hn Hp bc1. unfold init_bcache_head. cbv zeta. by rewrite proj_set_nxt, proj_set_prv by auto.
Qed.
End links.

Section init.
  Implicit Types (s : kstate).

Lemma initlock_eq l name s :
  lock_free l s -> initlock l name s = Ok tt (set_k_locks (<[l := mkSpinlock 0 name None]> (k_locks s)) s).
Proof.
  intros [n E]. unfold initlock, upd_lock. step_prim. unfold lock_at. kred. rewrite E. kred.
  rewrite lookup_insert_eq, insert_insert_eq. done.
Qed.

Lemma kready_initlock l name s :
  kready s -> kready (set_k_locks (<[l := mkSpinlock 0 name None]> (k_locks s)) s).
Proof.
  intros [? ? ? ? ? ? Hl]. split; try done. intros l' Hok. unfold lock_free. kred.
  destruct (decide (l = l')) as [<-|Hne]; [rewrite lookup_insert_eq; by eexists|].
  rewrite lookup_insert_ne by done. by apply Hl.
Qed.

Definition buf_fresh (b : buf) : Prop := b_refcnt b = 0 /\ b_dev b = 0 /\ b_vaild b = 0.

(** After the first [k] iterations of the loop started in [s0]. *)
Record init_at (s0 : kstate) (k : nat) s : Prop := {
  ia_ready : kready s;
  ia_ring : ring (k_bcache s) (rev (seq 0 k));
  ia_fresh : forall r, (r < NBUF)%nat -> buf_fresh (buf_at s r);
  ia_free : forall r, (r < k)%nat -> sl_locked (b_sk (buf_at s r)) = 0;
  ia_frame : s = set_k_bcache (k_bcache s) (set_k_locks (k_locks s) s0)
}.

Definition fresh_sl (l : sleeplock) : sleeplock :=
  set_sl_pid 0 (set_sl_locked 0 (set_sl_name "buffer" l)).
Definition init_body (b : nat) : K unit :=
  modify (upd_bcache (init_bcache_links b));;
  sleep_initlock (SBuf b) "buffer";;
  modify (upd_bcache (init_bcache_head b)).

Lemma init_body_eq s b :
  kready s -> (b < NBUF)%nat ->
  let bc1 := init_bcache_links b (k_bcache s) in
  let bc2 := set_bufs (upd_at b (fun x => set_b_sk (fresh_sl (b_sk x)) x) (bufs bc1)) bc1 in
  init_body b s = Ok tt (set_k_bcache (init_bcache_head b bc2)
    (set_k_locks (<[LBuf b := mkSpinlock 0 "buffer" None]> (k_locks s)) s)).
Proof.
  intros Hk Hb bc1 bc2. unfold init_body, sleep_initlock. cbn [sl_lk].
  rewrite (bind_ok _ _ s tt (upd_bcache (init_bcache_links b) s)) by done.
  assert (lock_free (LBuf b) (upd_bcache (init_bcache_links b) s)) as Hf by exact (kr_locks s Hk (LBuf b) Hb).
  rewrite bind_assoc, (bind_ok _ _ _ _ _ (initlock_eq _ "buffer" _ Hf)). step_prim.
  rewrite !upd_sl_upd_sl. done.
Qed.

Lemma init_step s0 k s :
  init_at s0 k s -> (k < NBUF)%nat -> exists s', init_body k s = Ok tt s' /\ init_at s0 (S k) s'.
Proof.
  intros [Hk Hr Hz Hf He] Hlt. pose proof (kr_nbufs s Hk) as Hlen.
  eexists. split; [by apply init_body_eq|]. set (f := fun x => set_b_sk (fresh_sl (b_sk x)) x).
  set (bc1 := init_bcache_links k (k_bcache s)).
  assert (length (bufs bc1) = NBUF) as Hl1 by (unfold bc1, init_bcache_links; by rewrite length_set_prv, length_set_nxt).
  set (bc := init_bcache_head k _). set (t := set_k_bcache bc _).
  assert (length (bufs bc) = NBUF) as Hl2.
  { unfold bc, init_bcache_head. cbv zeta. rewrite length_set_nxt, length_set_prv. cbn. by rewrite length_upd_at. }
  assert (forall B (g : buf -> B) r, (forall x y, g (set_b_next x y) = g y) -> (forall x y, g (set_b_prev x y) = g y) ->
    g (buf_at t r) = g (upd_at k f (bufs bc1) !!! r)) as Hg by (intros; by apply proj_init_step).
  assert (forall B (g : buf -> B) r, (forall x y, g (set_b_next x y) = g y) -> (forall x y, g (set_b_prev x y) = g y) ->
    g (bufs bc1 !!! r) = g (buf_at s r)) as Hg1.
  { intros B g r Hn Hp. unfold bc1, init_bcache_links. cbv zeta. by rewrite proj_set_prv, proj_set_nxt by auto. }
  split.
  - pose proof (kready_initlock (LBuf k) "buffer" s Hk) as [? ? ? ? ? ? ?]. by split.
  - change (ring bc (rev (seq 0 (S k)))). rewrite seq_S, rev_app_distr. cbn [rev app Nat.add].
    apply ring_init_step; try done.
    + rewrite list_elem_of_In, <- in_rev, in_seq. lia.
    + apply NoDup_ListNoDup, NoDup_rev, NoDup_ListNoDup, NoDup_seq.
    + apply Forall_rev, Forall_forall. intros z Hz'%elem_of_seq. lia.
  - intros r Hr'. destruct (Hz r Hr') as (H1 & H2 & H3). unfold buf_fresh. rewrite !Hg by done.
    rewrite (upd_at_proj b_refcnt), (upd_at_proj b_dev), (upd_at_proj b_vaild) by done. by rewrite !Hg1.
  - intros r Hr'. rewrite (Hg _ (fun b => sl_locked (b_sk b))) by done.
    destruct (decide (k = r)) as [<-|]; [by rewrite upd_at_eq by lia|]. rewrite upd_at_ne by done.
    rewrite (Hg1 _ (fun b => sl_locked (b_sk b))) by done. apply Hf. lia.
  - unfold t. rewrite He. by kstate_eq.
Qed.

Lemma init_loop s0 k n s :
  init_at s0 k s -> (k + n = NBUF)%nat ->
  exists s', for_each (seq k n) init_body s = Ok tt s' /\ init_at s0 NBUF s'.
Proof.
  revert k s. induction n as [|n IH]; intros k s Hi Hn; cbn [seq for_each].
  - exists s. split; [done|]. by replace NBUF with k by lia.
  - destruct (init_step s0 k s Hi ltac:(lia)) as (s1 & E & Hi1). rewrite (bind_ok _ _ _ _ _ E).
    apply IH; [done|lia].
Qed.

Lemma init_bcache_ok s :
  kready s -> (forall r, (r < NBUF)%nat -> buf_fresh (buf_at s r)) ->
  exists s', init_bcache s = Ok tt s' /\ init_at s NBUF s'.
Proof.
  intros Hk Hz. unfold init_bcache.
  rewrite (bind_ok _ _ _ _ _ (initlock_eq LBcache "bcache" s (kr_locks s Hk LBcache I))).
  set (s1 := set_k_locks _ s). assert (kready s1) as Hk1 by by apply kready_initlock.
  set (s2 := upd_bcache (fun bc => set_nxt HEAD HEAD (set_prv HEAD HEAD bc)) s1).
  rewrite (bind_ok _ _ s1 tt s2) by done.
  apply (init_loop s 0 NBUF s2); [|done]. split.
  - destruct Hk1. by split.
  - split; unfold s2; cbn; done.
  - intros r Hr. exact (Hz r Hr).
  - lia.
  - by kstate_eq.
Qed.

Lemma init_at_cache s0 s : init_at s0 NBUF s -> cache_inv (k_bcache s) (rev (seq 0 NBUF)).
Proof.
  intros [Hk Hr Hz _ _]. split; [done|..].
  - symmetry. apply Permutation_rev.
  - apply (kr_nbufs s Hk).
  - intros r Hlt. destruct (Hz r Hlt) as (E & _). change (bufs (k_bcache s) !!! r) with (buf_at s r). rewrite E. lia.
  - intros r r' Hlt _ Hne. by destruct (Hz r Hlt) as (_ & E & _).
Qed.
End init.
