(* ===== verification/Virtio.v ===== *)
(** * The virtio block driver, [virt.c]

    Requests are chains of three descriptors.  The device is not code of the
    repository: it appears as the registers it answers with ([regs]) and, while
    a process sleeps for its request, as part of [others]. *)

From S2P Require Import Prelude Layout Memory State Spinlock Sched Sleeplock Uart Print Ondisk Bio.

(** ** [virt.h] *)

Definition VRING_DESC_F_NEXT : Z := 1.
Definition VRING_DESC_F_WRITE : Z := 2.
Definition VIRTIO_BLK_T_IN : Z := 0.
Definition VIRTIO_BLK_T_OUT : Z := 1.

Definition VIRTIO_MMIO_MAGIC_VALUE : Z := 0x000.
Definition VIRTIO_MMIO_VERSION : Z := 0x004.
Definition VIRTIO_MMIO_DEVICE_ID : Z := 0x008.
Definition VIRTIO_MMIO_VENDOR_ID : Z := 0x00c.
Definition VIRTIO_MMIO_DEVICE_FEATURES : Z := 0x010.
Definition VIRTIO_MMIO_DRIVER_FEATURES : Z := 0x020.
Definition VIRTIO_MMIO_GUEST_PAGE_SIZE : Z := 0x028.
Definition VIRTIO_MMIO_QUEUE_SEL : Z := 0x030.
Definition VIRTIO_MMIO_QUEUE_NUM_MAX : Z := 0x034.
Definition VIRTIO_MMIO_QUEUE_NUM : Z := 0x038.
Definition VIRTIO_MMIO_QUEUE_PFN : Z := 0x040.
Definition VIRTIO_MMIO_STATUS : Z := 0x070.

Definition VIRTIO_CONFIG_S_ACKNOWLEDGE : Z := 1.
Definition VIRTIO_CONFIG_S_DRIVER : Z := 2.
Definition VIRTIO_CONFIG_S_DRIVER_OK : Z := 4.
Definition VIRTIO_CONFIG_S_FEATURES_OK : Z := 8.

Definition VIRTIO_BLK_F_RO : Z := 5.
Definition VIRTIO_BLK_F_SCSI : Z := 7.
Definition VIRTIO_BLK_F_CONFIG_WCE : Z := 11.
Definition VIRTIO_BLK_F_MQ : Z := 12.
Definition VIRTIO_F_ANY_LAYOUT : Z := 27.
Definition VIRTIO_RING_F_INDIRECT_DESC : Z := 28.
Definition VIRTIO_RING_F_EVENT_IDX : Z := 29.

(** ** Descriptors *)

Definition get_virtio : K virtio := gets k_virtio.
Definition upd_virtio (f : virtio -> virtio) (s : kstate) : kstate := set_k_virtio (f (k_virtio s)) s.
Definition set_free (i : nat) (x : Z) (v : virtio) : virtio := set_v_free (<[i := x]> (v_free v)) v.
Definition set_desc (i : nat) (d : vdesc) (v : virtio) : virtio := set_v_desc (<[i := d]> (v_desc v)) v.

(** [alloc_desc]: the index, or -1. *)
Definition alloc_desc : K Z :=
  v ← get_virtio;
  match find_index (fun x => negb (x =? 0)) (v_free v) with
  | Some i => modify (upd_virtio (set_free i 0));; mret (Z.of_nat i)
  | None => mret (-1)
  end.

Section virtio.
  Context {L : LinkMap} {Ot : Others}.

Definition free_desc (i : Z) : K unit :=
  if Z.of_nat NUM <=? i then printf (str "free_desc 1") [] else
  v ← get_virtio;
  let k := Z.to_nat i in
  if negb (v_free v !!! k =? 0) then printf (str "free_desc 2") [] else
  modify (upd_virtio (set_desc k (mkVdesc VNull 0 0 0)));;
  modify (upd_virtio (set_free k 1));;
  wakeup ChDiskFree.

(** [alloc3_desc]: the result and [idx]. *)
Fixpoint alloc3_loop (n : nat) (idx : list Z) : K (Z * list Z) :=
  match n with
  | O => mret (0, idx)
  | S n =>
      d ← alloc_desc;
      if d <? 0 then for_each idx free_desc;; mret (-1, idx)
      else alloc3_loop n (idx ++ [d])
  end.
Definition alloc3_desc : K (Z * list Z) := alloc3_loop 3 [].

(** [while(1) { if(alloc3_desc(idx) == 0) break; }]: spinning with the lock
    held. *)
Fixpoint alloc_spin (fuel : nat) : K (list Z) :=
  match fuel with
  | O => block
  | S fuel =>
      ri ← alloc3_desc;
      let '(r, idx) := (ri : Z * list Z) in
      if r =? 0 then mret idx else alloc_spin fuel
  end.

(** A chain of live descriptors has at most [NUM] links. *)
Fixpoint free_chain_loop (fuel : nat) (i : Z) : K unit :=
  match fuel with
  | O => block
  | S fuel =>
      v ← get_virtio;
      let d := v_desc v !!! Z.to_nat i in
      free_desc i;;
      if negb (Z.land (d_flags d) VRING_DESC_F_NEXT =? 0) then free_chain_loop fuel (d_next d) else mret tt
  end.
Definition free_chain (i : Z) : K unit := free_chain_loop (S NUM) i.

(** ** A request *)

(** The stores of [virt_disk_rw] before the notification. *)
Definition post_request (b : nat) (write : bool) (sector : Z) (i0 i1 i2 : nat) (v : virtio) : virtio :=
  let v := set_v_ops (<[i0 := mkVop (if write then VIRTIO_BLK_T_OUT else VIRTIO_BLK_T_IN) 0 sector]> (v_ops v)) v in
  let v := set_desc i0 (mkVdesc (VOp i0) 16 VRING_DESC_F_NEXT (Z.of_nat i1)) v in
  let flags := if write then 0 else VRING_DESC_F_WRITE in
  let v := set_desc i1 (mkVdesc (VData b) BSIZE (Z.lor flags VRING_DESC_F_NEXT) (Z.of_nat i2)) v in
  let v := set_v_info_status (<[i0 := 0xff]> (v_info_status v)) v in
  set_desc i2 (mkVdesc (VStatus i0) 1 VRING_DESC_F_WRITE 0) v.
Definition publish (b i0 : nat) (v : virtio) : virtio :=
  let v := set_v_info_b (<[i0 := Some b]> (v_info_b v)) v in
  let v := set_v_avail_ring (<[Z.to_nat (v_avail_index v mod Z.of_nat NUM) := Z.of_nat i0]> (v_avail_ring v)) v in
  let v := set_v_avail_index (u16 (v_avail_index v + 1)) v in
  set_v_notify (v_notify v + 1) v.

(** [while(b->disk == 1) sleep(b, &disk.disklock)]. *)
Fixpoint disk_wait (fuel : nat) (b : nat) : K unit :=
  match fuel with
  | O => block
  | S fuel =>
      x ← gets (fun s => buf_at s b);
      if negb (b_disk x =? 1) then mret tt else
      sleep (ChBuf b) LDisk;;
      disk_wait fuel b
  end.

Definition virt_disk_rw_code (b : nat) (write : bool) : K unit :=
  x ← gets (fun s => buf_at s b);
  let sector := u32 (b_blockno x * (BSIZE / 512)) in
  acquire LDisk;;
  idx ← alloc_spin (S patience);
  let i0 := Z.to_nat (nth 0 idx 0) in
  let i1 := Z.to_nat (nth 1 idx 0) in
  let i2 := Z.to_nat (nth 2 idx 0) in
  modify (upd_virtio (post_request b write sector i0 i1 i2));;
  modify (upd_buf b (set_b_disk 1));;
  modify (upd_virtio (publish b i0));;
  disk_wait (S patience) b;;
  modify (upd_virtio (fun v => set_v_info_b (<[i0 := None]> (v_info_b v)) v));;
  free_chain (Z.of_nat i0);;
  release LDisk.

(** The driver as the buffer cache's disk. *)
Definition virtio_dev : BlockDev := {| virt_disk_rw := virt_disk_rw_code |}.

(** ** Completion *)

(** The pending completions are [used->idx - used_idx]. *)
Fixpoint isr_loop (fuel : nat) : K unit :=
  match fuel with
  | O => block
  | S fuel =>
      v ← get_virtio;
      if v_used_idx v =? v_used_index v then mret tt else
      let id := v_used_ring v !!! Z.to_nat (v_used_idx v mod Z.of_nat NUM) in
      (if negb (v_info_status v !!! Z.to_nat id =? 0) then printf (str "virtio_disk_intr status") [] else mret tt);;
      match v_info_b v !!! Z.to_nat id with
      | None => printf (str "id :%d" ++ [NL]) [AInt (i32 id)];; panic "virtio_disk_isr: buf is empty"
      | Some b =>
          modify (upd_buf b (set_b_disk 0));;
          wakeup (ChBuf b);;
          modify (upd_virtio (fun v => set_v_used_idx (u16 (v_used_idx v + 1)) v));;
          isr_loop fuel
      end
  end.
Definition virtio_disk_isr : K unit :=
  modify (upd_virtio (fun v => set_v_intr_ack (Z.land (v_intr_status v) 3 :: v_intr_ack v) v));;
  v ← get_virtio;
  isr_loop (S (Z.to_nat (u16 (v_used_index v - v_used_idx v)))).

(** ** Initialisation *)

(** [regs] are the device's registers as read; the result is the list of
    register writes, in order, and whether the driver accepted the device. *)
Definition clear_bit (x n : Z) : Z := Z.land x (Z.lnot (Z.shiftl 1 n)).
Definition driver_features (f : Z) : Z :=
  foldl clear_bit f [VIRTIO_BLK_F_RO; VIRTIO_BLK_F_SCSI; VIRTIO_BLK_F_CONFIG_WCE; VIRTIO_BLK_F_MQ;
    VIRTIO_F_ANY_LAYOUT; VIRTIO_RING_F_EVENT_IDX; VIRTIO_RING_F_INDIRECT_DESC].

(** [pages_pfn] is [(uint64)disk.pages >> PGSHIFT]. *)
Definition virtio_disk_init (regs : Z -> Z) (pages_pfn : Z) : K (list (Z * Z)) :=
  initlock LDisk "virtlock";;
  printf (str "magic:%p,ver:%d,deviceId:%d,vendor:%p" ++ [NL])
    [APtr (regs VIRTIO_MMIO_MAGIC_VALUE); AInt (i32 (regs VIRTIO_MMIO_VERSION));
     AInt (i32 (regs VIRTIO_MMIO_DEVICE_ID)); APtr (regs VIRTIO_MMIO_VENDOR_ID)];;
  if negb (regs VIRTIO_MMIO_MAGIC_VALUE =? 0x74726976) || negb (regs VIRTIO_MMIO_VERSION =? 1)
     || negb (regs VIRTIO_MMIO_DEVICE_ID =? 2) || negb (regs VIRTIO_MMIO_VENDOR_ID =? 0x554d4551)
  then printf (str "could not find virtio disk") [];; mret [] else
  let status := VIRTIO_CONFIG_S_ACKNOWLEDGE in
  let w := [(VIRTIO_MMIO_STATUS, status)] in
  let status := Z.lor status VIRTIO_CONFIG_S_DRIVER in
  let w := w ++ [(VIRTIO_MMIO_STATUS, status)] in
  let w := w ++ [(VIRTIO_MMIO_DRIVER_FEATURES, u32 (driver_features (regs VIRTIO_MMIO_DEVICE_FEATURES)))] in
  let status := Z.lor status VIRTIO_CONFIG_S_FEATURES_OK in
  let w := w ++ [(VIRTIO_MMIO_STATUS, status)] in
  let status := Z.lor status VIRTIO_CONFIG_S_DRIVER_OK in
  let w := w ++ [(VIRTIO_MMIO_STATUS, status)] in
  let w := w ++ [(VIRTIO_MMIO_GUEST_PAGE_SIZE, PGSIZE)] in
  let w := w ++ [(VIRTIO_MMIO_QUEUE_SEL, 0)] in
  let max := regs VIRTIO_MMIO_QUEUE_NUM_MAX in
  if max =? 0 then printf (str "virtio disk has no queue 0") [];; mret w else
  if max <? Z.of_nat NUM then printf (str "virtio disk max queue too short") [];; mret w else
  let w := w ++ [(VIRTIO_MMIO_QUEUE_NUM, Z.of_nat NUM)] in
  modify (upd_virtio (fun v => set_v_used_ring (replicate NUM 0) (set_v_used_index 0
    (set_v_avail_ring (replicate NUM 0) (set_v_avail_index 0 (set_v_desc (replicate NUM vdesc0) v))))));;
  let w := w ++ [(VIRTIO_MMIO_QUEUE_PFN, u32 pages_pfn)] in
  for_each (seq 0 NUM) (fun i => modify (upd_virtio (set_free i 1)));;
  mret w.
End virtio.
