(* ===== verification/VirtioProps.v ===== *)
(** * Lemmas on the virtio driver: descriptors, chains, requests

    [free_of] lists the free descriptors; [vfam] is the shape of the states
    inside the driver's critical section, where only the driver's data and, by
    [wakeup], the processes change. *)

From S2P Require Import Prelude Layout Memory State Spinlock Sched Sleeplock Uart Print Ondisk Bio Virtio.

(** The free descriptors, in order. *)
Fixpoint free_ids (k : nat) (l : list Z) : list nat :=
  match l with
  | [] => []
  | x :: l => if x =? 0 then free_ids (S k) l else k :: free_ids (S k) l
  end.
Definition free_of (v : virtio) : list nat := free_ids 0 (v_free v).

Section free_ids.
  Implicit Types (l : list Z) (k i : nat).

Lemma free_ids_find k l :
  find_index (fun x => negb (x =? 0)) l =
    match free_ids k l with [] => None | i :: _ => Some (i - k)%nat end.
Proof.
  revert k. induction l as [|x l IH]; intros k; [done|]. cbn [find_index free_ids].
  destruct (x =? 0); cbn [negb]; [|by rewrite Nat.sub_diag]. rewrite (IH (S k)).
  destruct (free_ids (S k) l) as [|i r] eqn:E; [done|]. cbn. f_equal.
  assert (S k <= i)%nat; [|lia]. clear IH. revert k i r E. induction l as [|y l IH]; intros k i r; [done|]. cbn.
  destruct (y =? 0); [|intros [= <- _]; lia]. intros E. apply IH in E. lia.
Qed.

Lemma free_ids_take k l i r :
  free_ids k l = i :: r -> (k <= i < k + length l)%nat /\ free_ids k (<[(i - k)%nat := 0]> l) = r.
Proof.
  revert k. induction l as [|x l IH]; intros k; [done|]. cbn [free_ids].
  destruct (Z.eqb_spec x 0) as [->|Hx].
  - intros E. destruct (IH (S k) E) as [Hi Hr]. cbn [length]. split; [lia|].
    replace (i - k)%nat with (S (i - S k)) by lia. cbn [insert list_insert free_ids Z.eqb]. done.
  - intros [= -> <-]. cbn [length]. split; [lia|]. rewrite Nat.sub_diag. done.
Qed.

Lemma free_ids_elem k l i : i ∈ free_ids k l -> (k <= i < k + length l)%nat /\ l !!! (i - k)%nat <> 0.
Proof.
  revert k. induction l as [|x l IH]; intros k; cbn [free_ids]; [set_solver|].
  destruct (Z.eqb_spec x 0) as [->|Hx].
  - intros Hi. apply IH in Hi as [Hi Hl]. cbn [length]. split; [lia|].
    replace (i - k)%nat with (S (i - S k)) by lia. done.
  - intros [->|Hi]%elem_of_cons; [cbn [length]; rewrite Nat.sub_diag; split; [lia|done]|].
    apply IH in Hi as [Hi Hl]. cbn [length]. split; [lia|].
    replace (i - k)%nat with (S (i - S k)) by lia. done.
Qed.

Lemma free_ids_nodup k l : NoDup (free_ids k l).
Proof.
  revert k. induction l as [|x l IH]; intros k; cbn [free_ids]; [constructor|]. case_bool; [done|].
  constructor; [|done]. intros Hi%free_ids_elem. lia.
Qed.
End free_ids.

(** ** The states of the critical section *)

Section vfam.
  Context {L : LinkMap} {Ot : Others}.
  Implicit Types (v : virtio) (t : kstate) (f : list proc -> list proc).

Definition vfam v f t : kstate := set_k_virtio v (upd_procs f t).
Definition keeps f : Prop := forall ps, length (f ps) = length ps.

Lemma neutral_vfam v f : neutral (vfam v f).
Proof. by split. Qed.

Lemma can_wake_vfam v f t : keeps f -> can_wake t -> can_wake (vfam v f t).
Proof.
  intros Hf (Hc & Ht & Hl & Hn). split; [done|]. split; [|split; [done|]].
  - by rewrite <- (neutral_touch _ (neutral_vfam v f)), Ht.
  - cbn. by rewrite Hf.
Qed.

Lemma alloc_desc_fam v f t :
  alloc_desc (vfam v f t) =
    match free_of v with
    | [] => Ok (-1) (vfam v f t)
    | i :: _ => Ok (Z.of_nat i) (vfam (set_free i 0 v) f t)
    end.
Proof.
  unfold alloc_desc, get_virtio. rewrite (bind_ok _ _ _ v (vfam v f t)) by done.
  rewrite (free_ids_find 0). fold (free_of v). destruct (free_of v) as [|i r]; [done|]. by rewrite Nat.sub_0_r.
Qed.

Lemma free_of_take v i r : free_of v = i :: r -> (i < length (v_free v))%nat /\ free_of (set_free i 0 v) = r.
Proof.
  intros E. apply free_ids_take in E as [Hi Hr]. rewrite Nat.sub_0_r in Hr. cbn in Hi. split; [lia|done].
Qed.

(** The [wakeup] at the end of [free_desc]. *)
Definition free_wake t f : list proc -> list proc := fun ps => imap (wake (Some ChDiskFree) (curproc t)) (f ps).
Lemma keeps_free_wake t f : keeps f -> keeps (free_wake t f).
Proof. intros Hf ps. unfold free_wake. by rewrite length_imap. Qed.

(** A descriptor given back. *)
Definition freed (i : nat) v : virtio := set_free i 1 (set_desc i (mkVdesc VNull 0 0 0) v).

Lemma free_desc_fam i v f t :
  keeps f -> can_wake t -> (i < NUM)%nat -> v_free v !!! i = 0 ->
  free_desc (Z.of_nat i) (vfam v f t) = Ok tt (vfam (freed i v) (free_wake t f) t).
Proof.
  intros Hf Ht Hi Hz. unfold free_desc, get_virtio. destruct (Z.leb_spec (Z.of_nat NUM) (Z.of_nat i)); [lia|].
  rewrite (bind_ok _ _ _ v (vfam v f t)) by done. rewrite Nat2Z.id, Hz. cbn [Z.eqb negb].
  set (v' := freed i v).
  match goal with |- context [modify ?a ≫= (fun _ => modify ?b ≫= ?k)] =>
    assert ((modify a ≫= (fun _ => modify b ≫= k)) (vfam v f t) = k tt (vfam v' f t)) as -> by done end.
  pose proof (can_wake_vfam v' f t Hf Ht) as (Hc & Et & Hl & Hn).
  rewrite wakeup_spec by done. by rewrite Et.
Qed.
End vfam.

(** The driver's arrays have [NUM] entries and free flags are 0 or 1. *)
Record virtio_wf (v : virtio) : Prop := {
  vw_free : length (v_free v) = NUM;
  vw_desc : length (v_desc v) = NUM;
  vw_ops : length (v_ops v) = NUM;
  vw_flags : Forall (fun x => x = 0 \/ x = 1) (v_free v)
}.

Lemma virtio_free_one v i : virtio_wf v -> i ∈ free_of v -> (i < NUM)%nat /\ v_free v !! i = Some 1.
Proof.
  intros [Hl _ _ Hf] Hi. apply free_ids_elem in Hi as [Hi Hz]. rewrite Nat.sub_0_r in Hz. split; [lia|].
  destruct (lookup_lt_is_Some_2 (v_free v) i) as [x Hx]; [lia|].
  rewrite (list_lookup_total_correct _ _ _ Hx) in Hz.
  destruct (Forall_lookup_1 _ _ _ _ Hf Hx) as [-> | ->]; [by destruct Hz|done].
Qed.

Section chain.
  Context {L : LinkMap} {Ot : Others}.
  Implicit Types (v : virtio) (t : kstate).

(** Flags taken and given back. *)
Definition set_all (x : Z) (l : list Z) (ids : list nat) : list Z := foldl (fun l i => <[i := x]> l) l ids.

Lemma length_set_all x l ids : length (set_all x l ids) = length l.
Proof. revert l. induction ids as [|i ids IH]; intros l; [done|]. cbn. unfold set_all in IH. by rewrite IH, length_insert. Qed.

Lemma lookup_set_all x l ids k :
  set_all x l ids !! k = if decide (k ∈ ids /\ (k < length l)%nat) then Some x else l !! k.
Proof.
  revert l. induction ids as [|i ids IH]; intros l; unfold set_all in *; cbn [foldl].
  - rewrite decide_False; [done|]. set_solver.
  - rewrite IH, length_insert, list_lookup_insert. repeat case_decide; try done; set_solver.
Qed.

Lemma give_back (l : list Z) (ids : list nat) :
  Forall (fun i => l !! i = Some 1) ids -> set_all 1 (set_all 0 l ids) ids = l.
Proof.
  intros H. apply list_eq. intros k. rewrite lookup_set_all, length_set_all.
  case_decide as Hk; [|by rewrite lookup_set_all, decide_False].
  rewrite Forall_forall in H. by rewrite H by tauto.
Qed.

Lemma alloc_desc_some v f t i r :
  free_of v = i :: r -> alloc_desc (vfam v f t) = Ok (Z.of_nat i) (vfam (set_free i 0 v) f t).
Proof. intros E. by rewrite alloc_desc_fam, E. Qed.

Lemma alloc3_loop_take n idx v f t ids r :
  free_of v = ids ++ r -> length ids = n ->
  exists v', alloc3_loop n idx (vfam v f t) = Ok (0, idx ++ (Z.of_nat <$> ids)) (vfam v' f t) /\
    v' = foldl (fun v i => set_free i 0 v) v ids.
Proof.
  revert idx v ids. induction n as [|n IH]; intros idx v [|i ids] E Hn; try done.
  - exists v. cbn. by rewrite app_nil_r.
  - cbn [app] in E. cbn [alloc3_loop]. rewrite (bind_ok _ _ _ _ _ (alloc_desc_some v f t i _ E)).
    destruct (Z.ltb_spec (Z.of_nat i) 0); [lia|]. apply free_of_take in E as [_ E].
    destruct (IH (idx ++ [Z.of_nat i]) (set_free i 0 v) ids E ltac:(by injection Hn)) as (v' & E' & Hv').
    exists v'. rewrite E'. by rewrite <- app_assoc.
Qed.

Lemma v_free_foldl x v ids :
  v_free (foldl (fun v i => set_free i x v) v ids) = set_all x (v_free v) ids.
Proof. revert v. induction ids as [|i ids IH]; intros v; [done|]. cbn [foldl]. by rewrite IH. Qed.

(** Freeing a list of distinct descriptors in use. *)
Lemma free_list ids v f t :
  keeps f -> can_wake t -> NoDup ids -> Forall (fun i => (i < NUM)%nat /\ v_free v !!! i = 0) ids ->
  exists v' f', keeps f' /\ for_each (Z.of_nat <$> ids) free_desc (vfam v f t) = Ok tt (vfam v' f' t) /\
    v_free v' = set_all 1 (v_free v) ids.
Proof.
  revert v f. induction ids as [|i ids IH]; intros v f Hf Ht Hnd Hall; [by exists v, f|].
  apply NoDup_cons in Hnd as [Hi Hnd]. apply Forall_cons in Hall as [[Hlt Hz] Hall]. cbn [fmap list_fmap for_each].
  rewrite (bind_ok _ _ _ _ _ (free_desc_fam i v f t Hf Ht Hlt Hz)).
  destruct (IH (freed i v) (free_wake t f) (keeps_free_wake t f Hf) Ht Hnd) as (v' & f' & Hf' & E' & Hv').
  { apply Forall_forall. intros j Hj. rewrite Forall_forall in Hall. destruct (Hall j Hj) as [? Hz'].
    split; [done|]. cbn. rewrite list_lookup_total_insert_ne; [done|]. intros ->. done. }
  exists v', f'. split; [done|]. split; [done|]. rewrite Hv'. done.
Qed.

Lemma alloc3_loop_fail n idx done_ids v v0 f t :
  keeps f -> can_wake t -> idx = Z.of_nat <$> done_ids -> (length (free_of v) < n)%nat ->
  v_free v = set_all 0 (v_free v0) done_ids ->
  NoDup (done_ids ++ free_of v) -> Forall (fun i => (i < NUM)%nat /\ v_free v0 !! i = Some 1) (done_ids ++ free_of v) ->
  exists v' f' idx', keeps f' /\ alloc3_loop n idx (vfam v f t) = Ok (-1, idx') (vfam v' f' t) /\
    v_free v' = v_free v0.
Proof.
  revert idx done_ids v. induction n as [|n IH]; intros idx dn v Hf Ht -> Hn Ev Hnd Hall; [lia|].
  cbn [alloc3_loop]. destruct (free_of v) as [|i r] eqn:E.
  - rewrite app_nil_r in Hnd, Hall. rewrite (bind_ok _ _ _ (-1) (vfam v f t)) by (by rewrite alloc_desc_fam, E).
    cbn [Z.ltb Z.compare].
    destruct (free_list dn v f t Hf Ht Hnd) as (v' & f' & Hf' & E' & Hv').
    { apply Forall_forall. intros j Hj. rewrite Forall_forall in Hall. destruct (Hall j Hj) as [Hlt H1]. split; [done|].
      apply list_lookup_total_correct. rewrite Ev, lookup_set_all, decide_True; [done|].
      split; [done|by eapply lookup_lt_Some]. }
    exists v', f', (Z.of_nat <$> dn). split; [done|]. rewrite (bind_ok _ _ _ _ _ E'). split; [done|].
    rewrite Hv', Ev. apply give_back. eapply Forall_impl; [exact Hall|]. by intros ? [].
  - rewrite (bind_ok _ _ _ _ _ (alloc_desc_some v f t i _ E)).
    destruct (Z.ltb_spec (Z.of_nat i) 0); [lia|]. apply free_of_take in E as [_ E].
    apply (IH (( Z.of_nat <$> dn) ++ [Z.of_nat i]) (dn ++ [i])); try done.
    + by rewrite fmap_app.
    + rewrite E. cbn in Hn. lia.
    + unfold set_all in *. rewrite foldl_app. cbn. by rewrite <- Ev.
    + rewrite E, <- app_assoc. done.
    + rewrite E, <- app_assoc. done.
Qed.
End chain.

Section request.
  Context {L : LinkMap} {Ot : Others}.
  Implicit Types (v : virtio) (t : kstate).

(** The chain of a request for buffer [b]: header, data, status. *)
Record is_chain v (b : nat) (write : bool) (i0 i1 i2 : nat) : Prop := {
  ch_header : v_desc v !!! i0 = mkVdesc (VOp i0) 16 VRING_DESC_F_NEXT (Z.of_nat i1);
  ch_data : v_desc v !!! i1 =
    mkVdesc (VData b) BSIZE (if write then VRING_DESC_F_NEXT else VRING_DESC_F_NEXT + VRING_DESC_F_WRITE) (Z.of_nat i2);
  ch_status : v_desc v !!! i2 = mkVdesc (VStatus i0) 1 VRING_DESC_F_WRITE 0
}.

Lemma post_request_chain v b write sector i0 i1 i2 :
  virtio_wf v -> NoDup [i0; i1; i2] -> Forall (fun i => (i < NUM)%nat) [i0; i1; i2] ->
  let v' := post_request b write sector i0 i1 i2 v in
  is_chain v' b write i0 i1 i2 /\
  v_ops v' !!! i0 = mkVop (if write then VIRTIO_BLK_T_OUT else VIRTIO_BLK_T_IN) 0 sector /\
  v_free v' = v_free v.
Proof.
  intros [Hl Hd Ho _] Hnd Hlt v'. repeat (apply Forall_cons in Hlt as [? Hlt]).
  apply NoDup_cons in Hnd as [H01 Hnd]. apply NoDup_cons in Hnd as [H12 _].
  assert (i0 <> i1 /\ i0 <> i2 /\ i1 <> i2) as (? & ? & ?) by set_solver.
  assert (forall (l : list vdesc) i x, (i < length l)%nat -> <[i := x]> l !!! i = x) as Heq
    by (intros; by apply list_lookup_total_insert_eq).
  assert (forall (l : list vdesc) i j x, i <> j -> <[i := x]> l !!! j = l !!! j) as Hne
    by (intros; by apply list_lookup_total_insert_ne).
  split; [split|split; [|done]]; cbn.
  - by rewrite !Hne, Heq by (rewrite ?length_insert; lia).
  - rewrite Hne, Heq by (rewrite ?length_insert; lia). by destruct write.
  - by rewrite Heq by (rewrite ?length_insert; lia).
  - apply list_lookup_total_insert_eq. lia.
Qed.

Lemma freed_ne i j v : i <> j -> v_desc (freed i v) !!! j = v_desc v !!! j /\ v_free (freed i v) !!! j = v_free v !!! j.
Proof. intros. cbn. by rewrite !list_lookup_total_insert_ne. Qed.

(** A link of the chain: the descriptor is freed and its successor followed. *)
Lemma free_chain_link fuel v f t i d :
  keeps f -> can_wake t -> (i < NUM)%nat -> v_free v !!! i = 0 -> v_desc v !!! i = d ->
  free_chain_loop (S fuel) (Z.of_nat i) (vfam v f t) =
    (if negb (Z.land (d_flags d) VRING_DESC_F_NEXT =? 0) then free_chain_loop fuel (d_next d) else mret tt)
      (vfam (freed i v) (free_wake t f) t).
Proof.
  intros Hf Ht Hi Hz <-. cbn [free_chain_loop]. unfold get_virtio.
  rewrite (bind_ok _ _ _ v (vfam v f t)), Nat2Z.id by done. by rewrite (bind_ok _ _ _ _ _ (free_desc_fam i v f t Hf Ht Hi Hz)).
Qed.

Lemma free_chain_fam v f t b write i0 i1 i2 :
  keeps f -> can_wake t -> is_chain v b write i0 i1 i2 -> NoDup [i0; i1; i2] ->
  Forall (fun i => (i < NUM)%nat /\ v_free v !!! i = 0) [i0; i1; i2] ->
  free_chain (Z.of_nat i0) (vfam v f t) =
    Ok tt (vfam (freed i2 (freed i1 (freed i0 v))) (free_wake t (free_wake t (free_wake t f))) t).
Proof.
  intros Hf Ht [H0 H1 H2] Hnd Hall.
  apply NoDup_cons in Hnd as [H01 Hnd]. apply NoDup_cons in Hnd as [H12 _].
  assert (i0 <> i1 /\ i0 <> i2 /\ i1 <> i2) as (N01 & N02 & N12) by set_solver.
  apply Forall_cons in Hall as [[L0 Z0] Hall]. apply Forall_cons in Hall as [[L1 Z1] Hall].
  apply Forall_cons in Hall as [[L2 Z2] _].
  destruct (freed_ne i0 i1 v N01) as [D01 F01], (freed_ne i0 i2 v N02) as [D02 F02],
    (freed_ne i1 i2 (freed i0 v) N12) as [D12 F12].
  pose proof (keeps_free_wake t f Hf) as Hf1. pose proof (keeps_free_wake t _ Hf1) as Hf2.
  unfold free_chain. change (S NUM) with (S (S (S 6))).
  rewrite (free_chain_link _ v f t i0 _ Hf Ht L0 Z0 H0). cbn [d_flags d_next].
  change (negb (Z.land VRING_DESC_F_NEXT VRING_DESC_F_NEXT =? 0)) with true. cbv iota.
  rewrite (free_chain_link _ _ _ t i1 _ Hf1 Ht L1) by (exact (eq_trans F01 Z1) || exact (eq_trans D01 H1)).
  cbn [d_flags d_next].
  replace (negb (Z.land (if write then VRING_DESC_F_NEXT else VRING_DESC_F_NEXT + VRING_DESC_F_WRITE) VRING_DESC_F_NEXT =? 0))
    with true by (by destruct write). cbv iota.
  rewrite (free_chain_link _ _ _ t i2 _ Hf2 Ht L2 (eq_trans F12 (eq_trans F02 Z2)) (eq_trans D12 (eq_trans D02 H2))).
  done.
Qed.

(** What it leaves of the driver's data. *)
Lemma freed_chain v i0 i1 i2 :
  exists d, length d = length (v_desc v) /\
    freed i2 (freed i1 (freed i0 v)) = set_v_desc d (set_v_free (set_all 1 (v_free v) [i0; i1; i2]) v).
Proof.
  exists (foldl (fun l i => <[i := mkVdesc VNull 0 0 0]> l) (v_desc v) [i0; i1; i2]). split; [|done].
  cbn. by rewrite !length_insert.
Qed.
End request.

