(* ===== verification/Fs.v ===== *)
(** * Inodes, directories and path names: the rest of [fs.c]

    An in-core inode is its index in [inodecache.inodes].  The destination of
    [readi] is a user address, a physical address, or a local struct of the
    caller, whose bytes are returned; the source of [writei] is a user address
    or a local struct. *)

From S2P Require Import Prelude Layout Memory CString State Spinlock Sched Sleeplock Uart Print.
From S2P Require Import Kmem PageTable Uvm Ondisk Bio Block.

Definition upd_inode_m (i : nat) (f : inode -> inode) : K unit := modify (upd_inode i f).
Definition get_inode (i : nat) : K inode := gets (fun s => inode_at s i).
Definition upd_data (b : nat) (f : list Z -> list Z) : K unit :=
  modify (upd_buf b (fun x => set_b_data (f (b_data x)) x)).
Definition get_data (b : nat) : K (list Z) := gets (fun s => b_data (buf_at s b)).

Inductive dest := DUser (va : Z) | DPhys (pa : Z) | DLocal.
Inductive source := SUser (va : Z) | SLocal (bs : list Z).

(** Byte [i] of a block. *)
Definition byte_at (l : list Z) (i : Z) : Z := nth (Z.to_nat i) l 0.
Definition set_byte (i v : Z) (l : list Z) : list Z := <[Z.to_nat i := u8 v]> l.

(** The first [bi], from [bi] on and among [n], whose bit is clear and for which
    [b + bi < sb.size]: the inner loop of [balloc]. *)
Fixpoint balloc_scan (n : nat) (data : list Z) (size b bi : Z) : option Z :=
  match n with
  | O => None
  | S n =>
      if negb (b + bi <? size) then None else
      let m := Z.shiftl 1 (bi mod 8) in
      if Z.land (byte_at data (bi / 8)) m =? 0 then Some bi
      else balloc_scan n data size b (bi + 1)
  end.

(** The search of [iget]: the cached inode, or the first free slot. *)
Inductive iget_found := IHit (i : nat) | IFree (r : option nat).
Fixpoint iget_scan (l : list inode) (i : nat) (dev inum : Z) (r : option nat) : iget_found :=
  match l with
  | [] => IFree r
  | x :: l =>
      if (0 <? i_ref x) && (i_dev x =? dev) && (i_inum x =? inum) then IHit i
      else iget_scan l (S i) dev inum
        (match r with None => if i_ref x =? 0 then Some i else None | Some _ => r end)
  end.

Section fs.
  Context {L : LinkMap} {Ot : Others} {D : BlockDev}.

(** ** Superblock and inode cache *)

Definition readsb (dev : Z) : K unit :=
  f ← bread dev 1;
  l ← get_data f;
  modify (set_k_sb (dec_superblock l));;
  brelease f.

Definition initfs (dev : Z) : K unit :=
  readsb dev;;
  sb ← gets k_sb;
  if negb (sb_magic sb =? FSMAGIC) then panic "invalid file system" else mret tt.

Definition idup (target : nat) : K nat :=
  acquire LIcache;;
  upd_inode_m target (fun x => set_i_ref (i32 (i_ref x + 1)) x);;
  release LIcache;;
  mret target.

Definition init_inodecache : K unit :=
  initlock LIcache "inodecache";;
  for_each (seq 0 INODES) (fun i =>
    upd_inode_m i (set_i_ref 0);;
    upd_inode_m i (set_i_vaild 0);;
    sleep_initlock (SInode i) "inode").

Definition iget (dev inum : Z) : K nat :=
  acquire LIcache;;
  l ← gets k_inodes;
  match iget_scan l 0 dev inum None with
  | IHit i =>
      upd_inode_m i (fun x => set_i_ref (i32 (i_ref x + 1)) x);;
      release LIcache;;
      mret i
  | IFree None => panic "iget panic"
  | IFree (Some i) =>
      upd_inode_m i (fun x => set_i_vaild 0 (set_i_ref 1 (set_i_inum inum (set_i_dev dev x))));;
      release LIcache;;
      mret i
  end.

Definition rooti : K nat := iget ROOTDEV ROOTINO.

(** ** Blocks *)

(** [for(b = 0; b < sb.size; b += BPB)]. *)
Fixpoint balloc_loop (fuel : nat) (dev b : Z) : K Z :=
  match fuel with
  | O => block
  | S fuel =>
      sb ← gets k_sb;
      if negb (b <? sb_size sb) then panic "balloc panic...\n" else
      bp ← bread dev (BMAPBLOCK b sb);
      data ← get_data bp;
      match balloc_scan (Z.to_nat BPB) data (sb_size sb) b 0 with
      | Some bi =>
          upd_data bp (set_byte (bi / 8) (Z.lor (byte_at data (bi / 8)) (Z.shiftl 1 (bi mod 8))));;
          brelease bp;;
          mret (b + bi)
      | None => brelease bp;; balloc_loop fuel dev (b + BPB)
      end
  end.
Definition balloc (dev : Z) : K Z :=
  sb ← gets k_sb;
  balloc_loop (S (Z.to_nat (sb_size sb / BPB + 1))) dev 0.

Definition bfree (dev b : Z) : K unit :=
  sb ← gets k_sb;
  bp ← bread dev (BBLOCK b sb);
  data ← get_data bp;
  let bi := b mod BPB in
  let m := Z.shiftl 1 (bi mod 8) in
  if Z.land (byte_at data (bi / 8)) m =? 0 then panic "freeing free block" else
  upd_data bp (set_byte (bi / 8) (Z.land (byte_at data (bi / 8)) (Z.lnot m)));;
  brelease bp.

Definition bmap (ip : nat) (n : Z) : K Z :=
  d ← get_inode ip;
  if n <? NDIRECT then
    let addr := nth (Z.to_nat n) (i_addrs d) 0 in
    if addr =? 0 then
      addr ← balloc (i_dev d);
      upd_inode_m ip (fun x => set_i_addrs (<[Z.to_nat n := addr]> (i_addrs x)) x);;
      mret addr
    else mret addr
  else
  let n := n - NDIRECT in
  if n <? NINDIRECT then
    let addr := nth (Z.to_nat NDIRECT) (i_addrs d) 0 in
    addr ← (if addr =? 0 then
              addr ← balloc (i_dev d);
              upd_inode_m ip (fun x => set_i_addrs (<[Z.to_nat NDIRECT := addr]> (i_addrs x)) x);;
              mret addr
            else mret addr);
    bp ← bread (i_dev d) addr;
    a ← get_data bp;
    let addr := get32 a (Z.to_nat (4 * n)) in
    addr ← (if addr =? 0 then
              addr ← balloc (i_dev d);
              upd_data bp (fun a => put32 addr a (Z.to_nat (4 * n)));;
              mret addr
            else mret addr);
    brelease bp;;
    mret addr
  else panic "bmap panic...\n".

(** ** Reading and writing inodes *)

(** [either_copyout(user_dst, dst, src, m)] where [dst] has advanced by [k]. *)
Definition copy_to (d : dest) (k : Z) (bs : list Z) : K Z :=
  let m := Z.of_nat (length bs) in
  match d with
  | DUser va => either_copyout true (u64 (va + k)) bs m
  | DPhys pa => either_copyout false (u64 (pa + k)) bs m
  | DLocal => myproc;; mret 0
  end.

(** The loop of [readi]: [for(tot = 0; tot < n; tot += m, dst += m)].  The code
    does not advance [off]. *)
Fixpoint readi_loop (fuel : nat) (ip : nat) (d : dest) (off n tot : Z) (out : list Z) : K (Z * list Z) :=
  match fuel with
  | O => block
  | S fuel =>
      if negb (tot <? n) then mret (i32 tot, out) else
      i ← get_inode ip;
      addr ← bmap ip (off / BSIZE);
      b ← bread (i_dev i) addr;
      let m := Z.min (n - tot) (BSIZE - off mod BSIZE) in
      data ← get_data b;
      let bs := take (Z.to_nat m) (drop (Z.to_nat (off mod BSIZE)) data) in
      r ← copy_to d tot bs;
      if r =? -1 then brelease b;; mret (-1, out) else
      brelease b;;
      readi_loop fuel ip d off n (tot + m) (out ++ bs)
  end.
Definition readi (ip : nat) (d : dest) (off n : Z) : K (Z * list Z) :=
  i ← get_inode ip;
  if (i_size i <? off) || (u32 (off + n) <? off) then mret (0, []) else
  let n := if i_size i <? u32 (off + n) then u32 (i_size i - off) else n in
  readi_loop (S (Z.to_nat n)) ip d off n 0 [].

Definition inode_dinode (i : inode) : dinode :=
  mkDinode (i_type i) (i_major i) (i_minor i) (i_nlink i) (i_size i) (i_addrs i).
Definition load_dinode (d : dinode) (i : inode) : inode :=
  set_i_addrs (di_addrs d) (set_i_nlink (di_nlink d) (set_i_minor (di_minor d)
    (set_i_major (di_major d) (set_i_size (di_size d) (set_i_type (di_type d) i))))).
(** The offset of inode [inum] in its block, [inum % IPB] dinodes in. *)
Definition dinode_off (inum : Z) : nat := Z.to_nat (64 * (inum mod IPB)).

Definition iupdate (ip : nat) : K unit :=
  i ← get_inode ip;
  sb ← gets k_sb;
  b ← bread (i_dev i) (IBLOCK (i_inum i) sb);
  i ← get_inode ip;
  upd_data b (fun l => put_dinode (inode_dinode i) l (dinode_off (i_inum i)));;
  bwrite b;;
  brelease b.

(** [either_copyin(bp->data + off % BSIZE, user_src, src, m)] with [src]
    advanced by [tot]: the result and the bytes. *)
Definition copy_from (src : source) (tot m : Z) : K (Z * list Z) :=
  match src with
  | SUser va => either_copyin true (u64 (va + tot)) m
  | SLocal bs => myproc;; mret (0, take (Z.to_nat m) (drop (Z.to_nat tot) bs))
  end.

Fixpoint writei_loop (fuel : nat) (ip : nat) (src : source) (off n tot : Z) : K (Z * Z) :=
  match fuel with
  | O => block
  | S fuel =>
      if negb (tot <? n) then mret (tot, off) else
      i ← get_inode ip;
      addr ← bmap ip (off / BSIZE);
      bp ← bread (i_dev i) addr;
      let m := Z.min (n - tot) (BSIZE - off mod BSIZE) in
      rb ← copy_from src tot m;
      let '(r, bs) := (rb : Z * list Z) in
      upd_data bp (fun l => set_range l (Z.to_nat (off mod BSIZE)) bs);;
      if r =? -1 then brelease bp;; panic "writi:either_copy\n" else
      bwrite bp;;
      brelease bp;;
      writei_loop fuel ip src (u32 (off + m)) n (tot + m)
  end.
Definition writei (ip : nat) (src : source) (off n : Z) : K Z :=
  i ← get_inode ip;
  if (i_size i <? off) || (u32 (off + n) <? off) then
    printf (str "off > ip->size || off + n < off " ++ [NL]) [];; mret (-1)
  else if MAXFILE <? u32 (off + n) then
    printf (str "off + n > MAXFILE " ++ [NL]) [];; mret (-1)
  else
  to ← writei_loop (S (Z.to_nat n)) ip src off n 0;
  let '(tot, off) := (to : Z * Z) in
  i ← get_inode ip;
  (if i_size i <? off then upd_inode_m ip (set_i_size off) else mret tt);;
  iupdate ip;;
  mret tot.

(** ** Locking, truncation, reference counts *)

(** A null inode faults in [i->ref]; the checks [i == 0] are of the caller's
    [option]. *)
Definition ilock (i : option nat) : K unit :=
  match i with
  | None => panic "ilock"
  | Some i =>
      x ← get_inode i;
      if i_ref x <? 1 then panic "ilock" else
      sleep_lock (SInode i);;
      x ← get_inode i;
      if i_vaild x =? 0 then
        sb ← gets k_sb;
        b ← bread (i_dev x) (IBLOCK (i_inum x) sb);
        l ← get_data b;
        upd_inode_m i (load_dinode (get_dinode l (dinode_off (i_inum x))));;
        brelease b;;
        upd_inode_m i (set_i_vaild 0)
      else mret tt
  end.

Definition iunlock (i : option nat) : K unit :=
  match i with
  | None => panic "iunlock"
  | Some i =>
      h ← holdingsleep (SInode i);
      x ← get_inode i;
      if negb h || (i_ref x <? 1) then panic "iunlock" else sleep_unlock (SInode i)
  end.

Definition itrunc (ip : nat) : K unit :=
  for_each (seq 0 (Z.to_nat NDIRECT)) (fun i =>
    x ← get_inode ip;
    let a := nth i (i_addrs x) 0 in
    if negb (a =? 0)
    then bfree (i_dev x) a;; upd_inode_m ip (fun x => set_i_addrs (<[i := 0]> (i_addrs x)) x)
    else mret tt);;
  x ← get_inode ip;
  let ind := nth (Z.to_nat NDIRECT) (i_addrs x) 0 in
  (if negb (ind =? 0) then
     b ← bread (i_dev x) ind;
     for_each (seq 0 (Z.to_nat NDIRECT)) (fun i =>
       a ← get_data b;
       let ai := get32 a (4 * i) in
       if negb (ai =? 0) then bfree (i_dev x) ai else mret tt);;
     brelease b;;
     bfree (i_dev x) ind;;
     upd_inode_m ip (fun x => set_i_addrs (<[Z.to_nat NDIRECT := 0]> (i_addrs x)) x)
   else mret tt);;
  upd_inode_m ip (set_i_size 0);;
  iupdate ip.

Definition iput (i : option nat) : K unit :=
  acquire LIcache;;
  i ← deref i;
  x ← get_inode i;
  (if (i_ref x =? 1) && negb (i_vaild x =? 0) && (i_nlink x =? 0) then
     sleep_lock (SInode i);;
     release LIcache;;
     itrunc i;;
     upd_inode_m i (set_i_type 0);;
     iupdate i;;
     upd_inode_m i (set_i_vaild 0);;
     sleep_unlock (SInode i);;
     acquire LIcache
   else mret tt);;
  upd_inode_m i (fun x => set_i_ref (i32 (i_ref x - 1)) x);;
  release LIcache.

Definition iunlockput (ip : option nat) : K unit :=
  iunlock ip;;
  iput ip.

(** [for(inum = 0; inum < sb.ninodes; inum++)]. *)
Fixpoint ialloc_loop (fuel : nat) (dev type inum : Z) : K (option nat) :=
  match fuel with
  | O => block
  | S fuel =>
      sb ← gets k_sb;
      if negb (inum <? sb_ninodes sb) then mret None else
      bp ← bread dev (IBLOCK inum sb);
      l ← get_data bp;
      if di_type (get_dinode l (dinode_off inum)) =? 0 then
        upd_data bp (fun l => set_range l (dinode_off inum) (replicate 64 0));;
        upd_data bp (fun l => put16 type l (dinode_off inum));;
        bwrite bp;;
        brelease bp;;
        i ← iget dev inum;
        mret (Some i)
      else
        brelease bp;;
        ialloc_loop fuel dev type (inum + 1)
  end.
Definition ialloc (dev type : Z) : K (option nat) :=
  sb ← gets k_sb;
  ialloc_loop (S (Z.to_nat (sb_ninodes sb))) dev type 0.

(** ** Directories *)

(** [for(off = 0; off < ip->size; off += sizeof(de))]. *)
Fixpoint inodeByName_loop (fuel : nat) (ip : nat) (name : chars) (off : Z) : K (option nat) :=
  match fuel with
  | O => block
  | S fuel =>
      x ← get_inode ip;
      if negb (off <? i_size x) then mret None else
      rb ← readi ip DLocal off 16;
      let '(r, bs) := (rb : Z * list Z) in
      if negb (r =? 16) then panic "inodeByName panic...\n" else
      let de := dec_dirent bs in
      if strncmp DIRSIZ name (of_list (de_name de)) =? 0
      then i ← iget (i_dev x) (de_inum de); mret (Some i)
      else inodeByName_loop fuel ip name (off + 16)
  end.
Definition inodeByName (ip : nat) (name : chars) : K (option nat) :=
  x ← get_inode ip;
  inodeByName_loop (S (Z.to_nat (i_size x))) ip name 0.

(** The entry [dirlink] fills: the first with inum 0, else the end. *)
Fixpoint dirlink_loop (fuel : nat) (dp : nat) (off : Z) : K Z :=
  match fuel with
  | O => block
  | S fuel =>
      x ← get_inode dp;
      if negb (off <? i_size x) then mret off else
      rb ← readi dp DLocal off 16;
      let '(r, bs) := (rb : Z * list Z) in
      if negb (r =? 16) then panic "dirlink panic...\n" else
      if de_inum (dec_dirent bs) =? 0 then mret off
      else dirlink_loop fuel dp (off + 16)
  end.
Definition dirlink (dp : nat) (path : chars) (inum : Z) : K Z :=
  x ← get_inode dp;
  off ← dirlink_loop (S (Z.to_nat (i_size x))) dp 0;
  let dir := mkDirent (u16 inum) (strncpy path (Z.of_nat DIRSIZ)) in
  r ← writei dp (SLocal (enc_dirent dir)) off 16;
  if negb (r =? 16) then panic "dirlink writei" else mret 0.

Definition rootsub (name : chars) : K (option nat) :=
  root ← rooti;
  ilock (Some root);;
  sub ← inodeByName root name;
  iunlockput (Some root);;
  mret sub.

Definition iname (name : chars) : K (option nat) :=
  dp ← iget ROOTDEV ROOTINO;
  if name 0%nat =? 47 then mret (Some dp) else
  ilock (Some dp);;
  i ← inodeByName dp name;
  sleep_unlock (SInode dp);;
  mret i.

(** [struct stat] in its 24 bytes, of which the four of padding before [size]
    keep the value [pad] they had. *)
Definition stati (i : nat) (pad : Z) : K (list Z) :=
  x ← get_inode i;
  mret (le_enc 4 (i_dev x) ++ le_enc 4 (i_inum x) ++ le_enc 2 (i_type x) ++ le_enc 2 (i_nlink x)
        ++ le_enc 4 pad ++ le_enc 8 (i_size x)).
End fs.
