(* ===== verification/FsProps.v ===== *)
(** * Properties of the inode layer

    The in-core inode table ([iget], [idup], [iput]), locking and loading
    inodes, the block map, and reads and writes of one block. *)

From S2P Require Import Prelude Layout Memory CString State Spinlock Sched Sleeplock Uart Print.
From S2P Require Import Kmem PageTable Uvm Ondisk Bio Block Fs.

(** ** The inode table *)

Definition live (dev inum : Z) (x : inode) : bool :=
  (0 <? i_ref x) && (i_dev x =? dev) && (i_inum x =? inum).
Definition free_slot (x : inode) : bool := i_ref x =? 0.

(** Two slots in use never hold the same inode. *)
Record icache_inv (l : list inode) : Prop := {
  ii_uniq : forall i j x y, l !! i = Some x -> l !! j = Some y -> 0 < i_ref x -> 0 < i_ref y ->
    i_dev x = i_dev y -> i_inum x = i_inum y -> i = j;
  ii_ref : Forall (fun x => 0 <= i_ref x < 2 ^ 31 - 1) l
}.

Definition ref_up (x : inode) : inode := set_i_ref (i32 (i_ref x + 1)) x.
Definition ref_down (x : inode) : inode := set_i_ref (i32 (i_ref x - 1)) x.
Definition claim (dev inum : Z) (x : inode) : inode :=
  set_i_vaild 0 (set_i_ref 1 (set_i_inum inum (set_i_dev dev x))).

Lemma iget_scan_eq l k dev inum r :
  iget_scan l k dev inum r =
    match find_index (live dev inum) l with
    | Some i => IHit (k + i)
    | None => IFree (match r with Some _ => r | None => Nat.add k <$> find_index free_slot l end)
    end.
Proof.
  revert k r. induction l as [|x l IH]; intros k r; cbn; [by destruct r|].
  change ((0 <? i_ref x) && (i_dev x =? dev) && (i_inum x =? inum)) with (live dev inum x).
  destruct (live dev inum x) eqn:E; [f_equal; lia|].
  rewrite IH. destruct (find_index (live dev inum) l) as [i|]; cbn; [f_equal; lia|]. f_equal.
  unfold free_slot at 2. destruct r; [done|]. destruct (i_ref x =? 0); cbn; [f_equal; lia|].
  destruct (find_index free_slot l); cbn; [f_equal; lia|done].
Qed.

Section inode_table.
  Implicit Types s : kstate.

(** A critical section of [inodecache.slock] that writes one inode. *)
Lemma icache_section {A} i f (a : A) s :
  cpu_wf s -> lock_free LIcache s ->
  (upd_inode_m i f;; release LIcache;; mret a) (held LIcache s) = Ok a (upd_inode i f (touch s)).
Proof.
  intros Hc Hl. unfold upd_inode_m. step_prim.
  by rewrite (release_neutral _ (neutral_upd_inode i f) LIcache s Hc Hl).
Qed.

Lemma iget_eq dev inum s :
  kready s ->
  iget dev inum s =
    match find_index (live dev inum) (k_inodes s) with
    | Some i => Ok i (upd_inode i ref_up (touch s))
    | None =>
        match find_index free_slot (k_inodes s) with
        | Some i => Ok i (upd_inode i (claim dev inum) (touch s))
        | None => Panic "iget panic" (held LIcache s)
        end
    end.
Proof.
  intros Hk. unfold iget.
  rewrite (bind_ok _ _ _ _ _ (acquire_free _ _ (kr_cpu s Hk) (kr_locks s Hk LIcache I))).
  rewrite (bind_ok _ _ _ _ _ (eq_refl : gets k_inodes (held LIcache s) = Ok (k_inodes s) (held LIcache s))).
  rewrite iget_scan_eq. destruct (find_index (live dev inum) (k_inodes s)) as [i|]; cbn [plus].
  - apply icache_section; by apply Hk.
  - destruct (find_index free_slot (k_inodes s)) as [i|]; cbn [fmap option_fmap option_map plus]; [|done].
    apply icache_section; by apply Hk.
Qed.

Lemma icache_upd l i f x :
  icache_inv l -> l !! i = Some x -> 0 <= i_ref (f x) < 2 ^ 31 - 1 ->
  (0 < i_ref (f x) -> forall j y, l !! j = Some y -> 0 < i_ref y ->
     i_dev y = i_dev (f x) -> i_inum y = i_inum (f x) -> j = i) ->
  icache_inv (upd_at i f l).
Proof.
  intros [Hu Hr] Hx Hf Hone.
  assert (forall j y, upd_at i f l !! j = Some y -> (j = i /\ y = f x) \/ (j <> i /\ l !! j = Some y)) as Hl.
  { intros j y. destruct (decide (i = j)) as [<-|].
    - rewrite (upd_at_lookup_eq _ _ _ _ Hx). intros [= <-]. by left.
    - rewrite upd_at_lookup_ne by done. by right. }
  split.
  - intros j k y z Hj Hk Hry Hrz Hd Hn.
    destruct (Hl j y Hj) as [[-> ->]|[? Hj']], (Hl k z Hk) as [[-> ->]|[? Hk']]; try done.
    + symmetry. by apply (Hone Hry k z).
    + by apply (Hone Hrz j y).
    + by apply (Hu j k y z).
  - apply Forall_lookup. intros j y Hj. destruct (Hl j y Hj) as [[-> ->]|[_ Hj']]; [done|].
    by eapply (Forall_lookup_1 _ _ _ _ Hr).
Qed.

(** [iget] keeps one slot per inode. *)
Lemma iget_inv dev inum s i s' :
  kready s -> icache_inv (k_inodes s) ->
  (forall x, k_inodes s !! i = Some x -> i_ref x < 2 ^ 31 - 2) ->
  iget dev inum s = Ok i s' ->
  icache_inv (k_inodes s') /\
  (exists x, k_inodes s' !! i = Some x /\ i_dev x = dev /\ i_inum x = inum /\ 0 < i_ref x) /\
  (forall j, j <> i -> k_inodes s' !! j = k_inodes s !! j).
Proof.
  intros Hk Hi Hb. rewrite iget_eq by done.
  assert (forall f, k_inodes (upd_inode i f (touch s)) = upd_at i f (k_inodes s)) as E by done.
  destruct (find_index (live dev inum) (k_inodes s)) as [j|] eqn:Hf.
  - intros Heq. assert (j = i) as -> by congruence. assert (s' = upd_inode i ref_up (touch s)) as -> by congruence.
    apply find_index_Some in Hf as (x & Hx & [[Hr Hd]%andb_prop Hn]%andb_prop & _).
    apply Z.ltb_lt in Hr. apply Z.eqb_eq in Hd, Hn. rewrite E. specialize (Hb x Hx).
    assert (i_ref (ref_up x) = i_ref x + 1) as Er by (cbn; rewrite i32_id; lia).
    split; [|split].
    + apply (icache_upd _ _ _ x); try done; [lia|]. intros _ j y Hj Hry Hdy Hny.
      by apply (ii_uniq _ Hi j i y x).
    + exists (ref_up x). rewrite (upd_at_lookup_eq _ _ _ _ Hx). split; [done|]. split; [done|]. split; [done|]. lia.
    + intros j Hj. by apply upd_at_lookup_ne.
  - destruct (find_index free_slot (k_inodes s)) as [j|] eqn:Hf2; [|done].
    intros Heq. assert (j = i) as -> by congruence.
    assert (s' = upd_inode i (claim dev inum) (touch s)) as -> by congruence.
    apply find_index_Some in Hf2 as (x & Hx & _ & _). apply find_index_None in Hf. rewrite E.
    split; [|split].
    + apply (icache_upd _ _ _ x); try done. cbn. intros _ j y Hj Hry Hdy Hny.
      pose proof (Forall_lookup_1 _ _ _ _ Hf Hj) as Hl. unfold live in Hl.
      rewrite Hdy, Hny, !Z.eqb_refl in Hl. apply Z.ltb_lt in Hry. by rewrite Hry in Hl.
    + exists (claim dev inum x). by rewrite (upd_at_lookup_eq _ _ _ _ Hx).
    + intros j Hj. by apply upd_at_lookup_ne.
Qed.

(** A second [iget] of an inode in use finds the same slot. *)
Lemma live_found l i x dev inum :
  icache_inv l -> l !! i = Some x -> live dev inum x = true -> find_index (live dev inum) l = Some i.
Proof.
  intros Hi Hx Hl. destruct (find_index_is_Some _ _ _ _ Hx Hl) as [j Hj]. rewrite Hj. f_equal.
  apply find_index_Some in Hj as (y & Hy & Hly & _). unfold live in *.
  apply andb_prop in Hl as [[Hr Hd]%andb_prop Hn], Hly as [[Hr' Hd']%andb_prop Hn'].
  apply Z.ltb_lt in Hr, Hr'. apply Z.eqb_eq in Hd, Hn, Hd', Hn'.
  apply (ii_uniq _ Hi j i y x); try done; congruence.
Qed.

Lemma idup_eq i s : cpu_wf s -> lock_free LIcache s -> idup i s = Ok i (upd_inode i ref_up (touch s)).
Proof.
  intros Hc Hl. unfold idup. rewrite (bind_ok _ _ _ _ _ (acquire_free _ _ Hc Hl)).
  by apply icache_section.
Qed.
End inode_table.

Section fs_props.
  Context {L : LinkMap} {Ot : Others} {D : BlockDev} `{!BlockDevOk D}.
  Implicit Types s : kstate.

Lemma inode_at_upd i f s : kready s -> (i < INODES)%nat -> inode_at (upd_inode i f s) i = f (inode_at s i).
Proof. intros Hk Hi. unfold inode_at, upd_inode. kred. rewrite upd_at_eq; [done|]. by rewrite (kr_ninodes s Hk). Qed.
Lemma inode_at_upd_ne i j f s : i <> j -> inode_at (upd_inode i f s) j = inode_at s j.
Proof. intros. unfold inode_at, upd_inode. kred. by rewrite upd_at_ne. Qed.

(** [iput] of an inode not marked valid only drops the reference. *)
Lemma iput_invalid_eq i s :
  kready s -> i_vaild (inode_at s i) = 0 ->
  iput (Some i) s = Ok tt (upd_inode i ref_down (touch s)).
Proof.
  intros Hk Hv. unfold iput, deref.
  rewrite (bind_ok _ _ _ _ _ (acquire_free _ _ (kr_cpu s Hk) (kr_locks s Hk LIcache I))).
  unfold get_inode, upd_inode_m. step_prim. change (inode_at (held LIcache s) i) with (inode_at s i).
  rewrite Hv. cbn [Z.eqb negb]. rewrite andb_false_r. cbn [andb].
  exact (release_neutral _ (neutral_upd_inode i ref_down) LIcache s (kr_cpu s Hk) (kr_locks s Hk LIcache I)).
Qed.

(** ** [ilock] *)

Definition sl_take (pid : Z) (l : sleeplock) : sleeplock := set_sl_pid (i32 pid) (set_sl_locked 1 l).

(** The inode after [ilock]: locked, loaded from the disk, and marked not
    valid. *)
Definition ilocked s (p i : nat) : inode :=
  let x := inode_at s i in
  set_i_vaild 0 (load_dinode (get_dinode (disk_block s (IBLOCK (i_inum x) (k_sb s))) (dinode_off (i_inum x)))
    (set_i_splock (sl_take (p_pid (proc_at s p)) (i_splock x)) x)).

Lemma ilock_loads s p i :
  fs_ready s p -> (i < INODES)%nat -> 1 <= i_ref (inode_at s i) ->
  sl_locked (i_splock (inode_at s i)) = 0 -> i_vaild (inode_at s i) = 0 ->
  i_dev (inode_at s i) = ROOTDEV -> IBLOCK (i_inum (inode_at s i)) (k_sb s) < 2 ^ 31 ->
  exists s', ilock (Some i) s = Ok tt s' /\ fs_ready s' p /\ inode_at s' i = ilocked s p i /\
    (forall j, j <> i -> inode_at s' j = inode_at s j) /\ k_disk s' = k_disk s /\ k_sb s' = k_sb s /\
    k_mem s' = k_mem s /\ (forall j, p_pid (proc_at s' j) = p_pid (proc_at s j)).
Proof.
  intros Hs Hi Hr Hsl Hv Hd Hib. pose proof Hs as [[Hk Hl Hvi Hbl Hp Hpid Hq] _ _].
  unfold ilock, get_inode. step_prim. destruct (Z.ltb_spec (i_ref (inode_at s i)) 1); [lia|].
  rewrite (sleep_lock_free (SInode i) s p Hk Hi Hp Hsl).
  set (x := inode_at s i) in *. set (pid := p_pid (proc_at s p)) in *.
  set (f1 := fun d => set_i_splock (sl_take pid (i_splock d)) d).
  change (sl_taken (SInode i) pid (touch s)) with (upd_inode i f1 (touch s)).
  assert (inode_at (upd_inode i f1 (touch s)) i = f1 x) as -> by (by apply inode_at_upd; [apply kready_touch|]).
  change (i_vaild (f1 x)) with (i_vaild x). rewrite Hv. cbn [Z.eqb].
  change (i_dev (f1 x)) with (i_dev x). change (i_inum (f1 x)) with (i_inum x). rewrite Hd.
  change (k_sb (upd_inode i f1 (touch s))) with (k_sb s).
  set (n := IBLOCK (i_inum x) (k_sb s)) in *.
  assert (fs_ready (upd_inode i f1 (touch s)) p) as Hs1 by by apply fs_ready_inode, fs_ready_touch.
  assert (0 <= n) as Hn0 by (unfold n, IBLOCK; pose proof (u32_range (i_inum x / IPB + sb_inodestart (k_sb s))); lia).
  destruct (bread_block _ p n Hs1 ltac:(lia)) as (r & s2 & E2 & Hh & Hfr & Hdk). rewrite E2.
  unfold get_data, upd_inode_m. step_prim.
  rewrite (ho_data _ _ _ _ _ Hh). change (disk_block (upd_inode i f1 (touch s)) n) with (disk_block s n) in *.
  set (f2 := load_dinode _).
  assert (k_disk s2 = k_disk s) as Hdk2 by exact Hdk.
  rewrite <- (disk_block_ext s (upd_inode i f2 s2)) in Hh by exact Hdk2.
  pose proof (holding_neutral _ _ _ _ _ _ (io_neutral_inode i f2) Hh) as Hh'.
  destruct (brelease_block _ _ _ _ Hh') as (s3 & E3 & Hs3 & Hfr3 & Hdk3). rewrite E3.
  exists (upd_inode i (set_i_vaild 0) s3). split; [done|]. split; [by apply fs_ready_inode|].
  assert (k_inodes s3 = upd_at i f2 (upd_at i f1 (k_inodes s))) as Ein.
  { rewrite (fr_inodes _ _ Hfr3). cbn. by rewrite (fr_inodes _ _ Hfr). }
  split; [|split; [|split; [|split; [|split]]]].
  6: { intros j. change (proc_at (upd_inode i (set_i_vaild 0) s3) j) with (proc_at s3 j).
       rewrite (io_frame_pid _ _ _ Hfr3). exact (io_frame_pid _ _ j Hfr). }
  - rewrite inode_at_upd; [|apply Hs3|done]. unfold inode_at at 1. rewrite Ein.
    rewrite !upd_at_eq by (rewrite ?length_upd_at, (kr_ninodes s Hk); done). done.
  - intros j Hj. rewrite inode_at_upd_ne by done. unfold inode_at. rewrite Ein.
    by rewrite !upd_at_ne by done.
  - change (k_disk (upd_inode i (set_i_vaild 0) s3)) with (k_disk s3). rewrite Hdk3. exact Hdk2.
  - change (k_sb (upd_inode i (set_i_vaild 0) s3)) with (k_sb s3). rewrite (fr_sb _ _ Hfr3). exact (fr_sb _ _ Hfr).
  - change (k_mem (upd_inode i (set_i_vaild 0) s3)) with (k_mem s3). rewrite (fr_mem _ _ Hfr3). exact (fr_mem _ _ Hfr).
Qed.

(** ** The block map *)

(** The disk block of block [n] of the inode [x]; 0 when not allocated. *)
Definition file_block s (x : inode) (n : Z) : Z :=
  if n <? NDIRECT then nth (Z.to_nat n) (i_addrs x) 0
  else get32 (disk_block s (nth 12 (i_addrs x) 0)) (Z.to_nat (4 * (n - NDIRECT))).

(** The addresses of the inode are blocks of the device. *)
Record inode_ok (x : inode) : Prop := {
  io_dev : i_dev x = ROOTDEV;
  io_len : length (i_addrs x) = 13%nat;
  io_addrs : Forall (fun a => 0 <= a < 2 ^ 31) (i_addrs x)
}.

(** A step that only does disk input. *)
Definition io_step s p s' : Prop := fs_ready s' p /\ io_frame s s' /\ k_disk s' = k_disk s.

Lemma io_step_refl s p : fs_ready s p -> io_step s p s.
Proof. intros. split; [done|]. split; [reflexivity|done]. Qed.
Lemma io_step_trans s p s' s'' : io_step s p s' -> io_step s' p s'' -> io_step s p s''.
Proof.
  intros (_ & F & E) (R & F' & E'). split; [done|]. split; [by etransitivity|congruence].
Qed.

Lemma io_step_touch s p : fs_ready s p -> io_step s p (touch s).
Proof.
  intros Hs. split; [by apply fs_ready_touch|]. split; [|done]. split; try done.
  - rewrite curproc_touch; [done|apply Hs].
  - intros i. exists (p_state (proc_at s i)). change (proc_at (touch s) i) with (proc_at s i).
    by destruct (proc_at s i).
Qed.

(** [bread] and [brelease] around a look at the data. *)
Lemma with_block {A} s p n (k : nat -> K A) (a : list Z -> A) :
  fs_ready s p -> 0 <= n < 2 ^ 31 ->
  (forall r t, b_data (buf_at t r) = disk_block s n -> k r t = (brelease r;; mret (a (disk_block s n))) t) ->
  exists s', (r ← bread ROOTDEV n; k r) s = Ok (a (disk_block s n)) s' /\ io_step s p s'.
Proof.
  intros Hs Hn Hk. destruct (bread_block s p n Hs Hn) as (r & s1 & E1 & Hh & Hfr & Hd).
  rewrite (bind_ok _ _ _ _ _ E1). rewrite Hk by by destruct Hh.
  rewrite <- (disk_block_ext s s1) in Hh by done.
  destruct (brelease_block s1 p r n Hh) as (s2 & E2 & Hs2 & Hfr2 & Hd2).
  rewrite (bind_ok _ _ _ _ _ E2). exists s2. split; [done|].
  split; [done|]. split; [by etransitivity|congruence].
Qed.

Lemma bmap_mapped s p ip n :
  let x := inode_at s ip in
  fs_ready s p -> inode_ok x -> 0 <= n < MAXFILE -> file_block s x n <> 0 ->
  (NDIRECT <= n -> nth 12 (i_addrs x) 0 <> 0) ->
  exists s', bmap ip n s = Ok (file_block s x n) s' /\ io_step s p s'.
Proof.
  intros x Hs [Hdev Hlen Ha] Hn Hb Hi. unfold bmap, get_inode.
  rewrite (bind_ok _ _ _ _ _ (eq_refl : gets (fun s => inode_at s ip) s = Ok x s)).
  unfold file_block in *. destruct (Z.ltb_spec n NDIRECT) as [Hd|Hd].
  - cbv zeta. destruct (Z.eqb_spec (nth (Z.to_nat n) (i_addrs x) 0) 0); [done|].
    exists s. split; [done|by apply io_step_refl].
  - change (Z.to_nat NDIRECT) with 12%nat. specialize (Hi Hd). unfold MAXFILE in Hn.
    destruct (Z.ltb_spec (n - NDIRECT) NINDIRECT); [|lia].
    destruct (Z.eqb_spec (nth 12 (i_addrs x) 0) 0) as [|_]; [done|]. rewrite Hdev.
    assert (0 <= nth 12 (i_addrs x) 0 < 2 ^ 31) as Hr.
    { apply (proj1 (Forall_forall _ _) Ha). apply list_elem_of_In, nth_In. lia. }
    rewrite bind_ret.
    apply (with_block s p (nth 12 (i_addrs x) 0) _
      (fun d => get32 d (Z.to_nat (4 * (n - NDIRECT))))); [done|done|].
    intros r t Et. unfold get_data. step_prim. rewrite Et.
    by destruct (Z.eqb_spec (get32 (disk_block s (nth 12 (i_addrs x) 0)) (Z.to_nat (4 * (n - NDIRECT)))) 0).
Qed.

(** ** [readi] *)

(** [n] bytes of the chunk [c] over and over. *)
Definition repeated (c : list Z) (n : nat) : list Z := take n (concat (replicate n c)).

Lemma readi_loop_S fuel ip d off n tot out :
  readi_loop (S fuel) ip d off n tot out =
    (if negb (tot <? n) then mret (i32 tot, out) else
     i ← get_inode ip;
     addr ← bmap ip (off / BSIZE);
     b ← bread (i_dev i) addr;
     let m := Z.min (n - tot) (BSIZE - off mod BSIZE) in
     data ← get_data b;
     let bs := take (Z.to_nat m) (drop (Z.to_nat (off mod BSIZE)) data) in
     r ← copy_to d tot bs;
     if r =? -1 then brelease b;; mret (-1, out) else
     brelease b;;
     readi_loop fuel ip d off n (tot + m) (out ++ bs)).
Proof. done. Qed.

Lemma readi_loop_local k s p ip off n tot out :
  let x := inode_at s ip in
  let b := file_block s x (off / BSIZE) in
  let c := drop (Z.to_nat (off mod BSIZE)) (disk_block s b) in
  fs_ready s p -> inode_ok x -> 0 <= off -> off / BSIZE < MAXFILE -> 0 < b < 2 ^ 31 ->
  (NDIRECT <= off / BSIZE -> nth 12 (i_addrs x) 0 <> 0) -> length (disk_block s b) = Z.to_nat BSIZE ->
  0 <= tot <= n -> n < 2 ^ 31 -> n - tot <= Z.of_nat k ->
  exists s', readi_loop (S k) ip DLocal off n tot out s =
      Ok (n, out ++ take (Z.to_nat (n - tot)) (concat (replicate k c))) s' /\ io_step s p s'.
Proof.
  revert s tot out. induction k as [|k IH]; intros s tot out x b c Hs Hx Ho Hmax Hb Hi Hlen Ht Hn Hk;
    rewrite readi_loop_S.
  { destruct (Z.ltb_spec tot n); [lia|]. cbn [negb]. replace tot with n by lia.
    exists s. rewrite Z.sub_diag. cbn [Z.to_nat take]. rewrite app_nil_r, i32_id by lia.
    split; [done|by apply io_step_refl]. }
  destruct (Z.ltb_spec tot n) as [Hlt|Hge]; cbn [negb].
  2: { replace tot with n by lia. exists s. rewrite Z.sub_diag. cbn [Z.to_nat take]. rewrite app_nil_r, i32_id by lia.
       split; [done|by apply io_step_refl]. }
  unfold get_inode. rewrite (bind_ok _ _ _ _ _ (eq_refl : gets (fun s => inode_at s ip) s = Ok x s)).
  assert (0 <= off / BSIZE < MAXFILE) as Hob by (split; [apply Z.div_pos; unfold BSIZE; lia|done]).
  destruct (bmap_mapped s p ip (off / BSIZE) Hs Hx Hob ltac:(fold x; fold b; lia) Hi) as (s1 & E1 & St1).
  fold x in E1. fold b in E1. rewrite (bind_ok _ _ _ _ _ E1). rewrite (io_dev _ Hx).
  pose proof St1 as (Hs1 & Hf1 & Hd1).
  destruct (bread_block s1 p b Hs1 ltac:(lia)) as (r & s2 & E2 & Hh2 & Hf2 & Hd2).
  rewrite (bind_ok _ _ _ _ _ E2). unfold get_data. step_prim. rewrite (ho_data _ _ _ _ _ Hh2).
  rewrite (disk_block_ext s s1) by done. fold c.
  set (m := Z.min (n - tot) (BSIZE - off mod BSIZE)).
  assert (0 <= off mod BSIZE < BSIZE) as Hmod by (apply Z.mod_pos_bound; done).
  assert (Z.of_nat (length c) = BSIZE - off mod BSIZE) as Hc.
  { unfold c. rewrite length_drop, Hlen. lia. }
  unfold copy_to. step_prim.
  assert (cpu_wf s2) as Hc2 by (apply (kr_cpu _ (fb_ready _ _ (ho_base _ _ _ _ _ Hh2)))).
  rewrite (myproc_eq s2 Hc2). cbn [Z.eqb].
  assert (holding (touch s2) p r b (disk_block (touch s2) b)) as Hh3.
  { change (disk_block (touch s2) b) with (disk_block s2 b). rewrite (disk_block_ext s1 s2) by done.
    destruct Hh2 as [[Hk2 Hl2 Hv2 Hbl2 Hp2 Hpid2 Hq2] ? ? ? ? ? ? ? ? ?]. split; try done. split; try done.
    - by apply kready_touch.
    - by rewrite curproc_touch.
    - by apply quiet_touch. }
  destruct (brelease_block (touch s2) p r b Hh3) as (s3 & E3 & Hs3 & Hf3 & Hd3). rewrite E3.
  assert (io_step s p s3) as St3.
  { split; [done|]. split; [|by rewrite Hd3; cbn; rewrite Hd2, Hd1].
    etransitivity; [exact Hf1|]. etransitivity; [exact Hf2|]. etransitivity; [|exact Hf3].
    split; try done; [by rewrite curproc_touch|]. intros i. exists (p_state (proc_at s2 i)).
    change (proc_at (touch s2) i) with (proc_at s2 i). by destruct (proc_at s2 i). }
  pose proof St3 as (_ & F3 & D3).
  assert (inode_at s3 ip = x) as Ex by (unfold x, inode_at; by rewrite (fr_inodes _ _ F3)).
  assert (forall n, disk_block s3 n = disk_block s n) as Ed by (intros; by apply disk_block_ext).
  assert (file_block s3 x (off / BSIZE) = b) as Eb by (unfold b, file_block; by rewrite Ed).
  specialize (IH s3 (tot + m) (out ++ take (Z.to_nat m) c)). cbv zeta in IH.
  rewrite Ex, Eb, Ed in IH. fold c in IH.
  destruct IH as (s4 & E4 & St4); try done; try lia.
  rewrite E4. exists s4. split; [|by eapply io_step_trans].
  apply (f_equal (fun l => Ok (n, l) s4)). rewrite <- app_assoc. f_equal. cbn [replicate concat].
  destruct (decide (n - tot <= BSIZE - off mod BSIZE)).
  - assert (m = n - tot) as -> by lia. replace (n - (tot + (n - tot))) with 0 by lia. cbn [Z.to_nat take].
    rewrite app_nil_r. rewrite take_app_le by lia. done.
  - assert (m = BSIZE - off mod BSIZE) as -> by lia. rewrite take_ge by lia. rewrite take_app_ge by lia.
    do 2 f_equal. lia.
Qed.

Lemma readi_local s p ip off n :
  let x := inode_at s ip in
  let b := file_block s x (off / BSIZE) in
  let c := drop (Z.to_nat (off mod BSIZE)) (disk_block s b) in
  let n' := Z.min n (i_size x - off) in
  fs_ready s p -> inode_ok x -> 0 <= off -> off / BSIZE < MAXFILE -> 0 < b < 2 ^ 31 ->
  (NDIRECT <= off / BSIZE -> nth 12 (i_addrs x) 0 <> 0) -> length (disk_block s b) = Z.to_nat BSIZE ->
  off <= i_size x < 2 ^ 31 -> 0 <= n < 2 ^ 31 ->
  exists s', readi ip DLocal off n s = Ok (n', repeated c (Z.to_nat n')) s' /\ io_step s p s'.
Proof.
  intros x b c n' Hs Hx Ho Hmax Hb Hi Hlen Hsz Hn. unfold readi, get_inode.
  rewrite (bind_ok _ _ _ _ _ (eq_refl : gets (fun s => inode_at s ip) s = Ok x s)).
  rewrite !u32_id by lia. destruct (Z.ltb_spec (i_size x) off); [lia|].
  destruct (Z.ltb_spec (off + n) off); [lia|]. cbn [orb]. cbv zeta.
  replace (if i_size x <? off + n then i_size x - off else n) with n'
    by (unfold n'; destruct (Z.ltb_spec (i_size x) (off + n)); lia).
  destruct (readi_loop_local (Z.to_nat n') s p ip off n' 0 []) as (s' & E & St); try done; try lia.
  exists s'. rewrite E. split; [|done]. unfold repeated. by rewrite Z.sub_0_r.
Qed.

(** A read inside one block returns the bytes of the file. *)
Lemma repeated_take c n : (0 < n)%nat -> (n <= length c)%nat -> repeated c n = take n c.
Proof.
  intros H0 Hn. unfold repeated. destruct n; [lia|]. cbn [replicate concat].
  by rewrite take_app_le by lia.
Qed.

(** ** [writei] refuses everything beyond byte [MAXFILE] *)

Definition maxfile_msg : list Z := str "off + n > MAXFILE " ++ [NL].

Lemma writei_refuses s ip src off n :
  kready s -> uart_ready s -> 0 <= off <= i_size (inode_at s ip) -> 0 <= n -> off + n < 2 ^ 32 ->
  MAXFILE < off + n ->
  writei ip src off n s = Ok (-1) (emit maxfile_msg (touch s)).
Proof.
  intros Hk Hu Ho Hn Hb Hm. unfold writei, get_inode.
  rewrite (bind_ok _ _ _ _ _ (eq_refl : gets (fun s => inode_at s ip) s = Ok (inode_at s ip) s)).
  rewrite !u32_id by lia. destruct (Z.ltb_spec (i_size (inode_at s ip)) off); [lia|].
  destruct (Z.ltb_spec (off + n) off); [lia|]. cbn [orb].
  destruct (Z.ltb_spec MAXFILE (off + n)); [|lia].
  fold maxfile_msg.
  rewrite (bind_ok _ _ _ _ _ (printf_plain maxfile_msg s (kr_cpu s Hk)
    ltac:(pose proof (kr_noff s Hk); lia) Hu ltac:(repeat constructor; done) ltac:(done)
    (fun _ => kr_locks s Hk LPr I))).
  done.
Qed.

(** ** [iupdate] *)

Lemma iupdate_writes s p ip :
  let x := inode_at s ip in
  let n := IBLOCK (i_inum x) (k_sb s) in
  fs_ready s p -> i_dev x = ROOTDEV -> n < 2 ^ 31 ->
  exists s', iupdate ip s = Ok tt s' /\ fs_ready s' p /\ io_frame s s' /\
    disk_block s' n = put_dinode (inode_dinode x) (disk_block s n) (dinode_off (i_inum x)) /\
    (forall n', 0 <= n' < 2 ^ 31 -> n' <> n -> disk_block s' n' = disk_block s n').
Proof.
  intros x n Hs Hd Hn. assert (0 <= n) as Hn0 by (unfold n, IBLOCK; pose proof (u32_range (i_inum x / IPB + sb_inodestart (k_sb s))); lia).
  unfold iupdate, get_inode.
  rewrite (bind_ok _ _ _ _ _ (eq_refl : gets (fun s => inode_at s ip) s = Ok x s)).
  rewrite (bind_ok _ _ _ _ _ (eq_refl : gets k_sb s = Ok (k_sb s) s)). rewrite Hd. fold n.
  destruct (bread_block s p n Hs ltac:(lia)) as (r & s1 & E1 & H1 & F1 & D1). rewrite (bind_ok _ _ _ _ _ E1).
  assert (inode_at s1 ip = x) as Ex by (unfold x, inode_at; by rewrite (fr_inodes _ _ F1)).
  rewrite (bind_ok _ _ _ _ _ (eq_refl : gets (fun s => inode_at s ip) s1 = Ok (inode_at s1 ip) s1)). rewrite Ex.
  destruct (write_back_ok s1 p r n _ (fun l => put_dinode (inode_dinode x) l (dinode_off (i_inum x))) H1 ltac:(lia))
    as (s2 & E2 & Hs2 & F2 & B2 & O2).
  exists s2. split; [exact E2|]. split; [done|]. split; [by etransitivity|]. split; [done|].
  intros n' Hr Hne. rewrite O2 by done. by apply disk_block_ext.
Qed.

(** ** Directories in one block *)

Definition dir_entries (blk : list Z) (k : nat) : list dirent :=
  (fun i => dec_dirent (take 16 (drop (16 * i) blk))) <$> seq 0 k.
(** The names agree up to [DIRSIZ] characters. *)
Definition names (name : chars) (de : dirent) : bool :=
  bool_decide (cprefix DIRSIZ name = cprefix DIRSIZ (of_list (de_name de))).

Lemma inodeByName_loop_S fuel ip name off :
  inodeByName_loop (S fuel) ip name off =
    (x ← get_inode ip;
     if negb (off <? i_size x) then mret None else
     rb ← readi ip DLocal off 16;
     let '(r, bs) := (rb : Z * list Z) in
     if negb (r =? 16) then panic "inodeByName panic...\n" else
     let de := dec_dirent bs in
     if strncmp DIRSIZ name (of_list (de_name de)) =? 0
     then i ← iget (i_dev x) (de_inum de); mret (Some i)
     else inodeByName_loop fuel ip name (off + 16)).
Proof. done. Qed.

Lemma inodeByName_loop_dir m s p ip name k j :
  let x := inode_at s ip in
  let b := nth 0 (i_addrs x) 0 in
  let es := dir_entries (disk_block s b) k in
  fs_ready s p -> inode_ok x -> 0 < b < 2 ^ 31 -> i_size x = 16 * Z.of_nat k -> (k <= 64)%nat ->
  length (disk_block s b) = Z.to_nat BSIZE -> Forall (fun c => 0 <= c < 2 ^ 8) (disk_block s b) -> bytes name ->
  (j <= k <= j + m)%nat ->
  exists s', io_step s p s' /\
    inodeByName_loop (S m) ip name (16 * Z.of_nat j) s =
      match find_index (names name) (drop j es) with
      | None => Ok None s'
      | Some i => (r ← iget ROOTDEV (de_inum (es !!! (j + i)%nat)); mret (Some r)) s'
      end.
Proof.
  revert s j. induction m as [|m IH]; intros s j x b es Hs Hx Hb Hsz Hk Hlen Hby Hnm Hj;
    rewrite inodeByName_loop_S; unfold get_inode.
  all: rewrite (bind_ok _ _ _ _ _ (eq_refl : gets (fun s => inode_at s ip) s = Ok x s)).
  all: destruct (decide (j = k)) as [->|Hjk]; [|try lia].
  1,2: destruct (Z.ltb_spec (16 * Z.of_nat k) (i_size x)); [lia|]; exists s; split; [by apply io_step_refl|];
    rewrite drop_ge; [done|]; unfold es, dir_entries; rewrite length_fmap, length_seq; lia.
  destruct (Z.ltb_spec (16 * Z.of_nat j) (i_size x)); [|lia]. cbn [negb].
  assert (16 * Z.of_nat j / BSIZE = 0) as Eq0 by (apply Z.div_small; unfold BSIZE; lia).
  assert ((16 * Z.of_nat j) mod BSIZE = 16 * Z.of_nat j) as Em by (apply Z.mod_small; unfold BSIZE; lia).
  assert (file_block s x (16 * Z.of_nat j / BSIZE) = b) as Eb by (by rewrite Eq0).
  destruct (readi_local s p ip (16 * Z.of_nat j) 16) as (s1 & E1 & St1); fold x; rewrite ?Eb, ?Eq0; try done; try lia.
  fold x in E1. rewrite Eb, Em in E1. rewrite (bind_ok _ _ _ _ _ E1).
  replace (Z.min 16 (i_size x - 16 * Z.of_nat j)) with 16 by lia. rewrite Z.eqb_refl. cbn [negb].
  rewrite repeated_take by (rewrite ?length_drop, ?Hlen; unfold BSIZE; lia).
  replace (Z.to_nat (16 * Z.of_nat j)) with (16 * j)%nat by lia. change (Z.to_nat 16) with 16%nat.
  set (bs := take 16 (drop (16 * j) (disk_block s b))).
  assert (es !! j = Some (dec_dirent bs)) as Hes.
  { unfold es, dir_entries. rewrite list_lookup_fmap, lookup_seq_lt by lia. done. }
  rewrite (drop_S es (dec_dirent bs) j Hes). cbn [find_index].
  assert ((strncmp DIRSIZ name (of_list (de_name (dec_dirent bs))) =? 0) = names name (dec_dirent bs)) as ->.
  { unfold names. apply eq_true_iff_eq. rewrite Z.eqb_eq, bool_decide_eq_true.
    apply strncmp_zero; [done|]. apply of_list_bytes. cbn [dec_dirent de_name].
    repeat first [apply Forall_take | apply Forall_drop]. done. }
  rewrite (io_dev _ Hx). destruct (names name (dec_dirent bs)).
  - exists s1. split; [done|]. rewrite Nat.add_0_r. by rewrite (list_lookup_total_correct _ _ _ Hes).
  - pose proof St1 as (Hs1 & F1 & D1).
    assert (inode_at s1 ip = x) as Ex by (unfold x, inode_at; by rewrite (fr_inodes _ _ F1)).
    assert (disk_block s1 b = disk_block s b) as Ed by (by apply disk_block_ext).
    replace (16 * Z.of_nat j + 16) with (16 * Z.of_nat (S j)) by lia.
    specialize (IH s1 (S j)). cbv zeta in IH. rewrite Ex in IH. fold b in IH. rewrite Ed in IH. fold es in IH.
    destruct IH as (s2 & St2 & E2); try done; try lia.
    exists s2. split; [by eapply io_step_trans|]. rewrite E2.
    destruct (find_index (names name) (drop (S j) es)) as [i|]; [|done].
    change (S <$> Some i) with (Some (S i)). cbv iota. assert ((j + S i)%nat = (S j + i)%nat) as -> by lia. reflexivity.
Qed.

Lemma inodeByName_dir s p ip name k :
  let x := inode_at s ip in
  let b := nth 0 (i_addrs x) 0 in
  let es := dir_entries (disk_block s b) k in
  fs_ready s p -> inode_ok x -> 0 < b < 2 ^ 31 -> i_size x = 16 * Z.of_nat k -> (k <= 64)%nat ->
  length (disk_block s b) = Z.to_nat BSIZE -> Forall (fun c => 0 <= c < 2 ^ 8) (disk_block s b) -> bytes name ->
  exists s', io_step s p s' /\
    inodeByName ip name s =
      match find_index (names name) es with
      | None => Ok None s'
      | Some i => (r ← iget ROOTDEV (de_inum (es !!! i)); mret (Some r)) s'
      end.
Proof.
  intros x b es Hs Hx Hb Hsz Hk Hlen Hby Hnm. unfold inodeByName, get_inode.
  rewrite (bind_ok _ _ _ _ _ (eq_refl : gets (fun s => inode_at s ip) s = Ok x s)). rewrite Hsz.
  exact (inodeByName_loop_dir (Z.to_nat (16 * Z.of_nat k)) s p ip name k 0 Hs Hx Hb Hsz Hk Hlen Hby Hnm ltac:(lia)).
Qed.
End fs_props.
