(* ===== verification/FsPath.v ===== *)
(** * From names to inodes: unlocking, [rootsub], and reading what it finds

    What [exec] does with a path: find the inode in the root directory, lock
    it, read its first bytes. *)

From S2P Require Import Prelude Layout Memory CString State Spinlock Sched Sleeplock Uart Print.
From S2P Require Import Kmem PageTable Uvm Ondisk Bio Block Fs FsProps.

(** The inode table at boot: no inode in use, none locked. *)
Definition icache_empty (s : kstate) : Prop :=
  Forall (fun x => i_ref x = 0 /\ sl_locked (i_splock x) = 0 /\ i_vaild x = 0) (k_inodes s).

(** The dinode of [inum] on the disk. *)
Definition disk_dinode (s : kstate) (inum : Z) : dinode :=
  get_dinode (disk_block s (IBLOCK inum (k_sb s))) (dinode_off inum).

Section path.
  Context {L : LinkMap} {Ot : Others} {D : BlockDev} `{!BlockDevOk D}.
  Implicit Types s : kstate.

Lemma fs_ready_wake s p c m : fs_ready s p -> fs_ready (upd_procs (imap (wake c m)) s) p.
Proof.
  intros [[Hk Hl Hv Hbl Hp Hpid Hq] Hi Hc]. destruct (proc_at_wake c m s p) as [st E].
  split; [split|exact Hi|exact Hc]; try done.
  - by apply kready_wake.
  - by rewrite E.
  - by apply quiet_wake.
Qed.

(** Unlocking an inode the process holds. *)
Lemma iunlock_ok s p i :
  fs_ready s p -> (i < INODES)%nat -> 1 <= i_ref (inode_at s i) ->
  sl_locked (i_splock (inode_at s i)) = 1 -> sl_pid (i_splock (inode_at s i)) = i32 (p_pid (proc_at s p)) ->
  exists s', iunlock (Some i) s = Ok tt s' /\ fs_ready s' p /\ k_disk s' = k_disk s /\ k_sb s' = k_sb s /\
    inode_at s' i = set_i_splock (set_sl_pid 0 (set_sl_locked 0 (i_splock (inode_at s i)))) (inode_at s i) /\
    (forall j, j <> i -> inode_at s' j = inode_at s j).
Proof.
  intros Hs Hi Hr Hsl Hpid. pose proof Hs as [[Hk _ _ _ Hp Hpr] _ _]. unfold iunlock.
  rewrite (bind_ok _ _ _ _ _ (holdingsleep_eq (SInode i) s p Hk Hi Hp)).
  assert (sl_mine (SInode i) s = true) as ->.
  { unfold sl_mine. rewrite Hp. cbn [sl_at]. by rewrite Hsl, Hpid, u32_i32, Z.eqb_refl. }
  unfold get_inode. step_prim. change (inode_at (touch s) i) with (inode_at s i).
  destruct (Z.ltb_spec (i_ref (inode_at s i)) 1); [lia|]. cbn [negb orb].
  assert (fs_ready (touch s) p) as Ht by by apply fs_ready_touch.
  rewrite (sleep_unlock_eq (SInode i) (touch s)) by (apply Ht || done).
  eexists. split; [done|]. rewrite touch_touch by apply Hk.
  split; [by apply fs_ready_wake, fs_ready_inode|]. split; [done|]. split; [done|].
  change (inode_at (upd_procs ?f ?x)) with (inode_at x). unfold sl_released, upd_sl. split.
  - by rewrite inode_at_upd by (apply Ht || done).
  - intros j Hj. by rewrite inode_at_upd_ne by done.
Qed.

Lemma inode_lookup s i x : k_inodes s !! i = Some x -> inode_at s i = x.
Proof. unfold inode_at. apply list_lookup_total_correct. Qed.

(** The first slot of an empty table goes to the first inode asked for. *)
Lemma iget_first s p dev inum :
  fs_ready s p -> icache_empty s ->
  iget dev inum s = Ok O (upd_inode 0 (claim dev inum) (touch s)).
Proof.
  intros Hs He. pose proof (kr_ninodes s (fb_ready _ _ (fs_rbase _ _ Hs))) as Hl. rewrite iget_eq by apply Hs.
  unfold icache_empty in He. destruct (k_inodes s) as [|x l]; [done|].
  assert (find_index (live dev inum) (x :: l) = None) as ->.
  { destruct (find_index _ _) as [j|] eqn:E; [|done]. apply find_index_Some in E as (y & Hy & Hly & _).
    pose proof (Forall_lookup_1 _ _ _ _ He Hy) as [Hr _]. unfold live in Hly. by rewrite Hr in Hly. }
  inversion He as [|? ? [Hr _]]; subst. cbn [find_index]. unfold free_slot. by rewrite Hr.
Qed.

(** The second slot goes to the second. *)
Lemma iget_second s p dev inum :
  fs_ready s p -> i_ref (inode_at s 0) = 1 -> i_inum (inode_at s 0) <> inum ->
  (forall j, (0 < j < INODES)%nat -> i_ref (inode_at s j) = 0) ->
  iget dev inum s = Ok 1%nat (upd_inode 1 (claim dev inum) (touch s)).
Proof.
  intros Hs Hx Hne Hz. pose proof (kr_ninodes s (fb_ready _ _ (fs_rbase _ _ Hs))) as Hl. rewrite iget_eq by apply Hs.
  assert (find_index (live dev inum) (k_inodes s) = None) as ->.
  { destruct (find_index _ _) as [j|] eqn:Ej; [|done]. apply find_index_Some in Ej as (z & Hzj & Hlz & _).
    pose proof (lookup_lt_Some _ _ _ Hzj) as Hj. apply inode_lookup in Hzj. subst z.
    unfold live in Hlz. apply andb_prop in Hlz as [[Hr _]%andb_prop Hn]. apply Z.ltb_lt in Hr. apply Z.eqb_eq in Hn.
    destruct j as [|j]; [done|]. specialize (Hz (S j)). lia. }
  destruct (k_inodes s) as [|x [|y l]] eqn:E; [done|done|].
  assert (inode_at s 0 = x /\ inode_at s 1 = y) as [E0 E1] by (unfold inode_at; by rewrite E).
  specialize (Hz 1%nat ltac:(unfold INODES; lia)). rewrite E0 in Hx. rewrite E1 in Hz.
  cbn [find_index]. unfold free_slot. by rewrite Hx, Hz.
Qed.

(** The addresses of a dinode are blocks of the device. *)
Definition dinode_blocks (d : dinode) : Prop :=
  length (di_addrs d) = 13%nat /\ Forall (fun a => 0 <= a < 2 ^ 31) (di_addrs d).

(** An unlocked inode in use, to be loaded. *)
Definition open_slot s (i : nat) (inum : Z) : Prop :=
  (i < INODES)%nat /\ i_ref (inode_at s i) = 1 /\ sl_locked (i_splock (inode_at s i)) = 0 /\
  i_vaild (inode_at s i) = 0 /\ i_dev (inode_at s i) = ROOTDEV /\ i_inum (inode_at s i) = inum.

Lemma ilock_slot s p i inum :
  fs_ready s p -> open_slot s i inum -> IBLOCK inum (k_sb s) < 2 ^ 31 -> dinode_blocks (disk_dinode s inum) ->
  exists s', ilock (Some i) s = Ok tt s' /\ fs_ready s' p /\ inode_dinode (inode_at s' i) = disk_dinode s inum /\
    inode_ok (inode_at s' i) /\ i_ref (inode_at s' i) = 1 /\ i_vaild (inode_at s' i) = 0 /\
    i_inum (inode_at s' i) = inum /\
    i_splock (inode_at s' i) = sl_take (p_pid (proc_at s p)) (i_splock (inode_at s i)) /\
    (forall j, j <> i -> inode_at s' j = inode_at s j) /\ k_disk s' = k_disk s /\ k_sb s' = k_sb s /\
    (forall j, p_pid (proc_at s' j) = p_pid (proc_at s j)).
Proof.
  intros Hs (Hi & Hr & Hsl & Hv & Hd & Hn) Hb [Hl Ha]. rewrite <- Hn in Hb.
  destruct (ilock_loads s p i Hs Hi ltac:(lia) Hsl Hv Hd Hb) as (s' & E & Hs' & Ei & Ho & Hdk & Hsb & _ & Hpid).
  exists s'. split; [done|]. split; [done|]. rewrite Ei. unfold ilocked. rewrite Hn.
  fold (disk_dinode s inum). set (d := disk_dinode s inum) in *.
  split; [by destruct d|]. split; [by split|]. repeat (split; [done|]). done.
Qed.

Lemma rootsub_finds s p name k i :
  let d := disk_dinode s ROOTINO in
  let b := nth 0 (di_addrs d) 0 in
  let es := dir_entries (disk_block s b) k in
  fs_ready s p -> icache_empty s -> IBLOCK ROOTINO (k_sb s) < 2 ^ 31 -> dinode_blocks d -> 0 < b < 2 ^ 31 ->
  di_size d = 16 * Z.of_nat k -> (k <= 64)%nat -> length (disk_block s b) = Z.to_nat BSIZE ->
  Forall (fun c => 0 <= c < 2 ^ 8) (disk_block s b) -> bytes name ->
  find_index (names name) es = Some i -> de_inum (es !!! i) <> ROOTINO ->
  exists s', rootsub name s = Ok (Some 1%nat) s' /\ fs_ready s' p /\ open_slot s' 1 (de_inum (es !!! i)) /\
    k_disk s' = k_disk s /\ k_sb s' = k_sb s.
Proof.
  intros d b es Hs He Hib Hd Hb Hsz Hk Hlen Hby Hnm Hfi Hne.
  pose proof (kr_ninodes s (fb_ready _ _ (fs_rbase _ _ Hs))) as Hl. pose proof He as He'.
  unfold icache_empty in He'. destruct (k_inodes s) as [|x [|y l]] eqn:Ein; [done|done|].
  inversion He' as [|? ? (Hx & Hxl & Hxv) He2]; subst. inversion He2 as [|? ? (Hy & Hyl & Hyv) He3]; subst.
  assert (inode_at s 0 = x /\ inode_at s 1 = y) as [E0 E1] by (unfold inode_at; by rewrite Ein).
  unfold rootsub, rooti. rewrite (bind_ok _ _ _ _ _ (iget_first s p ROOTDEV ROOTINO Hs He)).
  set (s1 := upd_inode 0 (claim ROOTDEV ROOTINO) (touch s)).
  assert (fs_ready s1 p) as Hs1 by by apply fs_ready_inode, fs_ready_touch.
  assert (k_inodes s1 = claim ROOTDEV ROOTINO x :: y :: l) as Ein1.
  { change (k_inodes s1) with (upd_at 0 (claim ROOTDEV ROOTINO) (k_inodes s)). by rewrite Ein. }
  assert (inode_at s1 0 = claim ROOTDEV ROOTINO x /\ inode_at s1 1 = y) as [E10 E11] by (unfold inode_at; by rewrite Ein1).
  destruct (ilock_slot s1 p 0 ROOTINO Hs1) as (s2 & El & Hs2 & Hd2 & Hok2 & Hr2 & Hv2 & Hn2 & Hsl2 & Ho2 & Hdk2 & Hsb2 & Hpid2).
  { unfold open_slot. rewrite E10. repeat split; try done. unfold INODES. lia. }
  { exact Hib. }
  { exact Hd. }
  rewrite (bind_ok _ _ _ _ _ El). change (disk_dinode s1 ROOTINO) with d in Hd2.
  assert (forall n, disk_block s2 n = disk_block s n) as Hdb2 by (intros n; apply (disk_block_ext s s2 n); exact Hdk2).
  assert (i_addrs (inode_at s2 0) = di_addrs d /\ i_size (inode_at s2 0) = di_size d) as [Ead Esz] by by rewrite <- Hd2.
  pose proof (inodeByName_dir s2 p 0 name k) as Hin. cbv zeta in Hin. rewrite Ead, Esz, Hdb2 in Hin. fold b es in Hin.
  destruct (Hin Hs2 Hok2 Hb Hsz Hk Hlen Hby Hnm) as (s3 & (Hs3 & F3 & Hdk3) & En). rewrite Hfi in En.
  set (inum := de_inum (es !!! i)) in *.
  assert (forall j, inode_at s3 j = inode_at s2 j) as Ei3 by (intros; unfold inode_at; by rewrite (fr_inodes _ _ F3)).
  assert (forall j, (0 < j < INODES)%nat -> inode_at s3 j = inode_at s j /\ i_ref (inode_at s j) = 0 /\
    sl_locked (i_splock (inode_at s j)) = 0) as Hz.
  { intros j Hj. rewrite Ei3, Ho2 by lia. unfold s1. rewrite inode_at_upd_ne by lia. split; [done|].
    destruct (lookup_lt_is_Some_2 (k_inodes s) j) as [z Ez]; [rewrite Ein, Hl; lia|].
    rewrite (inode_lookup _ _ _ Ez). rewrite Ein in Ez. pose proof (Forall_lookup_1 _ _ _ _ He' Ez). cbn in *. tauto. }
  rewrite (bind_ok _ _ _ _ _ (iget_second s3 p ROOTDEV inum Hs3 ltac:(by rewrite Ei3) ltac:(rewrite Ei3, Hn2; congruence)
    ltac:(intros j Hj; by destruct (Hz j Hj) as (-> & ? & _)))) in En.
  set (s4 := upd_inode 1 (claim ROOTDEV inum) (touch s3)) in *. rewrite (bind_ok _ _ _ _ _ En).
  assert (fs_ready s4 p) as Hs4 by by apply fs_ready_inode, fs_ready_touch.
  assert (inode_at s4 0 = inode_at s2 0) as E40 by (unfold s4; rewrite inode_at_upd_ne by done; apply Ei3).
  assert (inode_at s4 1 = claim ROOTDEV inum (inode_at s 1)) as E41.
  { unfold s4. rewrite inode_at_upd by (apply kready_touch, Hs3 || (unfold INODES; lia)).
    change (inode_at (touch s3) 1) with (inode_at s3 1). f_equal. apply Hz. unfold INODES; lia. }
  unfold iunlockput.
  destruct (iunlock_ok s4 p 0 Hs4) as (s5 & E5 & Hs5 & Hdk5 & Hsb5 & Hi5 & Ho5).
  { unfold INODES; lia. }
  { rewrite E40. lia. }
  { by rewrite E40, Hsl2. }
  { rewrite E40, Hsl2. cbn [sl_take sl_pid set_sl_pid]. f_equal. change (proc_at s4 p) with (proc_at s3 p).
    by rewrite (io_frame_pid _ _ _ F3), Hpid2. }
  rewrite (bind_assoc (iunlock (Some 0%nat))), (bind_ok _ _ _ _ _ E5).
  rewrite (bind_ok _ _ _ _ _ (iput_invalid_eq 0 s5 (fb_ready _ _ (fs_rbase _ _ Hs5)) ltac:(by rewrite Hi5, E40))).
  eexists. split; [done|]. split; [by apply fs_ready_inode, fs_ready_touch|].
  split; [|split; [|]].
  - unfold open_slot. rewrite inode_at_upd_ne by done. change (inode_at (touch s5) 1) with (inode_at s5 1).
    rewrite Ho5, E41 by done. destruct (Hz 1%nat ltac:(unfold INODES; lia)) as (_ & _ & Hlk).
    repeat (split; [done || (unfold INODES; lia)|]). done.
  - change (k_disk s5 = k_disk s). rewrite Hdk5. change (k_disk s3 = k_disk s). by rewrite Hdk3, Hdk2.
  - change (k_sb s5 = k_sb s). rewrite Hsb5. change (k_sb s3 = k_sb s). rewrite (fr_sb _ _ F3), Hsb2. done.
Qed.

(** [initfs] reads the superblock. *)
Lemma io_neutral_sb sb : io_neutral (set_k_sb sb).
Proof. by split. Qed.

Lemma initfs_ok s p :
  fs_ready s p -> sb_magic (dec_superblock (disk_block s 1)) = FSMAGIC ->
  exists s', initfs ROOTDEV s = Ok tt s' /\ fs_ready s' p /\ k_sb s' = dec_superblock (disk_block s 1) /\
    k_disk s' = k_disk s /\ k_inodes s' = k_inodes s.
Proof.
  intros Hs Hm. unfold initfs, readsb.
  destruct (bread_block s p 1 Hs ltac:(lia)) as (r & s1 & E1 & Hh & F1 & Hd1).
  rewrite bind_assoc, (bind_ok _ _ _ _ _ E1). unfold get_data. step_prim. rewrite (ho_data _ _ _ _ _ Hh).
  set (sb := dec_superblock _) in *.
  rewrite <- (disk_block_ext s (set_k_sb sb s1)) in Hh by exact Hd1.
  destruct (brelease_block _ _ _ _ (holding_neutral _ _ _ _ _ _ (io_neutral_sb sb) Hh)) as (s2 & E2 & Hs2 & F2 & Hd2).
  rewrite E2. assert (k_sb s2 = sb) as Esb by exact (fr_sb _ _ F2). rewrite Esb, Hm. cbn [Z.eqb negb].
  exists s2. split; [by rewrite Z.eqb_refl || done|]. split; [done|]. split; [done|].
  split; [by rewrite Hd2|]. rewrite (fr_inodes _ _ F2). exact (fr_inodes _ _ F1).
Qed.

(** What [exec] does first: find the path's inode, lock it, read from it. *)
Definition open_read (name : chars) (off n : Z) : K (Z * list Z) :=
  ip ← rootsub name;
  ilock ip;;
  i ← deref ip;
  readi i DLocal off n.

(** Bytes [off .. off + n] of the file, inside one block. *)
Lemma open_read_ok s p name off n k i :
  let d := disk_dinode s ROOTINO in
  let b := nth 0 (di_addrs d) 0 in
  let es := dir_entries (disk_block s b) k in
  let inum := de_inum (es !!! i) in
  let d' := disk_dinode s inum in
  let b' := if off / BSIZE <? NDIRECT then nth (Z.to_nat (off / BSIZE)) (di_addrs d') 0
    else get32 (disk_block s (nth 12 (di_addrs d') 0)) (Z.to_nat (4 * (off / BSIZE - NDIRECT))) in
  let n' := Z.min n (di_size d' - off) in
  fs_ready s p -> icache_empty s -> IBLOCK ROOTINO (k_sb s) < 2 ^ 31 -> dinode_blocks d -> 0 < b < 2 ^ 31 ->
  di_size d = 16 * Z.of_nat k -> (k <= 64)%nat -> length (disk_block s b) = Z.to_nat BSIZE ->
  Forall (fun c => 0 <= c < 2 ^ 8) (disk_block s b) -> bytes name ->
  find_index (names name) es = Some i -> inum <> ROOTINO ->
  IBLOCK inum (k_sb s) < 2 ^ 31 -> dinode_blocks d' -> 0 <= off -> off / BSIZE < MAXFILE -> 0 < b' < 2 ^ 31 ->
  (NDIRECT <= off / BSIZE -> nth 12 (di_addrs d') 0 <> 0) -> length (disk_block s b') = Z.to_nat BSIZE ->
  off < di_size d' < 2 ^ 31 -> 0 < n <= BSIZE - off mod BSIZE ->
  exists s', open_read name off n s =
    Ok (n', take (Z.to_nat n') (drop (Z.to_nat (off mod BSIZE)) (disk_block s b'))) s' /\ fs_ready s' p.
Proof.
  intros d b es inum d' b' n' Hs He Hib Hd Hb Hsz Hk Hlen Hby Hnm Hfi Hne Hib' Hd' Hoff Hmax Hb' Hind Hlen' Hsz' Hn.
  destruct (rootsub_finds s p name k i Hs He Hib Hd Hb Hsz Hk Hlen Hby Hnm Hfi Hne) as (s1 & E1 & Hs1 & Hop & Hdk1 & Hsb1).
  fold d b es in Hop. fold inum in Hop. unfold open_read. rewrite (bind_ok _ _ _ _ _ E1).
  assert (forall m, disk_block s1 m = disk_block s m) as Hdb1 by (intros; by apply disk_block_ext).
  assert (disk_dinode s1 inum = d') as Ed1 by (unfold disk_dinode; by rewrite Hdb1, Hsb1).
  destruct (ilock_slot s1 p 1 inum Hs1 Hop ltac:(by rewrite Hsb1) ltac:(by rewrite Ed1))
    as (s2 & E2 & Hs2 & Hd2 & Hok2 & _ & _ & _ & _ & _ & Hdk2 & _).
  rewrite (bind_ok _ _ _ _ _ E2). unfold deref. rewrite bind_ret.
  assert (forall m, disk_block s2 m = disk_block s m) as Hdb2 by (intros; apply disk_block_ext; by rewrite Hdk2).
  rewrite Ed1 in Hd2.
  assert (i_addrs (inode_at s2 1) = di_addrs d' /\ i_size (inode_at s2 1) = di_size d') as [Ea Es] by by rewrite <- Hd2.
  assert (file_block s2 (inode_at s2 1) (off / BSIZE) = b') as Eb by (unfold file_block; by rewrite Ea, Hdb2).
  pose proof (Z.mod_pos_bound off BSIZE ltac:(done)). assert (BSIZE = 1024) as Hbs by done.
  destruct (readi_local s2 p 1 off n) as (s3 & E3 & Hs3 & _); rewrite ?Eb, ?Hdb2, ?Ea, ?Es; try done; try lia.
  rewrite Eb, Hdb2, Es in E3. fold n' in E3. exists s3. rewrite E3. split; [|done].
  rewrite repeated_take by (rewrite ?length_drop, ?Hlen'; lia). done.
Qed.
End path.
