(* ===== verification/UserSys.v ===== *)
(** * User programs: [printf.c], [ulib.c]'s calls, [init.c], [ls.c], [sh.c]

    A user program is an interaction tree over its system calls (the stubs of
    [sysc.S]): it issues a call and goes on with the answer of the kernel.
    Memory that a call fills is part of its answer.  [Overrun] marks a store or
    a load outside an object, where C leaves the behaviour open. *)

From ITree Require Import ITree.
From S2P Require Import Prelude Layout Memory CString State Print Ondisk.

Record stat := mkStat { st_dev : Z; st_ino : Z; st_type : Z; st_nlink : Z; st_size : Z }.

Inductive sysE : Type -> Type :=
| Open (path : list Z) (omode : Z) : sysE Z
| Mknod (path : list Z) (major minor : Z) : sysE Z
| Dup (fd : Z) : sysE Z
| Close (fd : Z) : sysE Z
| Read (fd n : Z) : sysE (Z * list Z)     (** the result, and the bytes stored *)
| Write (fd : Z) (bs : list Z) : sysE Z
| Fstat (fd : Z) : sysE (Z * stat)
| Fork : sysE Z
| Exec (path : list Z) (argv : option (list (list Z))) : sysE Z
| Wait : sysE Z
| Exit (status : Z) : sysE void
| Overrun : sysE void.

Abbreviation User := (itree sysE).
#[export] Instance user_ret : MRet User := fun A a => Ret a.
#[export] Instance user_bind : MBind User := fun A B f m => ITree.bind m f.

Definition call {A} (e : sysE A) : User A := ITree.trigger e.
(** A call that does not return. *)
Definition never {A} (e : sysE void) : User A := x ← call e; match x : void with end.

(** The bytes of an array before its terminator, which it may lack. *)
Fixpoint cstr (l : list Z) : option (list Z) :=
  match l with
  | [] => None
  | c :: l => if c =? 0 then Some [] else cons c <$> cstr l
  end.

(** ** [printf.c] *)

(** What the linker put around [nums]. *)
Class UserImage := { unums_around : Z -> Z }.

Section printf.
  Context {I : UserImage}.

Definition unums_at (i : Z) : Z :=
  if (0 <=? i) && (i <? 17) then nth (Z.to_nat i) nums 0 else unums_around i.

Definition putc (fd c : Z) : User unit := call (Write fd [c]);; mret tt.
Fixpoint uprint (fd : Z) (s : list Z) : User unit :=
  match s with
  | [] => mret tt
  | c :: s => putc fd c;; uprint fd s
  end.

(** [printInt]: the digits of [val], last first; an [int] has at most ten. *)
Fixpoint udigits_loop (fuel : nat) (val : Z) (buf : list Z) : list Z :=
  match fuel with
  | O => buf
  | S fuel =>
      let buf := buf ++ [unums_at (Z.rem val 10)] in
      if 0 <? Z.quot val 10 then udigits_loop fuel (Z.quot val 10) buf else buf
  end.
Definition uprintInt (val : Z) : User unit := uprint 1 (rev (udigits_loop 10 val [])).

Fixpoint uprintPtr_loop (n : nat) (fd ptr : Z) : User unit :=
  match n with
  | O => mret tt
  | S n => putc fd (unums_at (Z.shiftr ptr 60));; uprintPtr_loop n fd (u64 (Z.shiftl ptr 4))
  end.
Definition uprintPtr (fd ptr : Z) : User unit :=
  putc fd 48;;
  putc fd 120;;
  uprintPtr_loop 16 fd ptr.

(** A format that ends in ['%'] is printed and left past its terminator; an
    argument of the wrong kind has no meaning either. *)
Fixpoint uprintf_loop (s : list Z) (args : list arg) : User unit :=
  match s with
  | [] => mret tt
  | c :: rest =>
      if negb (c =? 37) then putc 1 c;; uprintf_loop rest args else
      match rest with
      | [] => putc 1 c;; never Overrun
      | next :: rest =>
          if next =? 100 then
            match args with
            | AInt v :: args => uprintInt v;; uprintf_loop rest args
            | _ => never Overrun
            end
          else if next =? 115 then
            match args with
            | AStr (Some t) :: args => uprint 1 t;; uprintf_loop rest args
            | AStr None :: args => uprintf_loop rest args
            | _ => never Overrun
            end
          else if next =? 112 then
            match args with
            | APtr v :: args => uprintPtr 1 v;; uprintf_loop rest args
            | _ => never Overrun
            end
          else putc 1 next;; uprintf_loop rest args
      end
  end.

Definition uprintf (s : option (list Z)) (args : list arg) : User unit :=
  match s with
  | None => mret tt
  | Some s => uprintf_loop s args
  end.
Definition say (s : string) : User unit := uprintf (Some (str s ++ [NL])) [].

(** ** [ulib.c]: [gets] and [stat] *)

(** The loop of [gets] with room for [n] more characters; [c] is its variable. *)
Fixpoint ugets_loop (n : nat) (c : Z) (buf : list Z) : User (list Z) :=
  match n with
  | O => mret buf
  | S n =>
      r ← call (Read 0 1);
      if r.1 <? 1 then mret buf else
      let c := default c (head r.2) in
      let buf := buf ++ [c] in
      if (c =? 10) || (c =? 13) then mret buf else ugets_loop n c buf
  end.
(** The bytes stored from [buf] on. *)
Definition ugets (max c : Z) : User (list Z) :=
  buf ← ugets_loop (Z.to_nat (max - 1)) c [];
  mret (buf ++ [0]).

Definition ustat (n : list Z) (st : stat) : User (Z * stat) :=
  fd ← call (Open n O_RDONLY);
  if fd <? 0 then mret (-1, st) else
  r ← call (Fstat fd);
  call (Close fd);;
  mret r.

(** ** [init.c] *)

(** Waiting for the shell [pid]; the answer is [true] once it is reaped. *)
Definition init_wait (pid : Z) : User unit :=
  ITree.iter (fun _ : unit =>
    wpid ← call Wait;
    if wpid =? pid then mret (inr tt)
    else if wpid <? 0 then
      say "init: wait returned an error";;
      never (Exit 1)
    else mret (inl tt)) tt.

Definition init_round : User unit :=
  say "init: starting sh";;
  pid ← call Fork;
  if pid <? 0 then
    say "init: fork failed";;
    never (Exit 1)
  else if pid =? 0 then
    call (Exec (str "sh") (Some [str "sh"]));;
    say "init: exec sh failed";;
    never (Exit 1)
  else init_wait pid.

Definition init_main : User void :=
  fd ← call (Open (str "console") O_RDWR);
  (if fd <? 0 then
     call (Mknod (str "console") 1 0);;
     call (Open (str "console") O_RDWR)
   else mret 0);;
  call (Dup 0);;
  call (Dup 0);;
  ITree.iter (fun _ : unit => init_round;; mret (inl tt)) tt.

(** ** [ls.c] *)

(** The variable [st] before [fstat] fills it. *)
Definition stat0 : stat := mkStat 0 0 0 0 0.

(** [printf("%s %d %d %d\n", d.name, st.type, st.ino, st.size)]; a name that
    fills its array is printed and left past its end. *)
Definition ls_line (d : dirent) (st : stat) : User unit :=
  match cstr (de_name d) with
  | Some name =>
      uprintf (Some (str "%s %d %d %d" ++ [NL]))
        [AStr (Some name); AInt (i32 (st_type st)); AInt (i32 (st_ino st)); AInt (i32 (st_size st))]
  | None => uprint 1 (de_name d);; never Overrun
  end.

Definition ls_entries (fd : Z) (st : stat) : User unit :=
  ITree.iter (fun _ : unit =>
    r ← call (Read fd 16);
    if negb (r.1 =? 16) then mret (inr tt) else
    let d := dec_dirent r.2 in
    if de_inum d =? 0 then mret (inl tt) else
    ls_line d st;;
    mret (inl tt)) tt.

Definition ls_main : User void :=
  fd ← call (Open (str "/") 0);
  if fd <? 0 then
    say "ls: cannot open";;
    never (Exit 0)
  else
    r ← call (Fstat fd);
    if r.1 <? 0 then
      uprintf (Some (str "ls: connot to stat")) [];;
      call (Close fd);;
      never (Exit 0)
    else
      ls_entries fd r.2;;
      call (Close fd);;
      never (Exit 0).

(** ** [sh.c] *)

Definition SHBUF : nat := 100.

(** Descriptors for the console until one above 3 is opened, or it fails. *)
Definition sh_open : User unit :=
  ITree.iter (fun _ : unit =>
    fd ← call (Open (str "console") O_RDWR);
    mret (if (0 <=? fd) && negb (3 <? fd) then inl tt else inr tt)) tt.

(** The loop that reads a command, [n] characters from its bound: [i], [buf] and
    [c] when it ends. *)
Fixpoint sh_read (n i : nat) (buf : list Z) (c : Z) : User (nat * list Z * Z) :=
  match n with
  | O => mret (i, buf, c)
  | S n =>
      r ← call (Read 0 1);
      if r.1 <? 0 then mret (i, buf, c) else
      let c := if 0 <? r.1 then default c (head r.2) else c in
      if (c =? 10) || (c =? 13) then mret (i, buf, c)
      else sh_read n (S i) (<[i := c]> buf) c
  end.

(** One round of [main]: the new [buf] and [c]. *)
Definition sh_body (buf : list Z) (c : Z) : User (list Z * Z) :=
  uprintf (Some (str "$ ")) [];;
  r ← sh_read (SHBUF - 1) 0 buf c;
  let '(i, buf, c) := r in
  buf ← (if (S i <? SHBUF)%nat then mret (<[S i := 0]> buf) else never Overrun);
  pid ← call Fork;
  (if pid =? 0 then
     match cstr buf with Some path => call (Exec path None) | None => never Overrun end
   else mret 0);;
  call Wait;;
  mret (buf, c).

(** [buf] and [c] hold what the stack held. *)
Definition sh_main (buf : list Z) (c : Z) : User void :=
  sh_open;;
  ITree.iter (fun '(buf, c) => r ← sh_body buf c; mret (inl r)) (buf, c).
End printf.
