(* ===== verification/MkFs.v ===== *)
(** * [mkfs.c]: the host program that builds the disk image

    The image is a host file of whole blocks; [rsect] beyond its end and
    [assert] leave through the panic outcome, as [die] and [abort] do.  The
    input files are the program's arguments: their names and, for those that
    open, the chunks the successive [read] calls return (at most [BSIZE] bytes
    each, as the host likes).  What the program prints is left out. *)

From S2P Require Import Prelude Layout Memory CString State Print Ondisk Block Fs.

Definition FSSIZE : Z := 2000.
Definition LOGSIZE : Z := 10 * 3.
Definition NINODES : Z := 200.

Definition nbitmap : Z := FSSIZE / (BSIZE * 8) + 1.
Definition ninodeblocks : Z := NINODES / IPB + 1.
Definition nlog : Z := LOGSIZE.
Definition nmeta : Z := 2 + nlog + ninodeblocks + nbitmap.
Definition nblocks : Z := FSSIZE - nmeta.

(** The bytes the two functions store are those of the little-endian value;
    the host is little-endian as well. *)
Definition xshort (x : Z) : Z := le_dec [u8 x; u8 (Z.shiftr x 8)].
Definition xint (x : Z) : Z :=
  le_dec [u8 x; u8 (Z.shiftr x 8); u8 (Z.shiftr x 16); u8 (Z.shiftr x 24)].

(** The host file: its length in blocks, and the blocks written. *)
Record image := mkImage { im_size : Z; im_blocks : gmap Z (list Z) }.
Definition zeroes : list Z := replicate (Z.to_nat BSIZE) 0.
Definition im_block (im : image) (b : Z) : list Z := default zeroes (im_blocks im !! b).

(** The program's variables: the file, [freeinode] and [freeblock]. *)
Record mkfs_state := mkMkfs { m_img : image; m_freeinode : Z; m_freeblock : Z }.
Definition set_m_img (x : image) (s : mkfs_state) : mkfs_state := mkMkfs x (m_freeinode s) (m_freeblock s).
Definition set_m_freeinode (x : Z) (s : mkfs_state) : mkfs_state := mkMkfs (m_img s) x (m_freeblock s).
Definition set_m_freeblock (x : Z) (s : mkfs_state) : mkfs_state := mkMkfs (m_img s) (m_freeinode s) x.

Abbreviation Host := (prog mkfs_state).
Definition assert (b : bool) : Host unit := if b then mret tt else panic "assert".

(** The superblock [main] fills in; [dataStart] is left 0. *)
Definition mkfs_sb : superblock :=
  mkSuperblock FSMAGIC (xint FSSIZE) (xint nblocks) (xint NINODES) (xint nlog)
    (xint 2) (xint (2 + nlog)) (xint (2 + nlog + ninodeblocks)) 0.
Definition enc_superblock (x : superblock) : list Z :=
  le_enc 4 (sb_magic x) ++ le_enc 4 (sb_size x) ++ le_enc 4 (sb_nblocks x) ++ le_enc 4 (sb_ninodes x) ++
  le_enc 4 (sb_nlog x) ++ le_enc 4 (sb_logstart x) ++ le_enc 4 (sb_inodestart x) ++
  le_enc 4 (sb_bmapstart x) ++ le_enc 4 (sb_dataStart x).

(** ** Sectors and dinodes *)

Definition wsect (sec : Z) (buf : list Z) : Host unit :=
  let b := u32 (sec * BSIZE) / BSIZE in
  modify (fun s => set_m_img (mkImage (Z.max (im_size (m_img s)) (b + 1)) (<[b := buf]> (im_blocks (m_img s)))) s).

Definition rsect (sec : Z) : Host (list Z) :=
  let b := u32 (sec * BSIZE) / BSIZE in
  im ← gets m_img;
  if im_size im <=? b then panic "read" else mret (im_block im b).

Definition winode (inum : Z) (ip : dinode) : Host unit :=
  let bn := IBLOCK inum mkfs_sb in
  buf ← rsect bn;
  wsect bn (put_dinode ip buf (dinode_off inum)).

Definition rinode (inum : Z) : Host dinode :=
  let bn := IBLOCK inum mkfs_sb in
  buf ← rsect bn;
  mret (get_dinode buf (dinode_off inum)).

Definition mkfs_ialloc (type : Z) : Host Z :=
  inum ← gets m_freeinode;
  modify (set_m_freeinode (u32 (inum + 1)));;
  let din := mkDinode (i16 (xshort type)) 0 0 (i16 (xshort 1)) (xint 0) (replicate 13 0) in
  winode inum din;;
  mret inum.

(** [freeblock++]. *)
Definition take_block : Host Z :=
  b ← gets m_freeblock;
  modify (set_m_freeblock (u32 (b + 1)));;
  mret b.

(** ** The bitmap *)

Definition set_bit (buf : list Z) (i : Z) : list Z :=
  upd_at (Z.to_nat (i / 8)) (fun c => Z.lor c (Z.shiftl 1 (i mod 8))) buf.

Definition mkfs_balloc (used : Z) : Host unit :=
  assert (used <? BSIZE * 8);;
  let buf := foldl set_bit zeroes (seqZ 0 used) in
  wsect (sb_bmapstart mkfs_sb) buf.

(** ** Appending to a file *)

(** The block that holds block [fbn] of the file, allocated when missing. *)
Definition append_block (din : dinode) (fbn : Z) : Host (Z * dinode) :=
  let set i x := mkDinode (di_type din) (di_major din) (di_minor din) (di_nlink din) (di_size din)
    (<[i := x]> (di_addrs din)) in
  if fbn <? NDIRECT then
    let k := Z.to_nat fbn in
    din ← (if xint (nth k (di_addrs din) 0) =? 0 then b ← take_block; mret (set k (xint b)) else mret din);
    mret (xint (nth k (di_addrs din) 0), din)
  else
    let k := Z.to_nat NDIRECT in
    din ← (if xint (nth k (di_addrs din) 0) =? 0 then b ← take_block; mret (set k (xint b)) else mret din);
    indirect ← rsect (xint (nth k (di_addrs din) 0));
    let o := Z.to_nat (4 * (fbn - NDIRECT)) in
    indirect ← (if get32 indirect o =? 0
      then b ← take_block;
        let indirect := put32 (xint b) indirect o in
        wsect (xint (nth k (di_addrs din) 0)) indirect;;
        mret indirect
      else mret indirect);
    mret (xint (get32 indirect o), din).

Fixpoint iappend_loop (fuel : nat) (din : dinode) (off : Z) (p : list Z) : Host (dinode * Z) :=
  match fuel with
  | O => block
  | S fuel =>
      let n := Z.of_nat (length p) in
      if negb (0 <? n) then mret (din, off) else
      let fbn := off / BSIZE in
      assert (fbn <? MAXFILE);;
      xd ← append_block din fbn;
      let '(x, din) := (xd : Z * dinode) in
      let n1 := Z.min n (u32 ((fbn + 1) * BSIZE - off)) in
      buf ← rsect x;
      let buf := set_range buf (Z.to_nat (off - fbn * BSIZE)) (take (Z.to_nat n1) p) in
      wsect x buf;;
      iappend_loop fuel din (u32 (off + n1)) (drop (Z.to_nat n1) p)
  end.

Definition iappend (inum : Z) (p : list Z) : Host unit :=
  din ← rinode inum;
  r ← iappend_loop (S (length p)) din (xint (di_size din)) p;
  let '(din, off) := (r : dinode * Z) in
  winode inum (mkDinode (di_type din) (di_major din) (di_minor din) (di_nlink din) (xint off) (di_addrs din)).

(** ** [main] *)

(** The name a file gets: without [src/user/] and one leading underscore. *)
Definition shortname (arg : list Z) : list Z :=
  let n := if strncmp 9 (of_list arg) (of_list (str "src/user/")) =? 0 then drop 9 arg else arg in
  if nth 0 n 0 =? 95 then drop 1 n else n.

(** An argument: its name, and what reading the file gives if it opens. *)
Abbreviation input := (list Z * option (list (list Z)))%type.

Definition add_file (rootino : Z) (f : input) : Host unit :=
  match snd f with
  | None => panic "open"
  | Some chunks =>
      inum ← mkfs_ialloc T_FILE;
      iappend rootino (enc_dirent (mkDirent (xshort inum)
        (strncpy (of_list (shortname (fst f))) (Z.of_nat DIRSIZ))));;
      for_each chunks (iappend inum)
  end.

(** A directory entry for a short constant name. *)
Definition dot_entry (inum : Z) (name : list Z) : list Z :=
  enc_dirent (mkDirent (xshort inum) (name ++ replicate (DIRSIZ - length name) 0)).

(** The root directory with its first two entries. *)
Definition make_root : Host Z :=
  rootino ← mkfs_ialloc T_DIR;
  assert (rootino =? ROOTINO);;
  iappend rootino (dot_entry rootino (str "."));;
  iappend rootino (dot_entry rootino (str ".."));;
  mret rootino.

(** "fix size of root inode dir". *)
Definition fix_root (rootino : Z) : Host unit :=
  din ← rinode rootino;
  let off := xint (di_size din) in
  let off := u32 ((off / BSIZE + 1) * BSIZE) in
  winode rootino (mkDinode (di_type din) (di_major din) (di_minor din) (di_nlink din) (xint off) (di_addrs din)).

Definition mkfs_main (args : list input) : Host unit :=
  modify (set_m_freeblock nmeta);;
  for_each (seqZ 0 FSSIZE) (fun i => wsect i zeroes);;
  wsect 1 (set_range zeroes 0 (enc_superblock mkfs_sb));;
  rootino ← make_root;
  for_each args (add_file rootino);;
  fix_root rootino;;
  b ← gets m_freeblock;
  mkfs_balloc b.

(** The state the program starts in: [open] with [O_TRUNC]; [freeinode] is 1. *)
Definition mkfs_init : mkfs_state := mkMkfs (mkImage 0 ∅) 1 0.
