(* ===== verification/MkFsProps.v ===== *)
(** * How the image is laid out

    [mkfs] keeps every file of the image as its content cut into blocks, each
    block owned by one place of one file.  The lemmas show that allocating and
    writing keep this representation. *)

From stdpp Require Import functions.
From S2P Require Import Prelude Layout Memory CString State Print Ondisk Block Fs MkFs.

(** Block [k] of a file with content [c], padded with zeros. *)
Definition chunk (c : list Z) (k : Z) : list Z :=
  (fun i => nth (Z.to_nat (k * BSIZE) + i) c 0) <$> seq 0 (Z.to_nat BSIZE).

(** Block [k] of an inode with the addresses [a]. *)
Definition fblock (blk : Z -> list Z) (a : list Z) (k : Z) : Z :=
  if k <? NDIRECT then nth (Z.to_nat k) a 0 else get32 (blk (nth 12 a 0)) (Z.to_nat (4 * (k - NDIRECT))).

(** The owner of a block: an inode number and the block's place in the file,
    [-1] for the indirect block. *)
Abbreviation owners := (gmap Z (Z * Z)).

(** The first [m] blocks of file [i] are allocated at the addresses [a] and
    hold the content [c]. *)
Record rep (blk : Z -> list Z) (own : owners) (i : Z) (a : list Z) (c : list Z) (m : Z) : Prop := {
  rp_len : length a = 13%nat;
  rp_max : 0 <= m <= MAXFILE;
  rp_ind : nth 12 a 0 = 0 /\ m <= NDIRECT \/ nth 12 a 0 <> 0 /\ own !! nth 12 a 0 = Some (i, -1);
  rp_data k : 0 <= k < m -> own !! fblock blk a k = Some (i, k) /\ blk (fblock blk a k) = chunk c k;
  rp_none k : m <= k < MAXFILE -> k < NDIRECT \/ nth 12 a 0 <> 0 -> fblock blk a k = 0
}.

Lemma fs_consts : BSIZE = 1024 /\ NDIRECT = 12 /\ MAXFILE = 268.
Proof. done. Qed.

Section chunk.
  Implicit Types c q : list Z.

Lemma length_chunk c k : length (chunk c k) = Z.to_nat BSIZE.
Proof. unfold chunk. by rewrite length_fmap, length_seq. Qed.

Lemma lookup_chunk c k i :
  (i < Z.to_nat BSIZE)%nat -> chunk c k !! i = Some (nth (Z.to_nat (k * BSIZE) + i) c 0).
Proof. intros. unfold chunk. by rewrite list_lookup_fmap, lookup_seq_lt. Qed.

Lemma chunk_ext c c' k :
  (forall i, (i < Z.to_nat BSIZE)%nat -> nth (Z.to_nat (k * BSIZE) + i) c 0 = nth (Z.to_nat (k * BSIZE) + i) c' 0) ->
  chunk c k = chunk c' k.
Proof.
  intros He. apply list_eq. intros i. destruct (decide (i < Z.to_nat BSIZE)%nat).
  - rewrite !lookup_chunk by done. by rewrite He.
  - by rewrite !lookup_ge_None_2 by (rewrite length_chunk; lia).
Qed.

Lemma nth_zeroes i : nth i zeroes 0 = 0.
Proof. apply nth_replicate. Qed.

(** A block at or beyond the end of the content is zero. *)
Lemma chunk_zeroes c k : 0 <= k -> Z.of_nat (length c) <= k * BSIZE -> chunk c k = zeroes.
Proof.
  intros Hk Hl. apply list_eq. intros i. destruct (decide (i < Z.to_nat BSIZE)%nat).
  - rewrite lookup_chunk by done. rewrite nth_overflow by lia. unfold zeroes. by rewrite lookup_replicate_2.
  - rewrite !lookup_ge_None_2; [done|unfold zeroes; rewrite length_replicate; lia|rewrite length_chunk; lia].
Qed.

(** Writing [q] at the end of the content, inside block [k]. *)
Lemma chunk_write c q k :
  0 <= k -> k * BSIZE <= Z.of_nat (length c) -> Z.of_nat (length (c ++ q)) <= (k + 1) * BSIZE ->
  set_range (chunk c k) (length c - Z.to_nat (k * BSIZE)) q = chunk (c ++ q) k.
Proof.
  intros Hk Hc Hq. rewrite length_app in Hq. set (o := (length c - Z.to_nat (k * BSIZE))%nat).
  assert (o + length q <= length (chunk c k))%nat as Ho by (rewrite length_chunk; lia).
  apply list_eq. intros i. destruct (decide (i < Z.to_nat BSIZE)%nat) as [Hi|].
  2: { rewrite !lookup_ge_None_2; [done|rewrite length_chunk; lia|rewrite length_set_range, length_chunk; lia]. }
  rewrite (lookup_chunk (c ++ q)) by done. destruct (decide (o <= i < o + length q)%nat).
  - rewrite lookup_set_range_in by lia. rewrite app_nth2 by lia.
    replace (Z.to_nat (k * BSIZE) + i - length c)%nat with (i - o)%nat by lia.
    apply lookup_nth. lia.
  - rewrite lookup_set_range_out by lia. rewrite lookup_chunk by done. f_equal.
    destruct (decide (i < o)%nat).
    + by rewrite app_nth1 by lia.
    + by rewrite !nth_overflow by (rewrite ?length_app; lia).
Qed.

(** Appending leaves the blocks before the last one alone. *)
Lemma chunk_app_other c q k :
  0 <= k -> (k + 1) * BSIZE <= Z.of_nat (length c) -> chunk (c ++ q) k = chunk c k.
Proof. intros. apply chunk_ext. intros i Hi. by rewrite app_nth1 by lia. Qed.

(** Zeros at the end make no difference. *)
Lemma chunk_pad c k n : chunk (c ++ replicate n 0) k = chunk c k.
Proof.
  apply chunk_ext. intros i _. set (j := (_ + i)%nat). destruct (decide (j < length c)%nat).
  - by rewrite app_nth1 by lia.
  - rewrite app_nth2 by lia. rewrite (nth_overflow c) by lia.
    apply nth_replicate.
Qed.
End chunk.

Section rep.
  Implicit Types (blk : Z -> list Z) (own : owners) (a c q : list Z).

Lemma rep_reach blk own i a c m k :
  rep blk own i a c m -> k < m -> k < NDIRECT \/ nth 12 a 0 <> 0.
Proof. intros [_ _ [[_ ?]|[? _]] _ _] Hk; [left; lia|by right]. Qed.

(** Blocks of other owners may change, and owners may be added. *)
Lemma rep_frame blk blk' own own' i a c m :
  rep blk own i a c m ->
  (forall b k, own !! b = Some (i, k) -> own' !! b = Some (i, k) /\ blk' b = blk b) ->
  rep blk' own' i a c m.
Proof.
  intros Hr Hf. pose proof Hr as [Hl Hm Hi Hd Hn].
  assert (forall k, k < NDIRECT \/ nth 12 a 0 <> 0 -> fblock blk' a k = fblock blk a k) as Ef.
  { intros k Hk. unfold fblock. destruct (Z.ltb_spec k NDIRECT); [done|].
    destruct Hi as [[Hz _]|[_ Ho]]; [destruct Hk; [lia|done]|]. by rewrite (proj2 (Hf _ _ Ho)). }
  split; try done.
  - destruct Hi as [?|[Hz Ho]]; [by left|right]. split; [done|]. by apply Hf.
  - intros k Hk. destruct (Hd k Hk) as [Ho Hb]. rewrite Ef by (apply (rep_reach _ _ _ _ _ _ k Hr); lia).
    destruct (Hf _ _ Ho) as [? ->]. done.
  - intros k Hk Hor. rewrite Ef by done. by apply Hn.
Qed.

(** A fresh block for a direct address. *)
Lemma rep_direct blk own i a c m b :
  rep blk own i a c m -> m < NDIRECT -> Z.of_nat (length c) <= m * BSIZE ->
  own !! b = None -> blk b = zeroes ->
  rep blk (<[b := (i, m)]> own) i (<[Z.to_nat m := b]> a) c (m + 1).
Proof.
  intros [Hl Hm Hi Hd Hn] Hlt Hc Hb Hz.
  assert (nth 12 (<[Z.to_nat m := b]> a) 0 = nth 12 a 0) as E12.
  { rewrite !nth_lookup. by rewrite list_lookup_insert_ne by (unfold NDIRECT in Hlt; lia). }
  assert (forall k, 0 <= k -> k <> m -> fblock blk (<[Z.to_nat m := b]> a) k = fblock blk a k) as Ef.
  { intros k Hk Hne. unfold fblock. rewrite E12. destruct (Z.ltb_spec k NDIRECT); [|done].
    rewrite !nth_lookup. by rewrite list_lookup_insert_ne by lia. }
  assert (fblock blk (<[Z.to_nat m := b]> a) m = b) as Em.
  { unfold fblock. destruct (Z.ltb_spec m NDIRECT); [|lia]. rewrite nth_lookup, list_lookup_insert_eq; [done|].
    rewrite Hl. unfold NDIRECT in *. lia. }
  assert (NDIRECT < MAXFILE) as Hmf by done.
  split.
  - by rewrite length_insert.
  - lia.
  - rewrite E12. destruct Hi as [[? ?]|[? Ho]]; [left; split; [done|lia]|right]. split; [done|].
    rewrite lookup_insert_ne; [done|]. intros ->. congruence.
  - intros k Hk. destruct (decide (k = m)) as [->|].
    + rewrite Em. split; [apply lookup_insert_eq|]. by rewrite Hz, chunk_zeroes by lia.
    + rewrite Ef by lia. destruct (Hd k ltac:(lia)) as [Ho Hk']. split; [|done].
      rewrite lookup_insert_ne; [done|]. intros ->. congruence.
  - intros k Hk Hor. rewrite E12 in Hor. rewrite Ef by lia. apply Hn; [lia|done].
Qed.

(** A fresh block for the indirect addresses. *)
Lemma rep_indirect blk own i a c m b :
  rep blk own i a c m -> nth 12 a 0 = 0 -> own !! b = None -> blk b = zeroes -> b <> 0 ->
  rep blk (<[b := (i, -1)]> own) i (<[12%nat := b]> a) c m.
Proof.
  intros [Hl Hm Hi Hd Hn] H0 Hb Hz Hb0. destruct Hi as [[_ Hle]|[? _]]; [|done].
  assert (nth 12 (<[12%nat := b]> a) 0 = b) as E12 by (rewrite nth_lookup, list_lookup_insert_eq; [done|lia]).
  assert (forall k, 0 <= k < NDIRECT -> fblock blk (<[12%nat := b]> a) k = fblock blk a k) as Ef.
  { intros k Hk. unfold fblock. destruct (Z.ltb_spec k NDIRECT); [|lia].
    rewrite !nth_lookup. rewrite list_lookup_insert_ne by (unfold NDIRECT in *; lia). done. }
  split.
  - by rewrite length_insert.
  - done.
  - right. rewrite E12. split; [done|apply lookup_insert_eq].
  - intros k Hk. rewrite Ef by lia. destruct (Hd k Hk) as [Ho ?]. split; [|done].
    rewrite lookup_insert_ne; [done|]. intros ->. congruence.
  - intros k Hk _. destruct (decide (k < NDIRECT)); [rewrite Ef by lia; apply Hn; [lia|by left]|].
    unfold fblock. destruct (Z.ltb_spec k NDIRECT); [lia|]. rewrite E12, Hz. unfold get_le, zeroes.
    rewrite drop_replicate, take_replicate. generalize (4 `min` (Z.to_nat BSIZE - Z.to_nat (4 * (k - NDIRECT))))%nat as j.
    intros j. induction j as [|j IH]; [done|]. cbn [replicate le_dec]. rewrite IH. done.
Qed.

(** A fresh block entered in the indirect block. *)
Lemma rep_entry blk own i a c m b :
  let n := nth 12 a 0 in
  rep blk own i a c m -> n <> 0 -> NDIRECT <= m < MAXFILE -> Z.of_nat (length c) <= m * BSIZE ->
  length (blk n) = Z.to_nat BSIZE -> own !! b = None -> blk b = zeroes -> 0 < b < 2 ^ 32 ->
  rep (<[n := put32 b (blk n) (Z.to_nat (4 * (m - NDIRECT)))]> blk) (<[b := (i, m)]> own) i a c (m + 1).
Proof.
  intros n [Hl Hm Hi Hd Hn] Hn0 Hlt Hc Hlen Hb Hz Hbr.
  assert (own !! n = Some (i, -1)) as Hno by (by destruct Hi as [[? _]|[_ ?]]).
  assert (n <> b) as Hnb by congruence.
  set (blk' := <[n := _]> blk).
  assert (forall k, m <= k < MAXFILE -> (Z.to_nat (4 * (k - NDIRECT)) + 4 <= length (blk n))%nat) as Hfit.
  { intros k Hk. rewrite Hlen. pose proof fs_consts. lia. }
  assert (fblock blk' a m = b) as Em.
  { unfold fblock. destruct (Z.ltb_spec m NDIRECT); [lia|]. fold n. unfold blk'. rewrite fn_lookup_insert.
    rewrite get_put_same by (apply Hfit; lia). apply Z.mod_small. lia. }
  assert (forall k, 0 <= k < MAXFILE -> k <> m -> fblock blk' a k = fblock blk a k) as Ef.
  { intros k Hk Hne. unfold fblock. destruct (Z.ltb_spec k NDIRECT); [done|]. fold n. unfold blk'.
    rewrite fn_lookup_insert. apply get_put_other; [apply Hfit; lia|]. lia. }
  split; try done; try lia.
  - right. split; [done|]. fold n. by rewrite lookup_insert_ne.
  - intros k Hk. destruct (decide (k = m)) as [->|].
    + rewrite Em. split; [apply lookup_insert_eq|]. unfold blk'. rewrite fn_lookup_insert_ne by done.
      by rewrite Hz, chunk_zeroes by lia.
    + rewrite Ef by lia. destruct (Hd k ltac:(lia)) as [Ho Hk'].
      assert (fblock blk a k <> b /\ fblock blk a k <> n) as [? ?] .
      { split; intros He; rewrite He in Ho; [congruence|]. rewrite Hno in Ho. injection Ho as Hmk. clear - Hmk Hk. lia. }
      unfold blk'. by rewrite lookup_insert_ne, fn_lookup_insert_ne by done.
  - intros k Hk Hor. rewrite Ef by lia. apply Hn; [lia|done].
Qed.

(** Writing at the end of the content. *)
Lemma rep_write blk own i a c m k q :
  rep blk own i a c m -> 0 <= k < m -> k * BSIZE <= Z.of_nat (length c) ->
  Z.of_nat (length (c ++ q)) <= (k + 1) * BSIZE ->
  (forall k', 0 <= k' < m -> k' = k \/ (k' + 1) * BSIZE <= Z.of_nat (length c) \/ Z.of_nat (length (c ++ q)) <= k' * BSIZE) ->
  let x := fblock blk a k in
  rep (<[x := set_range (blk x) (length c - Z.to_nat (k * BSIZE)) q]> blk) own i a (c ++ q) m.
Proof.
  intros Hr Hk Hc Hq Hother x. pose proof Hr as [Hl Hm Hi Hd Hn]. destruct (Hd k Hk) as [Hox Hbx].
  set (blk' := <[x := _]> blk).
  assert (forall j, j < NDIRECT \/ nth 12 a 0 <> 0 -> fblock blk' a j = fblock blk a j) as Ef.
  { intros j Hj. unfold fblock. destruct (Z.ltb_spec j NDIRECT); [done|].
    destruct Hi as [[Hz _]|[_ Ho]]; [destruct Hj; [lia|done]|]. unfold blk'. rewrite fn_lookup_insert_ne; [done|].
    intros He. unfold x in He. rewrite <- He, Hox in Ho. injection Ho. lia. }
  split; try done.
  - intros j Hj. rewrite Ef by (apply (rep_reach _ _ _ _ _ _ j Hr); lia). destruct (Hd j Hj) as [Ho Hb].
    split; [done|]. unfold blk'. destruct (decide (j = k)) as [->|Hne].
    + fold x. rewrite fn_lookup_insert. unfold x. rewrite Hbx. apply chunk_write; lia || done.
    + rewrite fn_lookup_insert_ne by (intros He; unfold x in He; rewrite <- He, Hox in Ho; injection Ho; lia).
      rewrite Hb. destruct (Hother j Hj) as [?|[?|?]]; [done| |].
      * symmetry. apply chunk_app_other; lia.
      * rewrite length_app in *. rewrite !chunk_zeroes; rewrite ?length_app; lia || done.
  - intros j Hj Hor. rewrite Ef by done. by apply Hn.
Qed.
End rep.

(** ** The steps of [iappend] *)

Abbreviation sblk s := (im_block (m_img s)).

(** Every block of the image has its length; the owned blocks are the
    allocated data blocks; the others are still zero. *)
Record disk_ok (s : mkfs_state) (own : owners) : Prop := {
  dk_size : im_size (m_img s) = FSSIZE;
  dk_len b : length (sblk s b) = Z.to_nat BSIZE;
  dk_own b o : own !! b = Some o -> nmeta <= b < m_freeblock s;
  dk_zero b : m_freeblock s <= b -> sblk s b = zeroes;
  dk_free : nmeta <= m_freeblock s <= FSSIZE
}.

(** What working on file [i] leaves alone. *)
Record keeps (i : Z) (s : mkfs_state) (own : owners) (s' : mkfs_state) (own' : owners) : Prop := {
  kp_own b o : own !! b = Some o -> own' !! b = Some o;
  kp_other b j k : own !! b = Some (j, k) -> j <> i -> sblk s' b = sblk s b;
  kp_meta b : b < nmeta -> sblk s' b = sblk s b;
  kp_inode : m_freeinode s' = m_freeinode s
}.

Definition wrote (b : Z) (buf : list Z) (s : mkfs_state) : mkfs_state :=
  set_m_img (mkImage (im_size (m_img s)) (<[b := buf]> (im_blocks (m_img s)))) s.

Lemma xint_eq x : xint x = u32 x.
Proof.
  change (u32 x) with (x mod 2 ^ (8 * Z.of_nat 4)). rewrite <- le_dec_enc. unfold xint. f_equal.
  cbn [le_enc]. unfold u8. rewrite !Z.shiftr_div_pow2 by lia. rewrite !Z.div_div by lia. done.
Qed.
Lemma xshort_eq x : xshort x = u16 x.
Proof.
  change (u16 x) with (x mod 2 ^ (8 * Z.of_nat 2)). rewrite <- le_dec_enc. unfold xshort. f_equal.
  cbn [le_enc]. unfold u8. by rewrite !Z.shiftr_div_pow2 by lia.
Qed.

Lemma mkfs_consts : FSSIZE = 2000 /\ nmeta = 46.
Proof. done. Qed.

Section blocks.
  Implicit Types (s : mkfs_state) (own : owners).

Lemma keeps_refl i s own : keeps i s own s own.
Proof. by split. Qed.
Lemma keeps_trans i s own s1 own1 s2 own2 :
  keeps i s own s1 own1 -> keeps i s1 own1 s2 own2 -> keeps i s own s2 own2.
Proof.
  intros [a1 b1 c1 d1] [a2 b2 c2 d2]. split.
  - auto.
  - intros b j k Hb Hj. rewrite (b2 b j k); auto. by eapply b1.
  - intros b Hb. by rewrite c2, c1.
  - congruence.
Qed.

Lemma sblk_wrote b buf s x : sblk (wrote b buf s) x = (<[b := buf]> (sblk s : Z -> list Z)) x.
Proof.
  unfold wrote, im_block. cbn. destruct (decide (b = x)) as [->|].
  - by rewrite lookup_insert_eq, fn_lookup_insert.
  - by rewrite lookup_insert_ne, fn_lookup_insert_ne.
Qed.

Lemma sector_block b : 0 <= b < FSSIZE -> u32 (b * BSIZE) / BSIZE = b.
Proof. intros Hb. pose proof fs_consts. pose proof mkfs_consts. rewrite u32_id by lia. apply Z.div_mul. lia. Qed.

Lemma rsect_ok s b : im_size (m_img s) = FSSIZE -> 0 <= b < FSSIZE -> rsect b s = Ok (sblk s b) s.
Proof.
  intros Hs Hb. unfold rsect. rewrite sector_block by done. step_prim. rewrite Hs.
  by destruct (Z.leb_spec FSSIZE b); [lia|].
Qed.

Lemma wsect_ok s b buf : im_size (m_img s) = FSSIZE -> 0 <= b < FSSIZE -> wsect b buf s = Ok tt (wrote b buf s).
Proof.
  intros Hs Hb. unfold wsect. rewrite sector_block by done. step_prim. unfold wrote. do 3 f_equal. lia.
Qed.

(** Writing a whole block that is not free. *)
Lemma disk_ok_wrote s own b buf :
  disk_ok s own -> b < m_freeblock s -> length buf = Z.to_nat BSIZE -> disk_ok (wrote b buf s) own.
Proof.
  intros [H1 H2 H3 H4 H5] Hb Hl. split; try done.
  - intros x. rewrite sblk_wrote. destruct (decide (b = x)) as [->|]; [by rewrite fn_lookup_insert|by rewrite fn_lookup_insert_ne].
  - intros x Hx. rewrite sblk_wrote. rewrite fn_lookup_insert_ne; [by apply H4|]. cbn in Hx. lia.
Qed.

Lemma rep_wrote s own i a c m b buf :
  rep (<[b := buf]> (sblk s : Z -> list Z)) own i a c m -> rep (sblk (wrote b buf s)) own i a c m.
Proof. intros Hr. eapply rep_frame; [exact Hr|]. intros x k Hx. split; [done|]. apply sblk_wrote. Qed.

(** [freeblock++] gives a fresh zero block to its new owner. *)
Lemma take_block_ok s own i k :
  disk_ok s own -> m_freeblock s < FSSIZE ->
  let b := m_freeblock s in
  exists s', take_block s = Ok b s' /\ disk_ok s' (<[b := (i, k)]> own) /\ keeps i s own s' (<[b := (i, k)]> own) /\
    m_freeblock s' = b + 1 /\ own !! b = None /\ sblk s' = sblk s /\ sblk s b = zeroes /\ 0 < b < 2 ^ 32.
Proof.
  intros [H1 H2 H3 H4 H5] Hb b. pose proof mkfs_consts.
  assert (own !! b = None) as Hn.
  { destruct (own !! b) as [o|] eqn:E; [|done]. apply H3 in E. unfold b in *. lia. }
  exists (set_m_freeblock (b + 1) s). unfold take_block. step_prim. fold b. rewrite u32_id by lia.
  repeat (split; [done|]). split; [split; cbn|].
  - done.
  - done.
  - intros x o. destruct (decide (x = b)) as [->|]; [intros _; lia|]. rewrite lookup_insert_ne by done.
    intros Hx%H3. lia.
  - intros x Hx. apply H4. lia.
  - lia.
  - split; [split|].
    + intros x o Hx. rewrite lookup_insert_ne; [done|]. intros <-. congruence.
    + done.
    + done.
    + done.
    + repeat (split; [done|]). split; [by apply H4|lia].
Qed.
End blocks.

(** ** [append_block] *)

(** Blocks a file of [m] data blocks takes. *)
Definition file_blocks (m : Z) : Z := m + (if NDIRECT <? m then 1 else 0).

Definition with_addrs (a : list Z) (d : dinode) : dinode :=
  mkDinode (di_type d) (di_major d) (di_minor d) (di_nlink d) (di_size d) a.

(** The outcome of [append_block] for block [fbn] of file [i]. *)
Definition appended (i : Z) (s : mkfs_state) (own : owners) (c : list Z) (fbn m : Z)
    (s' : mkfs_state) (own' : owners) (a' : list Z) : Prop :=
  disk_ok s' own' /\ rep (sblk s') own' i a' c (fbn + 1) /\ (nth 12 a' 0 = 0 <-> fbn + 1 <= NDIRECT) /\
  keeps i s own s' own' /\ m_freeblock s' = m_freeblock s + file_blocks (fbn + 1) - file_blocks m.

Section append.
  Implicit Types (s : mkfs_state) (own : owners).

Lemma rep_block_range s own i a c m k :
  disk_ok s own -> rep (sblk s) own i a c m -> 0 <= k < m ->
  nmeta <= fblock (sblk s) a k < m_freeblock s.
Proof. intros Hs Hr Hk. apply (dk_own _ _ Hs _ (i, k)). by apply (rp_data _ _ _ _ _ _ Hr). Qed.

Lemma nth_insert_eq (a : list Z) k x d : (k < length a)%nat -> nth k (<[k := x]> a) d = x.
Proof. intros. by rewrite nth_lookup, list_lookup_insert_eq. Qed.

Lemma append_direct s own i d c m fbn :
  0 <= fbn -> disk_ok s own -> rep (sblk s) own i (di_addrs d) c m -> (nth 12 (di_addrs d) 0 = 0 <-> m <= NDIRECT) ->
  fbn < NDIRECT -> fbn <= m <= fbn + 1 -> (fbn = m -> Z.of_nat (length c) <= m * BSIZE) ->
  m_freeblock s + file_blocks (fbn + 1) - file_blocks m <= FSSIZE ->
  exists s' own' a', append_block d fbn s = Ok (fblock (sblk s') a' fbn, with_addrs a' d) s' /\
    appended i s own c fbn m s' own' a'.
Proof.
  intros Hf0 Hs Hr H12 Hlt Hm Hend Hfree. pose proof mkfs_consts. pose proof fs_consts. pose proof Hr as [Hl Hmax Hi Hd Hn].
  unfold append_block. destruct (Z.ltb_spec fbn NDIRECT) as [_|]; [|lia]. set (a := di_addrs d) in *.
  assert (fblock (sblk s) a fbn = nth (Z.to_nat fbn) a 0) as Ef.
  { unfold fblock. by destruct (Z.ltb_spec fbn NDIRECT); [|lia]. }
  rewrite xint_eq. destruct (decide (fbn = m)) as [->|Hne].
  - rewrite <- Ef, (Hn m) by lia. change (u32 0 =? 0) with true. cbv iota.
    assert (file_blocks (m + 1) = file_blocks m + 1) as Efb.
    { unfold file_blocks. destruct (Z.ltb_spec NDIRECT (m + 1)), (Z.ltb_spec NDIRECT m); lia. }
    destruct (take_block_ok s own i m Hs ltac:(lia)) as (s' & E & Hs' & Hk & Hfb & Hno & Hb & Hz & Hr32).
    set (b := m_freeblock s) in *. rewrite bind_assoc, (bind_ok _ _ _ _ _ E), bind_ret.
    rewrite !xint_eq, (u32_id b) by lia. cbn [di_addrs].
    pose proof (rep_direct _ _ _ _ _ _ b Hr ltac:(lia) ltac:(lia) Hno Hz) as Hr'. rewrite <- Hb in Hr'.
    rewrite nth_insert_eq by (rewrite Hl; lia). rewrite u32_id by lia.
    exists s', (<[b:=(i, m)]> own), (<[Z.to_nat m:=b]> a). split; [|split; [done|split; [exact Hr'|split; [|split]]]].
    + do 2 f_equal. f_equal. unfold fblock. destruct (Z.ltb_spec m NDIRECT); [|lia]. by rewrite nth_insert_eq by (rewrite Hl; lia).
    + rewrite nth_lookup, list_lookup_insert_ne by lia. rewrite <- nth_lookup, H12. lia.
    + done.
    + lia.
  - assert (m = fbn + 1) as -> by lia. pose proof (rep_block_range _ _ _ _ _ _ fbn Hs Hr ltac:(lia)) as Hb.
    rewrite Ef in Hb. rewrite u32_id by lia. destruct (Z.eqb_spec (nth (Z.to_nat fbn) a 0) 0); [lia|].
    rewrite bind_ret. exists s, own, a. split.
    + rewrite xint_eq, u32_id by (fold a; lia). rewrite Ef. fold a. by destruct d.
    + split; [done|]. split; [done|]. split; [done|]. split; [apply keeps_refl|lia].
Qed.

(** The indirect block is there, or is taken. *)
Lemma append_table s own i d c m :
  disk_ok s own -> rep (sblk s) own i (di_addrs d) c m -> (nth 12 (di_addrs d) 0 = 0 <-> m <= NDIRECT) ->
  (m <= NDIRECT -> m_freeblock s < FSSIZE) ->
  exists s' own' a',
    (if u32 (nth 12 (di_addrs d) 0) =? 0 then b ← take_block; mret (with_addrs (<[12%nat := xint b]> (di_addrs d)) d)
     else mret d) s = Ok (with_addrs a' d) s' /\
    disk_ok s' own' /\ rep (sblk s') own' i a' c m /\ nmeta <= nth 12 a' 0 < m_freeblock s' /\
    keeps i s own s' own' /\ m_freeblock s' = m_freeblock s + (if NDIRECT <? m then 0 else 1).
Proof.
  intros Hs Hr H12 Hfree. set (a := di_addrs d) in *. pose proof (rp_len _ _ _ _ _ _ Hr) as Hl. pose proof mkfs_consts.
  destruct (Z.ltb_spec NDIRECT m) as [Hm|Hm].
  - destruct (rp_ind _ _ _ _ _ _ Hr) as [[_ ?]|[H0 Ho]]; [lia|]. pose proof (dk_own _ _ Hs _ _ Ho).
    destruct (Z.eqb_spec (u32 (nth 12 a 0)) 0) as [E|_]; [rewrite u32_id in E by (pose proof (dk_free _ _ Hs); lia); done|].
    exists s, own, a. split; [by destruct d|]. split; [done|]. split; [done|]. split; [done|]. split; [apply keeps_refl|lia].
  - rewrite (proj2 H12 Hm). change (u32 0 =? 0) with true. cbv iota.
    destruct (take_block_ok s own i (-1) Hs (Hfree Hm)) as (s' & E & Hs' & Hk & Hfb & Hno & Hb & Hz & Hr32).
    rewrite (bind_ok _ _ _ _ _ E). rewrite xint_eq, u32_id by lia.
    exists s', (<[m_freeblock s:=(i, -1)]> own), (<[12%nat:=m_freeblock s]> a).
    pose proof (rep_indirect _ _ _ _ _ _ _ Hr (proj2 H12 Hm) Hno Hz ltac:(lia)) as Hr'. rewrite <- Hb in Hr'.
    split; [done|]. split; [done|]. split; [done|]. split; [|split; [done|lia]].
    rewrite nth_insert_eq by (rewrite Hl; lia). pose proof (dk_free _ _ Hs). lia.
Qed.

Lemma append_indirect s own i d c m fbn :
  disk_ok s own -> rep (sblk s) own i (di_addrs d) c m -> (nth 12 (di_addrs d) 0 = 0 <-> m <= NDIRECT) ->
  NDIRECT <= fbn < MAXFILE -> fbn <= m <= fbn + 1 -> (fbn = m -> Z.of_nat (length c) <= m * BSIZE) ->
  m_freeblock s + file_blocks (fbn + 1) - file_blocks m <= FSSIZE ->
  exists s' own' a', append_block d fbn s = Ok (fblock (sblk s') a' fbn, with_addrs a' d) s' /\
    appended i s own c fbn m s' own' a'.
Proof.
  intros Hs Hr H12 Hf Hm Hend Hfree. pose proof mkfs_consts. pose proof fs_consts.
  unfold append_block. destruct (Z.ltb_spec fbn NDIRECT) as [|_]; [lia|]. rewrite xint_eq.
  unfold file_blocks in Hfree. destruct (Z.ltb_spec NDIRECT (fbn + 1)) as [_|]; [|lia].
  destruct (append_table s own i d c m Hs Hr H12) as (s1 & own1 & a & E1 & Hs1 & Hr1 & Hn & Hk1 & Hfb1).
  { intros Hm'. destruct (Z.ltb_spec NDIRECT m); lia. }
  change (Z.to_nat NDIRECT) with 12%nat. unfold with_addrs at 1 in E1.
  rewrite (bind_ok _ _ _ _ _ E1). cbn [with_addrs di_addrs]. set (n := nth 12 a 0) in *.
  pose proof (dk_free _ _ Hs1) as Hfr1. rewrite !xint_eq, !(u32_id n) by lia.
  rewrite (bind_ok _ _ _ _ _ (rsect_ok s1 n (dk_size _ _ Hs1) ltac:(lia))).
  assert (forall t, get32 (sblk t n) (Z.to_nat (4 * (fbn - NDIRECT))) = fblock (sblk t) a fbn) as Ef.
  { intros t. unfold fblock. by destruct (Z.ltb_spec fbn NDIRECT); [lia|]. }
  rewrite !Ef. destruct (decide (fbn = m)) as [->|Hne].
  - rewrite (rp_none _ _ _ _ _ _ Hr1) by (lia || (right; fold n; lia)). cbn [Z.eqb].
    assert (m_freeblock s1 < FSSIZE) as Hlt1 by (destruct (Z.ltb_spec NDIRECT m); lia).
    destruct (take_block_ok s1 own1 i m Hs1 Hlt1) as (s2 & E2 & Hs2 & Hk2 & Hfb2 & Hno & Hb & Hz & Hr32).
    set (b := m_freeblock s1) in *. rewrite bind_assoc, (bind_ok _ _ _ _ _ E2).
    rewrite !xint_eq, !(u32_id b) by lia. set (buf := put32 b (sblk s1 n) _).
    assert (length buf = Z.to_nat BSIZE) as Hlb.
    { unfold buf. rewrite length_put; rewrite (dk_len _ _ Hs1); [done|lia]. }
    rewrite bind_assoc, (bind_ok _ _ _ _ _ (wsect_ok s2 n buf (dk_size _ _ Hs2) ltac:(lia))), bind_ret.
    assert (sblk (wrote n buf s2) n = buf) as En by by rewrite sblk_wrote, fn_lookup_insert.
    assert (get32 buf (Z.to_nat (4 * (m - NDIRECT))) = b) as Eb.
    { unfold buf. rewrite get_put_same by (rewrite (dk_len _ _ Hs1); lia). apply Z.mod_small. lia. }
    assert (fblock (sblk (wrote n buf s2)) a m = b) as Eb' by by rewrite <- Ef, En.
    rewrite xint_eq, Eb, u32_id by lia.
    assert (own1 !! n = Some (i, -1)) as Hon.
    { destruct (rp_ind _ _ _ _ _ _ Hr1) as [[E0 _]|[_ ?]]; [fold n in E0; lia|done]. }
    pose proof (rep_entry _ _ _ _ _ _ b Hr1 ltac:(fold n; lia) ltac:(lia) ltac:(lia) (dk_len _ _ Hs1 n) Hno Hz Hr32) as Hr3.
    fold n in Hr3. fold buf in Hr3. rewrite <- Hb in Hr3. apply rep_wrote in Hr3.
    exists (wrote n buf s2), (<[b:=(i, m)]> own1), a. split; [|split; [|split; [done|split; [|split]]]].
    + by rewrite Eb'.
    + apply disk_ok_wrote; [done|lia|done].
    + fold n. lia.
    + eapply keeps_trans; [exact Hk1|]. eapply keeps_trans; [exact Hk2|]. split; try done.
      * intros x j k Hx Hj. rewrite sblk_wrote, fn_lookup_insert_ne; [done|]. intros <-.
        rewrite lookup_insert_ne in Hx by congruence. congruence.
      * intros x Hx. rewrite sblk_wrote, fn_lookup_insert_ne; [done|lia].
    + cbn. rewrite Hfb2, Hfb1. unfold file_blocks. destruct (Z.ltb_spec NDIRECT (m + 1)), (Z.ltb_spec NDIRECT m); lia.
  - assert (m = fbn + 1) as -> by lia. pose proof (rep_block_range _ _ _ _ _ _ fbn Hs1 Hr1 ltac:(lia)) as Hb.
    destruct (Z.eqb_spec (fblock (sblk s1) a fbn) 0); [lia|]. rewrite bind_ret, xint_eq, Ef, u32_id by lia.
    exists s1, own1, a. split; [done|]. split; [done|]. split; [done|]. split; [fold n; lia|]. split; [done|].
    destruct (Z.ltb_spec NDIRECT (fbn + 1)); lia.
Qed.

(** [append_block] finds block [fbn] of the file, the last one or the one after
    it, allocating it and the indirect block as needed. *)
Lemma append_block_ok s own i d c m fbn :
  disk_ok s own -> rep (sblk s) own i (di_addrs d) c m -> (nth 12 (di_addrs d) 0 = 0 <-> m <= NDIRECT) ->
  0 <= fbn < MAXFILE -> fbn <= m <= fbn + 1 -> (fbn = m -> Z.of_nat (length c) <= m * BSIZE) ->
  m_freeblock s + file_blocks (fbn + 1) - file_blocks m <= FSSIZE ->
  exists s' own' a', append_block d fbn s = Ok (fblock (sblk s') a' fbn, with_addrs a' d) s' /\
    appended i s own c fbn m s' own' a'.
Proof.
  intros Hs Hr H12 Hf Hm Hend Hfree. destruct (decide (fbn < NDIRECT)).
  - by apply append_direct; [lia|..].
  - apply append_indirect; try done. lia.
Qed.
End append.

(** ** [iappend] *)

(** Blocks of a content of [n] bytes. *)
Definition cdiv (n : Z) : Z := (n + BSIZE - 1) / BSIZE.
Abbreviation len c := (Z.of_nat (length c)).

(** File [i] has the content [c]: exactly its blocks are allocated. *)
Definition file_rep (s : mkfs_state) (own : owners) (i : Z) (a c : list Z) : Prop :=
  rep (sblk s) own i a c (cdiv (len c)) /\ (nth 12 a 0 = 0 <-> cdiv (len c) <= NDIRECT).

Section iappend.
  Implicit Types (s : mkfs_state) (own : owners).

Lemma file_blocks_mono m m' : m <= m' -> file_blocks m <= file_blocks m'.
Proof. intros. unfold file_blocks. destruct (Z.ltb_spec NDIRECT m), (Z.ltb_spec NDIRECT m'); lia. Qed.

Lemma cdiv_mono n n' : n <= n' -> cdiv n <= cdiv n'.
Proof. intros. apply Z.div_le_mono; [done|lia]. Qed.

(** The last block of a content that ends inside or at the end of block [k]. *)
Lemma cdiv_last n k : k * BSIZE < n <= (k + 1) * BSIZE -> cdiv n = k + 1.
Proof.
  intros Hn. pose proof fs_consts. unfold cdiv. symmetry. apply (Z.div_unique _ _ _ (n - 1 - k * BSIZE)); [left|]; lia.
Qed.

Lemma cdiv_bounds n : 0 <= n -> n / BSIZE <= cdiv n <= n / BSIZE + 1 /\ (n / BSIZE = cdiv n -> n <= cdiv n * BSIZE).
Proof.
  intros Hn. pose proof fs_consts as (Hb & _ & _). unfold cdiv. rewrite Hb in *.
  pose proof (Z.div_mod n 1024 ltac:(lia)). pose proof (Z.mod_pos_bound n 1024 ltac:(lia)).
  pose proof (Z.div_mod (n + 1024 - 1) 1024 ltac:(lia)). pose proof (Z.mod_pos_bound (n + 1024 - 1) 1024 ltac:(lia)).
  lia.
Qed.

Lemma file_rep_frame s own s' own' i j a c :
  file_rep s own i a c -> keeps j s own s' own' -> i <> j -> file_rep s' own' i a c.
Proof.
  intros [Hr Hi] [K1 K2 _ _] Hij. split; [|done]. eapply rep_frame; [exact Hr|].
  intros b k Hb. split; [by apply K1|]. by eapply K2.
Qed.

(** Storing [q] at the end of the content, in the block already found. *)
Lemma store_end s own i d c q k :
  let m := k + 1 in
  let x := fblock (sblk s) (di_addrs d) k in
  let buf := set_range (sblk s x) (Z.to_nat (len c - k * BSIZE)) q in
  disk_ok s own -> rep (sblk s) own i (di_addrs d) c m -> 0 <= k ->
  k * BSIZE <= len c -> len (c ++ q) <= (k + 1) * BSIZE ->
  nmeta <= x < m_freeblock s /\ disk_ok (wrote x buf s) own /\ rep (sblk (wrote x buf s)) own i (di_addrs d) (c ++ q) m /\
  keeps i s own (wrote x buf s) own.
Proof.
  intros m x buf Hs Hr Hk Hc Hq. pose proof fs_consts as (Hb & _ & _). pose proof mkfs_consts.
  pose proof (rep_block_range _ _ _ _ _ _ k Hs Hr ltac:(lia)) as Hx. fold x in Hx.
  assert (length buf = Z.to_nat BSIZE) as Hl.
  { unfold buf. rewrite length_set_range; rewrite (dk_len _ _ Hs); [done|]. rewrite length_app in Hq. lia. }
  split; [done|]. split; [apply disk_ok_wrote; [done|lia|done]|]. split.
  - apply rep_wrote. unfold buf, x. replace (Z.to_nat (len c - k * BSIZE)) with (length c - Z.to_nat (k * BSIZE))%nat by lia.
    apply rep_write; try done; [lia|]. intros j Hj. destruct (decide (j = k)); [by left|]. right. left.
    assert ((j + 1) * BSIZE <= k * BSIZE) by (apply Z.mul_le_mono_nonneg_r; lia). lia.
  - destruct (rp_data _ _ _ _ _ _ Hr k ltac:(lia)) as [Ho _]. fold x in Ho. split; try done.
    + intros b j o Hbo Hj. rewrite sblk_wrote, fn_lookup_insert_ne; [done|]. intros <-. congruence.
    + intros b Hbm. rewrite sblk_wrote, fn_lookup_insert_ne; [done|lia].
Qed.

Lemma iappend_loop_S fuel din off p :
  iappend_loop (S fuel) din off p =
    (if negb (0 <? len p) then mret (din, off) else
     let fbn := off / BSIZE in
     assert (fbn <? MAXFILE);;
     xd ← append_block din fbn;
     let '(x, din) := (xd : Z * dinode) in
     let n1 := Z.min (len p) (u32 ((fbn + 1) * BSIZE - off)) in
     buf ← rsect x;
     let buf := set_range buf (Z.to_nat (off - fbn * BSIZE)) (take (Z.to_nat n1) p) in
     wsect x buf;;
     iappend_loop fuel din (u32 (off + n1)) (drop (Z.to_nat n1) p)).
Proof. done. Qed.

Lemma iappend_loop_ok fuel i p s own d c :
  disk_ok s own -> file_rep s own i (di_addrs d) c ->
  len (c ++ p) <= MAXFILE * BSIZE ->
  m_freeblock s + file_blocks (cdiv (len (c ++ p))) - file_blocks (cdiv (len c)) <= FSSIZE ->
  (length p < fuel)%nat ->
  exists s' own' a', iappend_loop fuel d (len c) p s = Ok (with_addrs a' d, len (c ++ p)) s' /\
    disk_ok s' own' /\ file_rep s' own' i a' (c ++ p) /\ keeps i s own s' own' /\
    m_freeblock s' = m_freeblock s + file_blocks (cdiv (len (c ++ p))) - file_blocks (cdiv (len c)).
Proof.
  pose proof fs_consts as (Hb & Hnd & Hmax). pose proof mkfs_consts as [Hfs Hnm].
  revert p s own d c. induction fuel as [|fuel IH]; intros p s own d c Hs [Hr Hi] Hlen Hfree Hfuel; [lia|].
  rewrite iappend_loop_S. destruct (Z.ltb_spec 0 (len p)) as [Hp|Hp]; cbn [negb].
  2: { destruct p; [|cbn in Hp; lia]. rewrite !app_nil_r. exists s, own, (di_addrs d). split; [by destruct d|].
       split; [done|]. split; [done|]. split; [apply keeps_refl|lia]. }
  cbv zeta. set (off := len c) in *. set (fbn := off / BSIZE).
  assert (fbn * BSIZE <= off < (fbn + 1) * BSIZE) as Hfb.
  { unfold fbn. rewrite Hb. pose proof (Z.div_mod off 1024 ltac:(lia)). pose proof (Z.mod_pos_bound off 1024 ltac:(lia)). lia. }
  rewrite length_app in Hlen, Hfree. assert (0 <= fbn < MAXFILE) as Hfm by (rewrite Hb, Hmax in *; lia).
  unfold assert. destruct (Z.ltb_spec fbn MAXFILE); [|lia]. rewrite bind_ret.
  set (n1 := Z.min (len p) (u32 ((fbn + 1) * BSIZE - off))).
  assert (n1 = Z.min (len p) ((fbn + 1) * BSIZE - off)) as En1 by (unfold n1; rewrite u32_id; lia).
  assert (0 < n1) as Hn1 by lia.
  destruct (cdiv_bounds off ltac:(lia)) as [Hcb Hce]. fold fbn in Hcb, Hce.
  assert (cdiv (off + n1) = fbn + 1) as Hcd by (apply cdiv_last; lia).
  pose proof (file_blocks_mono _ _ (cdiv_mono (off + n1) (Z.of_nat (length c + length p)) ltac:(lia))) as Hmono.
  rewrite Hcd in Hmono.
  destruct (append_block_ok s own i d c _ fbn Hs Hr Hi Hfm Hcb Hce ltac:(lia))
    as (s1 & own1 & a1 & E1 & Hs1 & Hr1 & Hi1 & Hk1 & Hf1).
  rewrite (bind_ok _ _ _ _ _ E1). cbn beta iota. set (x := fblock (sblk s1) a1 fbn) in *. fold n1.
  set (q := take (Z.to_nat n1) p). assert (len q = n1) as Hq by (unfold q; rewrite length_take; lia).
  assert (len (c ++ q) = off + n1) as Hcq by (rewrite length_app; lia).
  destruct (store_end s1 own1 i (with_addrs a1 d) c q fbn Hs1 Hr1 ltac:(lia) ltac:(lia) ltac:(lia)) as (Hx & Hs2 & Hr2 & Hk2).
  cbn [with_addrs di_addrs] in Hx, Hs2, Hr2, Hk2. fold x in Hx, Hs2, Hr2, Hk2. fold off in Hs2, Hr2, Hk2.
  pose proof (dk_free _ _ Hs1).
  rewrite (bind_ok _ _ _ _ _ (rsect_ok s1 x (dk_size _ _ Hs1) ltac:(lia))).
  set (buf := set_range _ _ _) in *. set (s2 := wrote x buf s1) in *.
  rewrite (bind_ok _ _ _ _ _ (wsect_ok s1 x buf (dk_size _ _ Hs1) ltac:(lia))). fold s2.
  rewrite u32_id, <- Hcq by lia.
  assert (c ++ p = (c ++ q) ++ drop (Z.to_nat n1) p) as Ecp by (unfold q; by rewrite <- app_assoc, take_drop).
  rewrite Ecp. destruct (IH (drop (Z.to_nat n1) p) s2 own1 (with_addrs a1 d) (c ++ q)) as (s' & own' & a' & E & Hs' & Hr' & Hk' & Hf').
  - done.
  - split; rewrite Hcq, Hcd; done.
  - rewrite <- Ecp, length_app. lia.
  - rewrite <- Ecp, Hcq, Hcd. change (m_freeblock s2) with (m_freeblock s1). rewrite length_app. lia.
  - rewrite length_drop. lia.
  - exists s', own', a'. split; [done|]. split; [done|]. split; [done|]. split.
    + eapply keeps_trans; [exact Hk1|]. by eapply keeps_trans.
    + rewrite Hf', Hcq, Hcd. change (m_freeblock s2) with (m_freeblock s1). lia.
Qed.
End iappend.

(** ** The inodes of the image *)

Definition inode_sector (i : Z) : Z := 2 + nlog + i / IPB.
Definition din_of (s : mkfs_state) (i : Z) : dinode := get_dinode (sblk s (inode_sector i)) (dinode_off i).

(** The image under construction: [files] gives each inode's type and
    content. *)
Record image_ok (s : mkfs_state) (own : owners) (files : gmap Z (Z * list Z)) : Prop := {
  im_disk : disk_ok s own;
  im_inum : 1 <= m_freeinode s <= NINODES;
  im_dom i : is_Some (files !! i) -> 1 <= i < m_freeinode s;
  im_file i ty c : files !! i = Some (ty, c) ->
    exists a, din_of s i = mkDinode ty 0 0 1 (len c) a /\ dinode_wf (din_of s i) /\ file_rep s own i a c
}.

Section inodes.
  Implicit Types (s : mkfs_state) (own : owners).

Lemma inode_sector_ok i : 0 <= i < NINODES -> IBLOCK i mkfs_sb = inode_sector i /\ 32 <= inode_sector i < 45.
Proof.
  intros Hi. unfold IBLOCK, inode_sector. change (sb_inodestart mkfs_sb) with 32. change (2 + nlog) with 32.
  change IPB with 16. change NINODES with 200 in Hi.
  assert (0 <= i / 16 < 13) by (split; [apply Z.div_pos; lia|apply Z.div_lt_upper_bound; lia]).
  rewrite u32_id; lia.
Qed.

Lemma inode_slot_ok s own i : disk_ok s own -> (dinode_off i + 64 <= length (sblk s (inode_sector i)))%nat.
Proof.
  intros Hs. rewrite (dk_len _ _ Hs). unfold dinode_off. pose proof (Z.mod_pos_bound i IPB eq_refl) as Hm.
  change IPB with 16 in *. change BSIZE with 1024. lia.
Qed.

Definition with_inode (i : Z) (d : dinode) (s : mkfs_state) : mkfs_state :=
  wrote (inode_sector i) (put_dinode d (sblk s (inode_sector i)) (dinode_off i)) s.

Lemma winode_ok s own i d :
  disk_ok s own -> 0 <= i < NINODES -> winode i d s = Ok tt (with_inode i d s).
Proof.
  intros Hs Hi. destruct (inode_sector_ok i Hi) as [E Hr]. pose proof mkfs_consts. unfold winode. rewrite E.
  rewrite (bind_ok _ _ _ _ _ (rsect_ok s (inode_sector i) (dk_size _ _ Hs) ltac:(lia))).
  apply wsect_ok; [apply Hs|lia].
Qed.

Lemma rinode_ok s own i : disk_ok s own -> 0 <= i < NINODES -> rinode i s = Ok (din_of s i) s.
Proof.
  intros Hs Hi. destruct (inode_sector_ok i Hi) as [E Hr]. pose proof mkfs_consts. unfold rinode. rewrite E.
  by rewrite (bind_ok _ _ _ _ _ (rsect_ok s (inode_sector i) (dk_size _ _ Hs) ltac:(lia))).
Qed.

Lemma din_of_same s own i d :
  disk_ok s own -> dinode_wf d -> din_of (with_inode i d s) i = d.
Proof.
  intros Hs Hd. unfold din_of, with_inode. rewrite sblk_wrote, fn_lookup_insert.
  apply get_put_dinode; [done|by eapply inode_slot_ok].
Qed.

Lemma din_of_other s own i j d :
  disk_ok s own -> length (di_addrs d) = 13%nat -> 0 <= i -> 0 <= j -> i <> j ->
  din_of (with_inode i d s) j = din_of s j.
Proof.
  intros Hs Hd Hi Hj Hne. unfold din_of, with_inode. rewrite sblk_wrote.
  destruct (decide (inode_sector i = inode_sector j)) as [E|E]; [|by rewrite fn_lookup_insert_ne].
  rewrite E, fn_lookup_insert. rewrite get_put_dinode_other; [done|done|rewrite <- E; by eapply inode_slot_ok|].
  unfold inode_sector, dinode_off in *. clear - Hi Hj Hne E. change IPB with 16 in *.
  pose proof (Z.div_mod i 16 ltac:(lia)). pose proof (Z.div_mod j 16 ltac:(lia)).
  pose proof (Z.mod_pos_bound i 16 ltac:(lia)). pose proof (Z.mod_pos_bound j 16 ltac:(lia)). lia.
Qed.

(** Writing a block outside the data area keeps the files' blocks. *)
Lemma file_rep_meta s own i a c b buf :
  disk_ok s own -> b < nmeta -> file_rep s own i a c -> file_rep (wrote b buf s) own i a c.
Proof.
  intros Hs Hb [Hr Hi]. split; [|done]. eapply rep_frame; [exact Hr|]. intros x k Hx. split; [done|].
  rewrite sblk_wrote, fn_lookup_insert_ne; [done|]. pose proof (dk_own _ _ Hs _ _ Hx). lia.
Qed.

Lemma disk_ok_inode s own i d :
  disk_ok s own -> 0 <= i < NINODES -> length (di_addrs d) = 13%nat -> disk_ok (with_inode i d s) own.
Proof.
  intros Hs Hi Hd. destruct (inode_sector_ok i Hi) as [_ Hr]. pose proof mkfs_consts. pose proof (dk_free _ _ Hs).
  apply disk_ok_wrote; [done|lia|]. rewrite length_put_dinode; [apply Hs|done|by eapply inode_slot_ok].
Qed.

(** The addresses of a file are 0 or allocated blocks. *)
Lemma rep_addrs s own i a c m :
  disk_ok s own -> rep (sblk s) own i a c m -> Forall (fun b => 0 <= b < FSSIZE) a.
Proof.
  intros Hs Hr. pose proof Hr as [Hl Hm Hi Hd Hn]. pose proof (dk_free _ _ Hs). pose proof mkfs_consts. pose proof fs_consts.
  apply Forall_lookup. intros k b Hk. pose proof (lookup_lt_Some _ _ _ Hk) as Hlt.
  assert (nth k a 0 = b) as <- by by rewrite nth_lookup, Hk.
  destruct (decide (k = 12)%nat) as [->|].
  - destruct Hi as [[-> _]|[_ Ho]]; [lia|]. pose proof (dk_own _ _ Hs _ _ Ho). lia.
  - assert (fblock (sblk s) a (Z.of_nat k) = nth k a 0) as <-.
    { unfold fblock. destruct (Z.ltb_spec (Z.of_nat k) NDIRECT); [|lia]. by rewrite Nat2Z.id. }
    destruct (decide (Z.of_nat k < m)).
    + destruct (Hd (Z.of_nat k) ltac:(lia)) as [Ho _]. pose proof (dk_own _ _ Hs _ _ Ho). lia.
    + rewrite Hn by (lia || (left; lia)). lia.
Qed.

Lemma file_dinode_wf s own i ty a c m :
  disk_ok s own -> rep (sblk s) own i a c m -> 0 <= ty < 2 ^ 15 -> len c < 2 ^ 32 ->
  dinode_wf (mkDinode ty 0 0 1 (len c) a).
Proof.
  intros Hs Hr Ht Hc. split; cbn; try lia; [by destruct Hr|].
  eapply Forall_impl; [by eapply rep_addrs|]. cbn. pose proof mkfs_consts. lia.
Qed.
End inodes.

(** ** The operations on the image *)

Section image.
  Implicit Types (s : mkfs_state) (own : owners) (files : gmap Z (Z * list Z)).

(** Storing the dinode of file [i]: the file gets the content its blocks
    already hold. *)
Lemma image_ok_inode s0 own0 s own files i ty c a :
  image_ok s0 own0 files -> 1 <= i < m_freeinode s0 ->
  keeps i s0 own0 s own -> disk_ok s own -> file_rep s own i a c -> 0 <= ty < 2 ^ 15 -> len c < 2 ^ 32 ->
  let s' := with_inode i (mkDinode ty 0 0 1 (len c) a) s in
  image_ok s' own (<[i := (ty, c)]> files).
Proof.
  intros [H1 H2 H3 H4] Hi Hk Hs Hr Hty Hc s'. pose proof (kp_inode _ _ _ _ _ Hk) as Hn.
  assert (dinode_wf (mkDinode ty 0 0 1 (len c) a)) as Hwf by (destruct Hr; by eapply file_dinode_wf).
  pose proof (inode_sector_ok i ltac:(lia)) as [_ Hsec]. pose proof mkfs_consts.
  assert (inode_sector i < nmeta) as Hmeta by lia.
  split.
  - apply disk_ok_inode; [done|lia|apply Hwf].
  - cbn. lia.
  - intros j. destruct (decide (j = i)) as [->|]; [cbn; lia|]. rewrite lookup_insert_ne by done.
    intros Hj%H3. cbn. lia.
  - intros j ty' c'. destruct (decide (j = i)) as [->|Hne].
    + rewrite lookup_insert_eq. intros [= <- <-]. exists a. unfold s'. rewrite (din_of_same s own) by done.
      split; [done|]. split; [done|]. by apply file_rep_meta.
    + rewrite lookup_insert_ne by done. intros Hj. destruct (H4 _ _ _ Hj) as (a' & Ed & Hwf' & Hr').
      assert (din_of s' j = din_of s0 j) as E.
      { pose proof (H3 j ltac:(done)). unfold s'.
        rewrite (din_of_other s own) by (done || lia || apply Hwf). unfold din_of.
        rewrite (kp_meta _ _ _ _ _ Hk); [done|]. pose proof (inode_sector_ok j ltac:(lia)). lia. }
      rewrite E. exists a'. split; [done|]. split; [done|]. apply file_rep_meta; try done.
      by eapply file_rep_frame.
Qed.

Lemma file_rep_nil s own i a :
  a = replicate 13 0 -> file_rep s own i a [].
Proof.
  intros ->. pose proof fs_consts. split; [|split; done]. split; try done.
  - by left.
  - intros k Hk. change (cdiv (len [])) with 0 in Hk. lia.
  - intros k Hk [Hd|?]; [|done]. unfold fblock. destruct (Z.ltb_spec k NDIRECT); [|lia]. apply nth_replicate.
Qed.

(** What an operation leaves of the meta blocks: it writes inode blocks only. *)
Definition meta_kept (s s' : mkfs_state) : Prop :=
  forall b, b < 32 \/ b = 45 -> sblk s' b = sblk s b.

Lemma with_inode_kept i d s : 0 <= i < NINODES -> meta_kept s (with_inode i d s).
Proof.
  intros Hi b Hb. destruct (inode_sector_ok i Hi) as [_ Hr]. unfold with_inode.
  rewrite sblk_wrote, fn_lookup_insert_ne; [done|lia].
Qed.

Lemma ialloc_ok s own files ty :
  image_ok s own files -> m_freeinode s < NINODES -> 0 <= ty < 2 ^ 15 ->
  let i := m_freeinode s in
  exists s', mkfs_ialloc ty s = Ok i s' /\ image_ok s' own (<[i := (ty, [])]> files) /\
    m_freeinode s' = i + 1 /\ m_freeblock s' = m_freeblock s /\ meta_kept s s'.
Proof.
  intros Hs Hi Hty i. pose proof Hs as [H1 H2 _ _]. change NINODES with 200 in *.
  unfold mkfs_ialloc. step_prim. fold i. rewrite xshort_eq, xint_eq.
  set (s1 := set_m_freeinode (u32 (i + 1)) s).
  assert (m_freeinode s1 = i + 1) as Ei by (cbn; rewrite u32_id; lia).
  change (i16 (xshort 1)) with 1. change (u32 0) with 0. rewrite (u16_id ty), i16_id by lia.
  assert (disk_ok s1 own) as Hs1 by by destruct H1.
  rewrite (winode_ok s1 own i _ Hs1) by (change NINODES with 200; lia).
  assert (image_ok s1 own files) as Hi1.
  { destruct Hs as [_ _ H3 H4]. split; [done|rewrite Ei; change NINODES with 200; lia| |done].
    intros j Hj%H3. lia. }
  eexists. split; [done|]. split; [|split; [done|split; [done|]]].
  2: { intros b Hb. by rewrite (with_inode_kept i _ s1 ltac:(change NINODES with 200; lia) b Hb). }
  apply (image_ok_inode s1 own s1 own files i ty [] (replicate 13 0)); try done.
  - lia.
  - by apply file_rep_nil.
Qed.

(** [iappend] makes the file longer by the bytes given. *)
Lemma iappend_ok s own files i ty c p :
  image_ok s own files -> files !! i = Some (ty, c) -> 0 <= ty < 2 ^ 15 ->
  len (c ++ p) <= MAXFILE * BSIZE ->
  m_freeblock s + file_blocks (cdiv (len (c ++ p))) - file_blocks (cdiv (len c)) <= FSSIZE ->
  exists s' own', iappend i p s = Ok tt s' /\ image_ok s' own' (<[i := (ty, c ++ p)]> files) /\
    m_freeinode s' = m_freeinode s /\
    m_freeblock s' = m_freeblock s + file_blocks (cdiv (len (c ++ p))) - file_blocks (cdiv (len c)) /\
    meta_kept s s'.
Proof.
  intros Hs Hf Hty Hlen Hfree. pose proof Hs as [H1 H2 H3 H4]. destruct (H4 _ _ _ Hf) as (a & Ed & Hwf & Hr).
  pose proof fs_consts. pose proof (H3 i ltac:(done)) as Hi. unfold iappend.
  rewrite (bind_ok _ _ _ _ _ (rinode_ok s own i H1 ltac:(lia))). rewrite Ed. cbn [di_size].
  rewrite xint_eq, u32_id by (rewrite length_app in Hlen; lia).
  destruct (iappend_loop_ok (S (length p)) i p s own (mkDinode ty 0 0 1 (len c) a) c H1 Hr Hlen Hfree ltac:(lia))
    as (s1 & own1 & a1 & E1 & Hs1 & Hr1 & Hk1 & Hf1).
  rewrite (bind_ok _ _ _ _ _ E1). cbn beta iota delta [with_addrs di_type di_major di_minor di_nlink di_size di_addrs].
  rewrite xint_eq, u32_id by lia. rewrite (winode_ok s1 own1) by (done || lia).
  eexists _, own1. split; [done|]. split.
  - by apply (image_ok_inode s own s1 own1 files i ty (c ++ p) a1); try done; lia.
  - split; [apply (kp_inode _ _ _ _ _ Hk1)|]. split; [done|]. intros b Hb. pose proof mkfs_consts.
    rewrite (with_inode_kept i _ s1) by (done || lia). apply (kp_meta _ _ _ _ _ Hk1). lia.
Qed.
End image.

(** ** The files of the command line *)

(** Blocks a content of [n] bytes takes, the indirect block included. *)
Definition blocks_of (n : Z) : Z := file_blocks (cdiv n).
Definition content (f : input) : list Z := concat (default [] (snd f)).
(** The file opens and is not longer than the format allows. *)
Definition valid_input (f : input) : Prop := is_Some (snd f) /\ len (content f) <= MAXFILE * BSIZE.
Definition entry_of (inum : Z) (f : input) : list Z :=
  enc_dirent (mkDirent (xshort inum) (strncpy (of_list (shortname (fst f))) (Z.of_nat DIRSIZ))).
Fixpoint entries (inum : Z) (args : list input) : list Z :=
  match args with
  | [] => []
  | f :: args => entry_of inum f ++ entries (inum + 1) args
  end.
Fixpoint data_blocks (args : list input) : Z :=
  match args with
  | [] => 0
  | f :: args => blocks_of (len (content f)) + data_blocks args
  end.

(** The image holds the files of [files] and [m_freeblock] is as given. *)
Definition grew (s s' : mkfs_state) (n : Z) : Prop :=
  m_freeblock s' = m_freeblock s + n /\ meta_kept s s'.

Section files.
  Implicit Types (s : mkfs_state) (own : owners) (files : gmap Z (Z * list Z)).

Lemma blocks_of_mono n n' : n <= n' -> blocks_of n <= blocks_of n'.
Proof. intros. by apply file_blocks_mono, cdiv_mono. Qed.
Lemma blocks_of_0 : blocks_of 0 = 0.
Proof. done. Qed.
Lemma data_blocks_nonneg args : 0 <= data_blocks args.
Proof.
  induction args as [|f args IH]; cbn; [done|].
  pose proof (blocks_of_mono 0 (len (content f)) ltac:(lia)). rewrite blocks_of_0 in *. lia.
Qed.
Lemma length_entry inum f : length (entry_of inum f) = 16%nat.
Proof. unfold entry_of, enc_dirent. cbn [de_inum de_name]. by rewrite length_app, length_le_enc, length_strncpy. Qed.
Lemma length_entries inum args : len (entries inum args) = 16 * len args.
Proof.
  revert inum. induction args as [|f args IH]; intros inum; [done|]. cbn [entries].
  rewrite length_app, length_entry. specialize (IH (inum + 1)). cbn [length]. lia.
Qed.

Lemma grew_trans s s1 s2 n n' : grew s s1 n -> grew s1 s2 n' -> grew s s2 (n + n').
Proof. intros [E1 K1] [E2 K2]. split; [lia|]. intros b Hb. by rewrite K2, K1. Qed.

(** Appending the chunks a file is read in. *)
Lemma append_chunks chunks s own files i ty c :
  image_ok s own files -> files !! i = Some (ty, c) -> 0 <= ty < 2 ^ 15 ->
  len (c ++ concat chunks) <= MAXFILE * BSIZE ->
  m_freeblock s + blocks_of (len (c ++ concat chunks)) - blocks_of (len c) <= FSSIZE ->
  exists s' own', for_each chunks (iappend i) s = Ok tt s' /\
    image_ok s' own' (<[i := (ty, c ++ concat chunks)]> files) /\ m_freeinode s' = m_freeinode s /\
    grew s s' (blocks_of (len (c ++ concat chunks)) - blocks_of (len c)).
Proof.
  revert s own files c. induction chunks as [|p chunks IH]; intros s own files c Hs Hf Hty Hlen Hfree; cbn [for_each concat] in *.
  { rewrite !app_nil_r in *. exists s, own. rewrite insert_id by done. split; [done|]. split; [done|].
    split; [done|]. split; [lia|done]. }
  rewrite app_assoc in *.
  pose proof (blocks_of_mono (len (c ++ p)) (len ((c ++ p) ++ concat chunks)) ltac:(rewrite (length_app (c ++ p)); lia)).
  destruct (iappend_ok s own files i ty c p Hs Hf Hty) as (s1 & own1 & E1 & Hs1 & Hn1 & Hb1 & Hk1).
  { rewrite (length_app (c ++ p)) in Hlen. lia. }
  { fold (blocks_of (len (c ++ p))). fold (blocks_of (len c)). lia. }
  fold (blocks_of (len (c ++ p))) in Hb1. fold (blocks_of (len c)) in Hb1. rewrite (bind_ok _ _ _ _ _ E1).
  destruct (IH s1 own1 _ (c ++ p) Hs1 ltac:(apply lookup_insert_eq) Hty Hlen ltac:(lia)) as (s2 & own2 & E2 & Hs2 & Hn2 & Hg2).
  exists s2, own2. split; [done|]. rewrite insert_insert_eq in Hs2. split; [done|]. split; [congruence|].
  replace (blocks_of (len ((c ++ p) ++ concat chunks)) - blocks_of (len c))
    with ((blocks_of (len (c ++ p)) - blocks_of (len c)) + (blocks_of (len ((c ++ p) ++ concat chunks)) - blocks_of (len (c ++ p)))) by lia.
  eapply grew_trans; [split; [|exact Hk1]; lia|done].
Qed.

(** One file of the command line. *)
Lemma add_file_ok s own files c f :
  image_ok s own files -> files !! ROOTINO = Some (T_DIR, c) -> valid_input f -> m_freeinode s < NINODES ->
  len c + 16 <= MAXFILE * BSIZE ->
  let i := m_freeinode s in
  let n := blocks_of (len c + 16) - blocks_of (len c) + blocks_of (len (content f)) in
  m_freeblock s + n <= FSSIZE ->
  exists s' own' files', add_file ROOTINO f s = Ok tt s' /\ image_ok s' own' files' /\ m_freeinode s' = i + 1 /\
    files' !! ROOTINO = Some (T_DIR, c ++ entry_of i f) /\ files' !! i = Some (T_FILE, content f) /\
    (forall j, j <> ROOTINO -> j <> i -> files' !! j = files !! j) /\ grew s s' n.
Proof.
  intros Hs Hroot [[chunks Hc] Hlen] Hi Hdir i n Hfree.
  assert (content f = concat chunks) as Ec by (unfold content; by rewrite Hc). unfold n in *. rewrite Ec in *. clear n.
  unfold add_file. rewrite Hc. pose proof fs_consts. pose proof (im_inum _ _ _ Hs).
  pose proof (im_dom _ _ _ Hs ROOTINO ltac:(eauto)) as Hroot_i.
  assert (ROOTINO <> i) as Hne by (unfold i; lia).
  destruct (ialloc_ok s own files T_FILE Hs Hi ltac:(done)) as (s1 & E1 & Hs1 & Hn1 & Hb1 & Hk1).
  fold i in E1, Hs1, Hn1. rewrite (bind_ok _ _ _ _ _ E1). fold (entry_of i f).
  assert (len (c ++ entry_of i f) = len c + 16) as Hl by (rewrite length_app, length_entry; lia).
  pose proof (blocks_of_mono (len c) (len c + 16) ltac:(lia)).
  pose proof (blocks_of_mono 0 (len (concat chunks)) ltac:(lia)) as Hbc. rewrite blocks_of_0 in Hbc.
  destruct (iappend_ok s1 own _ ROOTINO T_DIR c (entry_of i f) Hs1) as (s2 & own2 & E2 & Hs2 & Hn2 & Hb2 & Hk2).
  { by rewrite lookup_insert_ne. }
  { done. }
  { lia. }
  { rewrite Hl, Hb1. unfold blocks_of in *. lia. }
  rewrite Hl in Hb2. rewrite (bind_ok _ _ _ _ _ E2).
  destruct (append_chunks chunks s2 own2 _ i T_FILE [] Hs2) as (s3 & own3 & E3 & Hs3 & Hn3 & Hg3).
  { rewrite lookup_insert_ne by done. apply lookup_insert_eq. }
  { done. }
  { exact Hlen. }
  { cbn [app]. change (blocks_of (len [])) with 0. unfold blocks_of in *. lia. }
  cbn [app] in Hs3, Hg3. change (blocks_of (len [])) with 0 in Hg3.
  exists s3, own3. eexists. split; [done|]. split; [exact Hs3|]. split; [lia|]. split; [|split; [|split]].
  - rewrite lookup_insert_ne by done. apply lookup_insert_eq.
  - apply lookup_insert_eq.
  - intros j Hj Hj'. by rewrite !lookup_insert_ne by done.
  - apply (grew_trans s s2).
    + split; [unfold blocks_of; lia|]. intros b Hb. by rewrite Hk2, Hk1.
    + by rewrite Z.sub_0_r in Hg3.
Qed.

(** All of them. *)
Lemma add_files_ok args s own files c :
  image_ok s own files -> files !! ROOTINO = Some (T_DIR, c) -> Forall valid_input args ->
  let i := m_freeinode s in
  let n := blocks_of (len c + 16 * len args) - blocks_of (len c) + data_blocks args in
  i + len args <= NINODES -> len c + 16 * len args <= MAXFILE * BSIZE -> m_freeblock s + n <= FSSIZE ->
  exists s' own' files', for_each args (add_file ROOTINO) s = Ok tt s' /\ image_ok s' own' files' /\
    m_freeinode s' = i + len args /\ files' !! ROOTINO = Some (T_DIR, c ++ entries i args) /\
    (forall k f, args !! k = Some f -> files' !! (i + Z.of_nat k) = Some (T_FILE, content f)) /\
    (forall j, j < i -> j <> ROOTINO -> files' !! j = files !! j) /\ grew s s' n.
Proof.
  revert s own files c. induction args as [|f args IH]; intros s own files c Hs Hroot Hv i n Hi Hlen Hfree.
  { exists s, own, files. split; [done|]. split; [done|]. cbn [entries length]. rewrite app_nil_r.
    split; [lia|]. split; [done|]. split; [done|]. split; [done|]. split; [|done]. unfold n. cbn [length data_blocks].
    replace (len c + 16 * Z.of_nat 0) with (len c) by lia. lia. }
  inversion Hv as [|? ? Hvf Hva]; subst. unfold n in *. clear n. cbn [for_each length data_blocks entries] in *.
  pose proof (data_blocks_nonneg args).
  pose proof (blocks_of_mono (len c + 16) (len c + 16 * Z.of_nat (S (length args))) ltac:(lia)).
  destruct (add_file_ok s own files c f Hs Hroot Hvf) as (s1 & own1 & files1 & E1 & Hs1 & Hn1 & Hr1 & Hf1 & Ho1 & Hg1);
    [lia|lia|lia|].
  rewrite (bind_ok _ _ _ _ _ E1). fold i in Hn1, Hr1, Hf1, Ho1.
  assert (len (c ++ entry_of i f) = len c + 16) as Hl by (rewrite length_app, length_entry; lia).
  replace (len c + 16 * Z.of_nat (S (length args))) with (len (c ++ entry_of i f) + 16 * len args) in * by lia.
  rewrite <- Hl in Hg1. pose proof (im_dom _ _ _ Hs ROOTINO ltac:(eauto)) as Hroot_i.
  destruct (IH s1 own1 files1 _ Hs1 Hr1 Hva) as (s2 & own2 & files2 & E2 & Hs2 & Hn2 & Hr2 & Hf2 & Ho2 & Hg2);
    [lia|lia|destruct Hg1; lia|].
  rewrite Hn1 in *. exists s2, own2, files2. split; [done|]. split; [done|]. split; [lia|].
  split; [by rewrite Hr2, <- app_assoc|]. split; [|split].
  - intros [|k] g Hk.
    + injection Hk as <-. rewrite Z.add_0_r, Ho2 by lia. done.
    + replace (i + Z.of_nat (S k)) with (i + 1 + Z.of_nat k) by lia. by apply Hf2.
  - intros j Hj Hjr. rewrite Ho2 by lia. apply Ho1; [done|lia].
  - replace (_ + _) with ((blocks_of (len (c ++ entry_of i f)) - blocks_of (len c) + blocks_of (len (content f))) +
      (blocks_of (len (c ++ entry_of i f) + 16 * len args) - blocks_of (len (c ++ entry_of i f)) + data_blocks args)) by lia.
    by eapply grew_trans.
Qed.
End files.
