(* ===== verification/File.v ===== *)
(** * [file.c]: the open file table and the device switch *)

From S2P Require Import Prelude Layout Memory CString State Spinlock Sched Sleeplock Uart Print.
From S2P Require Import Kmem PageTable Uvm Console Ondisk Bio Block Fs.

Definition file_at (s : kstate) (f : nat) : file := k_files s !!! f.
Definition get_file (f : nat) : K file := gets (fun s => file_at s f).
Definition upd_file (f : nat) (g : file -> file) : K unit :=
  modify (fun s => set_k_files (upd_at f g (k_files s)) s).

(** What the stack holds in the four bytes of padding of [filestat]'s local
    [struct stat]. *)
Class Stack := { stat_pad : kstate -> Z }.

Section file.
  Context {L : LinkMap} {Ot : Others} {D : BlockDev} {St : Stack}.

Definition init_filecache : K unit :=
  initlock LFcache "filecache";;
  for_each (seq 0 NFILE) (fun i => upd_file i (set_f_type FD_NONE);; upd_file i (set_f_ref 0)).

Definition filealloc : K (option nat) :=
  acquire LFcache;;
  l ← gets k_files;
  match find_index (fun f => f_ref f =? 0) l with
  | Some f => upd_file f (set_f_ref 1);; release LFcache;; mret (Some f)
  | None => release LFcache;; mret None
  end.

Definition fileclose (f : option nat) : K unit :=
  acquire LFcache;;
  f ← deref f;
  x ← get_file f;
  if f_ref x <? 1 then panic "fileclose f ref < 1" else
  upd_file f (set_f_ref (f_ref x - 1));;
  if 0 <? f_ref x - 1 then release LFcache else
  ff ← get_file f;
  upd_file f (set_f_ref 0);;
  upd_file f (set_f_type FD_NONE);;
  release LFcache;;
  if bool_decide (f_type ff = FD_PIPE) then mret tt
  else if bool_decide (f_type ff = FD_INODE) || bool_decide (f_type ff = FD_DEVICE) then iput (f_ip ff)
  else mret tt.

Definition filewrite (f : nat) (p n : Z) : K Z :=
  x ← get_file f;
  if f_writable x =? 0 then mret (-1) else
  match f_type x with
  | FD_PIPE => mret 1
  | FD_DEVICE =>
      if (f_major x <? 0) || (Z.of_nat NDEV <=? f_major x) then mret (-1) else
      d ← gets (fun s => k_devsw s !!! Z.to_nat (f_major x));
      match sw_write d with
      | DevNull => mret (-1)
      | DevConsole => consolewrite true p n
      end
  | FD_INODE => mret 0
  | FD_NONE => panic "filewrite"
  end.

Definition fileread (f : nat) (p n : Z) : K Z :=
  x ← get_file f;
  if f_readable x =? 0 then mret (-1) else
  match f_type x with
  | FD_DEVICE =>
      if (f_major x <? 0) || (Z.of_nat NDEV <=? f_major x) then mret (-1) else
      d ← gets (fun s => k_devsw s !!! Z.to_nat (f_major x));
      match sw_read d with
      | DevNull => mret (-1)
      | DevConsole => consoleread true p n
      end
  | FD_INODE =>
      ilock (f_ip x);;
      ip ← deref (f_ip x);
      r ← readi ip (DUser p) (f_off x) (u32 n);
      (if 0 <? fst r then upd_file f (fun y => set_f_off (u32 (f_off y + n)) y) else mret tt);;
      iunlock (f_ip x);;
      mret (fst r)
  | _ => mret 0
  end.

Definition filedup (f : nat) : K nat :=
  acquire LFcache;;
  x ← get_file f;
  if f_ref x <? 1 then panic "filedup | target file ref < 1.." else
  upd_file f (set_f_ref (i32 (f_ref x + 1)));;
  release LFcache;;
  mret f.

Definition filestat (f : nat) (addr : Z) : K Z :=
  p ← myproc;
  x ← get_file f;
  if bool_decide (f_type x = FD_INODE) || bool_decide (f_type x = FD_DEVICE) then
    ilock (f_ip x);;
    ip ← deref (f_ip x);
    pad ← gets stat_pad;
    st ← stati ip pad;
    iunlock (f_ip x);;
    pt ← proc_field p_pagetable p;
    r ← copyoutpg pt addr st 24;
    if r <? 0 then mret (-1) else mret 0
  else mret (-1).
End file.

(** ** The file table's reference counts *)

(** Every file's count is in range. *)
Definition files_wf (l : list file) : Prop := Forall (fun f => 0 <= f_ref f < 2 ^ 31 - 1) l.

Section file_props.
  Context {L : LinkMap} {Ot : Others} {D : BlockDev}.
  Implicit Types s : kstate.

Definition set_file (f : nat) (g : file -> file) s : kstate := set_k_files (upd_at f g (k_files s)) s.
Lemma neutral_set_file f g : neutral (set_file f g).
Proof. by split. Qed.

Lemma file_section {A} f g (a : A) s :
  cpu_wf s -> lock_free LFcache s ->
  (upd_file f g;; release LFcache;; mret a) (held LFcache s) = Ok a (set_file f g (touch s)).
Proof.
  intros Hc Hl. unfold upd_file. step_prim.
  exact (f_equal (fun o => match o with Ok _ s' => Ok a s' | Panic m s' => Panic m s' | Blocked s' => Blocked s' end)
    (release_neutral _ (neutral_set_file f g) LFcache s Hc Hl)).
Qed.

(** [filealloc] takes the first file nobody refers to. *)
Lemma filealloc_eq s :
  kready s ->
  filealloc s =
    match find_index (fun f => f_ref f =? 0) (k_files s) with
    | Some f => Ok (Some f) (set_file f (set_f_ref 1) (touch s))
    | None => Ok None (touch s)
    end.
Proof.
  intros Hk. unfold filealloc.
  rewrite (bind_ok _ _ _ _ _ (acquire_free _ _ (kr_cpu s Hk) (kr_locks s Hk LFcache I))).
  rewrite (bind_ok _ _ _ _ _ (eq_refl : gets k_files (held LFcache s) = Ok (k_files s) (held LFcache s))).
  destruct (find_index _ (k_files s)) as [f|]; [apply file_section; by apply Hk|].
  rewrite (bind_ok _ _ _ _ _ (release_neutral _ neutral_id LFcache s (kr_cpu s Hk) (kr_locks s Hk LFcache I))). done.
Qed.

Lemma filedup_eq f s :
  cpu_wf s -> lock_free LFcache s -> 1 <= f_ref (file_at s f) < 2 ^ 31 - 1 ->
  filedup f s = Ok f (set_file f (set_f_ref (f_ref (file_at s f) + 1)) (touch s)).
Proof.
  intros Hc Hl Hr. unfold filedup, get_file.
  rewrite (bind_ok _ _ _ _ _ (acquire_free _ _ Hc Hl)).
  rewrite (bind_ok _ _ _ _ _ (eq_refl : gets (fun s => file_at s f) (held LFcache s) = Ok (file_at s f) (held LFcache s))).
  destruct (Z.ltb_spec (f_ref (file_at s f)) 1); [lia|]. rewrite i32_id by lia. by apply file_section.
Qed.

(** Closing one of several references only counts down. *)
Lemma fileclose_shared f s :
  kready s -> 2 <= f_ref (file_at s f) ->
  fileclose (Some f) s = Ok tt (set_file f (set_f_ref (f_ref (file_at s f) - 1)) (touch s)).
Proof.
  intros Hk Hr. unfold fileclose, deref, get_file.
  rewrite (bind_ok _ _ _ _ _ (acquire_free _ _ (kr_cpu s Hk) (kr_locks s Hk LFcache I))). rewrite bind_ret.
  rewrite (bind_ok _ _ _ _ _ (eq_refl : gets (fun s => file_at s f) (held LFcache s) = Ok (file_at s f) (held LFcache s))).
  destruct (Z.ltb_spec (f_ref (file_at s f)) 1); [lia|].
  destruct (Z.ltb_spec 0 (f_ref (file_at s f) - 1)); [|lia]. unfold upd_file. step_prim.
  exact (release_neutral _ (neutral_set_file f _) LFcache s (kr_cpu s Hk) (kr_locks s Hk LFcache I)).
Qed.
End file_props.
