(* ===== verification/Proc.v ===== *)
(** * Processes: the rest of [proc.c]

    Creation ([allocproc], [userinit], [fork]), exit and [wait], growing,
    the scheduler's pass over the table, and the system calls of [sysproc.c]
    that only need these.  A trap frame is a page of memory; its fields are at
    their C offsets. *)

From S2P Require Import Prelude Layout Memory CString State Spinlock Sched Sleeplock Uart Print.
From S2P Require Import Kmem PageTable Uvm Console Ondisk Bio Block Fs File.

(** ** [struct trapframe] *)

Definition TF_kernel_satp : Z := 0.
Definition TF_kernel_sp : Z := 8.
Definition TF_kernel_trap : Z := 16.
Definition TF_epc : Z := 24.
Definition TF_kernel_hartid : Z := 32.
Definition TF_sp : Z := 48.
Definition TF_a0 : Z := 112.
Definition TF_a1 : Z := 120.
Definition TF_a2 : Z := 128.
Definition TF_a3 : Z := 136.
Definition TF_a4 : Z := 144.
Definition TF_a5 : Z := 152.
Definition TF_a7 : Z := 168.
Definition TF_size : nat := 288.

(** [p->trapframe->f] and its assignment. *)
Definition tf_get (p : nat) (f : Z) : K Z := gets (fun s => load64 (k_mem s) (p_trapframe (proc_at s p) + f)).
Definition tf_set (p : nat) (f v : Z) : K unit :=
  tf ← (x ← get_proc p; mret (p_trapframe x));
  upd_mem (fun m => store64 m (tf + f) v).

(** [initcode]: a program that calls [exec("/init")]. *)
Definition initcode : list Z := [
  0x17; 0x05; 0x00; 0x00; 0x13; 0x05; 0x45; 0x02;
  0x97; 0x05; 0x00; 0x00; 0x93; 0x85; 0x35; 0x02;
  0x93; 0x08; 0x70; 0x00; 0x73; 0x00; 0x00; 0x00;
  0x93; 0x08; 0x20; 0x00; 0x73; 0x00; 0x00; 0x00;
  0xef; 0xf0; 0x9f; 0xff; 0x2f; 0x69; 0x6e; 0x69;
  0x74; 0x00; 0x00; 0x24; 0x00; 0x00; 0x00; 0x00;
  0x00; 0x00; 0x00; 0x00].

(** [safestrcpy(p->name, t, sizeof(p->name))]. *)
Definition copy_name (t : chars) (p : proc) : proc := set_p_name (set_range (p_name p) 0 (safestrcpy t 16)) p.

Definition initproc : K unit :=
  initlock LPid "nextpid";;
  initlock LWait "wait_lock";;
  for_each (seq 0 NPROC) (fun i =>
    initlock (LProc i) "proc";;
    upd_proc i (set_p_kstack (KSTACK (Z.of_nat i)))).

Definition reparent (p : nat) : K unit :=
  for_each (seq 0 NPROC) (fun pp =>
    x ← get_proc pp;
    if bool_decide (p_parent x = Some p) then
      init ← gets (fun s => initp (k_proc s));
      upd_proc pp (set_p_parent init);;
      wakeup_at (ChProc <$> init)
    else mret tt).

Section proc.
  Context {L : LinkMap} {Ot : Others} {D : BlockDev}.

Definition proc_mapstacks (pg : Z) : K unit :=
  for_each (seq 0 NPROC) (fun i =>
    pa ← kalloc;
    if pa =? 0 then panic "proc_mapstacks kalloc...\n" else
    kvmmap pg (KSTACK (Z.of_nat i)) pa PGSIZE (Z.lor PTE_R PTE_W)).

(** [kvmmake] of [vm.c]; [UART], [VIRTIO0] and [PLIC] are device addresses. *)
Definition kvmmake : K Z :=
  kpg ← kalloc;
  upd_mem (fun m => memset m kpg 0 PGSIZE);;
  kvmmap kpg 0x10000000 0x10000000 PGSIZE (Z.lor PTE_R PTE_W);;
  kvmmap kpg 0x10001000 0x10001000 PGSIZE (Z.lor PTE_R PTE_W);;
  kvmmap kpg 0x0c000000 0x0c000000 0x400000 (Z.lor PTE_R PTE_W);;
  kvmmap kpg KERNELBASE KERNELBASE (l_etext - KERNELBASE) (Z.lor PTE_R PTE_X);;
  kvmmap kpg l_etext l_etext (PHYSTOP - l_etext) (Z.lor PTE_R PTE_W);;
  kvmmap kpg TRAMPOLINE l_trampoline PGSIZE (Z.lor PTE_R PTE_X);;
  proc_mapstacks kpg;;
  mret kpg.

(** [kinit]: the free list, the kernel page table and [satp]. *)
Definition kinit : K unit :=
  initlock LKmem "kmem";;
  freerange l_end PHYSTOP;;
  kpg ← kvmmake;
  modify (set_k_pagetable kpg);;
  modify (fun s => set_k_csr (set_satp (MAKE_SATP kpg) (k_csr s)) s).

Definition freeproc (p : nat) : K unit :=
  x ← get_proc p;
  (if negb (p_trapframe x =? 0) then kfree (p_trapframe x) else mret tt);;
  upd_proc p (set_p_trapframe 0);;
  upd_proc p (set_p_pid 0);;
  upd_proc p (set_p_chan None);;
  upd_proc p (set_p_parent None);;
  upd_proc p (fun x => set_p_name (<[0%nat := 0]> (p_name x)) x);;
  upd_proc p (set_p_killed 0);;
  upd_proc p (set_p_state UNUSED).

(** The comparison [(sz == uvmalloc(...)) == 0] is the code's. *)
Definition growproc (n : Z) : K Z :=
  p ← (p ← myproc; deref p);
  x ← get_proc p;
  let sz := u32 (p_sz x) in
  if 0 <? n then
    r ← uvmalloc (p_pagetable x) sz (u32 (sz + n));
    if negb (sz =? r) then mret (-1) else
    upd_proc p (set_p_sz sz);; mret 0
  else if n <? 0 then
    r ← uvmalloc (p_pagetable x) sz (u32 (sz + n));
    upd_proc p (set_p_sz (u32 r));; mret 0
  else upd_proc p (set_p_sz sz);; mret 0.

Definition proc_pagetable (p : nat) : K Z :=
  pagetable ← uvmcreate;
  if pagetable =? 0 then panic "proc_pagetable: uvmcreate" else
  r ← mappages pagetable TRAMPOLINE PGSIZE l_trampoline (Z.lor PTE_R PTE_X);
  if r <? 0 then panic "------proc_pagetable : trampoline" else
  x ← get_proc p;
  r ← mappages pagetable TRAPFRAME PGSIZE (p_trapframe x) (Z.lor PTE_R PTE_W);
  if r <? 0 then panic "------proc_pagetable : p->trapframe" else mret pagetable.

(** The body of the search: an unused slot is taken and its lock kept. *)
Definition allocproc_slot (p : nat) : K (option nat) :=
  acquire (LProc p);;
  x ← get_proc p;
  if bool_decide (p_state x = UNUSED) then
    pid ← allocpid;
    upd_proc p (set_p_pid (u32 pid));;
    upd_proc p (set_p_state USED);;
    tf ← kalloc;
    upd_proc p (set_p_trapframe tf);;
    if tf =? 0 then panic "alloc p->trapframe panic...\n" else
    pt ← proc_pagetable p;
    upd_proc p (set_p_pagetable pt);;
    if pt =? 0 then
      freeproc p;; release (LProc p);; panic "alloproc proc_pagetable alloced panic"
    else
    upd_proc p (set_p_cont context0);;
    upd_proc p (fun x => set_p_cont (set_ctx_ra l_forkret (p_cont x)) x);;
    upd_proc p (fun x => set_p_cont (set_ctx_sp (u64 (p_kstack x + PGSIZE)) (p_cont x)) x);;
    mret (Some p)
  else
    release (LProc p);;
    mret None.
Definition allocproc : K (option nat) := for_find (seq 0 NPROC) allocproc_slot.

Definition userinit : K unit :=
  p ← allocproc;
  modify (fun s => set_k_proc (set_initp p (k_proc s)) s);;
  p ← deref p;
  x ← get_proc p;
  uvminit (p_pagetable x) initcode (Z.of_nat (length initcode));;
  upd_proc p (set_p_sz PGSIZE);;
  tf_set p TF_epc 0;;
  tf_set p TF_sp PGSIZE;;
  upd_proc p (copy_name (of_list (str "initcode" ++ [0])));;
  r ← rooti;
  upd_proc p (set_p_pwd (Some r));;
  upd_proc p (set_p_state RUNNABLE);;
  release (LProc p).

(** ** [wait] *)

(** One pass over the table: whether the process has children, and the result
    when [wait] returns. *)
Fixpoint wait_scan (l : list nat) (p : nat) (addr : Z) (havekids : bool) : K (bool * option Z) :=
  match l with
  | [] => mret (havekids, None)
  | np :: l =>
      x ← get_proc np;
      if bool_decide (p_parent x = Some p) then
        acquire (LProc np);;
        x ← get_proc np;
        if bool_decide (p_state x = ZOMBIE) then
          let pid := i32 (p_pid x) in
          r ← (if addr =? 0 then mret 0
               else me ← get_proc p; copyoutpg (p_pagetable me) addr (le_enc 4 (p_xstate x)) 4);
          if r <? 0 then
            release (LProc np);; release LWait;; panic "wait:copyoutpg -1"
          else
            freeproc np;;
            release (LProc np);;
            release LWait;;
            mret (true, Some pid)
        else
          release (LProc np);;
          wait_scan l p addr true
      else wait_scan l p addr havekids
  end.

Fixpoint wait_loop (fuel : nat) (p : nat) (addr : Z) : K Z :=
  match fuel with
  | O => block
  | S fuel =>
      hr ← wait_scan (seq 0 NPROC) p addr false;
      match (hr : bool * option Z) with
      | (_, Some pid) => mret pid
      | (havekids, None) =>
          me ← get_proc p;
          if negb havekids || negb (p_killed me =? 0) then release LWait;; mret (-1)
          else sleep (ChProc p) LWait;; wait_loop fuel p addr
      end
  end.
Definition wait (addr : Z) : K Z :=
  p ← (p ← myproc; deref p);
  acquire LWait;;
  wait_loop (S patience) p addr.

(** ** [exit], [fork] *)

Definition exit (n : Z) : K unit :=
  p ← (p ← myproc; deref p);
  init ← gets (fun s => initp (k_proc s));
  if bool_decide (init = Some p) then panic "init proc exit" else
  for_each (seq 0 OPENFILE) (fun fd =>
    x ← get_proc p;
    match p_openfs x !!! fd with
    | Some f => fileclose (Some f);; upd_proc p (fun x => set_p_openfs (<[fd := None]> (p_openfs x)) x)
    | None => mret tt
    end);;
  x ← get_proc p;
  iput (p_pwd x);;
  upd_proc p (set_p_pwd None);;
  acquire LWait;;
  reparent p;;
  x ← get_proc p;
  wakeup_at (ChProc <$> p_parent x);;
  acquire (LProc p);;
  upd_proc p (set_p_xstate n);;
  upd_proc p (set_p_state ZOMBIE);;
  release LWait;;
  sched;;
  panic "proc exit".

Definition fork : K Z :=
  now ← (p ← myproc; deref p);
  p ← allocproc;
  match p with
  | None => mret (-1)
  | Some p =>
      x ← get_proc now;
      y ← get_proc p;
      r ← uvmcopy (p_pagetable x) (p_pagetable y) (p_sz x);
      if r <? 0 then
        freeproc p;; release (LProc p);; mret (-1)
      else
      upd_proc p (set_p_sz (p_sz x));;
      upd_mem (fun m => store_bytes m (p_trapframe y) (load_bytes m (p_trapframe x) TF_size));;
      tf_set p TF_a0 0;;
      for_each (seq 0 OPENFILE) (fun i =>
        match p_openfs x !!! i with
        | Some f => f ← filedup f; upd_proc p (fun y => set_p_openfs (<[i := Some f]> (p_openfs y)) y)
        | None => mret tt
        end);;
      d ← deref (p_pwd x);
      d ← idup d;
      upd_proc p (set_p_pwd (Some d));;
      upd_proc p (copy_name (of_list (p_name x)));;
      y ← get_proc p;
      let pid := i32 (p_pid y) in
      release (LProc p);;
      acquire LWait;;
      upd_proc p (set_p_parent (Some now));;
      release LWait;;
      acquire (LProc p);;
      upd_proc p (set_p_state RUNNABLE);;
      release (LProc p);;
      mret pid
  end.

(** ** The scheduler *)

(** Before and after the [swtch] to a process. *)
Definition switch_in (p : nat) : K unit :=
  upd_proc p (set_p_state RUNNING);;
  upd_mycpu (set_c_proc (Some p)).
Definition switch_out : K unit := upd_mycpu (set_c_proc None).

(** One pass of the [for(;;)] of [scheduler]; [swtch] runs the process until
    it switches back. *)
Definition scheduler_pass : K unit :=
  intr_on;;
  for_each (seq 0 NPROC) (fun p =>
    acquire (LProc p);;
    x ← get_proc p;
    (if bool_decide (p_state x = RUNNABLE) then
       switch_in p;;
       swtch;;
       switch_out
     else mret tt);;
    release (LProc p)).

(** [scheduler] for [rounds] passes. *)
Fixpoint scheduler_passes (rounds : nat) : K unit :=
  match rounds with
  | O => block
  | S rounds => scheduler_pass;; scheduler_passes rounds
  end.
Definition scheduler (rounds : nat) : K unit :=
  upd_mycpu (set_c_proc None);;
  scheduler_passes rounds.

(** ** [procdump] *)

Definition state_name (st : procstate) : string :=
  match st with
  | UNUSED => "unused" | SLEEPING => "sleep " | RUNNABLE => "runble"
  | RUNNING => "run   " | ZOMBIE => "zombie" | USED => "???"
  end.
(** The characters of a [char] array up to its terminator. *)
Definition c_string (l : list Z) : list Z := cprefix (length l) (of_list l).
Definition procdump : K unit :=
  printf [NL] [];;
  for_each (seq 0 NPROC) (fun i =>
    x ← get_proc i;
    if bool_decide (p_state x = UNUSED) then mret tt else
    printf (str "%d %s %s") [AInt (i32 (p_pid x)); AStr (Some (str (state_name (p_state x))));
      AStr (Some (c_string (p_name x)))];;
    printf [NL] []).
End proc.
