(* ===== verification/Resume.v ===== *)
(** * Sleeping and being resumed

    What [sleep] does, as seen by the process: its spin lock is released while
    it is off the hart, and when the environment resumes it, it goes on in the
    critical section it left.  The environment must give back the locks, the
    registers and the nesting depth; it may change anything else. *)

From S2P Require Import Prelude Layout Memory State Spinlock Sched.

Section held.
  Implicit Types (s : kstate) (l : lockid).

(** Updates of protected data pass through [acquire]. *)
Lemma neutral_held g l s : neutral g -> g (held l s) = held l (g s).
Proof.
  intros Hg.
  transitivity (g (set_k_csr (k_csr (held l s)) (set_k_cpus (k_cpus (held l s)) (set_k_locks (k_locks (held l s)) s)))).
  { by f_equal. }
  rewrite (nt_set g Hg). unfold held, pushed, upd_cpu, enter_cpu, lock_at. kstate_eq;
    rewrite ?(neutral_hart g Hg), ?(nt_csr g Hg), ?(nt_cpus g Hg), ?(nt_locks g Hg); done.
Qed.

Lemma held_comm l l' s : l <> l' -> held l (held l' s) = held l' (held l s).
Proof.
  intros Hne. unfold held, pushed, upd_cpu. kstate_eq.
  unfold lock_at. kred. rewrite !lookup_insert_ne by done.
  change (hart (set_k_locks _ _)) with (hart s). by apply insert_insert_ne.
Qed.

Lemma held_touch l s : cpu_wf s -> held l (touch s) = held l s.
Proof.
  intros [Hh _]. unfold held, pushed, touch, upd_cpu. kstate_eq. rewrite upd_at_upd_at. apply upd_at_ext.
  change (enter_cpu (set_k_cpus _ s)) with (enter_cpu s). unfold enter_cpu.
  destruct (noff (k_cpus s !!! hart s) =? 0) eqn:E; cbn [set_intena noff]; by rewrite E.
Qed.

Lemma neutral_upd_cpu g f s : neutral g -> g (upd_cpu f s) = upd_cpu f (g s).
Proof.
  intros Hg.
  transitivity (g (set_k_csr (k_csr s) (set_k_cpus (k_cpus (upd_cpu f s)) (set_k_locks (k_locks s) s)))).
  { by f_equal. }
  rewrite (nt_set g Hg). unfold upd_cpu. kstate_eq;
    rewrite ?(neutral_hart g Hg), ?(nt_csr g Hg), ?(nt_cpus g Hg), ?(nt_locks g Hg); done.
Qed.
End held.

Section resume.
  Context {Ot : Others}.
  Implicit Types (s : kstate) (p : nat).

Definition asleep (c : chan) (x : proc) : proc := set_p_state SLEEPING (set_p_chan (Some c) x).

(** The state a process leaves to the scheduler when it sleeps from the critical
    section of [lk] with the protected data at [g s]. *)
Definition sleeping_state (c : chan) (p : nat) (g : kstate -> kstate) s : kstate :=
  upd_procs (upd_at p (asleep c)) (g (held (LProc p) s)).

Lemma intena_held l s : cpu_wf s -> intena (cpu_of (held l s)) = intena (enter_cpu s (cpu_of s)).
Proof. intros Hc. by rewrite cpu_of_held. Qed.

Lemma upd_cpu_id f s : f (cpu_of s) = cpu_of s -> upd_cpu f s = s.
Proof. intros E. unfold upd_cpu. rewrite upd_at_id by exact E. by kstate_eq. Qed.

Lemma cpu_wf_held2 l l' s : cpu_wf s -> noff (cpu_of s) < 2 ^ 31 - 8 -> cpu_wf (held l (held l' s)).
Proof.
  intros Hc Hn. apply cpu_wf_held; [apply cpu_wf_held; [done|lia]|]. rewrite cpu_of_held by done.
  cbn [noff set_noff]. lia.
Qed.

(** [sched] of a process asleep: it comes back as the environment left it, with
    its own [intena]. *)
Lemma sched_resumed c g s p s' :
  neutral g -> cpu_wf s -> noff (cpu_of s) < 2 ^ 31 - 8 -> curproc s = Some p ->
  (p < length (procs (k_proc (g (held (LProc p) s)))))%nat ->
  others (sleeping_state c p g s) = Some s' ->
  sched (sleeping_state c p g s) = Ok tt (upd_cpu (set_intena (intena (cpu_of (held (LProc p) s)))) s').
Proof.
  intros Hg Hc Hn Hp Hlt Ho. set (h := held (LProc p) s) in *. set (x := sleeping_state c p g s) in *.
  set (G := fun s => upd_procs (upd_at p (asleep c)) (g s)).
  assert (neutral G) as HG by (apply (neutral_compose (upd_procs _) g); [apply neutral_procs|done]).
  assert (x = G h) as Ex by done.
  assert (cpu_wf h) as Hch by (apply cpu_wf_held; [done|lia]).
  assert (cpu_wf x) as Hcx by (rewrite Ex; by apply neutral_cpu_wf).
  assert (touch x = x) as Etx by (rewrite Ex, <- (neutral_touch G HG); unfold h; by rewrite touch_held).
  assert (cpu_of x = cpu_of h) as Ecx by (rewrite Ex; by apply neutral_cpu_of).
  assert (curproc x = Some p) as Epx by (unfold curproc; rewrite Ecx; unfold h; by rewrite c_proc_held).
  assert (hart x = hart s) as Ehx by (rewrite Ex; exact (neutral_hart G HG h)).
  assert (lock_at x (LProc p) = mkSpinlock 1 (lname (lock_at s (LProc p))) (Some (hart s))) as Elx.
  { unfold lock_at. rewrite Ex, (nt_locks G HG). unfold h, held. kred. by rewrite lookup_insert_eq. }
  assert (p_state (proc_at x p) = SLEEPING) as Esx.
  { unfold proc_at, x, sleeping_state, upd_procs. cbn [k_proc set_k_proc procs set_procs]. by rewrite upd_at_eq. }
  assert (flag (sstatus (k_csr x)) SSTATUS_SIE = false) as Eix.
  { rewrite Ex, (nt_csr G HG). unfold h, held, pushed. kred. cbn [sstatus set_sstatus]. apply SIE_clear_get. }
  unfold sched. rewrite (bind_ok _ _ _ _ _ (myproc_eq x Hcx)), Etx, Epx.
  unfold deref, holdinglock, get_proc, intr_get, mycpu, swtch, upd_mycpu. step_prim.
  rewrite Elx, Ehx. cbn [locked lcpu]. rewrite (bool_decide_eq_true_2 (Some (hart s) = _)) by done.
  cbn [Z.eqb negb andb]. rewrite Esx. rewrite bool_decide_eq_false_2 by done. rewrite Eix, Ho, Ecx. done.
Qed.

(** Sleeping and waking in the critical section of [lk]: [g] is what the section
    has done so far, [g'] what the environment makes of it. *)
Lemma sleep_resumed c lk g g' j s p :
  neutral g -> neutral g' -> cpu_wf s -> noff (cpu_of s) < 2 ^ 31 - 8 -> lk <> LProc p ->
  lock_free lk s -> lock_free (LProc p) s -> curproc s = Some p ->
  (p < length (procs (k_proc (g (held (LProc p) s)))))%nat ->
  others (sleeping_state c p g s) = Some (upd_cpu (set_intena j) (g' (held (LProc p) s))) ->
  sleep c lk (g (held lk s)) = Ok tt (upd_procs (upd_at p (set_p_chan None)) (g' (held lk s))).
Proof.
  intros Hg Hg' Hc Hn Hne Hl Hlp Hp Hlt Ho. set (h := held (LProc p) s) in *.
  assert (cpu_wf (held lk s)) as Hch by (apply cpu_wf_held; [done|lia]).
  assert (cpu_wf h) as Hch' by (apply cpu_wf_held; [done|lia]).
  assert (cpu_wf (g (held lk s))) as Hcg by by apply neutral_cpu_wf.
  unfold sleep. rewrite (bind_ok _ _ _ _ _ (myproc_eq _ Hcg)), <- (neutral_touch g Hg), touch_held by done.
  assert (curproc (g (held lk s)) = Some p) as ->.
  { unfold curproc. rewrite (neutral_cpu_of g Hg). by rewrite c_proc_held. }
  unfold deref. rewrite (bind_ok _ _ _ p (g (held lk s))) by done.
  rewrite (bind_ok _ _ _ _ _ (acquire_free (LProc p) _ Hcg
    (proj2 (neutral_lock_free g Hg _ _) (lock_free_held lk (LProc p) s Hne Hlp)))).
  rewrite <- (neutral_held g (LProc p) _ Hg), held_comm by congruence. fold h.
  assert (lock_free lk h) as Hlh by (apply lock_free_held; [congruence|done]).
  rewrite (bind_ok _ _ _ _ _ (release_neutral g Hg lk h Hch' Hlh)). unfold h at 1. rewrite touch_held by done. fold h.
  unfold upd_proc. rewrite (bind_ok _ _ _ tt (upd_procs (upd_at p (set_p_chan (Some c))) (g h))) by done.
  rewrite (bind_ok _ _ _ tt (sleeping_state c p g s)).
  2:{ unfold modify. apply (f_equal (Ok tt)). rewrite upd_procs_upd. apply upd_procs_ext. by rewrite upd_at_upd_at. }
  rewrite (bind_ok _ _ _ _ _ (sched_resumed c g s p _ Hg Hc Hn Hp Hlt Ho)). fold h.
  assert (upd_cpu (set_intena (intena (cpu_of h))) (upd_cpu (set_intena j) (g' h)) = g' h) as ->.
  { rewrite upd_cpu_upd. apply upd_cpu_id. rewrite (neutral_cpu_of g' Hg'). by destruct (cpu_of h). }
  set (G := fun s => upd_procs (upd_at p (set_p_chan None)) (g' s)).
  assert (neutral G) as HG by (apply (neutral_compose (upd_procs _) g'); [apply neutral_procs|done]).
  rewrite (bind_ok _ _ _ tt (G h)) by done.
  rewrite (bind_ok _ _ _ _ _ (release_neutral G HG (LProc p) s Hc Hlp)).
  rewrite acquire_free.
  - rewrite <- (neutral_held G lk _ HG), held_touch by done. done.
  - apply neutral_cpu_wf; [done|]. by apply cpu_wf_touch.
  - by apply neutral_lock_free.
Qed.
End resume.
