(* ===== verification/Fork.v ===== *)
(** * Creating a process: [proc_pagetable] and [allocproc]

    A new address space has the trampoline and the trap frame and nothing else;
    it shares no page with the address space it is created beside. *)

From S2P Require Import Prelude Layout Memory CString State Spinlock Sched Sleeplock Uart Print.
From S2P Require Import Kmem PageTable Uvm UvmProps UvmGrow UvmShrink UvmAlloc UvmCopy.
From S2P Require Import Console Ondisk Bio Block Fs File Proc Resume.

(** ** An empty table *)

Lemma empty_table m root :
  (forall x, in_page x root -> load8 m x = 0) ->
  (forall id t, tid_ok id -> tbl m root id = Some t -> id = T2 /\ t = root) /\ (forall va, pte_of m root va = 0).
Proof.
  intros Hz.
  assert (forall i, 0 <= i < 512 -> next m root i = None) as Hn.
  { intros i Hi. unfold next. rewrite (load64_ext m ∅).
    - by rewrite load64_empty.
    - intros x Hx. rewrite Hz; [done|]. unfold in_page, PGSIZE. lia. }
  split.
  - intros [|i|i j] t Hid; cbn [tbl tid_ok] in *; [by intros [= <-]|by rewrite Hn|]. by rewrite Hn by tauto.
  - intros va. unfold pte_of, pt_addr, leaf_id, tbl. rewrite Hn; [done|]. apply PX_range. lia.
Qed.

Section create.
  Context `{HL : LinkOk}.
  Implicit Types (s : kstate) (l : list Z).

(** [uvmcreate] beside the address space [old]. *)
Lemma uvmcreate_spec s old root l :
  vm_inv s old (root :: l) ->
  uvmcreate s = Ok root (clear_page s root) /\ 0 < root /\
  two_spaces (clear_page s root) old root l /\
  (forall va, pte_of (k_mem (clear_page s root)) root va = 0) /\
  (forall id t, tid_ok id -> tbl (k_mem (clear_page s root)) root id = Some t -> t = root).
Proof.
  intros Hi. destruct (clear_page_spec s old root l Hi) as (E & Hpos & Hi1 & _ & Hd & _ & Hz).
  destruct (empty_table _ _ Hz) as [Ht Hp]. destruct Hd as (Hok & Hnin & Hnt).
  unfold uvmcreate. rewrite (bind_ok _ _ _ _ _ E). destruct (Z.eqb_spec root 0); [lia|].
  split; [done|]. split; [done|]. split; [|split; [done|]].
  - split; [done|split; [apply Hi1|split|]|].
    + intros id t Hid Et. by apply Ht in Et as [_ ->].
    + intros id id' t Hid Hid' Et Et'. apply Ht in Et as [-> _]; [|done]. by apply Ht in Et' as [-> _].
    + intros id t Hid Et. by apply Ht in Et as [_ ->].
    + intros id id' t Hid Hid' Et Et'. apply Ht in Et' as [_ ->]; [|done]. by apply (Hnt id).
  - intros id t Hid Et. by apply Ht in Et as [_ ->].
Qed.

(** What of the old space is untouched when the new one is made from free pages. *)
Record made_beside s l s' l' (old new : Z) : Prop := {
  mb_two : two_spaces s' old new l';
  mb_free : l' ⊆ l;
  mb_old : forall va, pte_of (k_mem s') old va = pte_of (k_mem s) old va;
  mb_data : forall pa, data_page s old l pa ->
    both_data s' old new l' pa /\ forall x, in_page x pa -> load8 (k_mem s') x = load8 (k_mem s) x
}.

Lemma made_clear s old root l :
  vm_inv s old (root :: l) -> made_beside s (root :: l) (clear_page s root) l old root.
Proof.
  intros Hi. destruct (clear_page_spec s old root l Hi) as (_ & _ & Hi1 & Hg & Hd & Hp & _).
  destruct (uvmcreate_spec s old root l Hi) as (_ & _ & Hts & _ & Ht).
  split; [done|apply Hg|done|]. intros pa Hpa.
  destruct (data_page_grow _ _ _ _ _ _ Hi Hg Hpa) as [Hpa' Hx]. split; [|done]. split; [done|].
  split; [apply Hpa|split; [apply Hpa'|]]. intros id Hid Et. apply Ht in Et as ->; [|done].
  destruct Hpa as (_ & Hnin & _). apply Hnin. by left.
Qed.

Lemma made_grow s l s1 l1 s' l' old new :
  made_beside s l s1 l1 old new -> vm_inv s' new l' -> pt_grow new s1 l1 s' l' -> made_beside s l s' l' old new.
Proof.
  intros [T S O D] Hi Hg. destruct (other_grow _ _ _ _ _ _ T Hi Hg) as (T' & O' & _). split.
  - done.
  - etransitivity; [apply Hg|done].
  - intros va. by rewrite O'.
  - intros pa Hpa. destruct (D pa Hpa) as [Hb Hx]. destruct (both_data_grow _ _ _ _ _ _ _ T Hi Hg Hb) as [Hb' Hx'].
    split; [done|]. intros x Hin. by rewrite Hx', Hx.
Qed.

Lemma vm_frame_procs s s' : vm_frame s s' -> k_proc s' = k_proc s.
Proof. by intros ([] & m & f & ->). Qed.

(** The two pages at the top of every user address space. *)
Definition tramp_perm : Z := Z.lor PTE_R PTE_X.
Definition frame_perm : Z := Z.lor PTE_R PTE_W.
Definition top_pages (tf va : Z) : Z :=
  if decide (TRAMPOLINE <= va) then pte_entry l_trampoline tramp_perm
  else if decide (TRAPFRAME <= va) then pte_entry tf frame_perm else 0.

Lemma perm_range1 : 0 <= tramp_perm < 2 ^ 10.
Proof. by vm_compute. Qed.
Lemma perm_range2 : 0 <= frame_perm < 2 ^ 10.
Proof. by vm_compute. Qed.

Lemma proc_pagetable_spec s p old root l :
  let tf := p_trapframe (proc_at s p) in
  vm_inv s old (root :: l) -> (4 <= length l)%nat -> data_page s old (root :: l) tf ->
  exists s' l', proc_pagetable p s = Ok root s' /\ 0 < root /\ vm_frame s s' /\
    made_beside s (root :: l) s' l' old root /\ (length l <= length l' + 4)%nat /\
    (forall va, 0 <= va < MAXVA -> pte_of (k_mem s') root va = top_pages tf va).
Proof.
  intros tf Hi Hlen Htf. assert (PGSIZE = 4096) as HP by done.
  assert (TRAMPOLINE = 2 ^ 38 - 4096 /\ TRAPFRAME = 2 ^ 38 - 8192 /\ MAXVA = 2 ^ 38) as (E1 & E2 & E3) by done.
  destruct (uvmcreate_spec s old root l Hi) as (E & Hpos & Hts & Hz & _). set (s1 := clear_page s root) in *.
  pose proof (made_clear s old root l Hi) as Hm1. fold s1 in Hm1.
  destruct (clear_page_spec s old root l Hi) as (_ & _ & _ & Hgc & _). fold s1 in Hgc. pose proof (pe_frame _ _ _ _ _ Hgc) as Hf1.
  unfold proc_pagetable. rewrite (bind_ok _ _ _ _ _ E). destruct (Z.eqb_spec root 0); [lia|].
  assert (page_addr l_trampoline /\ l_trampoline + 2 * PGSIZE < 2 ^ 56) as [Hpt Hpt2].
  { destruct HL as [He He' _ Hm Hr]. unfold page_addr, KERNELBASE, PGSIZE in *. change PHYSTOP with (2 ^ 31 + 2 ^ 27) in He. lia. }
  destruct (map_page_cases s1 root l l_trampoline TRAMPOLINE tramp_perm (ts_new _ _ _ _ Hts) Hpt Hpt2 perm_range1 eq_refl
    ltac:(lia) ltac:(lia)) as (r1 & s2 & l2 & Em & Hi2 & Hg2 & _ & Hr1).
  { intros va _. rewrite Hz. reflexivity. }
  fold tramp_perm. rewrite (bind_ok _ _ _ _ _ Em). destruct Hr1 as [(-> & Hl2 & Hp2)|(_ & _ & ? & _)]; [cbn [Z.ltb Z.compare]|lia].
  pose proof (made_grow _ _ _ _ _ _ _ _ Hm1 Hi2 Hg2) as Hm2.
  assert (vm_frame s s2) as Hf2 by (eapply vm_frame_trans; [eapply vm_inv_cpu, Hi|done|apply Hg2]).
  assert (proc_at s2 p = proc_at s p) as Ep by (unfold proc_at; by rewrite (vm_frame_procs _ _ Hf2)).
  rewrite (bind_ok _ _ _ (proc_at s2 p) s2) by done. rewrite Ep. fold tf.
  destruct (mb_data _ _ _ _ _ _ Hm2 tf Htf) as [[_ Htf2] _].
  destruct (map_fresh_cases s2 root l2 tf TRAPFRAME frame_perm Hi2 Htf2 perm_range2 eq_refl
    ltac:(lia) ltac:(lia)) as (r2 & s3 & l3 & Em3 & Hi3 & Hg3 & _ & Hr3).
  { intros va Hva. rewrite Hp2, decide_False by lia. rewrite Hz. reflexivity. }
  fold frame_perm. rewrite (bind_ok _ _ _ _ _ Em3). destruct Hr3 as [(-> & Hl3 & Hp3)|(_ & _ & ? & _)]; [cbn [Z.ltb Z.compare]|lia].
  exists s3, l3. split; [done|]. split; [done|]. split; [eapply vm_frame_trans; [eapply vm_inv_cpu, Hi|done|apply Hg3]|].
  split; [by eapply made_grow|]. split; [lia|]. intros va Hva. rewrite Hp3, Hp2, Hz by done. unfold top_pages.
  destruct (decide (TRAMPOLINE <= va)), (decide (TRAPFRAME <= va)), (decide (TRAPFRAME <= va < TRAPFRAME + PGSIZE)),
    (decide (TRAMPOLINE <= va < TRAMPOLINE + PGSIZE)); (reflexivity || lia).
Qed.
End create.

(** ** Memory facts and the rest of the state *)

Section transfer.
  Context `{HL : LinkOk}.
  Implicit Types (s : kstate) (l : list Z).

Lemma vm_inv_transfer s t root l :
  k_mem t = k_mem s -> k_freelist t = k_freelist s -> cpu_wf t -> lock_free LKmem t -> vm_inv s root l -> vm_inv t root l.
Proof.
  intros Em Ef Hc Hl [[Hch Hnd Hp Hw _ _] Hwf Hd].
  split; [split|..]; rewrite ?Em, ?Ef; done.
Qed.

Lemma two_spaces_transfer s t old new l :
  k_mem t = k_mem s -> k_freelist t = k_freelist s -> cpu_wf t -> lock_free LKmem t ->
  two_spaces s old new l -> two_spaces t old new l.
Proof.
  intros Em Ef Hc Hl [Ho Hn Hd]. split; [by eapply vm_inv_transfer|by eapply vm_inv_transfer|]. by rewrite Em.
Qed.

Lemma data_page_mem s t root l pa : k_mem t = k_mem s -> data_page s root l pa -> data_page t root l pa.
Proof. unfold data_page. by intros ->. Qed.

Lemma both_data_mem s t old new l pa : k_mem t = k_mem s -> both_data s old new l pa -> both_data t old new l pa.
Proof. intros E [H1 H2]. split; by eapply data_page_mem. Qed.

(** Under a held lock [touch] does nothing, so only memory and the free list
    can change in the frame of [vm.c]. *)
Lemma frame_held s t : touch s = s -> vm_frame s t -> t = set_k_mem (k_mem t) (set_k_freelist (k_freelist t) s).
Proof. intros E ([] & m & f & ->); unfold vm_upd; rewrite ?E; done. Qed.

Lemma noff_held (k : lockid) s : cpu_wf s -> noff (cpu_of (held k s)) <> 0.
Proof. intros Hc. rewrite cpu_of_held by done. cbn. destruct Hc as (_ & ? & _). lia. Qed.

(** A page taken from the free list. *)
Lemma kalloc_beside s root pa l :
  vm_inv s root (pa :: l) ->
  kalloc s = Ok pa (kalloc_upd s pa) /\ 0 < pa /\ vm_inv (kalloc_upd s pa) root l /\
  pt_grow root s (pa :: l) (kalloc_upd s pa) l /\ data_page (kalloc_upd s pa) root l pa /\
  (forall va, pte_of (k_mem (kalloc_upd s pa)) root va = pte_of (k_mem s) root va).
Proof.
  intros Hi. destruct (kalloc_spec s pa l (vi_kmem _ _ _ Hi)) as (E & Hk & Hok & _). pose proof (page_ok_pos _ Hok).
  destruct (take_page_spec s root pa l (k_mem (kalloc_upd s pa)) Hi) as (H1 & H2 & H3 & H4 & _).
  - apply Hk.
  - intros x Hx. rewrite kalloc_upd_mem, decide_False; [done|]. unfold in_page in Hx. lia.
  - rewrite set_k_mem_self in *. done.
Qed.
End transfer.

(** ** [allocproc] *)

(** The kernel with another memory, free list and process table. *)
Definition with_vm (m : memory) (f : Z) (pt : ptable) (s : kstate) : kstate :=
  set_k_mem m (set_k_freelist f (set_k_proc pt s)).

(** What [allocproc] makes of an unused slot. *)
Definition born {L : LinkMap} (pid tf pt : Z) (x : proc) : proc :=
  set_p_cont (set_ctx_sp (u64 (p_kstack x + PGSIZE)) (set_ctx_ra l_forkret context0))
    (set_p_pagetable pt (set_p_trapframe tf (set_p_state USED (set_p_pid (u32 pid) x)))).
Definition born_table {L : LinkMap} (i : nat) (tf pt : Z) (t : ptable) : ptable :=
  set_procs (upd_at i (born (nextPid t) tf pt) (procs t)) (set_nextPid (i32 (nextPid t + 1)) t).

Section allocproc.
  Context `{HL : LinkOk}.
  Implicit Types (s : kstate) (l : list Z).

(** The state inside the slot's critical section and what was made there. *)
Definition newborn s l i (tf old new : Z) (u : kstate) l' : Prop :=
  (exists m f, u = with_vm m f (born_table i tf new (k_proc s)) s) /\
  made_beside s l (held (LProc i) u) l' old new /\ both_data (held (LProc i) u) old new l' tf /\
  (forall va, 0 <= va < MAXVA -> pte_of (k_mem u) new va = top_pages tf va).

Lemma allocproc_slot_unused s i tf root l old :
  kready s -> (i < NPROC)%nat -> p_state (proc_at s i) = UNUSED ->
  vm_inv s old (tf :: root :: l) -> (4 <= length l)%nat ->
  exists u l', allocproc_slot i s = Ok (Some i) (held (LProc i) u) /\ newborn s (tf :: root :: l) i tf old root u l' /\
    (length l <= length l' + 4)%nat.
Proof.
  intros Hk Hi Hu Hvm Hlen. pose proof (kr_cpu s Hk) as Hc. pose proof (kr_noff s Hk) as Hn.
  pose proof (kr_nprocs s Hk) as Hnp.
  set (H0 := held (LProc i) s). assert (cpu_wf H0) as Hc0 by (apply cpu_wf_held; [done|lia]).
  assert (forall k, lock_ok k -> k <> LProc i -> lock_free k H0) as Hl0.
  { intros k Hk' Hne. apply lock_free_held; [done|]. by apply (kr_locks s Hk). }
  unfold allocproc_slot. rewrite (bind_ok _ _ _ _ _ (acquire_free _ _ Hc (kr_locks s Hk (LProc i) Hi))). fold H0.
  rewrite (bind_ok _ _ _ (proc_at s i) H0) by done. rewrite bool_decide_eq_true_2 by done.
  rewrite (bind_ok _ _ _ _ _ (allocpid_eq H0 Hc0 (Hl0 LPid I ltac:(done)))). rewrite (touch_held (LProc i) s Hc : touch H0 = H0).
  change (nextPid (k_proc H0)) with (nextPid (k_proc s)). set (pid := nextPid (k_proc s)).
  unfold upd_proc. do 2 (rewrite (bind_ok _ _ _ tt _ (eq_refl : modify _ _ = _))).
  match goal with |- context [ (kalloc ≫= _) ?x ] => set (B := x) end.
  assert (vm_inv B old (tf :: root :: l)) as HiB.
  { apply (vm_inv_transfer s); [done|done|exact Hc0|exact (Hl0 LKmem I ltac:(done))|done]. }
  destruct (kalloc_beside B old tf (root :: l) HiB) as (Ek & Htf & HiC & HgC & HdC & HpC).
  rewrite (bind_ok _ _ _ _ _ Ek). rewrite (bind_ok _ _ _ tt _ (eq_refl : modify _ _ = _)).
  destruct (Z.eqb_spec tf 0); [lia|].
  assert (touch B = B) as EtB by (apply touch_id; exact (noff_held (LProc i) s Hc)).
  pose proof (frame_held B (kalloc_upd B tf) EtB (pe_frame _ _ _ _ _ HgC)) as EC.
  set (C := kalloc_upd B tf) in *. set (C' := upd_procs (upd_at i (set_p_trapframe tf)) C).
  assert (cpu_wf C /\ lock_free LKmem C) as [HcC HlC] by (split; apply HiC).
  assert (vm_inv C' old (root :: l)) as HiC' by (by apply (vm_inv_transfer C)).
  assert (proc_at C' i = set_p_trapframe tf (set_p_state USED (set_p_pid (u32 pid) (proc_at s i)))) as EpC.
  { unfold C', proc_at. rewrite EC. unfold B, upd_procs. kred. cbn [procs set_procs set_nextPid].
    rewrite !upd_at_upd_at. rewrite upd_at_eq; [done|exact (eq_ind_r (fun n => (i < n)%nat) Hi Hnp)]. }
  destruct (proc_pagetable_spec C' i old root l HiC' Hlen) as (D1 & l' & Ep & Hroot & HfD & HmD & HlD & HpD).
  { rewrite EpC. exact HdC. }
  rewrite (bind_ok _ _ _ _ _ Ep). rewrite (bind_ok _ _ _ tt _ (eq_refl : modify _ _ = _)).
  destruct (Z.eqb_spec root 0); [lia|]. do 3 (rewrite (bind_ok _ _ _ tt _ (eq_refl : modify _ _ = _))).
  match goal with |- context [ mret _ ?x = _ ] => set (F := x) end.
  assert (touch C' = C') as EtC.
  { unfold C'. rewrite EC. apply touch_id. exact (noff_held (LProc i) s Hc). }
  pose proof (frame_held C' D1 EtC HfD) as ED.
  exists (with_vm (k_mem D1) (k_freelist D1) (born_table i tf root (k_proc s)) s), l'.
  assert (F = held (LProc i) (with_vm (k_mem D1) (k_freelist D1) (born_table i tf root (k_proc s)) s)) as EF.
  { unfold F. rewrite ED. unfold C'. rewrite EC. unfold B, H0. kstate_eq.
    unfold upd_procs, born_table, set_procs. cbn. by rewrite !upd_at_upd_at. }
  split; [exact (f_equal (Ok (Some i)) EF)|]. split; [|done].
  assert (k_mem F = k_mem D1 /\ k_freelist F = k_freelist D1) as [EmF EfF] by done.
  destruct HmD as [Hts Hsub Hold Hdata]. split; [by eexists _, _|]. rewrite <- EF. split; [split|split].
  - apply (two_spaces_transfer D1); [done|done|exact (ki_cpu _ _ (vi_kmem _ _ _ (ts_old _ _ _ _ Hts)))
      |exact (ki_lock _ _ (vi_kmem _ _ _ (ts_old _ _ _ _ Hts)))|done].
  - set_solver.
  - intros va. rewrite EmF, Hold. exact (HpC va).
  - intros pa Hpa. destruct (data_page_grow B old (tf :: root :: l) C (root :: l) pa HiB HgC Hpa) as [HpaC HxC].
    destruct (Hdata pa HpaC) as [Hb Hx]. split; [exact Hb|]. intros x Hin. rewrite EmF, Hx by done. exact (HxC x Hin).
  - exact (proj1 (Hdata tf HdC)).
  - intros va Hva. rewrite EpC in HpD. exact (HpD va Hva).
Qed.

(** An empty critical section. *)
Lemma acquire_release {A} k (m : K A) s :
  kready s -> lock_ok k -> (release k;; m) (held k s) = m (touch s).
Proof.
  intros Hk Hl. by rewrite (bind_ok _ _ _ _ _ (release_neutral _ neutral_id k s (kr_cpu s Hk) (kr_locks s Hk k Hl))).
Qed.

Lemma myproc_deref s p : kready s -> curproc s = Some p -> (p ← myproc; deref p) s = Ok p (touch s).
Proof. intros Hk Hp. rewrite (bind_ok _ _ _ _ _ (myproc_eq s (kr_cpu s Hk))), Hp. done. Qed.

Lemma allocproc_slot_used i s :
  kready s -> (i < NPROC)%nat -> p_state (proc_at s i) <> UNUSED -> allocproc_slot i s = Ok None (touch s).
Proof.
  intros Hk Hi Hu. unfold allocproc_slot.
  rewrite (bind_ok _ _ _ _ _ (acquire_free _ _ (kr_cpu s Hk) (kr_locks s Hk (LProc i) Hi))).
  rewrite (bind_ok _ _ _ (proc_at s i) (held (LProc i) s)) by done.
  rewrite bool_decide_eq_false_2 by done. by apply acquire_release.
Qed.

Lemma allocproc_pass (js rest : list nat) s :
  kready s -> touch s = s -> (forall i, i ∈ js -> (i < NPROC)%nat /\ p_state (proc_at s i) <> UNUSED) ->
  for_find (js ++ rest) allocproc_slot s = for_find rest allocproc_slot s.
Proof.
  intros Hk Ht. induction js as [|i js IH]; intros Hu; [done|]. cbn [app for_find].
  destruct (Hu i ltac:(by left)) as [Hi Hs]. rewrite (bind_ok _ _ _ _ _ (allocproc_slot_used i s Hk Hi Hs)), Ht.
  apply IH. intros j Hj. apply Hu. by right.
Qed.

Lemma allocproc_full s :
  kready s -> touch s = s -> (forall i, (i < NPROC)%nat -> p_state (proc_at s i) <> UNUSED) -> allocproc s = Ok None s.
Proof.
  intros Hk Ht Hu. unfold allocproc. rewrite <- (app_nil_r (seq 0 NPROC)), allocproc_pass; [done..|].
  intros i Hi%elem_of_seq. split; [lia|]. apply Hu. lia.
Qed.

(** [allocproc] takes the first unused slot. *)
Definition first_unused s (i : nat) : Prop :=
  (i < NPROC)%nat /\ p_state (proc_at s i) = UNUSED /\ forall j, (j < i)%nat -> p_state (proc_at s j) <> UNUSED.

Lemma allocproc_spec s i tf root l old :
  kready s -> touch s = s -> first_unused s i -> vm_inv s old (tf :: root :: l) -> (4 <= length l)%nat ->
  exists u l', allocproc s = Ok (Some i) (held (LProc i) u) /\ newborn s (tf :: root :: l) i tf old root u l' /\
    (length l <= length l' + 4)%nat.
Proof.
  intros Hk Ht (Hi & Hs & Hj) Hvm Hlen.
  destruct (allocproc_slot_unused s i tf root l old Hk Hi Hs Hvm Hlen) as (u & l' & E & Hn & Hl).
  exists u, l'. split; [|done]. unfold allocproc.
  replace (seq 0 NPROC) with (seq 0 i ++ i :: seq (S i) (NPROC - S i)).
  - rewrite allocproc_pass; [cbn [for_find]; by rewrite (bind_ok _ _ _ _ _ E)|done|done|].
    intros j Hj'%elem_of_seq. split; [lia|]. apply Hj. lia.
  - change (i :: seq (S i) (NPROC - S i)) with (seq (0 + i) (S (NPROC - S i))). rewrite <- seq_app. f_equal. lia.
Qed.
End allocproc.
