(* ===== verification/VirtioDisk.v ===== *)
(** * The disk, the scheduler and the driver together

    [virt_disk_rw] sleeps until the device's interrupt.  While it sleeps, the
    scheduler waits with interrupts on, the device serves the request it finds
    in the queue and interrupts, [virtio_disk_isr] wakes the process, and the
    scheduler switches back to it: [resume].  With that environment [virt.c]
    keeps the promise [BlockDevOk] the buffer cache builds on.

    The device is not code of the repository: [VirtioDevice] is a parameter,
    [DeviceOk] what the virtio specification says of a block device with one
    request outstanding. *)

From S2P Require Import Prelude Layout Memory State Spinlock Sched Resume Sleeplock Uart Print Ondisk Bio.
From S2P Require Import Proc Virtio VirtioProps.

(** ** The device *)

Class VirtioDevice := { device : kstate -> kstate }.

(** The queue holds one request the device has not served: a transfer between
    buffer [b] and [sector]. *)
Record request (s : kstate) (b : nat) (write : bool) (sector : Z) (i0 i1 i2 : nat) : Prop := {
  rq_chain : is_chain (k_virtio s) b write i0 i1 i2;
  rq_op : v_ops (k_virtio s) !!! i0 = mkVop (if write then VIRTIO_BLK_T_OUT else VIRTIO_BLK_T_IN) 0 sector;
  rq_ring : v_avail_ring (k_virtio s) !!! Z.to_nat (v_used_index (k_virtio s) mod Z.of_nat NUM) = Z.of_nat i0;
  rq_avail : v_avail_index (k_virtio s) = u16 (v_used_index (k_virtio s) + 1)
}.

(** The transfer, and the answer: status 0, the chain in the used ring, an
    interrupt pending. *)
Definition transferred (b : nat) (write : bool) (sector : Z) (s : kstate) : kstate :=
  if write then set_k_disk (<[sector / 2 := b_data (buf_at s b)]> (k_disk s)) s
  else upd_buf b (set_b_data (default (replicate (Z.to_nat BSIZE) 0) (k_disk s !! (sector / 2)))) s.
Definition answered (i0 : nat) (v : virtio) : virtio :=
  set_v_intr_status (Z.lor (v_intr_status v) 1)
    (set_v_used_index (u16 (v_used_index v + 1))
      (set_v_used_ring (<[Z.to_nat (v_used_index v mod Z.of_nat NUM) := Z.of_nat i0]> (v_used_ring v))
        (set_v_info_status (<[i0 := 0]> (v_info_status v)) v))).

Class DeviceOk (V : VirtioDevice) := {
  device_answers s b write sector i0 i1 i2 :
    request s b write sector i0 i1 i2 -> 0 <= sector < 2 ^ 32 ->
    device s = set_k_virtio (answered i0 (k_virtio s)) (transferred b write sector s)
}.

(** ** What happens while the process sleeps *)

Section machine.
  Context {L : LinkMap} {V : VirtioDevice}.

(** A trap taken in the kernel: interrupts are off during the handler. *)
Definition interrupt (handler : K unit) : K unit :=
  st ← r_sstatus;
  intr_off;;
  handler;;
  w_sstatus st.

(** From the [swtch] of a process to its return: [scheduler] leaves the process,
    turns interrupts on, the disk interrupts, and [scheduler] reaches the process
    again.  No other process runs in between. *)
Definition resume : K unit :=
  c ← mycpu;
  p ← deref (c_proc c);
  switch_out;;
  release (LProc p);;
  intr_on;;
  modify device;;
  interrupt virtio_disk_isr;;
  acquire (LProc p);;
  x ← get_proc p;
  if bool_decide (p_state x = RUNNABLE) then switch_in p else block.

Definition disk_machine : Others := {|
  others s := match resume s with Ok _ s' => Some s' | _ => None end;
  patience := 1
|}.
End machine.

(** ** The states of a transfer *)

Section transfer.
  Context {L : LinkMap}.
  Implicit Types (v : virtio) (bc : bcache_state) (dk : gmap Z (list Z)) (ps : list proc) (s t : kstate).

(** [t] with the data the driver, the device and the processes change. *)
Definition dfam v bc dk ps t : kstate :=
  set_k_virtio v (set_k_disk dk (set_k_bcache bc (upd_procs (fun _ => ps) t))).

Lemma neutral_dfam v bc dk ps : neutral (dfam v bc dk ps).
Proof. by split. Qed.

Lemma dfam_self s : dfam (k_virtio s) (k_bcache s) (k_disk s) (procs (k_proc s)) s = s.
Proof. unfold dfam, upd_procs. kstate_eq. by destruct (k_proc s). Qed.

Lemma dfam_procs f v bc dk ps t : upd_procs f (dfam v bc dk ps t) = dfam v bc dk (f ps) t.
Proof. done. Qed.

(** The interrupt handler with one completion to handle. *)
Lemma isr_completes v bc dk ps t b i0 :
  cpu_wf t -> proc_locks_free t -> length ps = NPROC ->
  0 <= v_used_idx v < 2 ^ 16 -> v_used_index v = u16 (v_used_idx v + 1) ->
  v_used_ring v !!! Z.to_nat (v_used_idx v mod Z.of_nat NUM) = Z.of_nat i0 ->
  v_info_status v !!! i0 = 0 -> v_info_b v !!! i0 = Some b ->
  virtio_disk_isr (dfam v bc dk ps t) =
    Ok tt (dfam (set_v_used_idx (v_used_index v) (set_v_intr_ack (Z.land (v_intr_status v) 3 :: v_intr_ack v) v))
      (set_bufs (upd_at b (set_b_disk 0) (bufs bc)) bc) dk
      (imap (wake (Some (ChBuf b)) (curproc t)) ps) (touch t)).
Proof.
  intros Hc Hl Hn Hr Hu Hring Hst Hb. unfold virtio_disk_isr.
  set (v1 := set_v_intr_ack (Z.land (v_intr_status v) 3 :: v_intr_ack v) v).
  rewrite (bind_ok _ _ _ tt (dfam v1 bc dk ps t)) by done. unfold get_virtio.
  rewrite (bind_ok _ _ _ v1 (dfam v1 bc dk ps t)) by done.
  assert (u16 (v_used_index v1 - v_used_idx v1) = 1) as ->.
  { change (u16 (v_used_index v - v_used_idx v) = 1). rewrite Hu. unfold u16. rewrite Zminus_mod_idemp_l.
    replace (v_used_idx v + 1 - v_used_idx v) with 1 by lia. done. }
  assert (v_used_index v <> v_used_idx v) as Hne.
  { rewrite Hu. unfold u16. intros E. destruct (decide (v_used_idx v + 1 < 2 ^ 16)).
    - rewrite Z.mod_small in E by lia. lia.
    - replace (v_used_idx v + 1) with (2 ^ 16) in E by lia. change (2 ^ 16 mod 2 ^ 16) with 0 in E. lia. }
  change (S (Z.to_nat 1)) with 2%nat. cbn [isr_loop]. unfold get_virtio.
  rewrite (bind_ok _ _ _ v1 (dfam v1 bc dk ps t)) by done.
  destruct (Z.eqb_spec (v_used_idx v1) (v_used_index v1)) as [E|_]; [by destruct Hne|].
  change (v_used_ring v1) with (v_used_ring v). change (v_used_idx v1) with (v_used_idx v).
  change (v_info_status v1) with (v_info_status v). change (v_info_b v1) with (v_info_b v).
  rewrite Hring, Nat2Z.id, Hst, Hb. cbn [Z.eqb negb].
  rewrite (bind_ok _ _ _ tt (dfam v1 bc dk ps t)) by done.
  set (bc' := set_bufs (upd_at b (set_b_disk 0) (bufs bc)) bc).
  rewrite (bind_ok _ _ _ tt (dfam v1 bc' dk ps t)) by done.
  assert (cpu_wf (dfam v1 bc' dk ps t)) as Hc' by (by apply (neutral_cpu_wf _ (neutral_dfam v1 bc' dk ps))).
  rewrite (bind_ok _ _ _ _ _ (wakeup_spec (Some (ChBuf b)) (dfam v1 bc' dk ps t) Hc' Hl Hn)).
  rewrite <- (neutral_touch _ (neutral_dfam v1 bc' dk ps)), dfam_procs.
  change (curproc (dfam v1 bc' dk ps t)) with (curproc t).
  set (ps' := imap _ ps).
  rewrite (bind_ok _ _ _ tt (dfam (set_v_used_idx (u16 (v_used_idx v + 1)) v1) bc' dk ps' (touch t))) by done.
  rewrite <- Hu.
  rewrite (bind_ok _ _ _ (set_v_used_idx (v_used_index v) v1) (dfam (set_v_used_idx (v_used_index v) v1) bc' dk ps' (touch t))) by done.
  change (v_used_idx (set_v_used_idx (v_used_index v) v1)) with (v_used_index v).
  change (v_used_index (set_v_used_idx (v_used_index v) v1)) with (v_used_index v).
  by rewrite Z.eqb_refl.
Qed.
End transfer.

(** ** The hart while the process is away *)

Section hart.
  Implicit Types (s : kstate) (p : nat).

Definition set_sie (b : bool) s : kstate :=
  let x := sstatus (k_csr s) in
  set_k_csr (set_sstatus (if b then Z.lor x SSTATUS_SIE else Z.land x (Z.lnot SSTATUS_SIE)) (k_csr s)) s.
Definition with_status (x : Z) s : kstate := set_k_csr (set_sstatus x (k_csr s)) s.

Lemma held_upd_proc l c s : cpu_wf s -> upd_cpu (set_c_proc c) (held l s) = held l (upd_cpu (set_c_proc c) s).
Proof.
  intros [Hh _]. unfold held, pushed, upd_cpu. kstate_eq. rewrite !upd_at_upd_at. apply upd_at_ext.
  unfold enter_cpu. change (sstatus (k_csr (set_k_cpus _ s))) with (sstatus (k_csr s)). cbn [noff set_c_proc].
  by case_match.
Qed.

(** No lock is held and the hart belongs to [scheduler]. *)
Definition off_hart (s t : kstate) : Prop :=
  (hart t < length (k_cpus t))%nat /\ noff (cpu_of t) = 0 /\ k_locks t = k_locks s /\ curproc t = None.

Lemma off_hart_wf s t : off_hart s t -> cpu_wf t.
Proof. intros (H & E & _ & _). split; [done|]. rewrite E. split; lia. Qed.
Lemma off_hart_touch s t : off_hart s t -> off_hart s (touch t).
Proof.
  intros H. pose proof (off_hart_wf s t H) as Hc. destruct H as (H & E & El & Ep). split; [apply (cpu_wf_touch t Hc)|].
  split; [by rewrite noff_touch|]. split; [done|]. by rewrite curproc_touch.
Qed.
Lemma off_hart_sie s t x : off_hart s t -> off_hart s (with_status x t).
Proof. done. Qed.

Lemma off_hart_out s : cpu_wf s -> noff (cpu_of s) = 0 -> off_hart s (upd_cpu (set_c_proc None) s).
Proof.
  intros Hc Hn. unfold off_hart, curproc. rewrite cpu_of_upd by done. split; [|done].
  unfold upd_cpu, hart. kred. rewrite length_upd_at. apply Hc.
Qed.

(** Back in the critical section of the process's lock: as it left, but for
    [intena]. *)
Lemma back_on_hart l s p x x' :
  cpu_wf s -> noff (cpu_of s) = 0 -> curproc s = Some p ->
  let t := with_status x' (touch (with_status (Z.land x' (Z.lnot SSTATUS_SIE)) (with_status x' (touch (upd_cpu (set_c_proc None) s))))) in
  x' = Z.lor x SSTATUS_SIE -> x = sstatus (k_csr s) ->
  upd_cpu (set_c_proc (Some p)) (held l t) = upd_cpu (set_intena 1) (held l s).
Proof.
  intros Hc Hn Hp t -> ->. unfold t.
  assert (forall y z, Z.land (Z.lor y z) (Z.lnot z) = Z.land y (Z.lnot z)) as Eb.
  { intros y z. apply Z.bits_inj'. intros n Hb. rewrite !Z.land_spec, Z.lor_spec, Z.lnot_spec by done.
    by destruct (Z.testbit y n), (Z.testbit z n). }
  assert (forall y, flag (Z.lor y SSTATUS_SIE) SSTATUS_SIE = true) as Ef.
  { intros y. unfold SSTATUS_SIE. rewrite flag_testbit, Z.lor_spec by lia. apply orb_true_r. }
  apply kstate_ext; try reflexivity.
  - unfold with_status, held, pushed, touch, upd_cpu. kred. destruct (k_csr s). cbn. by rewrite Eb.
  - unfold with_status, held, pushed, touch, upd_cpu, hart, enter_cpu. kred. cbn [tp set_sstatus].
    rewrite !upd_at_upd_at. apply upd_at_ext. unfold curproc, cpu_of, hart in Hp, Hn.
    destruct (k_cpus s !!! tp (k_csr s)) as [cp cx nf it]. cbn in Hn, Hp. subst nf cp. cbn. by rewrite Ef.
Qed.
End hart.

Section resume.
  Context {L : LinkMap} {V : VirtioDevice}.
  Implicit Types (v : virtio) (bc : bcache_state) (dk : gmap Z (list Z)) (ps : list proc) (s t : kstate).

(** The driver's data and the buffers after the interrupt. *)
Definition handled v : virtio :=
  set_v_used_idx (v_used_index v) (set_v_intr_ack (Z.land (v_intr_status v) 3 :: v_intr_ack v) v).
Definition disk_done (b : nat) bc : bcache_state := set_bufs (upd_at b (set_b_disk 0) (bufs bc)) bc.

(** One completion, of the chain [i0] for buffer [b], is in the used ring. *)
Record one_completion v (b i0 : nat) : Prop := {
  oc_range : 0 <= v_used_idx v < 2 ^ 16;
  oc_index : v_used_index v = u16 (v_used_idx v + 1);
  oc_ring : v_used_ring v !!! Z.to_nat (v_used_idx v mod Z.of_nat NUM) = Z.of_nat i0;
  oc_status : v_info_status v !!! i0 = 0;
  oc_buf : v_info_b v !!! i0 = Some b
}.

Lemma interrupt_ok v bc dk ps s t b i0 :
  off_hart s t -> proc_locks_free s -> length ps = NPROC -> one_completion v b i0 ->
  interrupt virtio_disk_isr (dfam v bc dk ps t) =
    Ok tt (dfam (handled v) (disk_done b bc) dk (imap (wake (Some (ChBuf b)) None) ps)
      (with_status (sstatus (k_csr t)) (touch (with_status (Z.land (sstatus (k_csr t)) (Z.lnot SSTATUS_SIE)) t)))).
Proof.
  intros Ht Hl Hn [H1 H2 H3 H4 H5]. unfold interrupt, intr_off, r_sstatus, w_sstatus. step_prim.
  set (t1 := with_status (Z.land (sstatus (k_csr t)) (Z.lnot SSTATUS_SIE)) t).
  pose proof (off_hart_sie s t (Z.land (sstatus (k_csr t)) (Z.lnot SSTATUS_SIE)) Ht) as Ht1. fold t1 in Ht1.
  change (set_k_csr _ (dfam v bc dk ps t)) with (dfam v bc dk ps t1).
  assert (proc_locks_free t1) as Hl1.
  { intros i Hi. unfold lock_free. destruct Ht1 as (_ & _ & -> & _). by apply Hl. }
  rewrite (isr_completes v bc dk ps t1 b i0 (off_hart_wf _ _ Ht1) Hl1 Hn H1 H2 H3 H4 H5).
  destruct Ht1 as (_ & _ & _ & ->). done.
Qed.

Lemma resume_ok v bc dk ps s p b i0 v1 bc1 dk1 :
  cpu_wf s -> noff (cpu_of s) = 0 -> curproc s = Some p -> proc_locks_free s -> (p < NPROC)%nat ->
  length ps = NPROC -> p_state (ps !!! p) = SLEEPING -> p_chan (ps !!! p) = Some (ChBuf b) ->
  (forall t, device (dfam v bc dk ps t) = dfam v1 bc1 dk1 ps t) -> one_completion v1 b i0 ->
  resume (dfam v bc dk ps (held (LProc p) s)) =
    Ok tt (upd_cpu (set_intena 1) (dfam (handled v1) (disk_done b bc1) dk1
      (upd_at p (set_p_state RUNNING) (imap (wake (Some (ChBuf b)) None) ps)) (held (LProc p) s))).
Proof.
  intros Hc Hn Hp Hl Hlt Hlen Hst Hch Hdev H1. set (A := dfam v bc dk ps).
  assert (neutral A) as HA by apply neutral_dfam.
  assert (cpu_wf (held (LProc p) s)) as Hch' by (apply cpu_wf_held; [done|lia]).
  unfold resume, mycpu. step_prim.
  assert (c_proc (cpu_of (A (held (LProc p) s))) = Some p) as ->.
  { rewrite (neutral_cpu_of A HA), c_proc_held by done. exact Hp. }
  unfold deref, switch_out, upd_mycpu. step_prim.
  rewrite <- (neutral_upd_cpu A _ _ HA), held_upd_proc by done. set (s0 := upd_cpu (set_c_proc None) s).
  pose proof (off_hart_out s Hc Hn) as H0. fold s0 in H0.
  rewrite (release_neutral A HA (LProc p) s0 (off_hart_wf _ _ H0) (Hl p Hlt)).
  pose proof (off_hart_touch _ _ H0) as H0'. unfold intr_on, r_sstatus, w_sstatus. step_prim.
  set (x := Z.lor (sstatus (k_csr s)) SSTATUS_SIE).
  change (set_k_csr _ (A (touch s0))) with (A (with_status x (touch s0))).
  pose proof (off_hart_sie s _ x H0') as H2. set (t1 := with_status x (touch s0)) in *.
  unfold A. rewrite (Hdev t1). rewrite (interrupt_ok v1 bc1 dk1 ps s t1 b i0 H2 Hl Hlen H1).
  change (sstatus (k_csr t1)) with x. set (ps1 := imap _ ps).
  pose proof (off_hart_sie s _ x (off_hart_touch _ _ (off_hart_sie s _ (Z.land x (Z.lnot SSTATUS_SIE)) H2))) as H3.
  set (t2 := with_status x (touch (with_status (Z.land x (Z.lnot SSTATUS_SIE)) t1))) in *. set (B := dfam (handled v1) (disk_done b bc1) dk1).
  assert (cpu_wf (B ps1 t2)) as Hcb by (apply (neutral_cpu_wf _ (neutral_dfam _ _ _ _)), (off_hart_wf _ _ H3)).
  assert (lock_free (LProc p) (B ps1 t2)) as Hlb.
  { unfold lock_free. change (k_locks (B ps1 t2)) with (k_locks t2). destruct H3 as (_ & _ & -> & _). by apply Hl. }
  rewrite (acquire_free _ _ Hcb Hlb). rewrite <- (neutral_held (B ps1)) by apply neutral_dfam.
  unfold get_proc. step_prim.
  assert (proc_at (B ps1 (held (LProc p) t2)) p = set_p_state RUNNABLE (ps !!! p)) as ->.
  { change (ps1 !!! p = set_p_state RUNNABLE (ps !!! p)). unfold ps1.
    destruct (lookup_lt_is_Some_2 ps p) as [y Hy]; [lia|].
    rewrite (list_lookup_total_correct _ _ _ Hy) in *.
    apply list_lookup_total_correct. rewrite list_lookup_imap, Hy. cbn. unfold wake. by rewrite bool_decide_eq_true_2. }
  rewrite bool_decide_eq_true_2 by done. unfold switch_in, upd_proc, upd_mycpu. step_prim.
  unfold B. rewrite dfam_procs. apply (f_equal (Ok tt)).
  rewrite <- !(neutral_upd_cpu (dfam _ _ _ _) _ _ (neutral_dfam _ _ _ _)). f_equal.
  exact (back_on_hart (LProc p) s p (sstatus (k_csr s)) x Hc Hn Hp eq_refl eq_refl).
Qed.
End resume.

(** ** The driver's data through a transfer *)

(** Between transfers every descriptor is free and every completion handled. *)
Record virtio_idle (v : virtio) : Prop := {
  vi_lens : length (v_desc v) = NUM /\ length (v_ops v) = NUM /\ length (v_avail_ring v) = NUM /\
    length (v_used_ring v) = NUM /\ length (v_info_b v) = NUM /\ length (v_info_status v) = NUM;
  vi_free : v_free v = replicate NUM 1;
  vi_avail : v_avail_index v = v_used_index v;
  vi_used : v_used_idx v = v_used_index v;
  vi_range : 0 <= v_used_index v < 2 ^ 16
}.

Section steps.
  Context {L : LinkMap}.
  Context (v : virtio) (Hv : virtio_idle v) (b : nat) (write : bool) (sector : Z).

(** All descriptors are free, so the chain is 0, 1, 2. *)
Definition taken : virtio := foldl (fun v i => set_free i 0 v) v [0; 1; 2]%nat.
Definition posted : virtio := publish b 0 (post_request b write sector 0 1 2 taken).
Definition returned : virtio := let v' := handled (answered 0 posted) in set_v_info_b (<[0%nat := None]> (v_info_b v')) v'.
Definition final : virtio := freed 2 (freed 1 (freed 0 returned)).

Lemma idle_free : free_of v = [0; 1; 2; 3; 4; 5; 6; 7]%nat.
Proof. unfold free_of. by rewrite (vi_free _ Hv). Qed.

Lemma taken_wf : virtio_wf taken.
Proof.
  destruct Hv as [(Hd & Ho & _) Hf _ _ _]. split; cbn; rewrite ?length_insert, ?Hf; try done.
  apply (Forall_insert (fun x => x = 0 \/ x = 1)); [|by left]. repeat (apply (Forall_insert (fun x => x = 0 \/ x = 1)); [|by left]).
  apply (Forall_replicate (fun x => x = 0 \/ x = 1)). by right.
Qed.

Lemma ring_slot i : (Z.to_nat (i mod Z.of_nat NUM) < NUM)%nat.
Proof. pose proof (Z.mod_pos_bound i (Z.of_nat NUM) eq_refl). unfold NUM in *. lia. Qed.

Lemma posted_chain :
  is_chain posted b write 0 1 2 /\
  v_ops posted !!! 0%nat = mkVop (if write then VIRTIO_BLK_T_OUT else VIRTIO_BLK_T_IN) 0 sector.
Proof.
  destruct (post_request_chain taken b write sector 0 1 2 taken_wf) as ([H0 H1 H2] & Ho & _).
  - apply (bool_decide_unpack _). by vm_compute.
  - apply (bool_decide_unpack _). by vm_compute.
  - split; [|exact Ho]. split; [exact H0|exact H1|exact H2].
Qed.

Lemma posted_request bc dk ps t : request (dfam posted bc dk ps t) b write sector 0 1 2.
Proof.
  destruct posted_chain as [Hch Ho]. destruct Hv as [(_ & _ & Hlr & _) _ Ha _ _].
  split; [exact Hch|exact Ho| |]; change (k_virtio (dfam posted bc dk ps t)) with posted.
  - change (v_used_index posted) with (v_used_index v). unfold posted, publish, post_request, taken. cbn. rewrite Ha.
    apply list_lookup_total_insert_eq. rewrite Hlr. apply ring_slot.
  - cbn. by rewrite Ha.
Qed.

Lemma answered_completion : one_completion (answered 0 posted) b 0.
Proof.
  destruct Hv as [(_ & _ & _ & Hlu & Hlb & Hls) _ Ha Hu Hr]. split; cbn; rewrite ?Hu; try done.
  - apply list_lookup_total_insert_eq. rewrite Hlu. apply ring_slot.
  - apply list_lookup_total_insert_eq. rewrite length_insert, Hls. unfold NUM. lia.
  - apply list_lookup_total_insert_eq. rewrite Hlb. unfold NUM. lia.
Qed.

Lemma returned_chain :
  is_chain returned b write 0 1 2 /\ Forall (fun i => (i < NUM)%nat /\ v_free returned !!! i = 0) [0; 1; 2]%nat.
Proof.
  destruct posted_chain as [[H0 H1 H2] _].
  assert (v_desc returned = v_desc posted /\ v_free returned = v_free posted) as [Ed Ef].
  { unfold returned. generalize posted. by intros []. }
  split; [split; rewrite Ed; [exact H0|exact H1|exact H2]|].
  rewrite Ef. unfold posted, publish, post_request, taken. cbn. rewrite (vi_free _ Hv).
  repeat (apply List.Forall_cons; [split; [unfold NUM; lia|reflexivity]|]). apply List.Forall_nil.
Qed.

Lemma final_idle : virtio_idle final.
Proof.
  destruct Hv as [(Hd & Ho & Hla & Hlu & Hlb & Hls) Hf Ha Hu Hr].
  split.
  - unfold final, freed, returned, handled, answered, posted, publish, post_request, taken. cbn [foldl].
    repeat split; cbn; by rewrite ?length_insert.
  - change (<[2%nat := 1]> (<[1%nat := 1]> (<[0%nat := 1]> (v_free taken))) = replicate NUM 1).
    unfold taken. cbn. by rewrite Hf.
  - cbn. by rewrite Ha.
  - done.
  - apply Z.mod_pos_bound. done.
Qed.
End steps.

(** ** A transfer *)

Section rw.
  Context {L : LinkMap} {V : VirtioDevice} {HV : DeviceOk V}.
  Implicit Types (v : virtio) (bc : bcache_state) (dk : gmap Z (list Z)) (ps : list proc) (s t : kstate).

(** The process asleep, woken, scheduled and back: nothing else changed. *)
Lemma procs_cycle s p b :
  quiet s p -> length (procs (k_proc s)) = NPROC ->
  upd_at p (set_p_chan None) (upd_at p (set_p_state RUNNING)
    (imap (wake (Some (ChBuf b)) None) (upd_at p (asleep (ChBuf b)) (procs (k_proc s))))) = procs (k_proc s).
Proof.
  intros [Hp Hr Hch _ Hw] Hn. apply list_eq. intros i. destruct (decide (i = p)) as [->|Hne].
  - destruct (lookup_lt_is_Some_2 (procs (k_proc s)) p) as [x Hx]; [lia|].
    unfold proc_at in Hr, Hch. rewrite (list_lookup_total_correct _ _ _ Hx) in Hr, Hch.
    rewrite (upd_at_lookup_eq _ _ _ (set_p_state RUNNING (set_p_state RUNNABLE (asleep (ChBuf b) x)))).
    + rewrite Hx. f_equal. destruct x; cbn in *; subst. done.
    + rewrite (upd_at_lookup_eq _ _ _ (set_p_state RUNNABLE (asleep (ChBuf b) x))); [done|].
      rewrite list_lookup_imap, (upd_at_lookup_eq _ _ _ x) by done. cbn. unfold wake. by rewrite bool_decide_eq_true_2.
  - rewrite !upd_at_lookup_ne, list_lookup_imap, upd_at_lookup_ne by done.
    destruct (procs (k_proc s) !! i) as [x|] eqn:Hx; [|done]. cbn. f_equal. unfold wake.
    rewrite bool_decide_eq_false_2; [done|]. intros (_ & Hs & Hc). specialize (Hw i (ChBuf b)).
    unfold proc_at in Hw. rewrite (list_lookup_total_correct _ _ _ Hx) in Hw. by apply Hw.
Qed.

(** Nobody waits for a free descriptor. *)
Lemma procs_no_waiter s p m :
  quiet s p -> imap (wake (Some ChDiskFree) m) (procs (k_proc s)) = procs (k_proc s).
Proof.
  intros Hq. apply list_eq. intros i. rewrite list_lookup_imap.
  destruct (procs (k_proc s) !! i) as [x|] eqn:Hx; [|done]. cbn. f_equal. unfold wake.
  rewrite bool_decide_eq_false_2; [done|]. intros (_ & Hs & Hc). pose proof (qt_waiters _ _ Hq i ChDiskFree) as Hw.
  unfold proc_at in Hw. rewrite (list_lookup_total_correct _ _ _ Hx) in Hw. by apply Hw.
Qed.

(** The buffers and the disk after the transfer, from those before it. *)
Definition moved_bufs (b : nat) (write : bool) (d : list Z) bc : bcache_state :=
  set_bufs (upd_at b (fun x => set_b_disk 0 (if write then x else set_b_data d x)) (bufs bc)) bc.
Definition moved_disk (write : bool) (sector : Z) (d : list Z) dk : gmap Z (list Z) :=
  if write then <[sector / 2 := d]> dk else dk.
Definition disk_sector dk (sector : Z) : list Z := default (replicate (Z.to_nat BSIZE) 0) (dk !! (sector / 2)).

(** The bufs as the request leaves them. *)
Definition asked (b : nat) bc : bcache_state := set_bufs (upd_at b (set_b_disk 1) (bufs bc)) bc.

Lemma machine_serves v b (write : bool) sector bc dk s p :
  kready s -> quiet s p -> curproc s = Some p -> virtio_idle v -> (b < length (bufs bc))%nat ->
  0 <= sector < 2 ^ 32 ->
  let ps := procs (k_proc s) in
  let data := if write then b_data (bufs bc !!! b) else disk_sector dk sector in
  @others disk_machine (sleeping_state (ChBuf b) p (dfam (posted v b write sector) (asked b bc) dk ps) s) =
    Some (upd_cpu (set_intena 1)
      (dfam (handled (answered 0 (posted v b write sector))) (moved_bufs b write data bc) (moved_disk write sector data dk)
        (upd_at p (set_p_state RUNNING) (imap (wake (Some (ChBuf b)) None) (upd_at p (asleep (ChBuf b)) ps)))
        (held (LProc p) s))).
Proof.
  intros Hk Hq Hp Hv Hb Hsec ps data. unfold sleeping_state. rewrite dfam_procs.
  set (ps1 := upd_at p (asleep (ChBuf b)) ps). set (pv := posted v b write sector).
  set (bc1 := if write then asked b bc else set_bufs (upd_at b (set_b_data data) (bufs (asked b bc))) (asked b bc)).
  assert (length ps = NPROC) as Hn by apply Hk.
  assert (ps1 !!! p = asleep (ChBuf b) (ps !!! p)) as Ep.
  { unfold ps1. apply upd_at_eq. rewrite Hn. apply Hq. }
  cbn [others disk_machine].
  rewrite (resume_ok pv (asked b bc) dk ps1 s p b 0 (answered 0 pv) bc1 (moved_disk write sector data dk)).
  - f_equal. f_equal. f_equal. unfold disk_done, bc1, moved_bufs, asked. destruct write; cbn [bufs set_bufs];
      rewrite !upd_at_upd_at; reflexivity.
  - apply Hk.
  - apply Hq.
  - exact Hp.
  - by apply kready_proc_locks.
  - apply Hq.
  - unfold ps1. by rewrite length_upd_at.
  - by rewrite Ep.
  - by rewrite Ep.
  - intros t. rewrite (device_answers _ b write sector 0 1 2 (posted_request v Hv b write sector _ _ _ _) Hsec).
    unfold bc1, moved_disk, transferred, data. destruct write; [|reflexivity].
    assert (b_data (buf_at (dfam pv (asked b bc) dk ps1 t) b) = b_data (bufs bc !!! b)) as <-; [|reflexivity].
    change (b_data (upd_at b (set_b_disk 1) (bufs bc) !!! b) = b_data (bufs bc !!! b)). by rewrite upd_at_eq.
  - exact (answered_completion v Hv b write sector).
Qed.

(** The critical section of the driver can be left to [wakeup] at any point. *)
Lemma can_wake_section v bc dk s :
  kready s -> can_wake (dfam v bc dk (procs (k_proc s)) (held LDisk s)).
Proof.
  intros Hk. pose proof (kr_cpu s Hk) as Hc. pose proof (kr_noff s Hk) as Hn. split; [|split; [|split]].
  - apply (neutral_cpu_wf _ (neutral_dfam _ _ _ _)). apply cpu_wf_held; [done|lia].
  - rewrite <- (neutral_touch _ (neutral_dfam _ _ _ _)). by rewrite touch_held.
  - intros j Hj. unfold lock_free. cbn. rewrite lookup_insert_ne by done. exact (kr_locks s Hk (LProc j) Hj).
  - apply Hk.
Qed.

Lemma vfam_dfam v v' bc dk ps t : vfam v' (fun ps => ps) (dfam v bc dk ps t) = dfam v' bc dk ps t.
Proof. reflexivity. Qed.

Lemma alloc_idle fuel v bc dk ps t :
  virtio_idle v -> alloc_spin (S fuel) (dfam v bc dk ps t) = Ok [0; 1; 2] (dfam (taken v) bc dk ps t).
Proof.
  intros Hv. cbn [alloc_spin]. unfold alloc3_desc.
  destruct (alloc3_loop_take 3 [] v (fun ps => ps) (dfam v bc dk ps t) [0; 1; 2]%nat _ (idle_free v Hv) eq_refl)
    as (v1 & E1 & ->). fold (taken v) in E1. rewrite !vfam_dfam in E1. by rewrite (bind_ok _ _ _ _ _ E1).
Qed.

Lemma wait_served s i p (write : bool) sector :
  kready s -> quiet s p -> curproc s = Some p -> virtio_idle (k_virtio s) -> (i < NBUF)%nat -> 0 <= sector < 2 ^ 32 ->
  let v2 := posted (k_virtio s) i write sector in
  let data := if write then b_data (buf_at s i) else disk_sector (k_disk s) sector in
  let ps := procs (k_proc s) in
  @disk_wait disk_machine 2 i (dfam v2 (asked i (k_bcache s)) (k_disk s) ps (held LDisk s)) =
    Ok tt (dfam (handled (answered 0 v2)) (moved_bufs i write data (k_bcache s)) (moved_disk write sector data (k_disk s))
      ps (held LDisk s)).
Proof.
  intros Hk Hq Hp Hv Hi Hsec v2 data ps.
  assert (i < length (bufs (k_bcache s)))%nat as Hib by by rewrite (kr_nbufs s Hk).
  cbn [disk_wait]. set (x1 := dfam v2 (asked i (k_bcache s)) (k_disk s) ps (held LDisk s)).
  rewrite (bind_ok _ _ x1 (buf_at x1 i) x1) by done.
  assert (b_disk (buf_at x1 i) = 1) as ->.
  { change (b_disk (upd_at i (set_b_disk 1) (bufs (k_bcache s)) !!! i) = 1). by rewrite upd_at_eq. }
  change (negb (1 =? 1)) with false. cbv iota.
  assert (LDisk <> LProc p) as Hne by done.
  assert (lock_ok (LProc p)) as Hlp by apply Hq.
  pose proof (sleep_resumed (Ot := disk_machine) (ChBuf i) LDisk (dfam v2 (asked i (k_bcache s)) (k_disk s) ps) _ 1 s p
    (neutral_dfam _ _ _ _) (neutral_dfam _ _ _ _) (kr_cpu s Hk) (kr_noff s Hk) Hne (kr_locks s Hk LDisk I)
    (kr_locks s Hk (LProc p) Hlp) Hp ltac:(change (p < length (procs (k_proc s)))%nat; rewrite (kr_nprocs s Hk); apply Hq)
    (machine_serves (k_virtio s) i write sector (k_bcache s) (k_disk s) s p Hk Hq Hp Hv Hib Hsec)) as Es.
  rewrite dfam_procs, (procs_cycle s p i Hq (kr_nprocs s Hk)) in Es. fold ps x1 data in Es.
  rewrite (bind_ok _ _ _ _ _ Es). set (x2 := dfam _ _ _ _ _).
  rewrite (bind_ok _ _ x2 (buf_at x2 i) x2) by done.
  assert (b_disk (buf_at x2 i) = 0) as ->; [|done].
  change (b_disk (upd_at i (fun x => set_b_disk 0 (if write then x else set_b_data data x)) (bufs (k_bcache s)) !!! i) = 0).
  by rewrite upd_at_eq.
Qed.

(** All of [virt_disk_rw]. *)
Lemma rw_completes s i p (write : bool) :
  kready s -> quiet s p -> curproc s = Some p -> virtio_idle (k_virtio s) -> (i < NBUF)%nat ->
  let sector := u32 (b_blockno (buf_at s i) * (BSIZE / 512)) in
  let data := if write then b_data (buf_at s i) else disk_sector (k_disk s) sector in
  @virt_disk_rw_code L disk_machine i write s =
    Ok tt (dfam (final (k_virtio s) i write sector) (moved_bufs i write data (k_bcache s))
      (moved_disk write sector data (k_disk s)) (procs (k_proc s)) (touch s)).
Proof.
  intros Hk Hq Hp Hv Hi sector data. pose proof (kr_cpu s Hk) as Hc.
  set (v := k_virtio s) in *. set (ps := procs (k_proc s)) in *.
  unfold virt_disk_rw_code. rewrite (bind_ok _ _ s (buf_at s i) s) by done. cbv zeta. fold sector.
  rewrite (bind_ok _ _ _ _ _ (acquire_free LDisk s Hc (kr_locks s Hk LDisk I))).
  assert (held LDisk s = dfam v (k_bcache s) (k_disk s) ps (held LDisk s)) as Eh by (symmetry; apply (dfam_self (held LDisk s))).
  rewrite Eh at 1. rewrite (bind_ok _ _ _ _ _ (alloc_idle _ v _ _ _ _ Hv)). cbn [nth].
  change (Z.to_nat 0) with 0%nat. change (Z.to_nat 1) with 1%nat. change (Z.to_nat 2) with 2%nat.
  set (v1 := post_request i write sector 0 1 2 (taken v)).
  rewrite (bind_ok _ _ _ tt (dfam v1 (k_bcache s) (k_disk s) ps (held LDisk s))) by done.
  rewrite (bind_ok _ _ _ tt (dfam v1 (asked i (k_bcache s)) (k_disk s) ps (held LDisk s))) by done.
  rewrite (bind_ok _ _ _ tt (dfam (posted v i write sector) (asked i (k_bcache s)) (k_disk s) ps (held LDisk s))) by done.
  cbn [patience disk_machine]. rewrite (bind_ok _ _ _ _ _ (wait_served s i p write sector Hk Hq Hp Hv Hi (u32_range _))).
  fold data ps v. set (bc' := moved_bufs _ _ _ _). set (dk' := moved_disk _ _ _ _).
  rewrite (bind_ok _ _ _ tt (dfam (returned v i write sector) bc' dk' ps (held LDisk s))) by done.
  destruct (returned_chain v Hv i write sector) as [Hch Hfr].
  rewrite <- (vfam_dfam (returned v i write sector) (returned v i write sector)).
  pose proof (free_chain_fam (returned v i write sector) (fun ps => ps)
    (dfam (returned v i write sector) bc' dk' ps (held LDisk s)) i write 0 1 2
    (fun _ => eq_refl) (can_wake_section _ _ _ s Hk) Hch ltac:(by apply (bool_decide_unpack _); vm_compute) Hfr) as Ef.
  rewrite (bind_ok _ _ _ _ _ Ef). set (f := free_wake _ _).
  assert (vfam (freed 2 (freed 1 (freed 0 (returned v i write sector)))) f
    (dfam (returned v i write sector) bc' dk' ps (held LDisk s)) =
    dfam (final v i write sector) bc' dk' ps (held LDisk s)) as ->.
  { assert (f ps = ps) as Ep by (unfold f, free_wake; by rewrite !(procs_no_waiter s p) by done).
    rewrite <- Ep at 2. reflexivity. }
  apply (release_neutral _ (neutral_dfam _ _ _ _) LDisk s Hc (kr_locks s Hk LDisk I)).
Qed.

(** The disk as the buffer cache wants it. *)
#[export] Instance virtio_dev_ok : BlockDevOk (@virtio_dev L disk_machine).
Proof.
  assert (forall v bc dk s, dfam v bc dk (procs (k_proc s)) (touch s) = set_k_virtio v (set_k_disk dk (set_k_bcache bc (touch s)))) as Ed.
  { intros. unfold dfam. by rewrite upd_procs_id. }
  refine {| dev_inv := virtio_idle |}; intros s i p Hk Hq Hv Hi Hp; set (n := u32 (b_blockno (buf_at s i) * (BSIZE / 512))).
  - exists (final (k_virtio s) i false n). split; [by apply final_idle|].
    cbn [virt_disk_rw virtio_dev]. rewrite (rw_completes s i p false), Ed by done. reflexivity.
  - exists (final (k_virtio s) i true n). split; [by apply final_idle|].
    cbn [virt_disk_rw virtio_dev]. rewrite (rw_completes s i p true), Ed by done. reflexivity.
Defined.
End rw.

(** A device that serves the next request of the queue: for evaluating the
    definitions. *)
Definition test_serve (s : kstate) : kstate :=
  let v := k_virtio s in
  let i0 := Z.to_nat (v_avail_ring v !!! Z.to_nat (v_used_index v mod Z.of_nat NUM)) in
  let d0 := v_desc v !!! i0 in
  let d1 := v_desc v !!! Z.to_nat (d_next d0) in
  if v_avail_index v =? v_used_index v then s else
  match d_addr d0, d_addr d1 with
  | VOp k, VData b =>
      set_k_virtio (answered i0 v)
        (transferred b (o_type (v_ops v !!! k) =? VIRTIO_BLK_T_OUT) (o_sector (v_ops v !!! k)) s)
  | _, _ => s
  end.
Definition test_device : VirtioDevice := {| device := test_serve |}.

#[export] Instance test_device_ok : DeviceOk test_device.
Proof.
  split. intros s b write sector i0 i1 i2 [[H0 H1 _] Ho Hr Ha] _. cbn [device test_device]. unfold test_serve.
  cbv zeta. rewrite Hr, Nat2Z.id, H0. cbn [d_next d_addr]. rewrite Nat2Z.id, H1. cbn [d_addr]. rewrite Ho, Ha.
  destruct (Z.eqb_spec (u16 (v_used_index (k_virtio s) + 1)) (v_used_index (k_virtio s))) as [E|_]; [|by destruct write].
  exfalso. unfold u16 in E. pose proof (Z.mod_pos_bound (v_used_index (k_virtio s) + 1) (2 ^ 16) eq_refl).
  pose proof (Z.div_mod (v_used_index (k_virtio s) + 1) (2 ^ 16)). lia.
Qed.

(** The driver's data after [virtio_disk_init]. *)
Definition virtio_ready : virtio := set_v_free (replicate NUM 1) virtio0.
Lemma virtio_ready_idle : virtio_idle virtio_ready.
Proof. split; try reflexivity; repeat split; try reflexivity; discriminate. Qed.
