(* ===== verification/Exec.v ===== *)
(** * Loading programs: [exec.c], with the ELF headers of [elf.h] *)

From S2P Require Import Prelude Layout Memory CString State Spinlock Sched Sleeplock Uart Print.
From S2P Require Import Kmem PageTable Uvm Console Ondisk Bio Block Fs File Proc.

Definition ELF_MAGIC : Z := 0x464C457F.
Definition ELF_PROG_LOAD : Z := 1.
Definition MAXARG : nat := 32.

(** The fields of [struct elfhdr] (64 bytes) and [struct proghdr] (56 bytes)
    that [exec] reads. *)
Record elfhdr := mkElfhdr { elf_magic : Z; elf_entry : Z; elf_phoff : Z; elf_phnum : Z }.
Definition dec_elfhdr (l : list Z) : elfhdr :=
  mkElfhdr (get32 l 0) (get_le 8 l 24) (get_le 8 l 32) (get16 l 56).
Record proghdr := mkProghdr { ph_type : Z; ph_off : Z; ph_vaddr : Z; ph_filesz : Z; ph_memsz : Z }.
Definition dec_proghdr (l : list Z) : proghdr :=
  mkProghdr (get32 l 0) (get_le 8 l 8) (get_le 8 l 16) (get_le 8 l 32) (get_le 8 l 40).

(** The part of a path after its last ['/']: [last] of [exec]. *)
Fixpoint last_component (fuel : nat) (s last : chars) : chars :=
  match fuel with
  | O => last
  | S fuel =>
      if s 0%nat =? 0 then last
      else last_component fuel (shift 1 s) (if s 0%nat =? 47 then shift 1 s else last)
  end.

Section exec.
  Context {L : LinkMap} {Ot : Others} {D : BlockDev}.

(** [for(i = 0; i < sz; i += PGSIZE)] of [loadseg]; [off] is converted to
    [readi]'s [uint]. *)
Fixpoint loadseg_loop (fuel : nat) (pagetable va : Z) (ip : nat) (off sz i : Z) : K Z :=
  match fuel with
  | O => block
  | S fuel =>
      if negb (i <? sz) then mret 0 else
      pa ← walkaddr pagetable (u64 (va + i));
      if pa =? 0 then panic "loadseg: address should exist" else
      let n := if sz - i <? PGSIZE then sz - i else PGSIZE in
      rb ← readi ip (DPhys pa) (u32 (off + i)) n;
      if negb (fst rb =? n) then mret (-1)
      else loadseg_loop fuel pagetable va ip off sz (i + PGSIZE)
  end.
Definition loadseg (pagetable va : Z) (ip : nat) (off sz : Z) : K Z :=
  loadseg_loop (S (Z.to_nat ((sz + PGSIZE - 1) / PGSIZE))) pagetable va ip off sz 0.

(** The program headers, [i] of [phnum]; the result is [sz]. *)
Fixpoint load_headers (n : nat) (pagetable : Z) (app : nat) (off sz : Z) : K Z :=
  match n with
  | O => mret sz
  | S n =>
      rb ← readi app DLocal (u32 off) 56;
      let '(r, bs) := (rb : Z * list Z) in
      if negb (r =? 56) then panic "readi from proghdr panic...\n" else
      let ph := dec_proghdr bs in
      if negb (ph_type ph =? ELF_PROG_LOAD) then load_headers n pagetable app (i32 (off + 56)) sz else
      if ph_memsz ph <? ph_filesz ph then panic "exec() ph.memsz < ph.filesz...\n" else
      if u64 (ph_vaddr ph + ph_memsz ph) <? ph_vaddr ph
      then panic "exec() ph.vaddr + ph.memsz < ph.vaddr...\n" else
      sz1 ← uvmalloc pagetable sz (u64 (ph_vaddr ph + ph_memsz ph));
      if sz1 =? 0 then panic "loadseg uvmalloc panic" else
      if negb (ph_vaddr ph mod PGSIZE =? 0) then panic "exec:(ph.vaddr %% PGSIZE) != 0" else
      r ← loadseg pagetable (ph_vaddr ph) app (ph_off ph) (ph_filesz ph);
      if r <? 0 then panic "loadseg panic"
      else load_headers n pagetable app (i32 (off + 56)) sz1
  end.

(** Pushing the arguments: [for(argc = 0; argv[argc]; argc++)].  The result is
    [sp] and the entries of [ustack] written. *)
Fixpoint push_args (argv : list (list Z)) (argc : nat) (pagetable sp stackbase : Z) (ustack : list Z)
  : K (Z * list Z) :=
  match argv with
  | [] => mret (sp, ustack)
  | a :: argv =>
      if (MAXARG <=? argc)%nat then panic "argc >= MAXARG" else
      let sp := u64 (sp - (Z.of_nat (length a) + 1)) in
      let sp := sp - sp mod 16 in
      if sp <? stackbase then panic "exec:sp < stackbase" else
      r ← copyoutpg pagetable sp (a ++ [0]) (Z.of_nat (length a) + 1);
      if r <? 0 then panic "exec:copyout"
      else push_args argv (S argc) pagetable sp stackbase (ustack ++ [sp])
  end.

(** [exec(path, argv)]; a null [argv] is [None], an argument the characters
    before its terminator, [plen] a bound on the path's length. *)
Definition exec (plen : nat) (path : chars) (argv : option (list (list Z))) : K Z :=
  let path := if path 0%nat =? 47 then shift 1 path else path in
  app ← rootsub path;
  ilock app;;
  app ← deref app;
  p ← (p ← myproc; deref p);
  pagetable ← proc_pagetable p;
  if pagetable =? 0 then panic "exec proc_pagetable panic\n" else
  rb ← readi app DLocal 0 64;
  let '(r, bs) := (rb : Z * list Z) in
  if negb (r =? 64) then panic "readi panic" else
  let elf := dec_elfhdr bs in
  if negb (elf_magic elf =? ELF_MAGIC) then panic "ELF MAGIC Panic" else
  sz ← load_headers (Z.to_nat (elf_phnum elf)) pagetable app (i32 (elf_phoff elf)) 0;
  iunlockput (Some app);;
  x ← get_proc p;
  let oldsz := p_sz x in
  let sz := PGROUNDUP sz in
  sz1 ← uvmalloc pagetable sz (u64 (sz + 2 * PGSIZE));
  if sz1 =? 0 then panic "----" else
  uvmclear pagetable (u64 (sz1 - 2 * PGSIZE));;
  let stackbase := u64 (sz1 - PGSIZE) in
  su ← push_args (default [] argv) 0 pagetable sz1 stackbase [];
  let '(sp, ustack) := (su : Z * list Z) in
  (* [ustack[argc] = 0]; with [MAXARG] arguments the store is past the end of
     [ustack], whose effect is outside the model *)
  if (MAXARG <=? length ustack)%nat then block else
  let ustack := ustack ++ [0] in
  let argc := Z.of_nat (length ustack) - 1 in
  let sp := u64 (sp - (argc + 1) * 8) in
  let sp := sp - sp mod 16 in
  if sp <? stackbase then panic "if(sp < stackbase)" else
  r ← copyoutpg pagetable sp (concat ((fun v => le_enc 8 v) <$> ustack)) ((argc + 1) * 8);
  if r <? 0 then panic "exec:copyout" else
  tf_set p TF_a1 sp;;
  upd_proc p (copy_name (last_component plen path path));;
  x ← get_proc p;
  let oldpagetable := p_pagetable x in
  upd_proc p (set_p_pagetable pagetable);;
  upd_proc p (set_p_sz sz1);;
  tf_set p TF_epc (elf_entry elf);;
  tf_set p TF_sp sp;;
  proc_freepagetable oldpagetable oldsz;;
  mret 0.
End exec.
