(* ===== verification/Sysfile.v ===== *)
(** * System call arguments ([syscall.c]) and the file system calls ([sysfile.c]) *)

From S2P Require Import Prelude Layout Memory CString State Spinlock Sched Sleeplock Uart Print.
From S2P Require Import Kmem PageTable Uvm Console Ondisk Bio Block Fs File Proc Exec.

Definition MAXPATH : Z := 128.

Section sysfile.
  Context {L : LinkMap} {Ot : Others} {D : BlockDev} {St : Stack}.

(** ** Arguments *)

Definition argraw (n : Z) : K Z :=
  p ← (p ← myproc; deref p);
  if n =? 0 then tf_get p TF_a0
  else if n =? 1 then tf_get p TF_a1
  else if n =? 2 then tf_get p TF_a2
  else if n =? 3 then tf_get p TF_a3
  else if n =? 4 then tf_get p TF_a4
  else if n =? 5 then tf_get p TF_a5
  else panic "argraw".

(** The [int] and [uint64] results are returned; both functions return 0. *)
Definition argint (n : Z) : K Z := v ← argraw n; mret (i32 v).
Definition argaddr (n : Z) : K Z := argraw n.

(** The string read, its terminator included, and its length. *)
Definition fetchstr (addr max : Z) : K (Z * list Z) :=
  p ← (p ← myproc; deref p);
  x ← get_proc p;
  rb ← copyinstr (p_pagetable x) addr max;
  let '(err, buf) := (rb : Z * list Z) in
  if err <? 0 then panic "fetchstr err < 0" else
  match strlen (S (length buf)) (of_list buf) with
  | Some n => mret (Z.of_nat n, buf)
  | None => block
  end.
Definition argstr (num size : Z) : K (Z * list Z) :=
  addr ← argaddr num;
  fetchstr addr size.

Definition fetchaddr (addr : Z) : K Z :=
  p ← (p ← myproc; deref p);
  x ← get_proc p;
  if (p_sz x <=? addr) || (p_sz x <? u64 (addr + 8))
  then panic "fetchaddr:addr >= p->sz || addr+sizeof(uint64) > p->sz" else
  rb ← copyin (p_pagetable x) addr 8;
  let '(r, bs) := (rb : Z * list Z) in
  if negb (r =? 0) then panic "fetchaddr:copyin(p->pagetable, (char *)ip, addr, sizeof(*ip)) != 0"
  else mret (le_dec bs).

(** The descriptor and the file, [None] for -1. *)
Definition argfd (n : Z) : K (option (Z * nat)) :=
  fd ← argint n;
  if (fd <? 0) || (Z.of_nat OPENFILE <=? fd) then mret None else
  p ← (p ← myproc; deref p);
  x ← get_proc p;
  match p_openfs x !!! Z.to_nat fd with
  | None => mret None
  | Some f => mret (Some (fd, f))
  end.

Definition fdalloc (f : nat) : K Z :=
  p ← (p ← myproc; deref p);
  x ← get_proc p;
  match find_index (fun o => bool_decide (o = None)) (p_openfs x) with
  | Some fd =>
      upd_proc p (fun x => set_p_openfs (<[fd := Some f]> (p_openfs x)) x);;
      mret (Z.of_nat fd)
  | None => mret (-1)
  end.

(** ** Calls on descriptors *)

Definition sys_read : K Z :=
  a ← argfd 0;
  match a with
  | None => panic "sys_read param failure\n"
  | Some (_, f) =>
      sz ← argint 2;
      p ← argaddr 1;
      fileread f p sz
  end.

Definition sys_write : K Z :=
  a ← argfd 0;
  match a with
  | None => mret (-1)
  | Some (_, f) =>
      n ← argint 2;
      p ← argaddr 1;
      filewrite f p n
  end.

Definition sys_fstat : K Z :=
  a ← argfd 0;
  match a with
  | None => mret (-1)
  | Some (_, f) =>
      st ← argaddr 1;
      filestat f st
  end.

Definition sys_close : K Z :=
  a ← argfd 0;
  match a with
  | None => mret (-1)
  | Some (fd, f) =>
      p ← (p ← myproc; deref p);
      upd_proc p (fun x => set_p_openfs (<[Z.to_nat fd := None]> (p_openfs x)) x);;
      fileclose (Some f);;
      mret 0
  end.

Definition sys_dup : K Z :=
  a ← argfd 0;
  match a with
  | None => mret (-1)
  | Some (_, f) =>
      fd ← fdalloc f;
      if fd <? 0 then mret (-1) else
      filedup f;;
      mret fd
  end.

(** ** Calls on paths *)

Definition create (path : chars) (type major minor : Z) : K nat :=
  dp ← rooti;
  ilock (Some dp);;
  let path := if path 0%nat =? 47 then shift 1 path else path in
  ip ← inodeByName dp path;
  hit ← match ip with
        | Some i =>
            x ← get_inode i;
            mret ((type =? T_FILE) && ((i_type x =? T_FILE) || (i_type x =? T_DEVICE)))
        | None => mret false
        end;
  if (hit : bool) then deref ip else
  d ← get_inode dp;
  ip ← ialloc (i_dev d) type;
  match ip with
  | None => panic "fs.c create >> ialloc panic..\n"
  | Some i =>
      ilock (Some i);;
      modify (upd_inode i (set_i_major major));;
      modify (upd_inode i (set_i_minor minor));;
      modify (upd_inode i (set_i_nlink 1));;
      iupdate i;;
      x ← get_inode i;
      (if type =? T_DIR then
         iupdate dp;;
         r ← dirlink i (of_list (str "." ++ [0])) (i16 (i_inum x));
         if r <? 0 then panic "create dots" else
         d ← get_inode dp;
         r ← dirlink i (of_list (str ".." ++ [0])) (i16 (i_inum d));
         if r <? 0 then panic "create dots" else mret tt
       else mret tt);;
      r ← dirlink dp path (i16 (i_inum x));
      if r <? 0 then panic "create >> dirline panic...\n" else
      iunlockput (Some dp);;
      mret i
  end.

Definition sys_mknod : K Z :=
  nb ← argstr 0 MAXPATH;
  let '(n, path) := (nb : Z * list Z) in
  if n <? 0 then panic "sys_mknod" else
  major ← argint 1;
  minor ← argint 2;
  ip ← create (of_list path) T_DEVICE (i16 major) (i16 minor);
  iunlockput (Some ip);;
  mret 0.

Definition sys_open : K Z :=
  nb ← argstr 0 MAXPATH;
  let '(n, path) := (nb : Z * list Z) in
  if n <? 0 then mret (-1) else
  model ← argint 1;
  ip ← (if negb (Z.land model O_CREATE =? 0)
        then i ← create (of_list path) T_FILE 0 0; mret (Some i)
        else iname (of_list path));
  match ip with
  | None => printf (str "ip == 0 " ++ [NL]) [];; mret (-1)
  | Some i =>
      ilock (Some i);;
      x ← get_inode i;
      if (i_type x =? T_DEVICE) && ((i_major x <? 0) || (Z.of_nat NDEV <=? i_major x))
      then panic "open: ip type error\n" else
      f ← filealloc;
      match f with
      | None => fileclose None;; mret (-1)
      | Some f =>
          fd ← fdalloc f;
          if fd <? 0 then fileclose (Some f);; mret (-1) else
          x ← get_inode i;
          (if i_type x =? T_DEVICE then
             upd_file f (set_f_type FD_DEVICE);; upd_file f (set_f_major (i_major x))
           else
             upd_file f (set_f_type FD_INODE);; upd_file f (set_f_off 0));;
          upd_file f (set_f_ip (Some i));;
          upd_file f (set_f_readable (Z.b2z (Z.land model O_WRONLY =? 0)));;
          upd_file f (set_f_writable (u8 (Z.lor (Z.land model O_WRONLY) (Z.land model O_RDWR))));;
          iunlock (Some i);;
          mret fd
      end
  end.

Definition sys_exec : K Z :=
  nb ← argstr 0 MAXPATH;
  let '(n, name) := (nb : Z * list Z) in
  if n <? 0 then mret (-1) else
  p ← (p ← myproc; deref p);
  x ← get_proc p;
  printf (str "exec: %s,p.name:%s,p.id:%d" ++ [NL])
    [AStr (Some (c_string name)); AStr (Some (c_string (p_name x))); AInt (i32 (p_pid x))];;
  exec (length name) (of_list name) None.

(** ** [sysproc.c] *)

Definition sys_wait : K Z := p ← argaddr 0; wait p.
Definition sys_fork : K Z := fork.
Definition sys_exit : K Z := n ← argint 0; exit n;; mret 0.
Definition sys_sbrk : K Z :=
  n ← argint 0;
  p ← (p ← myproc; deref p);
  x ← get_proc p;
  let addr := i32 (p_sz x) in
  r ← growproc n;
  if r <? 0 then mret (-1) else mret addr.
End sysfile.
