(* ===== verification/Trap.v ===== *)
(** * System call dispatch ([syscall.c]) and traps ([trap.c], [plic.c]) *)

From S2P Require Import Prelude Layout Memory CString State Spinlock Sched Sleeplock Uart Print.
From S2P Require Import Kmem PageTable Uvm Console Ondisk Bio Block Virtio Fs File Proc Exec Sysfile.

(** The interrupt controller: 32-bit reads and writes of its registers. *)
Class Plic := {
  plic_read : Z -> K Z;
  plic_write : Z -> Z -> K unit
}.
Definition PLIC_SENABLE (h : Z) : Z := PLIC + 0x2080 + h * 0x100.
Definition PLIC_SPRIORITY (h : Z) : Z := PLIC + 0x201000 + h * 0x2000.
Definition PLIC_SCLAIM (h : Z) : Z := PLIC + 0x201004 + h * 0x2000.

Definition SSTATUS_SPP : Z := Z.shiftl 1 8.
Definition SSTATUS_SPIE : Z := Z.shiftl 1 5.
Definition UART0_IRQ : Z := 10.
Definition VIRTIO0_IRQ : Z := 1.

Definition upd_csr (f : csrs -> csrs) : K unit := modify (fun s => set_k_csr (f (k_csr s)) s).

(** The table [syscalls] of [syscall.c]. *)
Inductive sysno :=
| SYS_WRITE | SYS_EXEC | SYS_DUP | SYS_OPEN | SYS_WAIT | SYS_MKNOD | SYS_EXEC2 | SYS_FORK
| SYS_READ | SYS_EXIT | SYS_SBRK | SYS_FSTAT | SYS_CLOSE.
Definition syscalls : list (option sysno) :=
  [None; Some SYS_WRITE; Some SYS_EXEC; Some SYS_DUP; Some SYS_OPEN; Some SYS_WAIT; Some SYS_MKNOD;
   Some SYS_EXEC2; Some SYS_FORK; Some SYS_READ; Some SYS_EXIT; Some SYS_SBRK; Some SYS_FSTAT; Some SYS_CLOSE].

Section trap.
  Context {L : LinkMap} {Ot : Others} {D : BlockDev} {P : Plic} {St : Stack}.

Definition run_syscall (c : sysno) : K Z :=
  match c with
  | SYS_WRITE => sys_write
  | SYS_EXEC | SYS_EXEC2 => sys_exec
  | SYS_DUP => sys_dup
  | SYS_OPEN => sys_open
  | SYS_WAIT => sys_wait
  | SYS_MKNOD => sys_mknod
  | SYS_FORK => sys_fork
  | SYS_READ => sys_read
  | SYS_EXIT => sys_exit
  | SYS_SBRK => sys_sbrk
  | SYS_FSTAT => sys_fstat
  | SYS_CLOSE => sys_close
  end.

Definition syscall : K unit :=
  p ← (p ← myproc; deref p);
  a7 ← tf_get p TF_a7;
  let num := i32 a7 in
  match (if 0 <? num then nth (Z.to_nat num) syscalls None else None) with
  | Some c => r ← run_syscall c; tf_set p TF_a0 (u64 r)
  | None =>
      printf (str "syscall %d not exist " ++ [NL]) [AInt num];;
      tf_set p TF_a0 (u64 (-1))
  end.

(** [usertrapret], up to its jump: the address jumped to and the arguments. *)
Definition usertrapret : K (Z * Z * Z) :=
  p ← (p ← myproc; deref p);
  intr_off;;
  upd_csr (set_stvec (TRAMPOLINE + (l_uservec - l_trampoline)));;
  c ← gets k_csr;
  x ← get_proc p;
  tf_set p TF_kernel_satp (satp c);;
  tf_set p TF_kernel_sp (u64 (p_kstack x + PGSIZE));;
  tf_set p TF_kernel_trap l_usertrap;;
  tf_set p TF_kernel_hartid (Z.of_nat (tp c));;
  st ← r_sstatus;
  w_sstatus (Z.lor (Z.land st (Z.lnot SSTATUS_SPP)) SSTATUS_SPIE);;
  epc ← tf_get p TF_epc;
  upd_csr (set_sepc epc);;
  mret (TRAMPOLINE + (l_userret - l_trampoline), TRAPFRAME, MAKE_SATP (p_pagetable x)).

(** [forkret] of [proc.c]; the static [firstinit] is in the process globals. *)
Definition forkret : K (Z * Z * Z) :=
  p ← (p ← myproc; deref p);
  release (LProc p);;
  f ← gets (fun s => firstinit (k_proc s));
  (if negb (f =? 0) then
     modify (fun s => set_k_proc (set_firstinit 0 (k_proc s)) s);; initfs ROOTDEV
   else mret tt);;
  usertrapret.

Definition clockintr : K unit :=
  acquire LTick;;
  modify (fun s => set_k_ticks (u32 (k_ticks s + 1)) s);;
  wakeup ChTicks;;
  release LTick.

Definition plicinit : K unit :=
  plic_write (PLIC + UART0_IRQ * 4) 1;;
  plic_write (PLIC + VIRTIO0_IRQ * 4) 1.

Definition plicinithart : K unit :=
  h ← gets hart;
  plic_write (PLIC_SENABLE (Z.of_nat h)) (Z.lor (Z.shiftl 1 UART0_IRQ) (Z.shiftl 1 VIRTIO0_IRQ));;
  plic_write (PLIC_SPRIORITY (Z.of_nat h)) 0.

Definition plic_claim : K Z :=
  h ← gets hart;
  irq ← plic_read (PLIC_SCLAIM (Z.of_nat h));
  mret (i32 irq).

Definition complate_irq (irq : Z) : K unit :=
  h ← gets hart;
  plic_write (PLIC_SCLAIM (Z.of_nat h)) (u32 irq).

Definition devintr : K Z :=
  c ← gets k_csr;
  let cause := scause c in
  if Z.testbit cause 63 && (Z.land cause 0xff =? 9) then
    irq ← plic_claim;
    (if irq =? UART0_IRQ then uartinterrupt
     else if irq =? VIRTIO0_IRQ then virtio_disk_isr
     else printf (str "unknow irq:%d" ++ [NL]) [AInt irq]);;
    (if negb (irq =? 0) then complate_irq irq else mret tt);;
    mret 1
  else if cause =? 0x8000000000000001 then
    id ← cpuid;
    (if (id =? 0)%nat then clockintr else mret tt);;
    upd_csr (fun c => set_sip (Z.land (sip c) (Z.lnot 2)) c);;
    mret 2
  else mret 0.

Definition kerneltrap : K unit :=
  c ← gets k_csr;
  let st := sstatus c in
  let epc := sepc c in
  if negb (flag st SSTATUS_SPP) then printf (str "kerneltrap: interrupt from U Model" ++ [NL]) [] else
  if flag st SSTATUS_SIE then printf (str "kerneltrap: Handle kernel interrupts SIE cannot be set" ++ [NL]) [] else
  which ← devintr;
  if which =? 0 then
    c ← gets k_csr;
    printf (str "sepc=%p stval=%p scause=%d" ++ [NL]) [APtr (sepc c); APtr (stval c); AInt (i32 (scause c))];;
    panic "kernel trap\n"
  else
  (if which =? 2 then
     p ← myproc;
     match p with
     | None => mret tt
     | Some _ =>
         p ← (p ← myproc; deref p);
         x ← get_proc p;
         if bool_decide (p_state x = RUNNING) then yield else mret tt
     end
   else mret tt);;
  upd_csr (set_sepc epc);;
  upd_csr (set_sstatus st).

Definition trapinit : K unit :=
  upd_csr (set_stvec l_kernelvec);;
  initlock LTick "trap".

Definition usertrap : K (Z * Z * Z) :=
  st ← r_sstatus;
  if flag st SSTATUS_SPP then panic "usertrap: not from user mode" else
  upd_csr (set_stvec l_kernelvec);;
  p ← (p ← myproc; deref p);
  c ← gets k_csr;
  tf_set p TF_epc (sepc c);;
  which ← (if scause c =? 8 then
             x ← get_proc p;
             (if negb (p_killed x =? 0) then exit (-1) else mret tt);;
             epc ← tf_get p TF_epc;
             tf_set p TF_epc (u64 (epc + 4));;
             intr_on;;
             syscall;;
             mret 0
           else
             which ← devintr;
             if negb (which =? 0) then mret which else
             x ← get_proc p;
             c ← gets k_csr;
             printf (str "usertrap(): unexpected scause %p pid=%d" ++ [NL]) [APtr (scause c); AInt (i32 (p_pid x))];;
             printf (str "            sepc=%p stval=%p" ++ [NL]) [APtr (sepc c); APtr (stval c)];;
             panic "user trap\n");
  (if which =? 2 then yield else mret tt);;
  usertrapret.
End trap.
