(* ===== verification/Boot.v ===== *)
(** * Booting: [start] and [timer_init] of [start.c], [main] of [main.c]

    [start] runs in machine mode on each hart, on registers the rest of the
    kernel never reads; they are a record of their own.  [main] is kernel code;
    the registers and pages of the disk controller are its parameters. *)

From S2P Require Import Prelude Layout Memory State Spinlock Sched Uart Print Sleeplock Kmem PageTable.
From S2P Require Import Uvm Console Ondisk Bio Block Virtio Fs File Proc Exec Sysfile Trap.

Definition MSTATUS_MIE : Z := Z.shiftl 1 3.
Definition MSTATUS_MPP_MASK : Z := Z.shiftl 3 11.
Definition MSTATUS_MPP_S : Z := Z.shiftl 1 11.
Definition MIE_MTIE : Z := Z.shiftl 1 7.
Definition SIE_SEIE : Z := Z.shiftl 1 9.
Definition SIE_STIE : Z := Z.shiftl 1 5.
Definition SIE_SSIE : Z := Z.shiftl 1 1.
Definition CLINT : Z := 0x2000000.
Definition CLINT_MTIMECMP (hartid : Z) : Z := CLINT + 0x4000 + 8 * hartid.
Definition CLINT_MTIME : Z := CLINT + 0xBFF8.
Definition INTERVAL : Z := 1000000.

(** The machine mode registers of a hart, its timer registers and its row of
    [timer_scratch]. *)
Record mregs := mkMregs {
  m_hartid : Z; m_status : Z; m_epc : Z; m_satp : Z; m_edeleg : Z; m_ideleg : Z; m_sie : Z;
  m_pmpaddr0 : Z; m_pmpcfg0 : Z; m_scratch : Z; m_tvec : Z; m_ie : Z; m_tp : Z;
  m_mtime : Z; m_mtimecmp : Z; m_scratch_row : list Z
}.

(** Addresses of [main], [timervec] and [timer_scratch[hartid]]. *)
Record boot_link := { l_main : Z; l_timervec : Z; l_timer_scratch : Z -> Z }.

Definition timer_init (k : boot_link) (m : mregs) : mregs :=
  let hartid := m_hartid m in
  {| m_hartid := hartid;
     m_status := Z.lor (m_status m) MSTATUS_MIE;
     m_epc := m_epc m; m_satp := m_satp m; m_edeleg := m_edeleg m; m_ideleg := m_ideleg m;
     m_sie := m_sie m; m_pmpaddr0 := m_pmpaddr0 m; m_pmpcfg0 := m_pmpcfg0 m;
     m_scratch := l_timer_scratch k hartid;
     m_tvec := l_timervec k;
     m_ie := Z.lor (m_ie m) MIE_MTIE;
     m_tp := m_tp m; m_mtime := m_mtime m;
     m_mtimecmp := u64 (m_mtime m + INTERVAL);
     m_scratch_row := <[4%nat := INTERVAL]> (<[3%nat := CLINT_MTIMECMP hartid]> (m_scratch_row m)) |}.

(** [start], up to its [mret]. *)
Definition start (k : boot_link) (m : mregs) : mregs :=
  let x := Z.lor (Z.land (m_status m) (Z.lnot MSTATUS_MPP_MASK)) MSTATUS_MPP_S in
  let m :=
    {| m_hartid := m_hartid m; m_status := x; m_epc := l_main k; m_satp := 0;
       m_edeleg := 0xffff; m_ideleg := 0xffff;
       m_sie := Z.lor (Z.lor (Z.lor (m_sie m) SIE_SEIE) SIE_STIE) SIE_SSIE;
       m_pmpaddr0 := 0x3fffffffffffff; m_pmpcfg0 := 0xf;
       m_scratch := m_scratch m; m_tvec := m_tvec m; m_ie := m_ie m; m_tp := m_tp m;
       m_mtime := m_mtime m; m_mtimecmp := m_mtimecmp m; m_scratch_row := m_scratch_row m |} in
  let m := timer_init k m in
  {| m_hartid := m_hartid m; m_status := m_status m; m_epc := m_epc m; m_satp := m_satp m;
     m_edeleg := m_edeleg m; m_ideleg := m_ideleg m; m_sie := m_sie m;
     m_pmpaddr0 := m_pmpaddr0 m; m_pmpcfg0 := m_pmpcfg0 m; m_scratch := m_scratch m;
     m_tvec := m_tvec m; m_ie := m_ie m; m_tp := m_hartid m; m_mtime := m_mtime m;
     m_mtimecmp := m_mtimecmp m; m_scratch_row := m_scratch_row m |}.

Section boot.
  Context {L : LinkMap} {Ot : Others} {D : BlockDev} {P : Plic} {St : Stack}.

(** [main], its scheduler running for [rounds] passes over the table. *)
Definition main (regs : Z -> Z) (pages_pfn : Z) (rounds : nat) : K unit :=
  id ← cpuid;
  (if (id =? 0)%nat then
     consoleinit;;
     printinit;;
     trapinit;;
     plicinit;;
     plicinithart;;
     kinit;;
     initproc;;
     init_bcache;;
     init_inodecache;;
     init_filecache;;
     virtio_disk_init regs pages_pfn;;
     userinit;;
     printf (str "OS: Start" ++ [NL]) [];;
     modify (set_k_started 1)
   else
     started ← gets k_started;
     if started =? 0 then block else
     trapinit;;
     plicinithart);;
  scheduler rounds.
End boot.
