(* ===== verification/LockSpec.v ===== *)
(** * What the locks guarantee

    Spin locks between harts ([SpinSmp.v]), spin locks on one hart
    ([Spinlock.v]), sleep locks ([Sleeplock.v]), wake-ups ([Sched.v]). *)

From S2P Require Import Prelude Layout Memory State Spinlock SpinSmp Sched Sleeplock.

(** ** Harts *)

Section smp.
  Context {H : Type} `{!EqDecision H}.

(** The harts in [l] make one access each, in that order. *)
Fixpoint smp_run (l : list H) (st : @smp H) : smp :=
  match l with
  | [] => st
  | h :: l => let '(lk', p') := access h (pcs st h) (lk st) in smp_run l (mkSmp lk' (set_pc (pcs st) h p'))
  end.

Lemma smp_run_star (l : list H) (st st0 : @smp H) : star smp_step st0 st -> star smp_step st0 (smp_run l st).
Proof.
  revert st. induction l as [|h l IH]; intros st Hs; [done|]. cbn [smp_run].
  destruct (access h (pcs st h) (lk st)) as [lk' p'] eqn:E.
  apply IH. eapply star_snoc; [done|]. by constructor.
Qed.

(** The holder leaves: [release] runs to its end without a panic. *)
Lemma release_leaves (st : @smp H) (h : H) :
  smp_inv st -> pcs st h = Crit ->
  exists st', star smp_step st st' /\ w_locked (lk st') = 0 /\ forall x, pcs st' x = set_pc (pcs st) h Idle x.
Proof.
  intros I E. exists (smp_run [h; h; h; h; h] st). split; [apply smp_run_star, star_refl|].
  assert (w_locked (lk st) <> 0) as Hl by (apply (owner_locked st h I); by rewrite E).
  assert (w_cpu (lk st) = Some h) as Hc by (apply (si_cpu _ I); by rewrite E).
  apply Z.eqb_neq in Hl.
  cbn [smp_run]. rewrite E. cbn [access lk pcs].
  rewrite set_pc_eq. cbn [access]. rewrite Hl. cbn [lk pcs].
  rewrite set_pc_eq. cbn [access]. rewrite bool_decide_eq_true_2 by done. cbn [lk pcs].
  rewrite set_pc_eq. cbn [access lk pcs w_locked].
  rewrite set_pc_eq. cbn [access lk pcs w_locked]. split; [done|].
  intros x. unfold set_pc. by repeat case_decide.
Qed.
End smp.

(** C1: mutual exclusion.  However the memory accesses of any number of harts
    running [acquire] and [release] interleave, at most one hart is between its
    successful exchange and its unlocking store, the lock word is set exactly
    when there is one, [lk->cpu] names the hart inside the critical section,
    and neither [acquire] nor [release] ever reaches its [panic]. *)
Theorem mutual_exclusion (H : Type) `{!EqDecision H} (st : @smp H) :
  star smp_step smp_init st ->
  (forall h h', owns (pcs st h) = true -> owns (pcs st h') = true -> h = h') /\
  (w_locked (lk st) <> 0 <-> exists h, owns (pcs st h) = true) /\
  (forall h, pcs st h = Crit -> w_cpu (lk st) = Some h) /\
  (forall h, pcs st h <> PanicAcq /\ pcs st h <> PanicRel).
Proof.
  intros I%reachable_inv. split; [apply (si_one _ I)|]. split; [apply (si_locked _ I)|].
  split; intros h; pose proof (si_panic _ I h) as Hp.
  - intros E. apply (si_cpu _ I). by rewrite E.
  - by destruct (pcs st h).
Qed.

(** Hart [true] enters while hart [false] starts to spin. *)
Definition two_harts : list bool := [true; false; true; true; false; true; false].
Lemma mutual_exclusion_witness :
  exists st : @smp bool, star smp_step smp_init st /\ pcs st true = Crit /\ pcs st false = Swap /\
    (forall h h', owns (pcs st h) = true -> owns (pcs st h') = true -> h = h').
Proof.
  exists (smp_run two_harts smp_init). split; [apply smp_run_star, star_refl|].
  split; [reflexivity|]. split; [reflexivity|].
  apply (mutual_exclusion bool (smp_run two_harts smp_init)). apply smp_run_star, star_refl.
Defined.

(** C37: the lock is handed over.  From any reachable state in which [h] is in the
    critical section and [h'] is outside, there is a run in which [h] releases
    and [h'] acquires: no state of the protocol is stuck. *)
Theorem lock_handover (H : Type) `{!EqDecision H} (st : @smp H) (h h' : H) :
  star smp_step smp_init st -> pcs st h = Crit -> pcs st h' = Idle ->
  exists st', star smp_step smp_init st' /\ star smp_step st st' /\
    pcs st' h' = Crit /\ owns (pcs st' h) = false.
Proof.
  intros Hs E E'. pose proof (reachable_inv _ Hs) as I.
  destruct (release_leaves st h I E) as (st1 & H1 & El & Ep).
  assert (h' <> h) as Hne by congruence.
  destruct (acquire_enters st1 h' El) as (st2 & H2 & E2 & _).
  { rewrite Ep, set_pc_ne; done. }
  assert (star smp_step st st2) as H12 by by eapply star_trans.
  assert (star smp_step smp_init st2) as H02 by by eapply star_trans.
  exists st2. repeat split; try done. pose proof (reachable_inv _ H02) as I2.
  apply (others_out st2 h' I2); [by rewrite E2|done].
Qed.

Lemma lock_handover_witness :
  exists st st' : @smp bool, pcs st true = Crit /\ star smp_step st st' /\ pcs st' false = Crit.
Proof.
  set (st := smp_run [true; true; true; true] (@smp_init bool)).
  destruct (lock_handover bool st true false) as (st' & _ & H1 & H2 & _);
    [apply smp_run_star, star_refl|reflexivity|reflexivity|].
  exists st, st'. split; [reflexivity|]. by split.
Defined.

(** ** One hart *)

(** C34: [acquire], completely: a free lock is taken (with the hart recorded,
    interrupts off and the nesting depth increased); a lock this hart already
    holds is a panic; a lock another hart holds makes [acquire] spin. *)
Theorem acquire_outcomes (l : lockid) (s : kstate) :
  cpu_wf s ->
  (locked (lock_at s l) = 0 ->
     exists s', acquire l s = Ok tt s' /\
       lock_at s' l = mkSpinlock 1 (lname (lock_at s l)) (Some (hart s)) /\
       (forall l', l' <> l -> k_locks s' !! l' = k_locks s !! l') /\
       noff (cpu_of s') = noff (cpu_of s) + 1 /\
       flag (sstatus (k_csr s')) SSTATUS_SIE = false /\ k_mem s' = k_mem s /\ k_proc s' = k_proc s) /\
  (locked (lock_at s l) <> 0 -> lcpu (lock_at s l) = Some (hart s) -> panics (acquire l) s "acquire...\n") /\
  (locked (lock_at s l) <> 0 -> lcpu (lock_at s l) <> Some (hart s) -> exists s', acquire l s = Blocked s').
Proof.
  intros Hc. rewrite acquire_eq by done. cbv zeta. split; [|split].
  - intros El. rewrite El. exists (held l s). split; [done|]. unfold lock_at at 1, held at 1 2. kred.
    rewrite lookup_insert_eq. split; [done|]. split; [by intros; rewrite lookup_insert_ne|].
    rewrite cpu_of_held by done. cbn [set_noff noff]. split; [done|].
    split; [apply SIE_clear_get|done].
  - intros Hl Hm. unfold panics. rewrite acquire_eq by done. cbv zeta.
    apply Z.eqb_neq in Hl. rewrite Hl, bool_decide_eq_true_2 by done. eauto.
  - intros Hl Hm. cbv zeta. apply Z.eqb_neq in Hl. rewrite Hl, bool_decide_eq_false_2 by done. eauto.
Qed.

(** The second [acquire] of the same lock on the same hart is the panic. *)
Lemma acquire_outcomes_witness :
  acquire LPid test_state = Ok tt (held LPid test_state) /\
  panics (acquire LPid) (held LPid test_state) "acquire...\n".
Proof.
  pose proof (kr_cpu _ test_state_ready) as Hc.
  split; [exact (acquire_free _ _ Hc (kr_locks _ test_state_ready LPid I))|].
  assert (lock_at (held LPid test_state) LPid = mkSpinlock 1 EmptyString (Some 0%nat)) as E.
  { unfold lock_at, held. kred. rewrite lookup_insert_eq. reflexivity. }
  apply (acquire_outcomes LPid (held LPid test_state)).
  - apply cpu_wf_held; [exact Hc|vm_compute; reflexivity].
  - rewrite E. discriminate.
  - rewrite E. reflexivity.
Defined.

(** C35: a critical section is transparent.  Acquiring a free lock, changing
    anything but locks, registers and [cpus], and releasing it has the effect of
    the change alone: the lock is free again, interrupts are as before, the
    nesting depth is as before. *)
Theorem critical_section (l : lockid) (g : kstate -> kstate) (s : kstate) :
  neutral g -> cpu_wf s -> lock_free l s ->
  (acquire l;; modify g;; release l) s = Ok tt (g (touch s)) /\
  k_csr (touch s) = k_csr s /\ k_locks (touch s) = k_locks s /\
  noff (cpu_of (touch s)) = noff (cpu_of s) /\ k_mem (touch s) = k_mem s /\ k_proc (touch s) = k_proc s.
Proof.
  intros Hg Hc Hl. split; [|by rewrite noff_touch].
  rewrite (bind_ok _ _ _ _ _ (acquire_free _ _ Hc Hl)). step_prim. by apply release_neutral.
Qed.

Lemma critical_section_witness :
  exists s', (acquire LTick;; modify (set_k_ticks 7);; release LTick) test_state = Ok tt s' /\ k_ticks s' = 7.
Proof.
  exists (set_k_ticks 7 (touch test_state)). split; [|reflexivity].
  apply (critical_section LTick (set_k_ticks 7) test_state).
  - by split.
  - exact (kr_cpu _ test_state_ready).
  - exact (kr_locks _ test_state_ready LTick I).
Defined.

(** C21: [wakeup(c)] makes runnable exactly the other processes that sleep on
    [c].  Nothing else changes in the whole state, but for the copy of the
    interrupt enable bit that the outermost [acquire] leaves in this hart's
    [intena] ([touch]). *)
Theorem wakeup_exact (c : chan) (s : kstate) :
  cpu_wf s -> proc_locks_free s -> length (procs (k_proc s)) = NPROC ->
  exists s', wakeup c s = Ok tt s' /\
    (forall i, (i < NPROC)%nat -> proc_at s' i =
       if bool_decide (curproc s <> Some i /\ p_state (proc_at s i) = SLEEPING /\ p_chan (proc_at s i) = Some c)
       then set_p_state RUNNABLE (proc_at s i) else proc_at s i) /\
    length (procs (k_proc s')) = NPROC /\
    s' = set_k_proc (set_procs (procs (k_proc s')) (k_proc s)) (touch s) /\
    touch s = upd_cpu (fun k => if noff k =? 0 then set_intena (Z.b2z (flag (sstatus (k_csr s)) SSTATUS_SIE)) k else k) s.
Proof.
  intros Hc Hl Hn. rewrite wakeup_spec by done. eexists. split; [done|]. split; [|split; [|split]].
  - intros i Hi. unfold proc_at, upd_procs. kred. cbn [set_procs procs].
    apply list_lookup_total_correct. change (k_proc (touch s)) with (k_proc s).
    rewrite list_lookup_imap. destruct (lookup_lt_is_Some_2 (procs (k_proc s)) i) as [p Hp]; [lia|].
    rewrite Hp, (list_lookup_total_correct _ _ _ Hp). done.
  - unfold upd_procs. kred. cbn [set_procs procs]. by rewrite length_imap.
  - reflexivity.
  - reflexivity.
Qed.

(** Process 3 sleeps for the console, process 4 for the clock. *)
Definition two_sleepers : kstate :=
  upd_procs (upd_at 3 (fun p => set_p_chan (Some ChConsR) (set_p_state SLEEPING p)))
    (upd_procs (upd_at 4 (fun p => set_p_chan (Some ChTicks) (set_p_state SLEEPING p))) test_state).
Lemma wakeup_exact_witness :
  exists s', wakeup ChTicks two_sleepers = Ok tt s' /\
    p_state (proc_at s' 3) = SLEEPING /\ p_state (proc_at s' 4) = RUNNABLE.
Proof.
  destruct (wakeup_exact ChTicks two_sleepers) as (s' & E & Hp & _).
  - apply (neutral_cpu_wf _ (neutral_procs _)), (neutral_cpu_wf _ (neutral_procs _)).
    exact (kr_cpu _ test_state_ready).
  - exact (kready_proc_locks _ test_state_ready).
  - reflexivity.
  - exists s'. split; [exact E|]. rewrite (Hp 3%nat), (Hp 4%nat) by (vm_compute; lia).
    split; vm_compute; reflexivity.
Defined.

(** C36: sleep locks.  Taking a free sleep lock succeeds without sleeping, the
    process then holds it ([holdingsleep] answers true), and releasing it frees
    it and makes exactly its waiters runnable. *)
Theorem sleeplock_cycle `{Ot : Others} (r : slref) (s : kstate) (i : nat) :
  kready s -> lock_ok (sl_lk r) -> curproc s = Some i -> 0 <= p_pid (proc_at s i) < 2 ^ 32 ->
  sl_ok r s -> sl_locked (sl_at s r) = 0 ->
  exists s1, sleep_lock r s = Ok tt s1 /\ kready s1 /\ sl_locked (sl_at s1 r) = 1 /\
    holdingsleep r s1 = Ok true (touch s1) /\
    (exists s2, sleep_unlock r s1 = Ok tt s2 /\ sl_locked (sl_at s2 r) = 0 /\ sl_pid (sl_at s2 r) = 0 /\
       forall k, (k < NPROC)%nat -> proc_at s2 k = wake (Some (sl_chan r)) (Some i) k (proc_at s k)).
Proof.
  intros Hk Hr Hi Hp Hok Hl. pose proof (kr_cpu s Hk) as Hc.
  pose proof (sleep_lock_free r s i Hk Hr Hi Hl) as E1.
  set (s1 := sl_taken r (p_pid (proc_at s i)) (touch s)) in *.
  assert (sl_ok r (touch s)) as Hok' by by destruct r.
  assert (kready s1) as Hk1.
  { apply kready_neutral; [apply neutral_upd_sl|..]; try by destruct r; cbn; rewrite ?length_upd_at.
    by apply kready_touch. }
  assert (curproc s1 = Some i) as Hi1.
  { unfold curproc, s1, sl_taken. rewrite (neutral_cpu_of _ (neutral_upd_sl _ _)). by rewrite c_proc_touch. }
  assert (forall k, proc_at s1 k = proc_at s k) as Hp1 by by destruct r.
  assert (sl_at s1 r = mkSleeplock 1 (sl_name (sl_at s r)) (i32 (p_pid (proc_at s i)))) as Hsl.
  { unfold s1, sl_taken. rewrite sl_at_upd by done. by destruct r. }
  exists s1. split; [done|]. split; [done|]. rewrite Hsl. split; [done|]. split.
  { rewrite (holdingsleep_eq r s1 i) by done. unfold sl_mine. rewrite Hsl, Hi1, Hp1. cbn [sl_locked sl_pid].
    assert (u32 (i32 (p_pid (proc_at s i))) = p_pid (proc_at s i)) as ->.
    { unfold u32, i32. rewrite Zminus_mod_idemp_l.
      replace (p_pid (proc_at s i) + 2 ^ 31 - 2 ^ 31) with (p_pid (proc_at s i)) by lia.
      by apply Z.mod_small. }
    by rewrite Z.eqb_refl. }
  eexists. split; [by apply sleep_unlock_eq|].
  assert (sl_ok r (touch s1)) as Hok1.
  { destruct r; cbn in *; by rewrite length_upd_at. }
  assert (forall f x, sl_at (upd_procs f x) r = sl_at x r) as Hup by by destruct r.
  rewrite Hup. unfold sl_released. rewrite sl_at_upd by done. split; [done|]. split; [done|].
  intros k Hk'. unfold proc_at, upd_procs. kred. cbn [set_procs procs].
  assert (k_proc (upd_sl r (λ l, set_sl_pid 0 (set_sl_locked 0 l)) (touch s1)) = k_proc s) as -> by by destruct r.
  apply list_lookup_total_correct. rewrite list_lookup_imap.
  destruct (lookup_lt_is_Some_2 (procs (k_proc s)) k) as [p Hpk]; [by rewrite (kr_nprocs s Hk)|].
  rewrite Hpk, (list_lookup_total_correct _ _ _ Hpk), Hi1. done.
Qed.

Lemma sleeplock_cycle_witness :
  exists s1, @sleep_lock alone (SBuf 2) test_state = Ok tt s1 /\ @holdingsleep (SBuf 2) s1 = Ok true (touch s1).
Proof.
  destruct (@sleeplock_cycle alone (SBuf 2) test_state 0) as (s1 & E & _ & _ & Eh & _);
    [exact test_state_ready|cbv; lia|reflexivity|vm_compute; by split|vm_compute; lia|reflexivity|].
  exists s1. split; [exact E|exact Eh].
Defined.
