(* ===== verification/MemSpec.v ===== *)
(** * What the memory management of [vm.c] guarantees

    The page allocator refines a stack of pages, the page tables a partial map
    from pages to entries, and the copies between user and kernel space move
    the bytes the page table designates. *)

From S2P Require Import Prelude Layout Memory State Spinlock Sched Kmem PageTable Uvm UvmProps UvmGrow.

(** ** The allocator as an abstract stack *)

Inductive kmop := OpAlloc | OpFree (pa : Z).

Section alloc_spec.
  Context `{HL : LinkOk}.

#[export] Instance page_ok_dec a : Decision (page_ok a).
Proof. unfold page_ok. apply _. Defined.

(** The specification: [kalloc] pops, or answers 0 when the stack is empty;
    [kfree] pushes a page of the managed range that is not already free. *)
Definition spec_op (o : kmop) (l : list Z) : option (Z * list Z) :=
  match o with
  | OpAlloc => match l with [] => Some (0, []) | a :: l => Some (a, l) end
  | OpFree pa => if decide (page_ok pa /\ pa ∉ l) then Some (0, pa :: l) else None
  end.
Definition run_op (o : kmop) : K Z :=
  match o with OpAlloc => kalloc | OpFree pa => kfree pa;; mret 0 end.

(** Sequences of calls, with the results of each. *)
Fixpoint spec_ops (os : list kmop) (l : list Z) : option (list Z * list Z) :=
  match os with
  | [] => Some ([], l)
  | o :: os => '(r, l) ← spec_op o l; '(rs, l) ← spec_ops os l; Some (r :: rs, l)
  end.
Fixpoint run_ops (os : list kmop) : K (list Z) :=
  match os with
  | [] => mret []
  | o :: os => r ← run_op o; rs ← run_ops os; mret (r :: rs)
  end.

(** The pages a sequence may touch. *)
Definition op_page (o : kmop) (l : list Z) (a : Z) : Prop :=
  a ∈ l \/ o = OpFree a.

Lemma run_op_spec o l r l' s :
  kmem_inv s l -> spec_op o l = Some (r, l') ->
  exists s', run_op o s = Ok r s' /\ kmem_inv s' l' /\ vm_frame s s' /\
    (forall a, a ∈ l' -> op_page o l a) /\
    (forall x, (forall a, op_page o l a -> ~ in_page x a) -> load8 (k_mem s') x = load8 (k_mem s) x).
Proof.
  intros Hi Ho. destruct o as [|pa]; cbn [spec_op run_op] in *.
  - destruct (kalloc_cases s l Hi) as [(-> & E & Hi')|(a & k & -> & E & Hi' & Hok & Hnin)];
      simplify_eq; eexists; (split; [done|]); (split; [done|]).
    + split; [exists true, (k_mem s), (k_freelist s); by kstate_eq|]. split; [set_solver|done].
    + split; [apply kalloc_upd_frame|]. split; [intros; left; set_solver|].
      intros x Hx. rewrite kalloc_upd_mem, decide_False; [done|]. intros [_ H].
      apply (Hx r); [left; set_solver|done].
  - case_decide as Hd; [|done]. simplify_eq. destruct Hd as [Hok Hnin].
    destruct (kfree_spec s pa l Hi Hok Hnin) as [E Hi'].
    exists (kfree_upd s pa). rewrite (bind_ok _ _ _ _ _ E). split; [done|]. split; [done|].
    split; [apply kfree_upd_frame|]. split.
    + intros a [->|]%elem_of_cons; [by right|by left].
    + intros x Hx. apply kfree_upd_mem. assert (~ in_page x pa) as Hp by (apply Hx; by right).
      unfold in_page in Hp. lia.
Qed.
End alloc_spec.

(** C7: the page allocator refines the stack.  Every sequence of [kalloc] and
    [kfree] that the specification allows (no page freed twice, only pages of
    the managed range) runs without blocking or panic, gives exactly the
    results of the specification, ends with the free list the specification
    ends with, and writes nothing but pages that were free or are freed. *)
Theorem allocator_refines_stack `{HL : LinkOk} (os : list kmop) (l : list Z) (s : kstate) (rs l' : list Z) :
  kmem_inv s l -> spec_ops os l = Some (rs, l') ->
  exists s', run_ops os s = Ok rs s' /\ kmem_inv s' l' /\ vm_frame s s' /\
    (forall x, (forall a, a ∈ l -> ~ in_page x a) -> (forall a, OpFree a ∈ os -> ~ in_page x a) ->
       load8 (k_mem s') x = load8 (k_mem s) x).
Proof.
  revert l s rs. induction os as [|o os IH]; intros l s rs Hi E; cbn [spec_ops run_ops] in *.
  - simplify_eq. exists s. split; [done|]. split; [done|]. split; [apply vm_frame_refl|done].
  - destruct (spec_op o l) as [[r l1]|] eqn:E1; [|done]. cbn in E.
    destruct (spec_ops os l1) as [[rs1 l2]|] eqn:E2; [|done]. cbn in E. simplify_eq.
    destruct (run_op_spec o l r l1 s Hi E1) as (s1 & R1 & Hi1 & F1 & P1 & M1).
    destruct (IH l1 s1 rs1 Hi1 E2) as (s2 & R2 & Hi2 & F2 & M2).
    exists s2. rewrite (bind_ok _ _ _ _ _ R1), (bind_ok _ _ _ _ _ R2).
    split; [done|]. split; [done|]. split; [eapply vm_frame_trans; [apply Hi|done..]|].
    intros x Hl Ho. rewrite M2, M1; [done|..].
    + intros a [Ha|Ha]; [by apply Hl|]. apply Ho. rewrite Ha. apply elem_of_cons. by left.
    + intros a Ha. destruct (P1 a Ha) as [Ha'|Ha']; [by apply Hl|].
      apply Ho. rewrite Ha'. apply elem_of_cons. by left.
    + intros a Ha. apply Ho. apply elem_of_cons. by right.
Qed.

(** ** A concrete memory: two empty root tables (pages 0 and 8), a data page with
    a string, twelve free pages *)

Definition test_page (i : Z) : Z := 0x80010000 + 4096 * i.
Definition test_free_pages : list Z := [2; 3; 4; 5; 6; 7; 9; 10; 11; 12; 13; 14].
Definition test_mem : memory :=
  foldr (fun i m => store64 m (test_page i) (if i =? 14 then 0 else test_page (if i =? 7 then 9 else i + 1)))
    (store64 ∅ (test_page 1) 0x6f6c6c6568) test_free_pages.
Definition test_vm : kstate := set_k_freelist (test_page 2) (set_k_mem test_mem test_state).
Definition test_free : list Z := test_page <$> test_free_pages.

Section test_vm.
  Existing Instance test_link.
  Existing Instance test_link_ok.

Lemma test_page_ok i : 0 <= i < 16 -> page_ok (test_page i).
Proof.
  intros Hi. unfold page_ok, test_page. cbn [l_end test_link].
  change PHYSTOP with (2 ^ 31 + 2 ^ 27). unfold PGSIZE. split; [|lia].
  replace (0x80010000 + 4096 * i) with ((0x80010 + i) * 4096) by lia. apply Z.mod_mul. lia.
Qed.

Lemma test_mem_wf : mem_wf test_mem.
Proof. unfold test_mem. cbn [foldr]. repeat apply mem_wf_store64. apply mem_wf_empty. Qed.

Lemma test_vm_kmem : kmem_inv test_vm test_free.
Proof.
  split.
  - vm_compute. repeat split.
  - vm_compute. repeat (constructor; [set_solver|]). constructor.
  - unfold test_free. repeat (apply Forall_cons; split; [by apply test_page_ok|]). by apply Forall_nil.
  - apply test_mem_wf.
  - exact (kr_cpu _ test_state_ready).
  - exact (kr_locks _ test_state_ready LKmem I).
Qed.
End test_vm.

Lemma allocator_refines_stack_witness :
  exists s', @run_ops test_link [OpAlloc; OpFree (test_page 0); OpAlloc; OpAlloc] test_vm
    = Ok [test_page 2; 0; test_page 0; test_page 3] s'.
Proof.
  destruct (@allocator_refines_stack test_link test_link_ok [OpAlloc; OpFree (test_page 0); OpAlloc; OpAlloc]
    test_free test_vm [test_page 2; 0; test_page 0; test_page 3] (test_page <$> [4; 5; 6; 7; 9; 10; 11; 12; 13; 14]))
    as (s' & E & _); [exact test_vm_kmem|vm_compute; reflexivity|].
  exists s'. exact E.
Defined.

(** [kfree] refuses every address that is not a page of the managed range:
    misaligned, below [end], or at or above [PHYSTOP].*)
Theorem kfree_rejects `{HL : LinkOk} (pa : Z) (s : kstate) :
  pa mod PGSIZE <> 0 \/ pa < l_end \/ PHYSTOP <= pa -> panics (kfree pa) s "kfree".
Proof. intros H. apply kfree_panics. unfold page_ok. lia. Qed.

Lemma kfree_rejects_witness :
  panics (@kfree test_link 0x80010001) test_vm "kfree" /\ panics (@kfree test_link 0x8000f000) test_vm "kfree".
Proof.
  split; apply (@kfree_rejects test_link test_link_ok).
  - left. vm_compute. discriminate.
  - right. left. vm_compute. reflexivity.
Defined.

(** C20: [freerange(end, PHYSTOP)], the heart of [kinit], terminates and leaves a
    free list that holds every page between the kernel image and [PHYSTOP],
    each once, and nothing else. *)
Theorem freerange_complete `{HL : LinkOk} (s : kstate) :
  kmem_inv s [] ->
  exists s' l, freerange l_end PHYSTOP s = Ok tt s' /\ kmem_inv s' l /\ NoDup l /\
    (forall a, a ∈ l <-> a mod PGSIZE = 0 /\ l_end <= a < PHYSTOP).
Proof.
  intros Hi. destruct (freerange_end s Hi) as ([] & s' & E & _ & l & Hl & Hp).
  exists s', l. split; [done|]. split; [done|]. split; [apply (ki_nodup _ _ Hl)|exact Hp].
Qed.

Lemma freerange_complete_witness :
  exists s' (l : list Z), @freerange test_link (@l_end test_link) PHYSTOP test_state = Ok tt s' /\ 0x80010000 ∈ l /\ 0x87fff000 ∈ l.
Proof.
  destruct (@freerange_complete test_link test_link_ok test_state) as (s' & l & E & _ & _ & Hp).
  - split; [reflexivity|constructor|constructor|apply mem_wf_empty|exact (kr_cpu _ test_state_ready)
    |exact (kr_locks _ test_state_ready LKmem I)].
  - exists s', l. split; [exact E|]. split; apply Hp; vm_compute; split; reflexivity || split; congruence || reflexivity.
Defined.

(** ** Page tables *)

(** The Sv39 encoding.  Building an entry from a page address and flags
    loses nothing, and below [MAXVA] the three 9-bit indices identify the page.*)
Theorem sv39_encoding (pa fl va va' : Z) :
  page_addr pa -> 0 <= fl < 2 ^ 10 -> 0 <= va < MAXVA -> 0 <= va' < MAXVA ->
  PTE2PA (Z.lor (PA2PTE pa) fl) = pa /\ PTE_FLAGS (Z.lor (PA2PTE pa) fl) = fl /\
  (PGROUNDDOWN va = PGROUNDDOWN va' <-> PX 2 va = PX 2 va' /\ PX 1 va = PX 1 va' /\ PX 0 va = PX 0 va').
Proof.
  intros Hpa Hfl Hva Hva'. split; [by apply PTE2PA_PA2PTE|]. split; [by apply PTE_FLAGS_PA2PTE|].
  rewrite !PGROUNDDOWN_eq. split.
  - intros E. assert (va' / PGSIZE = va / PGSIZE) as E' by (unfold PGSIZE in *; lia).
    rewrite !PX_eq by lia. change (12 + 9 * 0) with 12.
    rewrite (Z.pow_add_r 2 12 (9 * 2)), (Z.pow_add_r 2 12 (9 * 1)) by lia. change (2 ^ 12) with PGSIZE.
    rewrite <- !Z.div_div by (unfold PGSIZE; lia). by rewrite E'.
  - intros (E2 & E1 & E0). f_equal. apply PX_inj; [done|done|].
    intros l Hl. assert (l = 0 \/ l = 1 \/ l = 2) as [->| [->| ->]] by lia; done.
Qed.

Lemma sv39_encoding_witness :
  PTE2PA (Z.lor (PA2PTE 0x80011000) (Z.lor PTE_R PTE_V)) = 0x80011000 /\ PGROUNDDOWN 0x5123 = PGROUNDDOWN 0x5fff.
Proof.
  destruct (sv39_encoding 0x80011000 (Z.lor PTE_R PTE_V) 0x5123 0x5fff) as (E & _ & H);
    [split; vm_compute; [reflexivity|split; [discriminate|reflexivity]]|vm_compute; split; [discriminate|reflexivity]..|].
  split; [exact E|]. apply H. vm_compute. repeat split.
Defined.

(** [walk(pagetable, va, 1)] terminates without a panic below [MAXVA]; it
    keeps every existing table and mapping, takes new tables (at most two) from
    the free list only, changes no byte of any other page, and returns the
    address of the entry of [va], or 0 when fewer than two pages were free.*)
Theorem walk_allocates `{HL : LinkOk} (va root : Z) (s : kstate) (l : list Z) :
  0 <= va < MAXVA -> vm_inv s root l ->
  exists r s' l', walk root va true s = Ok r s' /\ vm_inv s' root l' /\ pt_grow root s l s' l' /\
    (forall va', pte_of (k_mem s') root va' = pte_of (k_mem s) root va') /\
    (length l <= length l' + 2)%nat /\ kept (k_mem s') root l l' /\
    (r = 0 /\ l' = [] /\ (length l < 2)%nat \/ 0 < r /\ pt_addr (k_mem s') root va = Some r).
Proof.
  intros Hva Hi. destruct (walk_alloc va root s l Hva Hi) as (r & s' & E & l' & H). by exists r, s', l'.
Qed.

(** The concrete page table is well formed. *)
Section test_vm_inv.
  Existing Instance test_link.
  Existing Instance test_link_ok.

Lemma test_mem_root r i : r = test_page 0 \/ r = test_page 8 -> 0 <= i < 512 -> load64 test_mem (r + 8 * i) = 0.
Proof.
  intros Hr Hi. unfold test_mem, test_free_pages, test_page in *. cbn [foldr]. rewrite !load64_store64_other by lia.
  apply load64_empty.
Qed.

(** Two empty root tables: pages 0 and 8. *)
Lemma test_tbls r id t :
  r = test_page 0 \/ r = test_page 8 -> tid_ok id -> tbl test_mem r id = Some t -> id = T2 /\ t = r.
Proof.
  intros Hr. destruct id as [|i|i j]; cbn [tid_ok tbl]; unfold next; intros Hid; [by intros [= <-]| |];
    rewrite test_mem_root by (done || lia); done.
Qed.
Lemma test_tbl id t : tid_ok id -> tbl test_mem (test_page 0) id = Some t -> id = T2 /\ t = test_page 0.
Proof. apply test_tbls. by left. Qed.
Lemma test_tbl8 id t : tid_ok id -> tbl test_mem (test_page 8) id = Some t -> id = T2 /\ t = test_page 8.
Proof. apply test_tbls. by right. Qed.

Lemma test_vm_invs r : r = test_page 0 \/ r = test_page 8 -> vm_inv test_vm r test_free.
Proof.
  intros Hr. split; [exact test_vm_kmem|split|]; change (k_mem test_vm) with test_mem.
  - intros id t Hid E. apply test_tbls in E as [_ ->]; [|done..].
    destruct Hr as [-> | ->]; apply test_page_ok; lia.
  - intros id id' t Hid Hid' E E'. apply test_tbls in E as [-> _]; [|done..]. by apply test_tbls in E' as [-> _].
  - intros id t Hid E. apply test_tbls in E as [_ ->]; [|done..].
    destruct Hr as [-> | ->]; apply (bool_decide_unpack _); vm_compute; exact I.
Qed.
Definition test_vm_inv : vm_inv test_vm (test_page 0) test_free := test_vm_invs _ (or_introl eq_refl).
Definition test_vm_inv8 : vm_inv test_vm (test_page 8) test_free := test_vm_invs _ (or_intror eq_refl).

Lemma test_unmappeds r va : r = test_page 0 \/ r = test_page 8 -> pte_of test_mem r va = 0.
Proof.
  intros Hr. unfold pte_of, pt_addr. destruct (tbl _ _ (leaf_id va)) as [t|] eqn:E; [|done].
  by apply test_tbls in E as [? _]; [| |apply leaf_id_ok].
Qed.
Lemma test_unmapped va : pte_of (k_mem test_vm) (test_page 0) va = 0.
Proof. apply test_unmappeds. by left. Qed.
Lemma test_unmapped8 va : pte_of test_mem (test_page 8) va = 0.
Proof. apply test_unmappeds. by right. Qed.
End test_vm_inv.

Lemma walk_allocates_witness :
  exists r s' l', @walk (test_page 0) 0x1000 true test_vm = Ok r s' /\ @vm_inv test_link s' (test_page 0) l' /\
    pt_addr (k_mem s') (test_page 0) 0x1000 = Some r.
Proof.
  destruct (@walk_allocates test_link test_link_ok 0x1000 (test_page 0) test_vm test_free)
    as (r & s' & l' & E & Hi & _ & _ & _ & _ & Hr); [vm_compute; split; [discriminate|reflexivity]|exact test_vm_inv|].
  exists r, s', l'. split; [exact E|]. split; [exact Hi|].
  destruct Hr as [(_ & _ & H)|[_ H]]; [vm_compute in H; lia|exact H].
Defined.

(** C11: [mappages] on pages that are not mapped.  It terminates without a panic;
    either it returns 0 and every page of [va, va + size) maps to the
    corresponding page from [pa] on with the given permissions, every other
    address being translated as before, or it returns -1, having mapped a proper
    prefix of the range, and that only when there were not two free pages for
    each page of the range. *)
Theorem mappages_maps `{HL : LinkOk} (va size pa perm root : Z) (s : kstate) (l : list Z) :
  vm_inv s root l -> 0 <= va -> 0 < size -> va + size <= MAXVA ->
  page_addr pa -> pa + size + PGSIZE < 2 ^ 56 -> 0 <= perm < 2 ^ 10 ->
  (forall va', PGROUNDDOWN va <= va' < PGROUNDDOWN (va + size - 1) + PGSIZE ->
     flag (pte_of (k_mem s) root va') PTE_V = false) ->
  exists r s' l' k, mappages root va size pa perm s = Ok r s' /\ vm_inv s' root l' /\ pt_grow root s l s' l' /\
    (forall va', 0 <= va' < MAXVA -> pte_of (k_mem s') root va' =
       if decide (PGROUNDDOWN va <= va' < PGROUNDDOWN va + Z.of_nat k * PGSIZE)
       then pte_entry (pa + (PGROUNDDOWN va' - PGROUNDDOWN va)) perm else pte_of (k_mem s) root va') /\
    (r = 0 /\ PGROUNDDOWN va + Z.of_nat k * PGSIZE = PGROUNDDOWN (va + size - 1) + PGSIZE \/
     r = -1 /\ (k <= npages va size)%nat /\ l' = [] /\ (length l < 2 * S (npages va size))%nat).
Proof.
  intros Hi Hva Hsz Hmax Hpa Hpa2 Hp Hu.
  destruct (mappages_spec va size pa perm root s l Hi Hva Hsz Hmax Hpa Hpa2 Hp Hu)
    as (r & s' & E & k & l' & Hi' & Hg & Hm & _ & _ & Hr).
  exists r, s', l', k. do 4 (split; [done|]). pose proof (npages_spec va size Hva Hsz).
  destruct Hr as [[-> ->]|(-> & ? & -> & ?)]; [left|right]; repeat split; lia || done.
Qed.

(** The data page mapped for the user at 0x1000. *)
Definition test_perm : Z := Z.lor PTE_W (Z.lor PTE_X (Z.lor PTE_R PTE_U)).
Definition test_pte : Z := pte_entry (test_page 1) test_perm.
Lemma mappages_maps_witness :
  exists s' l', @mappages (test_page 0) 0x1000 PGSIZE (test_page 1) test_perm test_vm = Ok 0 s' /\
    @vm_inv test_link s' (test_page 0) l' /\ pte_of (k_mem s') (test_page 0) 0x1234 = test_pte.
Proof.
  destruct (@mappages_maps test_link test_link_ok 0x1000 PGSIZE (test_page 1) test_perm (test_page 0) test_vm test_free)
    as (r & s' & l' & k & E & Hi & _ & Hp & Hr).
  - exact test_vm_inv.
  - lia.
  - reflexivity.
  - vm_compute. discriminate.
  - split; vm_compute; [reflexivity|split; [discriminate|reflexivity]].
  - reflexivity.
  - vm_compute. split; [discriminate|reflexivity].
  - intros va' _. rewrite test_unmapped. reflexivity.
  - destruct Hr as [[-> Hk]|(_ & _ & _ & H)]; [|vm_compute in H; lia].
    exists s', l'. split; [exact E|]. split; [exact Hi|]. rewrite Hp by (change MAXVA with (2 ^ 38); lia).
    change (PGROUNDDOWN 0x1000) with 0x1000 in *. rewrite Hk. reflexivity.
Defined.

(** [mappages] never replaces a mapping: when the first page is already
    valid it panics, whatever the size.*)
Theorem mappages_refuses_remap `{HL : LinkOk} (va size pa perm root : Z) (s : kstate) (l : list Z) :
  vm_inv s root l -> 0 <= va < MAXVA -> size <> 0 ->
  flag (pte_of (k_mem s) root (PGROUNDDOWN va)) PTE_V = true ->
  panics (mappages root va size pa perm) s "mappages: remap".
Proof. apply mappages_remap. Qed.

(** A user page at 0x1000 of a well formed address space, for the witnesses. *)
Section test_user.
  Existing Instance test_link.
  Existing Instance test_link_ok.

Lemma test_user :
  exists s l, vm_inv s (test_page 0) l /\ user_range s (test_page 0) l 0x1000 0x2000 /\
    (forall va, 0x1000 <= va < 0x2000 -> pte_of (k_mem s) (test_page 0) va = test_pte) /\
    forall x, in_page x (test_page 1) -> load8 (k_mem s) x = load8 test_mem x.
Proof.
  assert (page_addr (test_page 1)) as Hpa by (split; vm_compute; intuition congruence).
  destruct (mappages_spec 0x1000 PGSIZE (test_page 1) test_perm (test_page 0) test_vm test_free)
    as (r & s & E & k & l & Hi & Hg & Hm & _ & _ & Hr);
    [exact test_vm_inv|lia|reflexivity|vm_compute; discriminate|exact Hpa|reflexivity
    |vm_compute; split; [discriminate|reflexivity]|intros va' _; by rewrite test_unmapped|].
  destruct Hr as [[-> ->]|(_ & _ & _ & H)]; [|vm_compute in H; lia].
  change (S (npages 0x1000 PGSIZE)) with 1%nat in Hm. change (PGROUNDDOWN 0x1000) with 0x1000 in Hm.
  assert (forall va, 0x1000 <= va < 0x2000 -> pte_of (k_mem s) (test_page 0) va = test_pte) as Hp.
  { intros va Hva. rewrite Hm by (change MAXVA with (2 ^ 38); lia).
    rewrite decide_True by (unfold PGSIZE; lia). unfold test_pte. f_equal.
    assert (PGROUNDDOWN va = 0x1000) as ->; [|done].
    rewrite PGROUNDDOWN_eq. unfold PGSIZE.
    pose proof (Z.div_mod va 4096). pose proof (Z.mod_pos_bound va 4096). lia. }
  assert (test_page 1 ∉ test_free) as Hnf by (apply (bool_decide_unpack _); vm_compute; exact I).
  exists s, l. split; [exact Hi|]. split; [split|split; [exact Hp|]].
  - split; vm_compute; discriminate.
  - intros va Hva. rewrite Hp by exact Hva. vm_compute. intuition congruence.
  - intros va Hva. rewrite Hp by exact Hva. change (PTE2PA test_pte) with (test_page 1).
    split; [apply test_page_ok; clear; lia|]. split.
    + intros H. exact (Hnf (pe_free _ _ _ _ _ Hg _ H)).
    + intros id Hid Et. destruct (pe_tbl _ _ _ _ _ Hg id _ Hid Et) as [H|H]; [|exact (Hnf H)].
      apply test_tbl in H as [_ H]; [|exact Hid]. vm_compute in H. discriminate.
  - intros va va' Hva Hva' _. pose proof (Z.div_mod va 4096). pose proof (Z.div_mod va' 4096).
    pose proof (Z.mod_pos_bound va 4096). pose proof (Z.mod_pos_bound va' 4096). unfold PGSIZE. lia.
  - intros x Hx. apply (pe_data _ _ _ _ _ Hg).
    + intros t Ht Hxt. apply Hnf. replace (test_page 1) with t; [exact Ht|].
      apply (page_sep _ _ x); [|apply test_page_ok; clear; lia|exact Hxt|exact Hx].
      pose proof (ki_pages _ _ test_vm_kmem) as Hall. rewrite Forall_forall in Hall. apply Hall; exact Ht.
    + intros id t Hid Et Hxt. apply test_tbl in Et as [_ Et]; [|exact Hid]. subst t.
      unfold in_page, test_page, PGSIZE in *. lia.
Qed.
End test_user.

Lemma mappages_refuses_remap_witness :
  exists s, panics (@mappages (test_page 0) 0x1000 PGSIZE (test_page 1) PTE_R) s "mappages: remap".
Proof.
  destruct test_user as (s & l & Hi & _ & Hp & _). exists s.
  apply (@mappages_refuses_remap test_link test_link_ok 0x1000 PGSIZE (test_page 1) PTE_R (test_page 0) s l Hi).
  - vm_compute. split; [discriminate|reflexivity].
  - discriminate.
  - change (PGROUNDDOWN 0x1000) with 0x1000. rewrite Hp by lia. reflexivity.
Defined.

(** ** Translation and copies *)

(** [walkaddr] below [MAXVA], on every branch: it returns the physical page
    of a valid user page and panics, saying why, on a missing table, an invalid
    entry, an entry without [PTE_U] and an entry for page 0; it never writes.*)
Theorem walkaddr_outcomes `{HL : LinkOk} (s : kstate) (root : Z) (l : list Z) (va : Z) :
  vm_inv s root l -> 0 <= va < MAXVA ->
  walkaddr root va s =
    let v := pte_of (k_mem s) root va in
    match pt_addr (k_mem s) root va with
    | None => Panic "walkaddr:pte:0" s
    | Some _ =>
        if negb (flag v PTE_V) then Panic "walkaddr:PTE_V" s
        else if negb (flag v PTE_U) then Panic "walkaddr:PTE_U" s
        else if PTE2PA v =? 0 then Panic "walkaddr: pa is zero" s
        else Ok (PTE2PA v) s
    end.
Proof. apply walkaddr_eq. Qed.

Lemma walkaddr_outcomes_witness :
  walkaddr (test_page 0) 0x5000 test_vm = Panic "walkaddr:pte:0" test_vm.
Proof.
  rewrite (@walkaddr_outcomes test_link test_link_ok test_vm (test_page 0) test_free 0x5000 test_vm_inv);
    [|vm_compute; split; [discriminate|reflexivity]].
  cbv zeta. unfold pt_addr.
  destruct (tbl (k_mem test_vm) (test_page 0) (leaf_id 0x5000)) as [t|] eqn:E; [|reflexivity].
  apply test_tbl in E as [E _]; [discriminate|apply leaf_id_ok].
Defined.

(** C12: [copyoutpg] on a mapped user range of any number of pages returns 0
    and writes exactly the bytes of the source at the physical addresses the
    page table gives for the range; every other byte of memory, the page table
    and the free list are unchanged. *)
Theorem copyout_writes `{HL : LinkOk} (s : kstate) (root : Z) (l : list Z) (dstva : Z) (src : list Z) :
  vm_inv s root l -> user_range s root l dstva (dstva + Z.of_nat (length src)) ->
  exists m', copyoutpg root dstva src (Z.of_nat (length src)) s = Ok 0 (set_k_mem m' s) /\
    (forall i b, src !! i = Some b -> load8 m' (phys (k_mem s) root (dstva + Z.of_nat i)) = u8 b) /\
    (forall x, (forall i, (i < length src)%nat -> x <> phys (k_mem s) root (dstva + Z.of_nat i)) ->
       load8 m' x = load8 (k_mem s) x) /\
    vm_inv (set_k_mem m' s) root l /\ (forall va, pte_of m' root va = pte_of (k_mem s) root va).
Proof.
  intros Hi Hr. unfold copyoutpg.
  destruct (copyoutpg_loop_spec (S (Z.to_nat (Z.of_nat (length src)))) s root l dstva src)
    as (m' & E & [Hw1 Hw2] & Hi' & Hp); [lia|done|done|].
  by exists m'.
Qed.

Lemma copyout_writes_witness :
  exists s root m', copyoutpg root 0x1ffe [1; 2] 2 s = Ok 0 (set_k_mem m' s) /\
    load8 m' (phys (k_mem s) root 0x1fff) = 2.
Proof.
  destruct test_user as (s & l & Hi & Hr & _ & _).
  destruct (@copyout_writes test_link test_link_ok s (test_page 0) l 0x1ffe [1; 2] Hi) as (m' & E & Hb & _).
  - eapply user_range_sub; [| |exact Hr]; cbn [length]; lia.
  - exists s, (test_page 0), m'. split; [exact E|]. exact (Hb 1%nat 2 eq_refl).
Defined.

(** C30: reading user memory.  Within one page [copyin] returns 0 and the
    bytes at the physical addresses the page table gives; [copyinstr] returns 0
    and the bytes up to and including the terminator of a mapped user string of
    any number of pages that is shorter than [max].  Neither writes. *)
Theorem user_reads `{HL : LinkOk, Ot : Others} (s : kstate) (root : Z) (l : list Z) (va : Z) :
  vm_inv s root l -> 0 <= va < MAXVA ->
  (forall len, 0 < len -> va - PGROUNDDOWN va + len <= PGSIZE -> user_pte (pte_of (k_mem s) root va) ->
     copyin root va len s = Ok (0, user_bytes (k_mem s) root va (Z.to_nat len)) s) /\
  (forall max bs, va + Z.of_nat (length bs) < MAXVA -> Z.of_nat (length bs) < max ->
     (forall a, va <= a <= va + Z.of_nat (length bs) -> user_pte (pte_of (k_mem s) root a)) ->
     user_bytes (k_mem s) root va (length bs) = bs -> Forall (fun b => b <> 0) bs ->
     load8 (k_mem s) (phys (k_mem s) root (va + Z.of_nat (length bs))) = 0 ->
     copyinstr root va max s = Ok (0, bs ++ [0]) s).
Proof.
  intros Hi Hva. split.
  - intros len Hlen Hpg Hu. by apply (copyin_in_page s root l).
  - intros max bs Hm Hmax Hu Hb Hnz Hz. unfold copyinstr.
    rewrite (copyinstr_loop_spec _ s root l va max [] bs); try done; lia.
Qed.

Lemma user_reads_witness :
  exists s root, @copyinstr test_link root 0x1000 16 s = Ok (0, [0x68; 0x65; 0x6c; 0x6c; 0x6f; 0]) s /\
    copyin root 0x1000 2 s = Ok (0, [0x68; 0x65]) s.
Proof.
  destruct test_user as (s & l & Hi & Hr & Hp & Hd). exists s, (test_page 0).
  assert (forall a, 0x1000 <= a < 0x2000 -> phys (k_mem s) (test_page 0) a = test_page 1 + a mod PGSIZE) as Hph.
  { intros a Ha. unfold phys. rewrite Hp by exact Ha. reflexivity. }
  assert (forall i, (i < 6)%nat ->
    load8 (k_mem s) (phys (k_mem s) (test_page 0) (0x1000 + Z.of_nat i)) = load8 test_mem (test_page 1 + Z.of_nat i)) as Hl.
  { intros i Hlt. rewrite Hph by lia. replace ((0x1000 + Z.of_nat i) mod PGSIZE) with (Z.of_nat i).
    - apply Hd. unfold in_page, PGSIZE. lia.
    - apply (Z.mod_unique _ _ 1); unfold PGSIZE; lia. }
  assert (forall n, (n <= 6)%nat ->
    user_bytes (k_mem s) (test_page 0) 0x1000 n = (fun i => load8 test_mem (test_page 1 + Z.of_nat i)) <$> seq 0 n) as Hu.
  { intros n Hn. apply list_fmap_ext. intros i x [-> Hi']%lookup_seq. apply Hl. lia. }
  assert (user_bytes (k_mem s) (test_page 0) 0x1000 5 = [0x68; 0x65; 0x6c; 0x6c; 0x6f]) as Hb.
  { rewrite (Hu 5%nat) by lia. vm_compute. reflexivity. }
  destruct (@user_reads test_link test_link_ok alone s (test_page 0) l 0x1000 Hi) as [E1 E2].
  { vm_compute. split; [discriminate|reflexivity]. }
  assert (forall a, 0x1000 <= a < 0x2000 -> user_pte (pte_of (k_mem s) (test_page 0) a)) as Hpte.
  { intros a Ha. rewrite Hp by exact Ha. vm_compute. repeat split; discriminate. }
  specialize (E1 2). specialize (E2 16 [0x68; 0x65; 0x6c; 0x6c; 0x6f]). split.
  - apply E2.
    + vm_compute. reflexivity.
    + reflexivity.
    + intros a Ha. cbn [length] in Ha. apply Hpte. clear - Ha. lia.
    + exact Hb.
    + repeat constructor; discriminate.
    + cbn [length]. rewrite (Hl 5%nat) by (clear; lia). vm_compute. reflexivity.
  - rewrite E1.
    + change (Z.to_nat 2) with 2%nat. rewrite (Hu 2%nat) by (clear; lia). vm_compute. reflexivity.
    + reflexivity.
    + vm_compute. discriminate.
    + apply Hpte. clear. lia.
Defined.

(** [copyin] does not stop at the page end.  From the second page on, the
    count [PGSIZE - (srcva + va0)] wraps, so for every length the bytes are read
    from the physical addresses that follow the first page's, whatever the next
    virtual page maps to. *)
Theorem copyin_overruns_page `{HL : LinkOk} (s : kstate) (root : Z) (l : list Z) (srcva len : Z) :
  vm_inv s root l -> PGSIZE <= srcva < MAXVA -> 0 < len < 2 ^ 32 ->
  user_pte (pte_of (k_mem s) root srcva) ->
  copyin root srcva len s = Ok (0, load_bytes (k_mem s) (phys (k_mem s) root srcva) (Z.to_nat len)) s.
Proof. apply copyin_high. Qed.

(** Reading two pages of which only the first is mapped succeeds. *)
Lemma copyin_overruns_page_witness :
  exists s root bs, copyin root 0x1000 0x2000 s = Ok (0, bs) s.
Proof.
  destruct test_user as (s & l & Hi & _ & Hp & _). exists s, (test_page 0). eexists.
  apply (@copyin_overruns_page test_link test_link_ok s (test_page 0) l 0x1000 0x2000 Hi).
  - vm_compute. split; [discriminate|reflexivity].
  - lia.
  - rewrite Hp by lia. vm_compute. repeat split; discriminate.
Defined.
