(* ===== verification/GrowSpec.v ===== *)
(** * What growing and shrinking an address space guarantee

    [uvmalloc] maps the whole range or nothing; [uvmdealloc] undoes it. *)

From S2P Require Import Prelude Layout Memory State Spinlock Sched Kmem PageTable Uvm UvmProps UvmGrow UvmShrink UvmAlloc MemSpec.

Section grow_spec.
  Context `{HL : LinkOk}.
  Implicit Types (s : kstate) (l : list Z).

(** C17: [uvmalloc] grows an address space by all the pages asked for or by none.
    A size below the old one is answered with the old size at once.  Otherwise,
    when the pages of the new range are not mapped, the call returns without a
    panic.  Either it returns the new size: every new page is mapped for the
    user, to its own page that was free before, and reads as zeros, and no other
    translation changes.  Or it returns 0, only with fewer than three free pages
    per page: then every address translates as before, and every page that was
    free before the call is free again or has become a page table: none is lost. *)
Theorem uvmalloc_outcomes s l root oldsz newsz :
  let a := PGROUNDUP oldsz in
  vm_inv s root l -> 0 <= oldsz -> newsz <= MAXVA ->
  (forall va, a <= va < PGROUNDUP newsz -> flag (pte_of (k_mem s) root va) PTE_V = false) ->
  (newsz < oldsz -> uvmalloc root oldsz newsz s = Ok oldsz s) /\
  (oldsz <= newsz -> exists r s' l', uvmalloc root oldsz newsz s = Ok r s' /\
    (r = newsz /\ grown_to s l s' l' root a (Z.max a (PGROUNDUP newsz)) \/
     r = 0 /\ given_back s l s' l' root /\ (length l < 3 * grow_pages oldsz newsz)%nat)).
Proof.
  intros a Hi Ho Hmax Hu. split; intros Hsz.
  - unfold uvmalloc. by destruct (Z.ltb_spec newsz oldsz); [|lia].
  - destruct (uvmalloc_cases s l root oldsz newsz Hi ltac:(lia) Hmax Hu) as (r & s' & l' & E & Hr).
    exists r, s', l'. split; [done|]. naive_solver.
Qed.

(** C19: growing and shrinking back is the identity on the address space.  After
    an [uvmalloc] with enough free pages, [uvmdealloc] to the old size returns
    it; every address then translates as it did before both calls, every page
    that was free before them is free again or has become a page table (of
    which there are at most two per page), and no byte outside the free pages and
    the tables has changed. *)
Theorem uvmalloc_uvmdealloc s l root oldsz newsz :
  vm_inv s root l -> 0 <= oldsz < newsz -> newsz <= MAXVA -> (3 * grow_pages oldsz newsz <= length l)%nat ->
  (forall va, PGROUNDUP oldsz <= va < PGROUNDUP newsz -> flag (pte_of (k_mem s) root va) PTE_V = false) ->
  exists s1 s2 l2, uvmalloc root oldsz newsz s = Ok newsz s1 /\ uvmdealloc root newsz oldsz s1 = Ok oldsz s2 /\
    given_back s l s2 l2 root /\ (length l <= length l2 + 2 * grow_pages oldsz newsz)%nat.
Proof.
  intros Hi Hsz Hmax Hlen Hu.
  destruct (uvmalloc_spec s l root oldsz newsz Hi ltac:(lia) Hmax Hlen Hu) as (s1 & l1 & E1 & [Hi1 Hg Hp Hr Hpg _ Hk] & Hl1).
  destruct (uvmdealloc_spec s1 l1 root newsz oldsz Hi1 Hsz Hmax) as (s2 & l2 & E2 & Hs & Hl2).
  { apply user_mapped. eapply user_range_sub; [| |exact Hr]; lia. }
  pose proof (ur_bounds _ _ _ _ _ Hr). exists s1, s2, l2. split; [done|]. split; [done|]. split; [|lia].
  eapply (shrink_back s l s1 l1 s2 l2 root); [done|done|done| | | |exact Hs].
  - intros va Hva Hout. apply Hp; [done|]. intros Hin.
    destruct (decide (PGROUNDUP newsz <= PGROUNDUP oldsz)); [|lia]. rewrite Z.max_l in Hin by done. lia.
  - intros va Hva. split; [apply Hpg; lia|by apply Hu].
  - intros t Ht. destruct (Hk t Ht) as [?|[?|(va & Hva & <-)]]; [by left|right; by left|]. right. right. exists va.
    split; [|done]. destruct (decide (PGROUNDUP newsz <= PGROUNDUP oldsz)); [|lia]. rewrite Z.max_l in Hva by done. lia.
Qed.
End grow_spec.

(** The first page of an empty address space. *)
Lemma uvmalloc_outcomes_witness :
  exists s' l', @uvmalloc test_link (test_page 0) 0 100 test_vm = Ok 100 s' /\
    load8 (k_mem s') (phys (k_mem s') (test_page 0) 50) = 0 /\ @vm_inv test_link s' (test_page 0) l'.
Proof.
  destruct (@uvmalloc_outcomes test_link test_link_ok test_vm test_free (test_page 0) 0 100) as [_ Hup].
  - exact test_vm_inv.
  - clear. lia.
  - vm_compute. discriminate.
  - intros va _. rewrite test_unmapped. reflexivity.
  - destruct Hup as (r & s' & l' & E & Hr); [clear; lia|]. exists s', l'. destruct Hr as [[-> H]|(_ & _ & H)].
    + split; [exact E|]. split; [|exact (gt_inv _ _ _ _ _ _ _ H)].
      apply (gt_zero _ _ _ _ _ _ _ H). vm_compute. split; [discriminate|reflexivity].
    + exfalso. apply Nat.ltb_lt in H. revert H. vm_compute. discriminate.
Defined.

(** And back. *)
Lemma uvmalloc_uvmdealloc_witness :
  exists s1 s2, @uvmalloc test_link (test_page 0) 0 100 test_vm = Ok 100 s1 /\
    @uvmdealloc test_link (test_page 0) 100 0 s1 = Ok 0 s2 /\ leaf (k_mem s2) (test_page 0) 50 = None.
Proof.
  destruct (@uvmalloc_uvmdealloc test_link test_link_ok test_vm test_free (test_page 0) 0 100) as (s1 & s2 & l2 & E1 & E2 & Hb & _).
  - exact test_vm_inv.
  - clear. lia.
  - vm_compute. discriminate.
  - apply Nat.leb_le. vm_compute. reflexivity.
  - intros va _. rewrite test_unmapped. reflexivity.
  - exists s1, s2. split; [exact E1|]. split; [exact E2|]. rewrite (gb_leaf _ _ _ _ _ Hb) by (vm_compute; split; [discriminate|reflexivity]).
    unfold leaf. change (k_mem test_vm) with test_mem. rewrite test_unmapped. reflexivity.
Defined.
