(* ===== verification/CopySpec.v ===== *)
(** * What [uvmcopy] guarantees: the child's address space is a copy of the
    parent's, on pages of its own. *)

From S2P Require Import Prelude Layout Memory State Spinlock Sched Kmem PageTable Uvm UvmProps UvmGrow UvmShrink UvmAlloc UvmCopy MemSpec.

Section copy_spec.
  Context `{HL : LinkOk}.
  Implicit Types (s : kstate) (l : list Z).

(** The addresses [uvmcopy] goes through: pages of the old space, backed by
    pages that are neither free nor tables, not yet mapped in the new one. *)
Definition copyable s l (old new sz : Z) : Prop := forall va, 0 <= va < PGROUNDUP sz ->
  leaf_pte (pte_of (k_mem s) old va) /\ both_data s old new l (PTE2PA (pte_of (k_mem s) old va)) /\
  flag (pte_of (k_mem s) new va) PTE_V = false.

(** The old space is untouched while the new one grows. *)
Lemma old_kept s l s' l' old new sz :
  two_spaces s old new l -> copyable s l old new sz -> vm_inv s' new l' -> pt_grow new s l s' l' ->
  two_spaces s' old new l' /\ (forall va, pte_of (k_mem s') old va = pte_of (k_mem s) old va) /\
  (forall va, 0 <= va < PGROUNDUP sz -> load8 (k_mem s') (phys (k_mem s') old va) = load8 (k_mem s) (phys (k_mem s) old va)).
Proof.
  intros Hts Hsrc Hi Hg. destruct (other_grow _ _ _ _ _ _ Hts Hi Hg) as (Hts' & Ho & _).
  split; [done|]. split; [done|]. intros va Hva. unfold phys. rewrite Ho. destruct (Hsrc va Hva) as (_ & Hd & _).
  apply (both_data_grow _ _ _ _ _ _ _ Hts Hi Hg Hd). apply phys_in_page.
Qed.

Lemma uvmcopy_cases s l old new sz :
  two_spaces s old new l -> 0 <= sz <= MAXVA -> copyable s l old new sz ->
  exists r s' l', uvmcopy old new sz s = Ok r s' /\
    (r = 0 /\ copied_to s l s' l' old new 0 (PGROUNDUP sz) /\ (length l <= length l' + 3 * grow_pages 0 sz)%nat \/
     r = -1 /\ given_back s l s' l' new /\ (length l < 3 * grow_pages 0 sz)%nat).
Proof.
  intros Hts Hsz Hsrc.
  destruct (grow_pages_spec 0 sz ltac:(lia) ltac:(lia)) as (_ & _ & E & Hn & Hm).
  change (PGROUNDUP 0) with 0 in *. rewrite Z.add_0_l in *.
  assert (0 <= PGROUNDUP sz) as Hpos.
  { destruct (PGROUNDUP_spec sz) as [_ H]; unfold PGSIZE in *; change MAXVA with (2 ^ 38) in *; lia. }
  rewrite Z.max_r in E, Hm by done.
  destruct (uvmcopy_loop_cases (grow_pages 0 sz) (S (Z.to_nat ((sz + PGSIZE - 1) / PGSIZE))) s l old new 0 sz)
    as (r & s' & l' & Ec & Hr); rewrite ?Z.add_0_l, ?E in *; try done.
  { unfold grow_pages. change (PGROUNDUP 0) with 0. rewrite Z.sub_0_r. lia. }
  { intros va Hva. destruct (Hsrc va Hva) as ([Hv _] & Hd & Hu). done. }
  unfold uvmcopy. rewrite (bind_ok _ _ _ _ _ Ec). destruct Hr as [(-> & Hc & Hl)|(k & -> & Hk & Hl & Hst)].
  - exists 0, s', l'. split; [done|]. by left.
  - assert (PGSIZE = 4096) as HP by done. rewrite Z.add_0_l in *. rewrite Z.div_mul by done.
    assert (Z.of_nat k * PGSIZE <= PGROUNDUP sz) as Hkle by lia.
    destruct (copy_back s l s' l' old new k Hts) as (s2 & l2 & E2 & Hb); [|lia|done|].
    + intros va Hva. destruct (Hsrc va ltac:(lia)) as (Hv & _ & Hu). done.
    + rewrite (bind_ok _ _ _ _ _ E2). exists (-1), s2, l2. split; [done|]. by right.
Qed.
End copy_spec.

(** C18: [uvmcopy] copies an address space or leaves none of it behind.  When
    every page below [sz] is a leaf of the old table, backed by a page that is
    neither free nor a table, and not yet mapped in the new one, the call
    returns without a panic, and nothing the parent maps or holds has changed.
    Either it returns 0: every address below [PGROUNDUP sz] then reads the same
    byte through either table, with the parent's flags, and the child's pages
    were free before and are pairwise different.  Or it returns -1, only with
    fewer than three free pages per page: then every address of the child's
    space translates as before, and every page that was free before the call is
    free again or has become a table of the child: none is lost. *)
Theorem uvmcopy_outcomes `{HL : LinkOk} (s : kstate) (l : list Z) (old new sz : Z) :
  two_spaces s old new l -> 0 <= sz <= MAXVA -> copyable s l old new sz ->
  exists r s' l', uvmcopy old new sz s = Ok r s' /\
    (r = 0 /\ copied_to s l s' l' old new 0 (PGROUNDUP sz) \/
     r = -1 /\ given_back s l s' l' new /\ (length l < 3 * grow_pages 0 sz)%nat) /\
    (forall va, pte_of (k_mem s') old va = pte_of (k_mem s) old va) /\
    (forall va, 0 <= va < PGROUNDUP sz ->
       load8 (k_mem s') (phys (k_mem s') old va) = load8 (k_mem s) (phys (k_mem s) old va)).
Proof.
  intros Hts Hsz Hsrc. destruct (uvmcopy_cases s l old new sz Hts Hsz Hsrc) as (r & s' & l' & E & Hr).
  exists r, s', l'. split; [done|]. split; [naive_solver|].
  assert (vm_inv s' new l' /\ pt_grow new s l s' l') as [Hi Hg].
  { destruct Hr as [(_ & Hc & _)|(_ & Hb & _)]; [split; [apply Hc|apply Hc]|split; apply Hb]. }
  by destruct (old_kept s l s' l' old new sz Hts Hsrc Hi Hg) as (_ & Ho & Hx).
Qed.

(** A process of one page, and an empty table beside it. *)
Section test_fork.
  Existing Instance test_link.
  Existing Instance test_link_ok.

Lemma test_two : two_spaces test_vm (test_page 0) (test_page 8) test_free.
Proof.
  split; [exact test_vm_inv|exact test_vm_inv8|]. intros id id' t Hid Hid' E E'.
  apply test_tbl in E as [_ E]; [|done]. apply test_tbl8 in E' as [_ E']; [|done]. subst t. discriminate.
Qed.

Lemma test_parent : exists s l,
  uvmalloc (test_page 0) 0 100 test_vm = Ok 100 s /\ two_spaces s (test_page 0) (test_page 8) l /\
  (9 <= length l)%nat /\ copyable s l (test_page 0) (test_page 8) 100.
Proof.
  destruct (uvmalloc_spec test_vm test_free (test_page 0) 0 100) as (s & l & E & [Hi Hg Hrest Hr Hpg _] & Hlen).
  - exact test_vm_inv.
  - lia.
  - vm_compute. discriminate.
  - apply Nat.leb_le. vm_compute. reflexivity.
  - intros va _. rewrite test_unmapped. reflexivity.
  - exists s, l. split; [exact E|].
    destruct (other_grow test_vm (test_page 8) (test_page 0) test_free s l (two_spaces_sym _ _ _ _ test_two) Hi Hg)
      as (Hts & Hp & Ht).
    split; [exact (two_spaces_sym _ _ _ _ Hts)|]. split; [change (length test_free) with 12%nat in Hlen; change (3 * grow_pages 0 100)%nat with 3%nat in Hlen; lia|].
    intros va Hva. split; [exact (user_leaf _ (ur_pte _ _ _ _ _ Hr va Hva))|].
    pose proof (ur_data _ _ _ _ _ Hr va Hva) as Hd. split.
    + split; [exact Hd|]. split; [apply Hd|]. split; [apply Hd|]. intros id Hid. rewrite Ht by exact Hid.
      intros Et. apply (vi_disj _ _ _ test_vm_inv8 id _ Hid Et). exact (Hpg va Hva).
    + rewrite Hp. change (k_mem test_vm) with test_mem. rewrite test_unmapped8. reflexivity.
Qed.
End test_fork.

Lemma uvmcopy_outcomes_witness :
  exists s s' : kstate, @uvmcopy test_link (test_page 0) (test_page 8) 100 s = Ok 0 s' /\
    load8 (k_mem s') (phys (k_mem s') (test_page 8) 50) = load8 (k_mem s) (phys (k_mem s) (test_page 0) 50).
Proof.
  destruct test_parent as (s & l & _ & Hts & Hl & Hs).
  destruct (@uvmcopy_outcomes test_link test_link_ok s l (test_page 0) (test_page 8) 100 Hts) as (r & s' & l' & E & Hr & _).
  - vm_compute. split; discriminate.
  - exact Hs.
  - exists s, s'. destruct Hr as [[-> Hc]|(_ & _ & H)].
    + split; [exact E|]. apply (ct_bytes _ _ _ _ _ _ _ _ Hc). vm_compute. split; [discriminate|reflexivity].
    + change (3 * grow_pages 0 100)%nat with 3%nat in H. exfalso. lia.
Defined.
