(* ===== verification/StringSpec.v ===== *)
(** * What the byte and string functions guarantee

    [memmove] on overlapping ranges, the comparison and copy functions of the
    directory layer, and decimal output against the parser of [ulib.c]. *)

From S2P Require Import Prelude Layout Memory CString State Spinlock Sched Uart Print.

Lemma load8_ulib_memmove m d s n x :
  mem_wf m -> 0 <= n < 2 ^ 31 ->
  load8 (ulib_memmove m d s n) x = if decide (d <= x < d + n) then load8 m (x - d + s) else load8 m x.
Proof.
  intros Hm Hn. unfold ulib_memmove. rewrite i32_id by lia. cbv zeta. destruct (Z.ltb_spec d s);
    [rewrite load8_copy_up by (done || lia)|rewrite load8_copy_down by (done || lia)];
    repeat case_decide; try lia; try done; f_equal; lia.
Qed.

(** C32: the kernel's [memmove] (which copies downwards only when the source
    starts below and reaches into the destination) moves the [n] bytes the
    source held before the call, for every [uint] [n] and every overlap, and writes nothing else;
    below 2 GiB it is equivalent to the [memmove] of [ulib.c], which chooses the
    direction by comparing the two pointers.  From 2 GiB on they differ: the
    [int] [n] of [ulib.c] is negative there, and its [memmove] and [memcpy]
    copy nothing. *)
Theorem memmove_moves m dst src n :
  mem_wf m -> 0 <= n < 2 ^ 32 ->
  load_bytes (memmove m dst src n) dst (Z.to_nat n) = load_bytes m src (Z.to_nat n) /\
  (forall x, ~ dst <= x < dst + n -> load8 (memmove m dst src n) x = load8 m x) /\
  (n < 2 ^ 31 -> forall x, load8 (ulib_memmove m dst src n) x = load8 (memmove m dst src n) x) /\
  (2 ^ 31 <= n -> ulib_memmove m dst src n = m /\ ulib_memcpy m dst src n = m).
Proof.
  intros Hm Hn. split; [|split; [|split]].
  - apply load_bytes_ext. intros i Hi. rewrite load8_memmove, decide_True by (done || lia). f_equal. lia.
  - intros x Hx. by rewrite load8_memmove, decide_False.
  - intros Hn' x. by rewrite load8_memmove, load8_ulib_memmove by (done || lia).
  - intros Hn'. unfold ulib_memcpy. rewrite u32_id by done. assert (ulib_memmove m dst src n = m) as E; [|done].
    unfold ulib_memmove. replace (Z.to_nat (i32 n)) with 0%nat; [by destruct (_ <? _)|].
    unfold i32. rewrite <- (Z.mod_unique (n + 2 ^ 31) (2 ^ 32) 1 (n - 2 ^ 31)); lia.
Qed.

(** Shifting "abc" up by one over itself. *)
Lemma memmove_moves_witness :
  load_bytes (memmove {[0 := 97; 1 := 98; 2 := 99]} 1 0 3) 1 3 = [97; 98; 99].
Proof.
  change 3%nat with (Z.to_nat 3) at 1.
  rewrite (proj1 (memmove_moves {[0 := 97; 1 := 98; 2 := 99]} 1 0 3 ltac:(apply (bool_decide_unpack _); vm_compute; exact I) ltac:(lia))).
  reflexivity.
Defined.

(** A booted hart whose transmitter is idle. *)
Definition test_ready_uart : kstate := set_k_uart (set_uart_lsr LSR_TX_IDLE (k_uart test_state)) test_state.
Lemma test_ready_uart_wf : cpu_wf test_ready_uart.
Proof. exact (kr_cpu _ test_state_ready). Qed.
Lemma test_ready_uart_ok : uart_ready test_ready_uart.
Proof. split; [|split]; reflexivity. Qed.

Section order.
  Implicit Types p q t : chars.

(** Lexicographic order of two strings at the first position they differ. *)
Definition differ_at (k : nat) p q : Prop :=
  (forall i, (i < k)%nat -> p i = q i /\ p i <> 0) /\ p k <> q k.
End order.

(** [strncmp] compares the strings up to the terminator or [n] bytes: 0
    exactly when these prefixes are equal, and otherwise the difference of the
    first two bytes that differ.*)
Theorem strncmp_compares n p q :
  bytes p -> bytes q ->
  (strncmp n p q = 0 <-> cprefix n p = cprefix n q) /\
  (forall k, (k < n)%nat -> differ_at k p q -> strncmp n p q = p k - q k).
Proof.
  intros Hp Hq. split; [by apply strncmp_zero|]. intros k Hk [H1 H2]. by apply strncmp_first.
Qed.

(** "init" against "initcode", in a directory name's 14 bytes. *)
Lemma strncmp_compares_witness :
  strncmp 14 (of_list (str "init")) (of_list (str "initcode")) = 0 - 99.
Proof.
  apply (strncmp_compares 14 (of_list (str "init")) (of_list (str "initcode"))) with (k := 4%nat).
  1-2: apply of_list_bytes; apply (bool_decide_unpack _); vm_compute; exact I.
  { lia. }
  split; [|discriminate]. intros i Hi. do 4 (destruct i as [|i]; [split; [reflexivity|discriminate]|]). lia.
Defined.

(** [strncpy] stores exactly [n] bytes, of which [strncmp] over [n] bytes
    finds no difference from the source, whatever the source's length; and
    [safestrcpy] stores at most [n] bytes, the last of them a terminator, that
    read back as the source cut to [n - 1] bytes.*)
Theorem string_copies t (n : nat) :
  bytes t -> (0 < n)%nat ->
  length (strncpy t (Z.of_nat n)) = n /\
  strncmp n t (of_list (strncpy t (Z.of_nat n))) = 0 /\
  (length (safestrcpy t (Z.of_nat n)) <= n)%nat /\
  last (safestrcpy t (Z.of_nat n)) = Some 0 /\
  cprefix n (of_list (safestrcpy t (Z.of_nat n))) = cprefix (n - 1) t.
Proof.
  intros Ht Hn. split; [apply length_strncpy|]. split.
  - assert (bytes (of_list (strncpy t (Z.of_nat n)))) as Hb.
    { rewrite strncpy_eq. apply of_list_bytes, Forall_app. split; [by apply cprefix_bytes|].
      apply Forall_replicate. lia. }
    apply strncmp_zero; [done..|]. by rewrite cprefix_strncpy.
  - destruct (safestrcpy_spec t (Z.of_nat n)) as (A & B & C); [lia|].
    replace (Z.to_nat (Z.of_nat n - 1)) with (n - 1)%nat in B by lia. rewrite Nat2Z.id in B.
    split; [lia|done].
Qed.

(** "sh" into a process name's 16 bytes. *)
Lemma string_copies_witness : strncmp 16 (of_list (str "sh")) (of_list (strncpy (of_list (str "sh")) 16)) = 0.
Proof.
  apply (string_copies (of_list (str "sh")) 16); [|lia].
  apply of_list_bytes. apply (bool_decide_unpack _); vm_compute; exact I.
Defined.

(** C33: decimal output and input are inverse.  [printInt] on any non-negative
    [int] transmits a nonempty run of decimal digits, and [atoi] reads that run
    back as the same number, whatever non-digit follows it. *)
Theorem printInt_atoi `{L : LinkMap} (v : Z) (rest : list Z) (s : kstate) :
  cpu_wf s -> uart_ready s -> 0 <= v < 2 ^ 31 -> (nth 0 rest 0 < digit0 \/ 57 < nth 0 rest 0) ->
  exists l, printInt v s = Ok tt (emit l (touch s)) /\ l <> [] /\
    Forall (fun c => digit0 <= c <= 57) l /\ atoi 12 (of_list (l ++ rest)) = Some v.
Proof.
  intros Hc Hu Hv Hr. exists (dec_digits 10 v). split; [apply printInt_eq; (done || lia)|].
  split; [apply dec_digits_cons; lia|]. split; [apply dec_digits_bytes; lia|]. by apply atoi_dec.
Qed.

Lemma printInt_atoi_witness : exists l, atoi 12 (of_list (l ++ [0])) = Some 2147483647.
Proof.
  destruct (@printInt_atoi test_link 2147483647 [0] test_ready_uart) as (l & _ & _ & _ & E);
    [exact test_ready_uart_wf|exact test_ready_uart_ok|lia|cbn; unfold digit0; lia|]. exists l. exact E.
Defined.
