(* ===== verification/BioSpec.v ===== *)
(** * What the buffer cache guarantees

    After [init_bcache] the cache invariant holds; every operation keeps it;
    lookups, recycling and exhaustion of [bget]; the order [brelease] leaves;
    and, seen from the inodes, the cache is a map from blocks to contents that
    the disk always agrees with. *)

From S2P Require Import Prelude Layout Memory State Spinlock Sched Sleeplock Ondisk Bio Block BioInit Virtio VirtioDisk.

(** ** A booted file system to evaluate on *)

Definition boot_state (d : gmap Z (list Z)) : kstate := set_k_disk d test_state.
Definition boot_fs (d : gmap Z (list Z)) : kstate :=
  match init_bcache (boot_state d) with Ok _ s => s | _ => boot_state d end.

Lemma boot_state_ready d : kready (boot_state d).
Proof. destruct test_state_ready. by split. Qed.
Lemma boot_state_fresh d r : (r < NBUF)%nat -> buf_fresh (buf_at (boot_state d) r).
Proof.
  intros Hr. assert (buf_at (boot_state d) r = buf0) as ->; [|done].
  unfold buf_at. apply list_lookup_total_correct. by apply (lookup_replicate_2 NBUF).
Qed.
Lemma boot_fs_init d : init_at (boot_state d) NBUF (boot_fs d).
Proof.
  destruct (init_bcache_ok _ (boot_state_ready d) (boot_state_fresh d)) as (s & E & H).
  unfold boot_fs. by rewrite E.
Qed.

Lemma boot_fs_csr d : k_csr (boot_fs d) = k_csr test_state.
Proof. by rewrite (ia_frame _ _ _ (boot_fs_init d)). Qed.
Lemma boot_fs_cpus d : k_cpus (boot_fs d) = k_cpus test_state.
Proof. by rewrite (ia_frame _ _ _ (boot_fs_init d)). Qed.
Lemma boot_fs_proc d : k_proc (boot_fs d) = k_proc test_state.
Proof. by rewrite (ia_frame _ _ _ (boot_fs_init d)). Qed.

(** In [test_state] nobody sleeps. *)
Lemma test_state_quiet : quiet test_state 0.
Proof.
  split; try reflexivity; [unfold NPROC; lia|]. intros i c Hs. exfalso.
  assert (Forall (fun x => p_state x <> SLEEPING) (procs (k_proc test_state))) as Hall.
  { apply (bool_decide_unpack _). vm_compute. exact I. }
  unfold proc_at in Hs. destruct (procs (k_proc test_state) !! i) as [x|] eqn:E.
  - rewrite (list_lookup_total_correct _ _ _ E) in Hs. exact (Forall_lookup_1 _ _ _ _ Hall E Hs).
  - rewrite list_lookup_total_alt, E in Hs. discriminate Hs.
Qed.

Section boot.
  #[local] Existing Instance alone.
  #[local] Existing Instance instant_disk.

Lemma boot_fs_ready d : fs_ready (boot_fs d) 0.
Proof.
  pose proof (boot_fs_init d) as H. pose proof (init_at_cache _ _ H) as Hc. destruct H as [Hk _ Hz Hf He].
  split; [split|..].
  - done.
  - by eexists.
  - exact I.
  - intros r Hr Hd. destruct (Hz r Hr) as (_ & E & _). exact (False_ind _ (Hd E)).
  - unfold curproc, cpu_of, hart. by rewrite boot_fs_csr, boot_fs_cpus.
  - unfold proc_at. rewrite boot_fs_proc. clear. vm_compute. split; [discriminate|reflexivity].
  - apply (quiet_ext test_state); [apply boot_fs_proc| |exact test_state_quiet].
    unfold cpu_of, hart. by rewrite boot_fs_csr, boot_fs_cpus.
  - intros r Hr _. split; [exact (Hf r Hr)|exact (proj1 (Hz r Hr))].
  - intros r Hr _ Hv. destruct (Hz r Hr) as (_ & _ & E). exact (False_ind _ (Hv E)).
Qed.
Lemma boot_fs_disk d : k_disk (boot_fs d) = d.
Proof. by rewrite (ia_frame _ _ _ (boot_fs_init d)). Qed.
Lemma boot_fs_inodes d : k_inodes (boot_fs d) = k_inodes test_state.
Proof. by rewrite (ia_frame _ _ _ (boot_fs_init d)). Qed.
Lemma boot_fs_sb d : k_sb (boot_fs d) = k_sb test_state.
Proof. by rewrite (ia_frame _ _ _ (boot_fs_init d)). Qed.
End boot.

(** Facts about [boot_fs] come from the lemmas above, not from unfolding. *)
#[global] Opaque boot_fs.

(** The booted kernel over the virtio driver, the device and the scheduler. *)
Definition test_machine : Others := @disk_machine test_link test_device.
Definition test_driver : BlockDev := @virtio_dev test_link test_machine.
Definition test_driver_ok : BlockDevOk test_driver := @virtio_dev_ok test_link test_device test_device_ok.
Definition boot_virtio (d : gmap Z (list Z)) : kstate := set_k_virtio virtio_ready (boot_fs d).
Lemma boot_virtio_ready d : @fs_ready test_driver test_driver_ok (boot_virtio d) 0.
Proof. exact (fs_ready_dev (HD' := test_driver_ok) virtio_ready (boot_fs d) 0 (boot_fs_ready d) virtio_ready_idle). Qed.

(** ** Lists *)

Lemma find_last (q : nat -> bool) l1 r l2 :
  q r = true -> (forall z, z ∈ l2 -> q z = false) -> find q (rev (l1 ++ r :: l2)) = Some r.
Proof.
  intros Hr Hz. rewrite rev_app_distr. cbn [rev]. rewrite <- app_assoc. cbn [app].
  assert (forall z, z ∈ rev l2 -> q z = false) as Hz'.
  { intros z Hin. apply Hz. by rewrite list_elem_of_In, in_rev, <- list_elem_of_In. }
  induction (rev l2) as [|z l IH]; cbn [app find]; [by rewrite Hr|].
  rewrite (Hz' z) by by left. apply IH. intros; apply Hz'. by right.
Qed.
Lemma find_none (q : nat -> bool) l : (forall z, z ∈ l -> q z = false) -> find q l = None.
Proof.
  induction l as [|z l IH]; [done|]. intros H. cbn [find]. rewrite (H z) by by left.
  apply IH. intros; apply H. by right.
Qed.

Lemma fresh_no_hit s dev n r : b_dev (buf_at s r) = 0 -> dev <> 0 -> holds (k_bcache s) dev n r = false.
Proof.
  unfold holds. change (bufs (k_bcache s) !!! r) with (buf_at s r). intros -> Hd.
  by destruct (Z.eqb_spec 0 dev).
Qed.
Lemma fresh_unused s r : b_refcnt (buf_at s r) = 0 -> unused (k_bcache s) r = true.
Proof. unfold unused. change (bufs (k_bcache s) !!! r) with (buf_at s r). by intros ->. Qed.

Lemma fresh_ref_inv s l r n :
  cache_inv (k_bcache s) l -> (r < NBUF)%nat -> b_dev (buf_at s r) = 0 -> 0 <= n < 2 ^ 32 ->
  cache_inv (k_bcache (upd_buf r (set_b_refcnt n) s)) l.
Proof.
  intros Hc Hr Hd Hn. apply (cache_inv_upd (k_bcache s)); [done..|]. intros Hne. by destruct Hne.
Qed.

(** ** Claims *)

(** C24: [init_bcache] builds the ring.  From zeroed buffers it returns with
    the cache invariant established (the list of all buffers, last one first,
    linked both ways, no block cached twice), every sleep lock free, and only
    the cache and the locks written. *)
Theorem init_bcache_establishes s :
  kready s -> (forall r, (r < NBUF)%nat -> buf_fresh (buf_at s r)) ->
  exists s', init_bcache s = Ok tt s' /\ kready s' /\ cache_inv (k_bcache s') (rev (seq 0 NBUF)) /\
    (forall r, (r < NBUF)%nat -> buf_fresh (buf_at s' r) /\ sl_locked (b_sk (buf_at s' r)) = 0) /\
    s' = set_k_bcache (k_bcache s') (set_k_locks (k_locks s') s).
Proof.
  intros Hk Hz. destruct (init_bcache_ok s Hk Hz) as (s' & E & H). exists s'. split; [done|].
  pose proof (init_at_cache _ _ H) as Hc. destruct H as [Hk' _ Hz' Hf He].
  split; [done|]. split; [done|]. split; [|done]. intros r Hr. split; [by apply Hz'|by apply Hf].
Qed.

Lemma init_bcache_establishes_witness : exists s', init_bcache test_state = Ok tt s'.
Proof.
  destruct (init_bcache_establishes test_state) as (s' & E & _).
  - exact test_state_ready.
  - exact (boot_state_fresh ∅).
  - exists s'. exact E.
Defined.

(** [bget] settles on buffer [r] and makes it [f] of itself, the list and the
    invariant kept, and then waits for the buffer's own lock, whoever holds it;
    when nobody does it returns [r], locked by the process [i], all the other
    buffers as they were. *)
Definition bget_takes `{Ot : Others} s l i dev n r (f : buf -> buf) : Prop :=
  let s1 := upd_buf r f (touch s) in
  bget dev n s = (sleep_lock (SBuf r);; mret r) s1 /\ cache_inv (k_bcache s1) l /\
  (sl_locked (b_sk (buf_at s r)) = 0 ->
   exists s', bget dev n s = Ok r s' /\ cache_inv (k_bcache s') l /\
     buf_at s' r = set_b_sk (set_sl_pid (i32 (p_pid (proc_at s i))) (set_sl_locked 1 (b_sk (buf_at s r)))) (f (buf_at s r)) /\
     (forall z, z <> r -> buf_at s' z = buf_at s z)).

Lemma bget_wait_takes `{Ot : Others} s l i dev n r f :
  kready s -> (r < NBUF)%nat -> curproc s = Some i -> (forall b, b_sk (f b) = b_sk b) ->
  bget dev n s = bget_wait r (upd_buf r f (touch s)) -> cache_inv (k_bcache (upd_buf r f (touch s))) l ->
  bget_takes s l i dev n r f.
Proof.
  intros Hk Hr Hi Hf E Hc. split; [exact E|]. split; [exact Hc|]. intros Hsl.
  exists (bget_upd f r (p_pid (proc_at s i)) s). split; [|split; [|split]].
  - rewrite E. by apply bget_wait_free.
  - by apply cache_inv_bget_upd.
  - rewrite bget_upd_eq, buf_at_upd by (done || by apply kready_touch).
    change (buf_at (touch s) r) with (buf_at s r). by rewrite Hf.
  - intros z Hz. rewrite bget_upd_eq, buf_at_upd_ne by done. done.
Qed.

(** C22: the outcomes of [bget], whichever buffers other processes hold.  A
    cached block is handed out again, counted once more; otherwise the unused
    buffer nearest the back of the list (the least recently released) is
    recycled for the block and marked invalid; when neither exists [bget]
    panics.  The buffer settled on is waited for when a process holds it and
    locked for the caller when none does; the data, the other buffers, the list
    and the invariant are kept. *)
Theorem bget_outcomes `{Ot : Others} s l dev n i :
  kready s -> cache_inv (k_bcache s) l -> curproc s = Some i -> dev <> 0 ->
  let hit := holds (k_bcache s) dev n in
  let idle := unused (k_bcache s) in
  (forall r, r ∈ l -> hit r = true ->
     bget_takes s l i dev n r (fun b => set_b_refcnt (u32 (b_refcnt b + 1)) b)) /\
  (forall l1 r l2, l = l1 ++ r :: l2 -> (forall z, z ∈ l -> hit z = false) -> idle r = true ->
     (forall z, z ∈ l2 -> idle z = false) ->
     bget_takes s l i dev n r (fun b => set_b_blockno n (set_b_dev dev (set_b_vaild 0 (set_b_refcnt 1 b))))) /\
  ((forall z, z ∈ l -> hit z = false /\ idle z = false) -> panics (bget dev n) s "bget panic..\n").
Proof.
  intros Hk Hc Hp Hd hit idle. split; [|split].
  - intros r Hin Hr. assert (r < NBUF)%nat as Hlt by by apply (cache_elem _ _ _ Hc).
    destruct (find hit l) as [r'|] eqn:E; [|by rewrite (find_none_elem _ _ r E Hin) in Hr].
    assert (r' = r) as ->.
    { apply find_elem in E as [Hin' Hr']. apply (holds_uniq _ l dev n r' r Hc); try done.
      by apply (cache_elem _ _ _ Hc). }
    apply bget_wait_takes; try done; [by apply (bget_hit s l)|by apply cache_inv_bget_hit].
  - intros l1 r l2 -> Hm Hi Hl2.
    assert (r < NBUF)%nat as Hlt by (apply (cache_elem _ _ _ Hc); set_solver).
    pose proof (find_none hit _ Hm) as E.
    apply bget_wait_takes; try done; [|by apply cache_inv_bget_miss].
    apply (bget_miss s (l1 ++ r :: l2)); try done. by apply find_last.
  - intros Hm. apply (bget_full s l); try done.
    + apply find_none. intros z Hz. by apply Hm.
    + apply find_none. intros z Hz. apply Hm. by rewrite list_elem_of_In, in_rev, <- list_elem_of_In.
Qed.

(** A miss on the booted cache recycles buffer 0, the one at the back. *)
Lemma bget_outcomes_witness : exists s', @bget alone ROOTDEV 5 (boot_fs ∅) = Ok 0%nat s'.
Proof.
  pose proof (boot_fs_init ∅) as H. pose proof (init_at_cache _ _ H) as Hc.
  pose proof (fb_cur _ _ (fs_rbase _ _ (boot_fs_ready ∅))) as Hp.
  destruct H as [Hk _ Hz Hf _].
  assert (forall r, r ∈ rev (seq 0 NBUF) -> (r < NBUF)%nat) as Hin by (intros r Hr; exact (proj1 (cache_elem _ _ r Hc) Hr)).
  destruct (@bget_outcomes alone (boot_fs ∅) (rev (seq 0 NBUF)) ROOTDEV 5 0 Hk Hc Hp) as (_ & Hmiss & _).
  - discriminate.
  - destruct (Hmiss (rev (seq 1 (NBUF - 1))) 0%nat []) as (_ & _ & Hfree).
    + reflexivity.
    + intros z Hz'. destruct (Hz z (Hin z Hz')) as (_ & E & _).
      apply (fresh_no_hit _ ROOTDEV 5 z E). discriminate.
    + exact (fresh_unused _ _ (proj1 (Hz 0%nat ltac:(unfold NBUF; lia)))).
    + intros z Hz'. inversion Hz'.
    + destruct Hfree as (s' & E & _); [exact (Hf 0%nat ltac:(unfold NBUF; lia))|]. exists s'. exact E.
Defined.

(** C23: [brelease].  Releasing a buffer the process holds frees its sleep lock
    and drops one reference; with the last one the buffer moves to the front of
    the list, the others keeping their order; the invariant is kept.  Releasing
    a buffer the process does not hold panics. *)
Theorem brelease_reorders s l r i :
  kready s -> cache_inv (k_bcache s) l -> (r < NBUF)%nat -> curproc s = Some i ->
  1 <= b_refcnt (buf_at s r) ->
  if sl_mine (SBuf r) s then
    exists s', brelease r s = Ok tt s' /\ sl_locked (b_sk (buf_at s' r)) = 0 /\
      b_refcnt (buf_at s' r) = b_refcnt (buf_at s r) - 1 /\ b_data (buf_at s' r) = b_data (buf_at s r) /\
      cache_inv (k_bcache s')
        (if b_refcnt (buf_at s r) =? 1 then r :: filter (fun z => z <> r) l else l)
  else panics (brelease r) s "brelease holdingsleep panic\n".
Proof.
  intros Hk Hc Hr Hp Href. pose proof (ci_ref _ _ Hc r Hr) as Hrange.
  change (bufs (k_bcache s) !!! r) with (buf_at s r) in Hrange. destruct (sl_mine (SBuf r) s) eqn:Hm.
  - exists (brelease_upd r s). split; [by apply (brelease_eq r s i)|].
    assert (forall B (g : buf -> B), (forall b x, g (set_b_next x b) = g b) -> (forall b x, g (set_b_prev x b) = g b) ->
      g (buf_at (brelease_upd r s) r) = g (brelease_buf (buf_at s r))) as Hg.
    { intros B g Hn Hv. rewrite proj_brelease, decide_True by done. done. }
    rewrite (Hg _ (fun b => sl_locked (b_sk b))), !Hg by done. split; [done|]. split; [|split; [done|]].
    + cbn. apply u32_id. lia.
    + exact (cache_inv_brelease (k_bcache s) l r Hc Hr Href).
  - eexists. unfold brelease. rewrite (bind_ok _ _ _ _ _ (holdingsleep_eq (SBuf r) s i Hk Hr Hp)), Hm. done.
Qed.

(** Nobody holds buffer 3 of the booted cache. *)
Lemma brelease_reorders_witness :
  panics (brelease 3) (upd_buf 3 (set_b_refcnt 1) (boot_fs ∅)) "brelease holdingsleep panic\n".
Proof.
  assert (3 < NBUF)%nat as H3 by (unfold NBUF; lia).
  assert (forall s l i, kready s -> cache_inv (k_bcache s) l -> curproc s = Some i ->
    b_dev (buf_at s 3) = 0 -> sl_locked (b_sk (buf_at s 3)) = 0 ->
    panics (brelease 3) (upd_buf 3 (set_b_refcnt 1) s) "brelease holdingsleep panic\n") as Hall.
  { intros s l i Hk Hc Hp Hd Hf.
    pose proof (brelease_reorders (upd_buf 3 (set_b_refcnt 1) s) l 3 i (kready_upd_buf _ _ _ Hk)) as T.
    unfold sl_mine in T. cbn [sl_at] in T. rewrite curproc_upd_buf, (buf_at_upd _ _ _ Hk H3) in T.
    cbn [b_sk set_b_refcnt b_refcnt] in T. rewrite Hf in T. apply T; [|exact H3|exact Hp|lia].
    apply fresh_ref_inv; [exact Hc|exact H3|exact Hd|lia]. }
  pose proof (boot_fs_init ∅) as H.
  apply (Hall _ _ 0%nat (ia_ready _ _ _ H) (init_at_cache _ _ H) (fb_cur _ _ (fs_rbase _ _ (boot_fs_ready ∅)))).
  - exact (proj1 (proj2 (ia_fresh _ _ _ H 3%nat H3))).
  - exact (ia_free _ _ _ H 3%nat H3).
Defined.

(** ** The cache as a map from blocks to contents *)

Inductive bop := BRead (n : Z) | BWrite (n : Z) (d : list Z).
Definition bop_block (o : bop) : Z := match o with BRead n | BWrite n _ => n end.

Section blocks.
  Context {Ot : Others} {D : BlockDev}.

Definition run_bop (o : bop) : K (list Z) :=
  match o with
  | BRead n => r ← bread ROOTDEV n; d ← gets (fun s => b_data (buf_at s r)); brelease r;; mret d
  | BWrite n d => r ← bread ROOTDEV n; write_back r (fun _ => d);; mret []
  end.
Fixpoint run_bops (os : list bop) : K (list (list Z)) :=
  match os with
  | [] => mret []
  | o :: os => r ← run_bop o; rs ← run_bops os; mret (r :: rs)
  end.

Definition spec_bop (o : bop) (f : Z -> list Z) : list Z * (Z -> list Z) :=
  match o with
  | BRead n => (f n, f)
  | BWrite n d => ([], fun m => if m =? n then d else f m)
  end.
Fixpoint spec_bops (os : list bop) (f : Z -> list Z) : list (list Z) * (Z -> list Z) :=
  match os with
  | [] => ([], f)
  | o :: os => let '(r, f) := spec_bop o f in let '(rs, f) := spec_bops os f in (r :: rs, f)
  end.

Lemma run_bop_ok `{!BlockDevOk D} o s p :
  fs_ready s p -> 0 <= bop_block o < 2 ^ 31 ->
  exists s', run_bop o s = Ok (fst (spec_bop o (disk_block s))) s' /\ fs_ready s' p /\ io_frame s s' /\
    forall m, 0 <= m < 2 ^ 31 -> disk_block s' m = snd (spec_bop o (disk_block s)) m.
Proof.
  intros Hs Hn. destruct o as [n|n d]; cbn [bop_block run_bop spec_bop fst snd] in *;
    destruct (bread_block s p n Hs Hn) as (r & s1 & E1 & H1 & F1 & D1); rewrite (bind_ok _ _ _ _ _ E1);
    assert (forall m, disk_block s1 m = disk_block s m) as E01 by (intros; by apply disk_block_ext).
  - rewrite (bind_ok _ _ s1 (disk_block s n) s1) by (unfold gets; by rewrite (ho_data _ _ _ _ _ H1)).
    rewrite <- (E01 n) in H1. destruct (brelease_block s1 p r n H1) as (s2 & E2 & H2 & F2 & D2).
    rewrite (bind_ok _ _ _ _ _ E2). exists s2. split; [done|]. split; [done|]. split; [by etransitivity|].
    intros m _. rewrite <- E01. by apply disk_block_ext.
  - destruct (write_back_ok s1 p r n _ (fun _ => d) H1 Hn) as (s2 & E2 & H2 & F2 & B2 & O2).
    rewrite (bind_ok _ _ _ _ _ E2). exists s2. split; [done|]. split; [done|]. split; [by etransitivity|].
    intros m Hm. destruct (Z.eqb_spec m n) as [->|Hne]; [done|]. by rewrite O2.
Qed.

Lemma spec_bops_ext os f g :
  Forall (fun o => 0 <= bop_block o < 2 ^ 31) os ->
  (forall m, 0 <= m < 2 ^ 31 -> f m = g m) ->
  fst (spec_bops os f) = fst (spec_bops os g) /\
  forall m, 0 <= m < 2 ^ 31 -> snd (spec_bops os f) m = snd (spec_bops os g) m.
Proof.
  intros Ho. revert f g. induction Ho as [|o os Ho1 Ho IH]; intros f g Hfg; [done|]. cbn [spec_bops].
  assert (fst (spec_bop o f) = fst (spec_bop o g) /\
    forall m, 0 <= m < 2 ^ 31 -> snd (spec_bop o f) m = snd (spec_bop o g) m) as [E1 E2].
  { destruct o; cbn in *; [auto|]. split; [done|]. intros m Hm. case_bool; auto. }
  destruct (spec_bop o f) as [r f'], (spec_bop o g) as [r' g']. cbn [fst snd] in *. subst r'.
  destruct (IH f' g' E2) as [E3 E4]. destruct (spec_bops os f'), (spec_bops os g'). cbn [fst snd] in *.
  by rewrite E3.
Qed.
End blocks.

(** C4: the buffer cache and the disk refine a map from block numbers to
    contents.  Any sequence of block reads and block updates through [bread],
    [bwrite] and [brelease] returns, reads always see the last contents
    written (through whatever evictions the sequence causes), and afterwards
    the disk itself holds exactly the map's contents: every update is durable
    when its [bwrite] returns. *)
Theorem blocks_refine_map {Ot : Others} {D : BlockDev} {HD : BlockDevOk D} (os : list bop) s p :
  fs_ready s p -> Forall (fun o => 0 <= bop_block o < 2 ^ 31) os ->
  exists s', run_bops os s = Ok (fst (spec_bops os (disk_block s))) s' /\ fs_ready s' p /\ io_frame s s' /\
    forall m, 0 <= m < 2 ^ 31 -> disk_block s' m = snd (spec_bops os (disk_block s)) m.
Proof.
  intros Hs Ho. revert s Hs. induction Ho as [|o os Ho1 Ho IH]; intros s Hs; cbn [run_bops spec_bops].
  - exists s. split; [done|]. split; [done|]. split; [reflexivity|done].
  - destruct (run_bop_ok o s p Hs Ho1) as (s1 & E1 & H1 & F1 & D1). rewrite (bind_ok _ _ _ _ _ E1).
    destruct (IH s1 H1) as (s2 & E2 & H2 & F2 & D2). rewrite (bind_ok _ _ _ _ _ E2).
    destruct (spec_bop o (disk_block s)) as [r f]. cbn [fst snd] in *.
    destruct (spec_bops_ext os (disk_block s1) f Ho D1) as [E3 E4].
    destruct (spec_bops os f) as [rs g]. cbn [fst snd] in *. exists s2. rewrite E3.
    split; [done|]. split; [done|]. split; [by etransitivity|]. intros m Hm. by rewrite D2, E4.
Qed.

(** Three operations, through the virtio driver, the device and the scheduler. *)
Lemma blocks_refine_map_witness :
  exists s', @run_bops test_machine test_driver [BWrite 7 [1; 2]; BWrite 8 [3]; BRead 7] (boot_virtio ∅) = Ok [[]; []; [1; 2]] s'.
Proof.
  destruct (@blocks_refine_map test_machine test_driver test_driver_ok [BWrite 7 [1; 2]; BWrite 8 [3]; BRead 7]
    (boot_virtio ∅) 0 (boot_virtio_ready ∅)) as (s' & E & _).
  - repeat constructor; discriminate.
  - exists s'. exact E.
Defined.
