(* ===== verification/FsSpec.v ===== *)
(** * What the inode and directory layers guarantee

    The encodings of [fs.h], the in-core inode table, [ilock] and [iupdate],
    the block map, reading, writing, and looking names up. *)

From S2P Require Import Prelude Layout Memory CString State Spinlock Sched Sleeplock Uart Print.
From S2P Require Import Kmem PageTable Uvm Ondisk Bio Block BioInit Fs FsProps StringSpec BioSpec.

(** ** Encodings *)

Lemma dinode_off_fits (l : list Z) k :
  length l = Z.to_nat BSIZE -> (dinode_off k + 64 <= length l)%nat.
Proof.
  intros ->. unfold dinode_off. pose proof (Z.mod_pos_bound k IPB eq_refl) as Hk.
  change (Z.to_nat BSIZE) with (Z.to_nat (64 * 16)). change IPB with 16 in *. lia.
Qed.

(** The encodings of the disk structures round trip.  A dinode stored at
    its place in a block reads back unchanged, the other dinodes of the block
    keep their value and the block its length; a directory entry reads back
    unchanged.*)
Theorem ondisk_roundtrip (d : dinode) (l : list Z) (inum inum' : Z) (e : dirent) :
  dinode_wf d -> length l = Z.to_nat BSIZE -> 0 <= inum -> 0 <= inum' -> inum mod IPB <> inum' mod IPB ->
  0 <= de_inum e < 2 ^ 16 -> length (de_name e) = DIRSIZ ->
  get_dinode (put_dinode d l (dinode_off inum)) (dinode_off inum) = d /\
  get_dinode (put_dinode d l (dinode_off inum)) (dinode_off inum') = get_dinode l (dinode_off inum') /\
  length (put_dinode d l (dinode_off inum)) = length l /\
  dec_dirent (enc_dirent e) = e.
Proof.
  intros Hd Hl Hi Hi' Hne He Hn. pose proof (dw_len d Hd) as Hlen.
  assert (forall k, (dinode_off k + 64 <= length l)%nat) as Ho by (intros; by apply dinode_off_fits).
  split; [by apply get_put_dinode|]. split; [|split; [by apply length_put_dinode|by apply dec_enc_dirent]].
  apply get_put_dinode_other; [done|done|]. unfold dinode_off.
  pose proof (Z.mod_pos_bound inum IPB eq_refl). pose proof (Z.mod_pos_bound inum' IPB eq_refl). lia.
Qed.

Lemma ondisk_roundtrip_witness :
  get_dinode (put_dinode (mkDinode 2 0 0 1 300 (replicate 13 7)) (replicate 1024 0) (dinode_off 3)) (dinode_off 3)
  = mkDinode 2 0 0 1 300 (replicate 13 7).
Proof.
  refine (proj1 (ondisk_roundtrip (mkDinode 2 0 0 1 300 (replicate 13 7)) (replicate 1024 0) 3 4
    (mkDirent 1 (replicate DIRSIZ 46)) _ _ _ _ _ _ _)).
  - split; cbn [di_type di_major di_minor di_nlink di_size di_addrs]; try (clear; lia).
    + reflexivity.
    + apply Forall_replicate. lia.
  - reflexivity.
  - lia.
  - lia.
  - discriminate.
  - cbn. lia.
  - reflexivity.
Defined.

(** ** The inode table *)

(** C25: the inode table holds at most one copy of an inode.  [iget] of an inode
    in use returns the slot it is in, with one reference more; of an inode not in
    use it claims the first slot that nothing refers to, for that inode, with one
    reference and marked not valid; and it panics when the inode is not in use
    and every slot is.  No other slot and nothing else changes, and the table
    still holds at most one copy of any inode. *)
Theorem iget_unique dev inum s :
  kready s -> icache_inv (k_inodes s) ->
  (forall i x, k_inodes s !! i = Some x -> i_ref x < 2 ^ 31 - 2) ->
  let l := k_inodes s in
  let gives i x' := iget dev inum s = Ok i (set_k_inodes (<[i := x']> l) (touch s)) /\ icache_inv (<[i := x']> l) in
  (forall i x, l !! i = Some x -> live dev inum x = true -> gives i (set_i_ref (i_ref x + 1) x)) /\
  (Forall (fun x => live dev inum x = false) l ->
     forall i x, l !! i = Some x -> i_ref x = 0 -> (forall j y, (j < i)%nat -> l !! j = Some y -> i_ref y <> 0) ->
     gives i (set_i_vaild 0 (set_i_ref 1 (set_i_inum inum (set_i_dev dev x))))) /\
  (Forall (fun x => live dev inum x = false /\ i_ref x <> 0) l -> panics (iget dev inum) s "iget panic").
Proof.
  intros Hk Hi Hb l gives. pose proof (iget_eq dev inum s Hk) as E. fold l in E, Hi, Hb.
  assert (forall i x (f : inode -> inode), l !! i = Some x ->
    iget dev inum s = Ok i (upd_inode i f (touch s)) -> gives i (f x)) as Hgives.
  { intros i x f Hx Eg. destruct (iget_inv dev inum s i _ Hk Hi (Hb i) Eg) as (A & _).
    assert (upd_at i f l = <[i := f x]> l) as Eu by by apply upd_at_insert.
    unfold gives. rewrite <- Eu. by split. }
  split; [|split].
  - intros i x Hx Hl. rewrite (live_found _ _ _ _ _ Hi Hx Hl) in E.
    replace (set_i_ref (i_ref x + 1) x) with (ref_up x); [by apply Hgives|].
    unfold ref_up. rewrite i32_id; [done|]. pose proof (Hb i x Hx). pose proof (Forall_lookup_1 _ _ _ _ (ii_ref _ Hi) Hx) as Hr. cbn in Hr. lia.
  - intros Hno i x Hx Hfree Hfirst. rewrite (find_index_none _ _ Hno) in E.
    rewrite (find_index_intro free_slot l i x) in E; [by apply (Hgives i x (claim dev inum))|done| |].
    + unfold free_slot. by rewrite Hfree.
    + intros j y Hj Hy. apply Z.eqb_neq. by apply (Hfirst j y).
  - intros Hno. rewrite (find_index_none _ l) in E by (eapply Forall_impl; [exact Hno|]; by intros x [? _]).
    rewrite (find_index_none free_slot l) in E; [by eexists|].
    eapply Forall_impl; [exact Hno|]. intros x [_ Hx]. by apply Z.eqb_neq.
Qed.

(** On an empty table the first slot is claimed. *)
Lemma iget_unique_witness : exists s', iget ROOTDEV 7 test_state = Ok 0%nat s'.
Proof.
  assert (forall i x, k_inodes test_state !! i = Some x -> x = inode0) as H0.
  { intros i x Hx. exact (proj1 (proj1 (lookup_replicate INODES inode0 x i) Hx)). }
  destruct (iget_unique ROOTDEV 7 test_state test_state_ready) as (_ & Hnew & _).
  - split.
    + intros i j x y Hx _ Hr. rewrite (H0 i x Hx) in Hr. inversion Hr.
    + apply (proj2 (Forall_lookup _ _)). intros i x Hx. rewrite (H0 i x Hx). cbn [i_ref inode0]. clear. lia.
  - intros i x Hx. rewrite (H0 i x Hx). cbn [i_ref inode0]. clear. lia.
  - destruct (Hnew (proj2 (Forall_lookup _ _) (fun i x Hx => f_equal (live ROOTDEV 7) (H0 i x Hx))) 0%nat inode0) as [E _].
    + reflexivity.
    + reflexivity.
    + intros j y Hj. inversion Hj.
    + exact (ex_intro _ _ E).
Defined.

Section inodes.
  Context {Ot : Others} {D : BlockDev} `{!BlockDevOk D}.
  Implicit Types s : kstate.

(** What [ilock] needs of the slot [i]. *)
Definition lockable s (i : nat) : Prop :=
  (i < INODES)%nat /\ 1 <= i_ref (inode_at s i) /\ sl_locked (i_splock (inode_at s i)) = 0 /\
  i_vaild (inode_at s i) = 0 /\ i_dev (inode_at s i) = ROOTDEV /\ IBLOCK (i_inum (inode_at s i)) (k_sb s) < 2 ^ 31.

Lemma lockable_frame s s' i : k_inodes s' = k_inodes s -> k_sb s' = k_sb s -> lockable s i -> lockable s' i.
Proof. unfold lockable, inode_at. by intros -> ->. Qed.
Lemma inode_dinode_ilocked s p i :
  inode_dinode (ilocked s p i) =
    get_dinode (disk_block s (IBLOCK (i_inum (inode_at s i)) (k_sb s))) (dinode_off (i_inum (inode_at s i))).
Proof. unfold ilocked. by destruct (get_dinode _ _). Qed.
End inodes.

(** C27: [ilock] of an unlocked inode in use takes its sleep lock for the
    process and loads the in-core copy from the dinode on disk; the other
    inodes, the disk and memory are unchanged.  Because it leaves the inode
    marked not valid (the code assigns 0 to [vaild] after loading), the next
    [iput] only drops a reference: even with the last reference and no link
    left nothing is truncated or freed. *)
Theorem ilock_loads_iput_drops {Ot : Others} {D : BlockDev} `{!BlockDevOk D} s p i :
  fs_ready s p -> lockable s i ->
  exists s', ilock (Some i) s = Ok tt s' /\ fs_ready s' p /\
    sl_locked (i_splock (inode_at s' i)) = 1 /\ sl_pid (i_splock (inode_at s' i)) = i32 (p_pid (proc_at s p)) /\
    inode_dinode (inode_at s' i) =
      get_dinode (disk_block s (IBLOCK (i_inum (inode_at s i)) (k_sb s))) (dinode_off (i_inum (inode_at s i))) /\
    (forall j, j <> i -> inode_at s' j = inode_at s j) /\ k_disk s' = k_disk s /\ k_mem s' = k_mem s /\
    i_vaild (inode_at s' i) = 0 /\
    iput (Some i) s' = Ok tt (upd_inode i ref_down (touch s')).
Proof.
  intros Hs (Hi & Hr & Hl & Hv & Hd & Hb).
  destruct (ilock_loads s p i Hs Hi Hr Hl Hv Hd Hb) as (s' & E & Hs' & Ei & Eo & Ed & Esb & Em & _).
  exists s'. split; [done|]. split; [done|]. rewrite Ei, inode_dinode_ilocked.
  assert (i_vaild (inode_at s' i) = 0) as Hv' by by rewrite Ei.
  do 7 (split; [done|]). apply iput_invalid_eq; [apply Hs'|done].
Qed.

(** Slot 0 of the booted table as the root directory's inode, with block [b] as
    its first block. *)
Definition test_inode (size b : Z) (x : inode) : inode :=
  set_i_ref 1 (set_i_dev ROOTDEV (set_i_inum 1 (set_i_size size (set_i_addrs (b :: replicate 12 0) x)))).
Definition test_fs (d : gmap Z (list Z)) (size b : Z) : kstate := upd_inode 0 (test_inode size b) (boot_fs d).

Lemma test_fs_ready d size b : @fs_ready instant_disk instant_disk_ok (test_fs d size b) 0.
Proof. exact (@fs_ready_inode instant_disk instant_disk_ok _ _ 0 (test_inode size b) (boot_fs_ready d)). Qed.
Lemma test_fs_inode d size b : inode_at (test_fs d size b) 0 = test_inode size b inode0.
Proof.
  unfold test_fs. rewrite inode_at_upd by (exact (ia_ready _ _ _ (boot_fs_init d)) || exact (Nat.lt_0_succ _)).
  unfold inode_at. by rewrite boot_fs_inodes.
Qed.
Lemma sb_upd_inode i f s : k_sb (upd_inode i f s) = k_sb s.
Proof. reflexivity. Qed.
Lemma disk_upd_inode i f s : k_disk (upd_inode i f s) = k_disk s.
Proof. reflexivity. Qed.
Lemma test_fs_sb d size b : k_sb (test_fs d size b) = k_sb test_state.
Proof. unfold test_fs. rewrite sb_upd_inode. apply boot_fs_sb. Qed.
Lemma test_fs_disk d size b : k_disk (test_fs d size b) = d.
Proof. unfold test_fs. rewrite disk_upd_inode. apply boot_fs_disk. Qed.
Lemma test_fs_lockable d size b : lockable (test_fs d size b) 0.
Proof.
  unfold lockable. rewrite test_fs_inode, test_fs_sb. unfold test_inode. cbn -[IBLOCK].
  split; [unfold INODES; lia|]. do 4 (split; [reflexivity || lia|]). vm_compute. reflexivity.
Qed.

Lemma ilock_loads_iput_drops_witness :
  exists s', @ilock alone instant_disk (Some 0%nat) (test_fs ∅ 0 0) = Ok tt s' /\ i_vaild (inode_at s' 0) = 0.
Proof.
  destruct (@ilock_loads_iput_drops alone instant_disk instant_disk_ok (test_fs ∅ 0 0) 0 0
    (test_fs_ready ∅ 0 0) (test_fs_lockable ∅ 0 0)) as (s' & E & _ & _ & _ & _ & _ & _ & _ & Hv & _).
  exists s'. split; [exact E|exact Hv].
Defined.

(** C26: [iupdate] makes the in-core inode durable.  It returns; the disk block
    of the inode then holds the inode's dinode, the other dinodes of that block
    and all other blocks keep their contents; and locking any slot for the same
    inode afterwards loads exactly the values written. *)
Theorem iupdate_ilock {Ot : Others} {D : BlockDev} `{!BlockDevOk D} s p ip :
  let x := inode_at s ip in
  let n := IBLOCK (i_inum x) (k_sb s) in
  fs_ready s p -> i_dev x = ROOTDEV -> dinode_wf (inode_dinode x) -> 0 <= i_inum x -> n < 2 ^ 31 ->
  length (disk_block s n) = Z.to_nat BSIZE ->
  exists s', iupdate ip s = Ok tt s' /\ fs_ready s' p /\
    (forall m, 0 <= m < 2 ^ 31 -> m <> n -> disk_block s' m = disk_block s m) /\
    (forall k, 0 <= k -> k mod IPB <> i_inum x mod IPB ->
       get_dinode (disk_block s' n) (dinode_off k) = get_dinode (disk_block s n) (dinode_off k)) /\
    (forall i, lockable s i -> i_inum (inode_at s i) = i_inum x ->
       exists s'', ilock (Some i) s' = Ok tt s'' /\ inode_dinode (inode_at s'' i) = inode_dinode x).
Proof.
  intros x n Hs Hd Hwf Hi Hn Hlen.
  destruct (iupdate_writes s p ip Hs Hd Hn) as (s' & E & Hs' & F & B & O). fold x n in B, O.
  exists s'. split; [done|]. split; [done|]. split; [done|].
  assert (forall k, (dinode_off k + 64 <= length (disk_block s n))%nat) as Ho by (intros; by apply dinode_off_fits).
  split.
  - intros k Hk Hne. rewrite B. apply get_put_dinode_other; [apply (dw_len _ Hwf)|done|].
    unfold dinode_off. pose proof (Z.mod_pos_bound k IPB eq_refl). pose proof (Z.mod_pos_bound (i_inum x) IPB eq_refl). lia.
  - intros i Hl Ei. pose proof (lockable_frame s s' i (fr_inodes _ _ F) (fr_sb _ _ F) Hl) as (Hi' & Hr & Hsl & Hv & Hd' & Hb).
    destruct (ilock_loads s' p i Hs' Hi' Hr Hsl Hv Hd' Hb) as (s2 & E2 & _ & E3 & _).
    exists s2. split; [done|]. rewrite E3, inode_dinode_ilocked.
    assert (inode_at s' i = inode_at s i) as -> by (unfold inode_at; by rewrite (fr_inodes _ _ F)).
    rewrite (fr_sb _ _ F), Ei. fold n. rewrite B. apply get_put_dinode; auto.
Qed.

Lemma iupdate_ilock_witness :
  exists s' s'', @iupdate alone instant_disk 0 (test_fs ∅ 300 5) = Ok tt s' /\
    @ilock alone instant_disk (Some 0%nat) s' = Ok tt s'' /\
    inode_dinode (inode_at s'' 0) = mkDinode 0 0 0 0 300 (5 :: replicate 12 0).
Proof.
  destruct (@iupdate_ilock alone instant_disk instant_disk_ok (test_fs ∅ 300 5) 0 0) as (s' & E & _ & _ & _ & H).
  - exact (test_fs_ready ∅ 300 5).
  - rewrite test_fs_inode. reflexivity.
  - rewrite test_fs_inode. split; cbn; try (clear; lia).
    repeat (constructor; [clear; lia|]). constructor.
  - rewrite test_fs_inode. cbn. clear. lia.
  - rewrite test_fs_inode, test_fs_sb. vm_compute. reflexivity.
  - unfold disk_block. rewrite test_fs_disk. reflexivity.
  - destruct (H 0%nat (test_fs_lockable ∅ 300 5) eq_refl) as (s'' & E2 & E3).
    exists s', s''. split; [exact E|]. split; [exact E2|]. rewrite E3, test_fs_inode. reflexivity.
Defined.

(** ** The block map *)

(** C29: the block map.  For a block number below [MAXFILE] that the inode maps
    (directly or through the indirect block) [bmap] returns its disk address and
    changes nothing on disk; for every number at or above [MAXFILE] it panics. *)
Theorem bmap_outcomes {Ot : Others} {D : BlockDev} `{!BlockDevOk D} s p ip n :
  let x := inode_at s ip in
  fs_ready s p -> inode_ok x -> 0 <= n -> n < 2 ^ 32 ->
  (n < MAXFILE -> file_block s x n <> 0 -> (NDIRECT <= n -> nth 12 (i_addrs x) 0 <> 0) ->
     exists s', bmap ip n s = Ok (file_block s x n) s' /\ fs_ready s' p /\ io_frame s s' /\ k_disk s' = k_disk s) /\
  (MAXFILE <= n -> panics (bmap ip n) s "bmap panic...\n").
Proof.
  intros x Hs Hx H0 H32. split.
  - intros Hn Hb Hi. by apply (bmap_mapped s p ip n Hs Hx (conj H0 Hn) Hb Hi).
  - intros Hn. exists s. unfold bmap, get_inode. step_prim. change MAXFILE with 268 in Hn. change NDIRECT with 12. change NINDIRECT with 256.
    destruct (Z.ltb_spec n 12); [lia|]. destruct (Z.ltb_spec (n - 12) 256); [lia|]. done.
Qed.

Lemma bmap_outcomes_witness :
  exists s', @bmap alone instant_disk 0 0 (test_fs ∅ 300 5) = Ok 5 s' /\
    panics (@bmap alone instant_disk 0 268) (test_fs ∅ 300 5) "bmap panic...\n".
Proof.
  assert (inode_ok (inode_at (test_fs ∅ 300 5) 0)) as Hx.
  { rewrite test_fs_inode. split; [reflexivity|reflexivity|]. cbn. repeat (constructor; [clear; lia|]). constructor. }
  destruct (@bmap_outcomes alone instant_disk instant_disk_ok (test_fs ∅ 300 5) 0 0 0 (test_fs_ready ∅ 300 5) Hx)
    as [H _]; [lia|lia|].
  destruct (@bmap_outcomes alone instant_disk instant_disk_ok (test_fs ∅ 300 5) 0 0 268 (test_fs_ready ∅ 300 5) Hx)
    as [_ H2]; [lia|lia|].
  destruct H as (s' & E & _).
  - reflexivity.
  - rewrite test_fs_inode. discriminate.
  - intros HH. exfalso. vm_compute in HH. apply HH. reflexivity.
  - exists s'. split; [|apply H2; vm_compute; discriminate]. rewrite E, test_fs_inode. reflexivity.
Defined.

(** ** Reading and writing *)

(** C28: [readi] into kernel memory.  With [c] the rest of the block that
    contains [off], a read that stays inside the block returns exactly the
    bytes of the file from [off] on, cut at the file's size.  A longer read
    returns the same chunk [c] over and over, because the loop does not advance
    [off].  A start beyond the file's end reads nothing. *)
Theorem readi_reads {Ot : Others} {D : BlockDev} `{!BlockDevOk D} s p ip off n :
  let x := inode_at s ip in
  let b := file_block s x (off / BSIZE) in
  let c := drop (Z.to_nat (off mod BSIZE)) (disk_block s b) in
  let n' := Z.min n (i_size x - off) in
  fs_ready s p -> inode_ok x -> 0 <= off < MAXFILE * BSIZE -> 0 < b < 2 ^ 31 ->
  (NDIRECT <= off / BSIZE -> nth 12 (i_addrs x) 0 <> 0) -> length (disk_block s b) = Z.to_nat BSIZE ->
  0 <= i_size x < 2 ^ 31 -> 0 <= n < 2 ^ 31 ->
  (i_size x < off -> readi ip DLocal off n s = Ok (0, []) s) /\
  (off <= i_size x -> exists s', readi ip DLocal off n s = Ok (n', repeated c (Z.to_nat n')) s' /\
     fs_ready s' p /\ io_frame s s' /\ k_disk s' = k_disk s) /\
  (off <= i_size x -> n' <= BSIZE - off mod BSIZE -> repeated c (Z.to_nat n') = take (Z.to_nat n') c).
Proof.
  intros x b c n' Hs Hx Ho Hb Hi Hlen Hsz Hn. split; [|split].
  - intros Hlt. unfold readi, get_inode. step_prim. fold x. destruct (Z.ltb_spec (i_size x) off); [done|lia].
  - intros Hle. apply readi_local; try done; [lia| |fold x; lia]. apply Z.div_lt_upper_bound; unfold BSIZE in *; lia.
  - intros Hle Hn'. destruct (decide (n' <= 0)) as [H0|H0].
    + by replace (Z.to_nat n') with 0%nat by lia.
    + apply repeated_take; [lia|]. unfold c. rewrite length_drop, Hlen.
      pose proof (Z.mod_pos_bound off BSIZE eq_refl). lia.
Qed.

(** 48 bytes from offset 1000 of a file whose first block ends in 1, 2, 3, ..., 24:
    the second half is the first again. *)
Lemma readi_reads_witness :
  exists s', @readi alone instant_disk 0 DLocal 1000 48
      (test_fs {[5 := replicate 1000 0 ++ (Z.of_nat <$> seq 1 24)]} 2000 5) =
    Ok (48, (Z.of_nat <$> seq 1 24) ++ (Z.of_nat <$> seq 1 24)) s'.
Proof.
  set (d := {[5 := replicate 1000 0 ++ (Z.of_nat <$> seq 1 24)]} : gmap Z (list Z)).
  pose proof (test_fs_inode d 2000 5) as Hx.
  assert (disk_block (test_fs d 2000 5) 5 = replicate 1000 0 ++ (Z.of_nat <$> seq 1 24)) as Hd.
  { unfold disk_block. rewrite test_fs_disk. reflexivity. }
  destruct (@readi_reads alone instant_disk instant_disk_ok (test_fs d 2000 5) 0 0 1000 48
    (test_fs_ready d 2000 5)) as (_ & H & _).
  - rewrite Hx. split; [reflexivity|reflexivity|]. cbn. repeat (constructor; [clear; lia|]). constructor.
  - clear. vm_compute. split; [discriminate|reflexivity].
  - rewrite Hx. clear. vm_compute. split; reflexivity.
  - intros HH. exfalso. vm_compute in HH. apply HH. reflexivity.
  - rewrite Hx. change (file_block (test_fs d 2000 5) (test_inode 2000 5 inode0) (1000 / BSIZE)) with 5.
    rewrite Hd. reflexivity.
  - rewrite Hx. cbn. clear. lia.
  - clear. lia.
  - destruct H as (s' & E & _); [rewrite Hx; cbn; clear; lia|]. exists s'. rewrite E, Hx.
    change (file_block (test_fs d 2000 5) (test_inode 2000 5 inode0) (1000 / BSIZE)) with 5. rewrite Hd. reflexivity.
Defined.

(** C40: [writei] refuses without touching the file.  A start beyond the file's
    size, and every write whose end lies beyond [MAXFILE] (268, which the code
    compares with a byte count), prints a message and returns -1; inode,
    buffers and disk are unchanged. *)
Theorem writei_refusals {L : LinkMap} {Ot : Others} {D : BlockDev} s ip src off n :
  kready s -> uart_ready s -> 0 <= off -> 0 <= n -> off + n < 2 ^ 32 -> 0 <= i_size (inode_at s ip) ->
  (i_size (inode_at s ip) < off ->
     writei ip src off n s = Ok (-1) (emit (str "off > ip->size || off + n < off " ++ [NL]) (touch s))) /\
  (off <= i_size (inode_at s ip) -> MAXFILE < off + n ->
     writei ip src off n s = Ok (-1) (emit maxfile_msg (touch s))).
Proof.
  intros Hk Hu Ho Hn Hb Hsz. split; [|intros; by apply writei_refuses].
  intros Hlt. unfold writei, get_inode.
  rewrite (bind_ok _ _ _ _ _ (eq_refl : gets (fun s => inode_at s ip) s = Ok (inode_at s ip) s)).
  destruct (Z.ltb_spec (i_size (inode_at s ip)) off); [|lia]. cbn [orb].
  set (m := str "off > ip->size || off + n < off " ++ [NL]).
  rewrite (bind_ok _ _ _ _ _ (printf_plain m s (kr_cpu s Hk) ltac:(pose proof (kr_noff s Hk); lia) Hu
    ltac:(repeat constructor; done) ltac:(done) (fun _ => kr_locks s Hk LPr I))).
  done.
Qed.

(** 269 bytes at offset 0 of an empty file. *)
Lemma writei_refusals_witness :
  @writei test_link alone instant_disk 0 (SLocal (replicate 269 0)) 0 269 test_ready_uart
    = Ok (-1) (emit maxfile_msg (touch test_ready_uart)).
Proof.
  apply (@writei_refusals test_link alone instant_disk test_ready_uart 0 (SLocal (replicate 269 0)) 0 269).
  - destruct test_state_ready. split; assumption.
  - exact test_ready_uart_ok.
  - lia.
  - lia.
  - lia.
  - vm_compute. discriminate.
  - vm_compute. discriminate.
  - vm_compute. reflexivity.
Defined.

(** ** Directories *)

(** Name lookup in a directory of one block.  [inodeByName] returns; when
    no entry carries the name (compared up to [DIRSIZ] bytes) the result is
    null; otherwise it is the inode-table slot [iget] gives for the number in
    the first entry that does.  An entry whose number is 0 is not skipped.*)
Theorem inodeByName_finds {Ot : Others} {D : BlockDev} `{!BlockDevOk D} s p ip name k :
  let x := inode_at s ip in
  let b := nth 0 (i_addrs x) 0 in
  let es := dir_entries (disk_block s b) k in
  fs_ready s p -> inode_ok x -> 0 < b < 2 ^ 31 -> i_size x = 16 * Z.of_nat k -> (k <= 64)%nat ->
  length (disk_block s b) = Z.to_nat BSIZE -> Forall (fun c => 0 <= c < 2 ^ 8) (disk_block s b) -> bytes name ->
  exists s', fs_ready s' p /\ io_frame s s' /\ k_disk s' = k_disk s /\
    ((forall e, e ∈ es -> names name e = false) -> inodeByName ip name s = Ok None s') /\
    (forall i e, es !! i = Some e -> names name e = true ->
       (forall j e', (j < i)%nat -> es !! j = Some e' -> names name e' = false) ->
       inodeByName ip name s = (r ← iget ROOTDEV (de_inum e); mret (Some r)) s').
Proof.
  intros x b es Hs Hx Hb Hsz Hk Hlen Hby Hname.
  destruct (inodeByName_dir s p ip name k Hs Hx Hb Hsz Hk Hlen Hby Hname) as (s' & (Hs' & F & Hd) & E).
  fold x b es in E. exists s'. split; [done|]. split; [done|]. split; [done|].
  destruct (find_index (names name) es) as [i|] eqn:Ef.
  - apply find_index_Some in Ef as (e & He & Hn & Hmin). split.
    + intros Hnone. rewrite (Hnone e) in Hn; [done|]. by eapply list_elem_of_lookup_2.
    + intros j e' He' Hn' Hmin'. assert (j = i) as ->.
      { destruct (Nat.lt_trichotomy i j) as [H|[H|H]]; [|done|].
        - rewrite (Hmin' i e H He) in Hn. done.
        - rewrite (Hmin j e' H He') in Hn'. done. }
      rewrite E. rewrite (list_lookup_total_correct _ _ _ He). congruence.
  - apply find_index_None in Ef. split; [done|]. intros j e' He' Hn'.
    rewrite (Forall_lookup_1 _ _ _ _ Ef He') in Hn'. done.
Qed.

Definition test_entry (inum : Z) (name : string) : list Z :=
  enc_dirent (mkDirent inum (strncpy (of_list (str name)) (Z.of_nat DIRSIZ))).
Definition test_dir : list Z := test_entry 1 "." ++ test_entry 7 "init" ++ replicate 992 0.

(** "init" in a directory of "." and "init". *)
Lemma inodeByName_finds_witness :
  exists s', @inodeByName alone instant_disk 0 (of_list (str "init")) (test_fs {[5 := test_dir]} 32 5) =
    (r ← iget ROOTDEV 7; mret (Some r)) s'.
Proof.
  set (d := {[5 := test_dir]} : gmap Z (list Z)).
  pose proof (test_fs_inode d 32 5) as Hx.
  assert (disk_block (test_fs d 32 5) 5 = test_dir) as Hd.
  { unfold disk_block. rewrite test_fs_disk. reflexivity. }
  pose proof (@inodeByName_finds alone instant_disk instant_disk_ok (test_fs d 32 5) 0 0 (of_list (str "init")) 2
    (test_fs_ready d 32 5)) as T. cbv zeta in T. rewrite Hx in T.
  change (nth 0 (i_addrs (test_inode 32 5 inode0)) 0) with 5 in T. rewrite Hd in T.
  destruct T as (s' & _ & _ & _ & _ & H).
  - split; [reflexivity|reflexivity|]. cbn. repeat (constructor; [clear; lia|]). constructor.
  - clear. lia.
  - reflexivity.
  - clear. lia.
  - reflexivity.
  - clear. apply (bool_decide_unpack _). vm_compute. exact I.
  - apply of_list_bytes. clear. apply (bool_decide_unpack _). vm_compute. exact I.
  - exists s'. apply (H 1%nat (dec_dirent (test_entry 7 "init"))).
    + reflexivity.
    + vm_compute. reflexivity.
    + intros j e' Hj He'. destruct j as [|j]; [|lia]. injection He' as <-. vm_compute. reflexivity.
Defined.
