(* ===== verification/ForkSpec.v ===== *)
(** * [fork]

    The child's slot, its copy of the parent's memory, trap frame, open files and
    directory; and what is left when memory runs out. *)

From S2P Require Import Prelude Layout Memory CString State Spinlock Sched Sleeplock Uart Print.
From S2P Require Import Kmem PageTable Uvm UvmProps UvmGrow UvmShrink UvmAlloc UvmCopy.
From S2P Require Import Console Ondisk Bio Block Fs FsProps File Proc Resume Fork MemSpec CopySpec.

(** ** The trap frame *)

(** [*p->trapframe = *now->trapframe; p->trapframe->a0 = 0]. *)
Definition copy_frame (m : memory) (tf from : Z) : memory :=
  store64 (store_bytes m tf (load_bytes m from TF_size)) (tf + TF_a0) 0.

Lemma copy_frame_mem m tf from x :
  mem_wf m ->
  load8 (copy_frame m tf from) x =
    if decide (tf <= x < tf + Z.of_nat TF_size)
    then if decide (TF_a0 <= x - tf < TF_a0 + 8) then 0 else load8 m (from + (x - tf))
    else load8 m x.
Proof.
  intros Hwf. unfold copy_frame. rewrite load8_store64_zero, load8_store_bytes, length_load_bytes.
  change (Z.of_nat TF_size) with 288. change TF_a0 with 112.
  destruct (decide (tf <= x < tf + 288)), (decide (112 <= x - tf < 112 + 8)), (decide (tf + 112 <= x < tf + 112 + 8));
    try lia; try done.
  rewrite lookup_load_bytes by (unfold TF_size; lia). cbn [default from_option id]. rewrite Z2Nat.id by lia.
  unfold u8. rewrite Z.mod_small by by apply load8_range. done.
Qed.

Section frame.
  Context `{HL : LinkOk}.
  Implicit Types (s : kstate) (l : list Z).

(** Writing the frame disturbs neither address space. *)
Lemma copy_frame_spec s old new l tf from :
  two_spaces s old new l -> both_data s old new l tf ->
  let m := copy_frame (k_mem s) tf from in
  two_spaces (set_k_mem m s) old new l /\
  (forall va, pte_of m old va = pte_of (k_mem s) old va) /\ (forall va, pte_of m new va = pte_of (k_mem s) new va) /\
  (forall x, ~ in_page x tf -> load8 m x = load8 (k_mem s) x) /\
  (forall pa, both_data s old new l pa -> both_data (set_k_mem m s) old new l pa).
Proof.
  intros [Ho Hn Hd] [Hdo Hdn] m. pose proof (vi_kmem _ _ _ Ho) as Hk. pose proof (ki_mem _ _ Hk) as Hwf.
  assert (forall x, ~ in_page x tf -> load8 m x = load8 (k_mem s) x) as Hx.
  { intros x Hx. unfold m. rewrite copy_frame_mem by done. rewrite decide_False; [done|].
    unfold in_page, PGSIZE in Hx. change (Z.of_nat TF_size) with 288. lia. }
  assert (mem_wf m) as Hwf' by (apply mem_wf_store64, mem_wf_store_bytes, Hwf).
  assert (forall root, data_page s root l tf -> forall x pa, page_ok pa -> in_page x pa -> ~ data_page s root l pa ->
    load8 m x = load8 (k_mem s) x) as Hw.
  { intros root Hr x pa Hok Hin Hnd. apply Hx. intros Hin'. apply Hnd. 
    assert (pa = tf) as -> by (apply (page_sep pa tf x); [done|apply Hr|done|done]). exact Hr. }
  destruct (data_write s m old l Ho Hwf' (Hw old Hdo)) as (Ho' & Hto & Hpo).
  destruct (data_write s m new l Hn Hwf' (Hw new Hdn)) as (Hn' & Htn & Hpn).
  split; [|split; [done|split; [done|split; [done|]]]].
  - split; [done|done|]. intros id id' t Hid Hid'. cbn [k_mem set_k_mem]. rewrite Hto, Htn by done. by apply Hd.
  - intros pa [(Hok & Hnin & Hot) (_ & _ & Hnt)]. split; (split; [done|split; [done|]]); intros id Hid;
      cbn [k_mem set_k_mem]; [rewrite Hto by done; by apply Hot|rewrite Htn by done; by apply Hnt].
Qed.

(** The child's memory: a copy of the parent's below [sz], the trampoline and the
    trap frame at the top, on pages that were free; the parent's trap frame with
    [a0] cleared in the child's; every page of the parent as it was. *)
Record child_memory (s s' : kstate) (l l' : list Z) (old new tf : Z) (x : proc) : Prop := {
  cm_two : two_spaces s' old new l';
  cm_flags : forall va, 0 <= va < PGROUNDUP (p_sz x) ->
    PTE_FLAGS (pte_of (k_mem s') new va) = PTE_FLAGS (pte_of (k_mem s) old va);
  cm_bytes : forall va, 0 <= va < PGROUNDUP (p_sz x) ->
    load8 (k_mem s') (phys (k_mem s') new va) = load8 (k_mem s) (phys (k_mem s) old va);
  cm_own : forall va, 0 <= va < PGROUNDUP (p_sz x) ->
    PTE2PA (pte_of (k_mem s') new va) ∈ l /\ both_data s' old new l' (PTE2PA (pte_of (k_mem s') new va));
  cm_inj : forall va va', 0 <= va < PGROUNDUP (p_sz x) -> 0 <= va' < PGROUNDUP (p_sz x) ->
    PTE2PA (pte_of (k_mem s') new va) = PTE2PA (pte_of (k_mem s') new va') -> va / PGSIZE = va' / PGSIZE;
  cm_top : forall va, PGROUNDUP (p_sz x) <= va < MAXVA -> pte_of (k_mem s') new va = top_pages tf va;
  cm_frame : forall k, 0 <= k < Z.of_nat TF_size -> load8 (k_mem s') (tf + k) =
    if decide (TF_a0 <= k < TF_a0 + 8) then 0 else load8 (k_mem s) (p_trapframe x + k);
  cm_parent : forall va, pte_of (k_mem s') old va = pte_of (k_mem s) old va;
  cm_kept : forall pa z, data_page s old l pa -> in_page z pa -> load8 (k_mem s') z = load8 (k_mem s) z
}.

Lemma child_memory_made s h s2 l l1 l2 old new tf x :
  0 <= p_sz x <= TRAPFRAME -> mapped_range s old l 0 (PGROUNDUP (p_sz x)) -> data_page s old l (p_trapframe x) -> tf ∈ l ->
  made_beside s l h l1 old new -> both_data h old new l1 tf ->
  (forall va, 0 <= va < MAXVA -> pte_of (k_mem h) new va = top_pages tf va) ->
  copied_to h l1 s2 l2 old new 0 (PGROUNDUP (p_sz x)) ->
  child_memory s (set_k_mem (copy_frame (k_mem s2) tf (p_trapframe x)) s2) l l2 old new tf x.
Proof.
  intros Hsz Hmr Hfr Htf [Hts Hsub Hold Hdata] Hdtf Htop [T G F P I B R].
  destruct (both_data_grow _ _ _ _ _ _ tf Hts (ts_new _ _ _ _ T) G Hdtf) as [Hdtf2 _].
  destruct (other_grow _ _ _ _ _ _ Hts (ts_new _ _ _ _ T) G) as (_ & Ho2 & _).
  destruct (copy_frame_spec s2 old new l2 tf (p_trapframe x) T Hdtf2) as (T' & Ho' & Hn' & Hx' & Hd').
  pose proof (ki_mem _ _ (vi_kmem _ _ _ (ts_new _ _ _ _ T))) as Hwf2.
  assert (forall pa z, data_page s old l pa -> in_page z pa -> load8 (k_mem s2) z = load8 (k_mem s) z) as Hkept.
  { intros pa z Hpa Hz. destruct (Hdata pa Hpa) as [Hb Hx].
    destruct (both_data_grow _ _ _ _ _ _ pa Hts (ts_new _ _ _ _ T) G Hb) as [_ Hx2]. by rewrite Hx2, Hx. }
  assert (PGROUNDUP (p_sz x) <= MAXVA) as Hup by apply Hmr.
  set (m := copy_frame (k_mem s2) tf (p_trapframe x)) in *.
  assert (forall pa z, page_ok pa -> pa <> tf -> in_page z pa -> load8 m z = load8 (k_mem s2) z) as Hout.
  { intros pa z Hok Hne Hz. apply Hx'. intros Hz'. apply Hne. apply (page_sep pa tf z); [done|apply Hdtf2|done|done]. }
  split; cbn [k_mem set_k_mem].
  - exact T'.
  - intros va Hva. rewrite Hn', F, Hold by done. done.
  - intros va Hva. destruct (P va Hva) as [Hin Hb]. assert (phys m new va = phys (k_mem s2) new va) as ->.
    { unfold phys. by rewrite Hn'. }
    rewrite (Hout (PTE2PA (pte_of (k_mem s2) new va))); [|apply Hb| |apply phys_in_page].
    + rewrite B by done. unfold phys. rewrite Hold. destruct (Hdata _ (mr_data _ _ _ _ _ Hmr va Hva)) as [_ Hx].
      apply Hx, phys_in_page.
    + intros E. destruct Hdtf as [(_ & Hnin & _) _]. apply Hnin. by rewrite <- E.
  - intros va Hva. rewrite Hn'. destruct (P va Hva) as [Hin Hb]. split; [by apply Hsub|by apply Hd'].
  - intros va va' Hva Hva'. rewrite !Hn'. by apply I.
  - intros va Hva. assert (0 <= PGROUNDUP (p_sz x)) as Hpos.
    { destruct (PGROUNDUP_spec (p_sz x)) as [_ H]; unfold PGSIZE in *; change TRAPFRAME with (2 ^ 38 - 8192) in *; lia. }
    rewrite Hn', R, Htop by lia. done.
  - intros k Hk. unfold m. rewrite copy_frame_mem by done. rewrite decide_True by lia.
    replace (tf + k - tf) with k by lia. destruct (decide (TF_a0 <= k < TF_a0 + 8)); [done|].
    apply (Hkept (p_trapframe x)); [done|]. unfold in_page, PGSIZE. change (Z.of_nat TF_size) with 288 in Hk. lia.
  - intros va. by rewrite Ho', Ho2, Hold.
  - intros pa z Hpa Hz. rewrite (Hout pa); [by apply (Hkept pa)|apply Hpa| |done].
    intros ->. destruct Hpa as (_ & Hnin & _). done.
Qed.
End frame.

(** ** Open files *)

Definition file_up (x : file) : file := set_f_ref (f_ref x + 1) x.

(** The loop over the parent's descriptors, on the file table and on the
    child's descriptors. *)
Definition dup_files (open : list (option nat)) (fds : list nat) (fs : list file) : list file :=
  foldl (fun fs fd => match open !!! fd with Some f => upd_at f file_up fs | None => fs end) fs fds.
Definition dup_open (open : list (option nat)) (fds : list nat) (c : list (option nat)) : list (option nat) :=
  foldl (fun c fd => match open !!! fd with Some f => <[fd := Some f]> c | None => c end) c fds.

(** How many of the descriptors refer to [f]. *)
Definition refs_to (open : list (option nat)) (fds : list nat) (f : nat) : nat :=
  length (filter (fun fd => open !!! fd = Some f) fds).

Lemma length_dup_files open fds fs : length (dup_files open fds fs) = length fs.
Proof.
  unfold dup_files. revert fs. induction fds as [|fd fds IH]; intros fs; [done|]. cbn [foldl].
  rewrite IH. case_match; [apply length_upd_at|done].
Qed.

Lemma dup_files_lookup open fds fs f :
  (f < length fs)%nat ->
  dup_files open fds fs !!! f = set_f_ref (f_ref (fs !!! f) + Z.of_nat (refs_to open fds f)) (fs !!! f).
Proof.
  intros Hf. unfold dup_files, refs_to. revert fs Hf. induction fds as [|fd fds IH]; intros fs Hf.
  - cbn. rewrite Z.add_0_r. by destruct (fs !!! f).
  - cbn [foldl]. rewrite filter_cons. destruct (open !!! fd) as [g|].
    + rewrite IH by by rewrite length_upd_at. destruct (decide (g = f)) as [->|Hne].
      * rewrite upd_at_eq by done. rewrite decide_True by done. unfold file_up, set_f_ref. cbn [length f_ref f_type f_readable f_writable f_ip f_off f_major].
        f_equal. rewrite Nat2Z.inj_succ. lia.
      * rewrite upd_at_ne by done. rewrite decide_False by congruence. done.
    + rewrite IH by done. by rewrite decide_False by done.
Qed.

Definition inherited (open : list (option nat)) (fd : nat) (c : option nat) : option nat :=
  match open !!! fd with Some f => Some f | None => c end.

Lemma dup_open_seq open c n :
  (n <= length c)%nat ->
  dup_open open (seq 0 n) c = imap (fun fd x => if decide (fd < n)%nat then inherited open fd x else x) c.
Proof.
  unfold dup_open. induction n as [|n IH]; intros Hn.
  - cbn. apply list_eq. intros k. rewrite list_lookup_imap. by destruct (c !! k).
  - rewrite seq_S, foldl_app, IH by lia. cbn [foldl plus]. apply list_eq. intros k. rewrite list_lookup_imap.
    destruct (decide (k = n)) as [->|Hk].
    + destruct (lookup_lt_is_Some_2 c n ltac:(lia)) as [x Hx]. rewrite Hx. cbn [fmap option_fmap option_map]. rewrite decide_True by lia.
      unfold inherited. destruct (open !!! n) as [f|].
      * rewrite list_lookup_insert_eq; [done|]. rewrite length_imap. lia.
      * rewrite list_lookup_imap, Hx. cbn [fmap option_fmap option_map]. by rewrite decide_False by lia.
    + transitivity (imap (fun fd x => if decide (fd < n)%nat then inherited open fd x else x) c !! k).
      * destruct (open !!! n); [by rewrite list_lookup_insert_ne|done].
      * rewrite list_lookup_imap. destruct (c !! k); [|done]. cbn [fmap option_fmap option_map]. f_equal.
        destruct (decide (k < n)%nat), (decide (k < S n)%nat); (reflexivity || lia).
Qed.

Lemma dup_open_all open c : length c = OPENFILE -> dup_open open (seq 0 OPENFILE) c = imap (inherited open) c.
Proof.
  intros Hl. rewrite dup_open_seq by lia. apply list_eq. intros k. rewrite !list_lookup_imap.
  destruct (c !! k) eqn:E; [|done]. cbn [fmap option_fmap option_map]. rewrite decide_True; [done|].
  rewrite <- Hl. by eapply lookup_lt_Some.
Qed.

(** ** Operations under the child's lock *)

Section under_lock.
  Context `{HL : LinkOk}.
  Implicit Types (s : kstate) (i f : nat).

Lemma held_ready (k k' : lockid) s : kready s -> lock_ok k' -> k <> k' -> cpu_wf (held k s) /\ lock_free k' (held k s).
Proof.
  intros Hk Hl Hne. split; [apply cpu_wf_held; [apply Hk|]|apply lock_free_held; [done|by apply Hk]].
  pose proof (kr_noff s Hk). lia.
Qed.

Lemma filedup_held i f s :
  kready s -> 1 <= f_ref (file_at s f) < 2 ^ 31 - 1 ->
  filedup f (held (LProc i) s) = Ok f (held (LProc i) (set_file f file_up s)).
Proof.
  intros Hk Hr. destruct (held_ready (LProc i) LFcache s Hk I ltac:(done)) as [Hc Hl].
  rewrite filedup_eq by done. rewrite touch_held by apply Hk. reflexivity.
Qed.

Lemma idup_held i d s : kready s -> idup d (held (LProc i) s) = Ok d (held (LProc i) (upd_inode d ref_up s)).
Proof.
  intros Hk. destruct (held_ready (LProc i) LIcache s Hk I ltac:(done)) as [Hc Hl].
  rewrite idup_eq by done. rewrite touch_held by apply Hk. reflexivity.
Qed.

Lemma upd_proc_held i p g s : upd_proc p g (held (LProc i) s) = Ok tt (held (LProc i) (upd_procs (upd_at p g) s)).
Proof. reflexivity. Qed.

(** The descriptors [fds] inherited from [open]. *)
Definition dup_upd i open fds s : kstate :=
  upd_procs (upd_at i (fun y => set_p_openfs (dup_open open fds (p_openfs y)) y)) (set_k_files (dup_files open fds (k_files s)) s).

Lemma kready_dup i open fds s : kready s -> kready (dup_upd i open fds s).
Proof.
  intros Hk. unfold dup_upd. apply kready_procs; [intros; apply length_upd_at|].
  apply (kready_neutral (fun s => set_k_files (dup_files open fds (k_files s)) s)); try done.
  apply length_dup_files.
Qed.

Lemma dup_loop i open fds s :
  kready s ->
  (forall fd f, fd ∈ fds -> open !!! fd = Some f ->
     (f < NFILE)%nat /\ 1 <= f_ref (file_at s f) /\ f_ref (file_at s f) + Z.of_nat (length fds) < 2 ^ 31) ->
  for_each fds (fun fd =>
    match open !!! fd with
    | Some f => f ← filedup f; upd_proc i (fun y => set_p_openfs (<[fd := Some f]> (p_openfs y)) y)
    | None => mret tt
    end) (held (LProc i) s) = Ok tt (held (LProc i) (dup_upd i open fds s)).
Proof.
  revert s. induction fds as [|fd fds IH]; intros s Hk Hr; cbn [for_each].
  - f_equal. f_equal. unfold dup_upd. cbn. unfold upd_procs, set_k_files. rewrite upd_at_id; [by destruct s as [????? ????? []]|].
    by destruct (procs _ !!! i).
  - assert (dup_upd i open (fd :: fds) s = dup_upd i open fds (dup_upd i open [fd] s)) as ->.
    { unfold dup_upd, upd_procs. kstate_eq. cbn [procs set_procs]. by rewrite upd_at_upd_at. }
    rewrite (bind_ok _ _ _ tt (held (LProc i) (dup_upd i open [fd] s))).
    + apply IH; [by apply kready_dup|]. intros fd' f Hin E. destruct (Hr fd' f ltac:(by right) E) as (Hf & H1 & H2).
      split; [done|]. assert (file_at (dup_upd i open [fd] s) f = dup_files open [fd] (k_files s) !!! f) as -> by done.
      rewrite dup_files_lookup by by rewrite (kr_nfiles s Hk). cbn [f_ref set_f_ref length] in *. unfold file_at in *.
      assert ((refs_to open [fd] f <= 1)%nat); [|lia].
      unfold refs_to. apply (length_filter (fun fd => open !!! fd = Some f) [fd]).
    + unfold dup_upd, dup_open, dup_files. cbn [foldl]. destruct (open !!! fd) as [f|] eqn:E.
      * destruct (Hr fd f ltac:(by left) E) as (_ & H1 & H2). cbn [length] in H2.
        rewrite (bind_ok _ _ _ _ _ (filedup_held i f s Hk ltac:(lia))). apply upd_proc_held.
      * f_equal. f_equal. unfold upd_procs, set_k_files. rewrite upd_at_id; [by destruct s as [????? ????? []]|].
        by destruct (procs _ !!! i).
Qed.

(** A critical section that writes one process. *)
Lemma section_step {A} (k : lockid) i g (m : K A) s :
  kready s -> lock_ok k -> (acquire k;; upd_proc i g;; release k;; m) s = m (touch (upd_procs (upd_at i g) s)).
Proof.
  intros Hk Hl. rewrite (bind_ok _ _ _ _ _ (acquire_free _ _ (kr_cpu s Hk) (kr_locks s Hk k Hl))).
  unfold upd_proc. rewrite (bind_ok _ _ _ tt (upd_procs (upd_at i g) (held k s))) by done.
  rewrite (bind_ok _ _ _ _ _ (release_neutral _ (neutral_procs (upd_at i g)) k s (kr_cpu s Hk) (kr_locks s Hk k Hl))).
  by rewrite (neutral_touch _ (neutral_procs _)).
Qed.

Lemma touch_once g h s : neutral g -> neutral h -> cpu_wf s -> touch (g (touch (h (touch s)))) = touch (g (h s)).
Proof.
  intros Hg Hh Hc. rewrite (neutral_touch h Hh s).
  assert (cpu_wf (h s)) as Hc1 by by apply (neutral_cpu_wf h Hh). rewrite (touch_touch (h s) Hc1).
  rewrite (neutral_touch g Hg (h s)). apply touch_touch. by apply (neutral_cpu_wf g Hg).
Qed.

(** What [fork] does after the copy of the address space, with the child's lock
    held: [u] is the state outside the lock. *)
Definition adopt (now d : nat) (x y : proc) : proc :=
  set_p_state RUNNABLE (set_p_parent (Some now) (copy_name (of_list (p_name x)) (set_p_pwd (Some d)
    (set_p_openfs (dup_open (p_openfs x) (seq 0 OPENFILE) (p_openfs y)) (set_p_sz (p_sz x) y))))).
Definition fork_upd (i now d : nat) (x : proc) (tf : Z) (u : kstate) : kstate :=
  upd_procs (upd_at i (adopt now d x)) (upd_inode d ref_up (set_k_files (dup_files (p_openfs x) (seq 0 OPENFILE) (k_files u))
    (set_k_mem (copy_frame (k_mem u) tf (p_trapframe x)) u))).

Lemma fork_tail i now d x tf u :
  kready u -> (i < NPROC)%nat -> p_trapframe (proc_at u i) = tf -> p_pwd x = Some d ->
  (forall fd f, (fd < OPENFILE)%nat -> p_openfs x !!! fd = Some f ->
     (f < NFILE)%nat /\ 1 <= f_ref (file_at u f) /\ f_ref (file_at u f) + Z.of_nat OPENFILE < 2 ^ 31) ->
  (upd_proc i (set_p_sz (p_sz x));;
   upd_mem (fun m => store_bytes m tf (load_bytes m (p_trapframe x) TF_size));;
   tf_set i TF_a0 0;;
   for_each (seq 0 OPENFILE) (fun fd =>
     match p_openfs x !!! fd with
     | Some f => f ← filedup f; upd_proc i (fun y => set_p_openfs (<[fd := Some f]> (p_openfs y)) y)
     | None => mret tt
     end);;
   d ← deref (p_pwd x);
   d ← idup d;
   upd_proc i (set_p_pwd (Some d));;
   upd_proc i (copy_name (of_list (p_name x)));;
   y ← get_proc i;
   let pid := i32 (p_pid y) in
   release (LProc i);;
   acquire LWait;;
   upd_proc i (set_p_parent (Some now));;
   release LWait;;
   acquire (LProc i);;
   upd_proc i (set_p_state RUNNABLE);;
   release (LProc i);;
   mret pid) (held (LProc i) u) = Ok (i32 (p_pid (proc_at u i))) (touch (fork_upd i now d x tf u)).
Proof.
  intros Hk Hi Htf Hd Hf.
  rewrite (bind_ok _ _ _ _ _ (upd_proc_held i i _ u)). set (u1 := upd_procs _ u).
  assert (kready u1) as Hk1 by (apply kready_procs; [intros; apply length_upd_at|done]).
  rewrite (bind_ok _ _ _ tt (held (LProc i) (set_k_mem (store_bytes (k_mem u) tf (load_bytes (k_mem u) (p_trapframe x) TF_size)) u1))) by done.
  assert (p_trapframe (proc_at u1 i) = tf) as Htf1.
  { unfold u1, proc_at, upd_procs. cbn. rewrite (upd_at_proj p_trapframe); done. }
  set (u2 := set_k_mem (copy_frame (k_mem u) tf (p_trapframe x)) u1).
  rewrite (bind_ok _ _ _ tt (held (LProc i) u2)).
  2: { unfold tf_set, get_proc. step_prim. unfold upd_mem, modify. f_equal. unfold u2, copy_frame. rewrite <- Htf1. reflexivity. }
  assert (kready u2) as Hk2.
  { apply (kready_neutral (set_k_mem (copy_frame (k_mem u) tf (p_trapframe x)))); done. }
  rewrite (bind_ok _ _ _ _ _ (dup_loop i (p_openfs x) (seq 0 OPENFILE) u2 Hk2
    ltac:(intros fd f Hin%elem_of_seq E; rewrite length_seq; apply (Hf fd); [lia|done]))).
  set (u3 := dup_upd _ _ _ u2). assert (kready u3) as Hk3 by by apply kready_dup.
  rewrite Hd. cbn [deref]. rewrite (bind_ok _ _ _ d (held (LProc i) u3)) by done.
  rewrite (bind_ok _ _ _ _ _ (idup_held i d u3 Hk3)). rewrite (bind_ok _ _ _ _ _ (upd_proc_held i i _ _)).
  rewrite (bind_ok _ _ _ _ _ (upd_proc_held i i _ _)). set (u4 := upd_procs _ (upd_procs _ _)).
  assert (kready u4) as Hk4.
  { do 2 (apply kready_procs; [intros; apply length_upd_at|]). apply (kready_neutral (upd_inode d ref_up)); try done.
    apply length_upd_at. }
  rewrite (bind_ok _ _ _ (proc_at u4 i) (held (LProc i) u4)) by done. cbv zeta.
  assert (p_pid (proc_at u4 i) = p_pid (proc_at u i)) as ->.
  { unfold u4, u3, u2, u1, dup_upd, proc_at, upd_procs. cbn. by rewrite !(upd_at_proj p_pid) by done. }
  rewrite acquire_release by done. assert (kready (touch u4)) as Ht4 by by apply kready_touch.
  rewrite (section_step LWait i _ _ _ Ht4 I). set (u5 := touch (upd_procs _ (touch u4))).
  assert (kready u5) as Hk5 by (apply kready_touch, kready_procs; [intros; apply length_upd_at|done]).
  rewrite (section_step (LProc i) i _ _ _ Hk5 Hi). unfold mret, prog_ret. f_equal. unfold u5.
  rewrite (touch_once _ _ u4 (neutral_procs _) (neutral_procs _) (kr_cpu u4 Hk4)). apply (f_equal touch).
  unfold u4, u3, u2, u1, dup_upd, fork_upd, upd_inode, upd_procs. kstate_eq. cbn [procs set_procs].
  by rewrite !upd_at_upd_at.
Qed.

(** The slot given back. *)
Definition freed_proc (y : proc) : proc :=
  set_p_state UNUSED (set_p_killed 0 ((fun z => set_p_name (<[0%nat := 0]> (p_name z)) z)
    (set_p_parent None (set_p_chan None (set_p_pid 0 (set_p_trapframe 0 y)))))).

Lemma freeproc_held i u tf l root :
  kready u -> p_trapframe (proc_at u i) = tf -> vm_inv (held (LProc i) u) root l -> data_page (held (LProc i) u) root l tf ->
  exists m fl, let u' := upd_procs (upd_at i freed_proc) (set_k_mem m (set_k_freelist fl u)) in
    freeproc i (held (LProc i) u) = Ok tt (held (LProc i) u') /\ vm_inv (held (LProc i) u') root (tf :: l) /\
    (forall va, pte_of m root va = pte_of (k_mem u) root va) /\
    (forall x, ~ in_page x tf -> load8 m x = load8 (k_mem u) x).
Proof.
  intros Hk Htf Hi Hd. destruct (free_page_spec _ root l tf Hi Hd) as (E & Hi' & _ & Hp).
  assert (touch (held (LProc i) u) = held (LProc i) u) as Et by (apply touch_held, Hk).
  pose proof (frame_held _ _ Et (kfree_upd_frame (held (LProc i) u) tf)) as Ef.
  set (s1 := kfree_upd (held (LProc i) u) tf) in *.
  assert (forall x, ~ in_page x tf -> load8 (k_mem s1) x = load8 (k_mem u) x) as Hx.
  { intros x Hx. apply (kfree_upd_mem (held (LProc i) u)). unfold in_page in Hx. lia. }
  exists (k_mem s1), (k_freelist s1). intros u'. split; [|split; [|split; [exact Hp|exact Hx]]].
  - unfold freeproc. rewrite (bind_ok _ _ _ (proc_at u i) (held (LProc i) u)) by done. rewrite Htf.
    pose proof (page_ok_pos tf (proj1 Hd)). destruct (Z.eqb_spec tf 0); [lia|]. cbn [negb]. rewrite (bind_ok _ _ _ _ _ E).
    rewrite Ef. unfold upd_proc. do 6 (rewrite (bind_ok _ _ _ tt _ (eq_refl : modify _ _ = _))). unfold modify. f_equal.
    unfold u', upd_procs. kstate_eq. cbn. by rewrite !upd_at_upd_at.
  - apply (vm_inv_transfer s1); [reflexivity|reflexivity|apply (held_ready (LProc i) LKmem u Hk I)..|exact Hi']; done.
Qed.
End under_lock.

(** ** [fork] *)

(** The process [now], which is [x], has forked: [s'] is [s] with the child in
    slot [i], and nothing else changed. *)
Record forked {L : LinkMap} (s s' : kstate) (l l' : list Z) (now i d : nat) (tf root : Z) (x : proc) : Prop := {
  fk_memory : child_memory s s' l l' (p_pagetable x) root tf x;
  fk_child : proc_at s' i = adopt now d x (born (nextPid (k_proc s)) tf root (proc_at s i));
  fk_open : p_openfs (proc_at s' i) = imap (inherited (p_openfs x)) (p_openfs (proc_at s i));
  fk_others : forall j, j <> i -> proc_at s' j = proc_at s j;
  fk_pid : nextPid (k_proc s') = i32 (nextPid (k_proc s) + 1);
  fk_files : forall f, (f < NFILE)%nat -> file_at s' f =
    set_f_ref (f_ref (file_at s f) + Z.of_nat (refs_to (p_openfs x) (seq 0 OPENFILE) f)) (file_at s f);
  fk_inodes : k_inodes s' = upd_at d ref_up (k_inodes s);
  fk_rest : exists m fl pt fs ins,
    s' = set_k_mem m (set_k_freelist fl (set_k_proc pt (set_k_files fs (set_k_inodes ins (touch s)))))
}.

(** [fork] gave up: the slot is free again and the parent as it was, but the
    page of the child's root table is lost. *)
Record fork_failed {L : LinkMap} (s s' : kstate) (l l' : list Z) (i : nat) (root : Z) (x : proc) : Prop := {
  ff_space : vm_inv s' (p_pagetable x) l';
  ff_free : l' ⊆ l;
  ff_leak : root ∈ l /\ root ∉ l';
  ff_parent : forall va, pte_of (k_mem s') (p_pagetable x) va = pte_of (k_mem s) (p_pagetable x) va;
  ff_kept : forall pa z, data_page s (p_pagetable x) l pa -> in_page z pa -> load8 (k_mem s') z = load8 (k_mem s) z;
  ff_slot : p_state (proc_at s' i) = UNUSED /\ p_pid (proc_at s' i) = 0 /\ p_trapframe (proc_at s' i) = 0 /\
    p_parent (proc_at s' i) = None;
  ff_others : forall j, j <> i -> proc_at s' j = proc_at s j;
  ff_rest : exists m fl pt, s' = set_k_mem m (set_k_freelist fl (set_k_proc pt (touch s)))
}.

Section fork.
  Context `{HL : LinkOk}.
  Implicit Types (s : kstate) (l : list Z).

(** What [fork] needs of the parent: a user address space below the trap frame,
    on pages of its own, a trap frame, a directory, and open files whose counts
    have room. *)
Record can_fork s l (x : proc) (d : nat) : Prop := {
  cf_space : vm_inv s (p_pagetable x) l;
  cf_size : 0 <= p_sz x <= TRAPFRAME;
  cf_mapped : mapped_range s (p_pagetable x) l 0 (PGROUNDUP (p_sz x));
  cf_frame : data_page s (p_pagetable x) l (p_trapframe x);
  cf_pwd : p_pwd x = Some d;
  cf_open : forall fd f, (fd < OPENFILE)%nat -> p_openfs x !!! fd = Some f ->
     (f < NFILE)%nat /\ 1 <= f_ref (file_at s f) /\ f_ref (file_at s f) + Z.of_nat OPENFILE < 2 ^ 31
}.

Lemma can_fork_touch s l x d : can_fork s l x d -> can_fork (touch s) l x d.
Proof.
  intros [Hs Hz Hm Hf Hp Ho]. split; [|done|by destruct Hm|exact Hf|done|exact Ho].
  apply (vm_inv_transfer s); [done|done|eapply cpu_wf_touch, vm_inv_cpu, Hs|apply Hs|done].
Qed.

(** The new space is ready for [uvmcopy]. *)
Lemma newborn_copyable s l i tf new u l1 x d :
  can_fork s l x d -> newborn s l i tf (p_pagetable x) new u l1 ->
  two_spaces (held (LProc i) u) (p_pagetable x) new l1 /\ copyable (held (LProc i) u) l1 (p_pagetable x) new (p_sz x) /\
  0 <= p_sz x <= MAXVA.
Proof.
  intros [Hs Hz Hm _ _ _] (_ & [Hts Hsub Hold Hdata] & _ & Htop).
  assert (TRAPFRAME = 2 ^ 38 - 8192 /\ MAXVA = 2 ^ 38) as [E1 E2] by done.
  split; [done|]. split; [|lia].
  assert (PGROUNDUP (p_sz x) <= TRAPFRAME) as Hup.
  { destruct (PGROUNDUP_spec (p_sz x)) as [Ha Hb]; [unfold PGSIZE; lia|]. unfold PGSIZE in *.
    pose proof (Z.div_mod (PGROUNDUP (p_sz x)) 4096). lia. }
  intros va Hva. rewrite Hold. split; [by apply (mr_pte _ _ _ _ _ Hm)|]. split; [by apply Hdata, (mr_data _ _ _ _ _ Hm)|].
  change (k_mem (held (LProc i) u)) with (k_mem u). rewrite Htop by lia. unfold top_pages. rewrite !decide_False; [done|..].
  - lia.
  - change TRAMPOLINE with (2 ^ 38 - 4096). lia.
Qed.

Lemma kready_with_vm m fl pt s :
  length (procs pt) = length (procs (k_proc s)) -> kready s -> kready (with_vm m fl pt s).
Proof. intros Hl Hk. by apply (kready_neutral (with_vm m fl pt)). Qed.

Lemma kready_vm_frame s s' : kready s -> vm_frame s s' -> kready s'.
Proof.
  intros Hk (b & m & fl & ->).
  assert (forall t, kready t -> kready (set_k_mem m (set_k_freelist fl t))) as H.
  { intros t Ht. by apply (kready_neutral (fun s => set_k_mem m (set_k_freelist fl s))). }
  destruct b; apply H; [by apply kready_touch|done].
Qed.

(** The state after [uvmcopy] or its failure, seen outside the child's lock. *)
Lemma newborn_after s l i tf old new u l1 s2 :
  kready s -> (i < NPROC)%nat -> newborn s l i tf old new u l1 -> vm_frame (held (LProc i) u) s2 ->
  exists u2, s2 = held (LProc i) u2 /\ kready u2 /\ k_mem u2 = k_mem s2 /\ k_freelist u2 = k_freelist s2 /\
    k_proc u2 = born_table i tf new (k_proc s) /\ k_files u2 = k_files s /\ k_inodes u2 = k_inodes s /\
    u2 = with_vm (k_mem s2) (k_freelist s2) (k_proc u2) s.
Proof.
  intros Hk Hi ((m & fl & ->) & _) Hf. set (pt := born_table i tf new (k_proc s)) in *.
  assert (length (procs pt) = length (procs (k_proc s))) as Hl by apply length_upd_at.
  pose proof (kready_with_vm m fl pt s Hl Hk) as Hku.
  pose proof (frame_held _ _ (touch_held (LProc i) _ (kr_cpu _ Hku)) Hf) as E.
  exists (with_vm (k_mem s2) (k_freelist s2) pt s). split; [exact E|]. split; [by apply kready_with_vm|]. done.
Qed.

Lemma born_at s i tf new : kready s -> (i < NPROC)%nat ->
  procs (born_table i tf new (k_proc s)) !!! i = born (nextPid (k_proc s)) tf new (proc_at s i).
Proof. intros Hk Hi. apply upd_at_eq. rewrite (kr_nprocs s Hk). exact Hi. Qed.

(** The child in place, field by field. *)
Definition adopted (i now d : nat) (x : proc) (tf : Z) (u : kstate) : kstate :=
  set_k_mem (copy_frame (k_mem u) tf (p_trapframe x)) (set_k_freelist (k_freelist u)
    (set_k_proc (set_procs (upd_at i (adopt now d x) (procs (k_proc u))) (k_proc u))
      (set_k_files (dup_files (p_openfs x) (seq 0 OPENFILE) (k_files u))
        (set_k_inodes (upd_at d ref_up (k_inodes u)) (touch u))))).
Lemma fork_upd_eq i now d x tf u : touch (fork_upd i now d x tf u) = adopted i now d x tf u.
Proof. unfold fork_upd, adopted, upd_procs, upd_inode, touch, upd_cpu. by kstate_eq. Qed.

Lemma fork_copied s l now i tf root u l1 s2 l2 x d :
  kready s -> (i < NPROC)%nat -> length (p_openfs (proc_at s i)) = OPENFILE -> tf ∈ l ->
  can_fork s l x d -> newborn s l i tf (p_pagetable x) root u l1 ->
  copied_to (held (LProc i) u) l1 s2 l2 (p_pagetable x) root 0 (PGROUNDUP (p_sz x)) ->
  exists u2, s2 = held (LProc i) u2 /\ kready u2 /\ p_trapframe (proc_at u2 i) = tf /\
    p_pid (proc_at u2 i) = u32 (nextPid (k_proc s)) /\ k_files u2 = k_files s /\
    forked s (adopted i now d x tf u2) l l2 now i d tf root x.
Proof.
  intros Hk Hi Hop Htf Hcf Hnb Hct. pose proof Hnb as (_ & Hmb & Hdtf & Htop).
  destruct (newborn_after _ _ _ _ _ _ _ _ _ Hk Hi Hnb (pe_frame _ _ _ _ _ (ct_grow _ _ _ _ _ _ _ _ Hct)))
    as (u2 & E & Hk2 & Em & Ef & Ep & Efi & Ei & Eu).
  pose proof (born_at s i tf root Hk Hi) as Hb.
  assert (proc_at u2 i = born (nextPid (k_proc s)) tf root (proc_at s i)) as Epi by (unfold proc_at; by rewrite Ep).
  exists u2. split; [done|]. split; [done|]. rewrite Epi. do 3 (split; [done|]).
  pose proof (child_memory_made s (held (LProc i) u) s2 l l1 l2 (p_pagetable x) root tf x (cf_size _ _ _ _ Hcf) (cf_mapped _ _ _ _ Hcf)
    (cf_frame _ _ _ _ Hcf) Htf Hmb Hdtf Htop Hct) as Hcm.
  set (s' := adopted i now d x tf u2).
  assert (k_mem s' = copy_frame (k_mem s2) tf (p_trapframe x)) as Ems by exact (f_equal (fun m => copy_frame m tf (p_trapframe x)) Em).
  assert (proc_at s' i = adopt now d x (born (nextPid (k_proc s)) tf root (proc_at s i))) as Eci.
  { rewrite <- Epi. unfold proc_at, s', adopted. kred. cbn [procs set_procs]. apply upd_at_eq. by rewrite (kr_nprocs u2 Hk2). }
  split.
  - destruct Hcm as [T F B O I Tp Fr P K]. split; rewrite ?Ems; try done.
    + eapply (two_spaces_transfer (set_k_mem (copy_frame (k_mem s2) tf (p_trapframe x)) s2)); [exact Ems| | | |exact T].
      * unfold s', adopted. kred. exact Ef.
      * apply (cpu_wf_touch u2 (kr_cpu u2 Hk2)).
      * exact (kr_locks u2 Hk2 LKmem Logic.I).
    + intros va Hva. destruct (O va Hva) as [H1 H2]. split; [done|]. by eapply both_data_mem; [|exact H2].
  - exact Eci.
  - rewrite Eci. cbn [adopt p_openfs set_p_state set_p_parent copy_name set_p_name set_p_pwd set_p_openfs]. apply dup_open_all. exact Hop.
  - intros j Hj. unfold proc_at, s', adopted. kred. cbn [procs set_procs]. rewrite upd_at_ne by done. rewrite Ep. unfold born_table. cbn [procs set_procs]. by apply upd_at_ne.
  - unfold s', adopted. kred. rewrite Ep. reflexivity.
  - intros f Hf. unfold file_at, s', adopted. kred. rewrite Efi. apply dup_files_lookup. by rewrite (kr_nfiles s Hk).
  - unfold s', adopted. kred. by rewrite Ei.
  - unfold s', adopted. assert (touch u2 = with_vm (k_mem s2) (k_freelist s2) (k_proc u2) (touch s)) as -> by (rewrite Eu; reflexivity).
    by eexists _, _, _, _, _.
Qed.

(** Running out of memory in [uvmcopy]. *)
Lemma fork_refused s l i tf root u l1 s2 l2 x d :
  kready s -> (i < NPROC)%nat -> tf ∈ l -> root ∈ l -> can_fork s l x d -> newborn s l i tf (p_pagetable x) root u l1 ->
  given_back (held (LProc i) u) l1 s2 l2 root ->
  exists u2, freeproc i s2 = Ok tt (held (LProc i) u2) /\ kready u2 /\ fork_failed s (touch u2) l (tf :: l2) i root x.
Proof.
  intros Hk Hi Htf Hrl Hcf Hnb [Hgi Hgg _]. pose proof Hnb as (_ & Hmb & Hdtf & _).
  destruct (newborn_after _ _ _ _ _ _ _ _ _ Hk Hi Hnb (pe_frame _ _ _ _ _ Hgg)) as (u2 & E & Hk2 & Em & _ & Ep & _ & _ & Eu).
  pose proof (born_at s i tf root Hk Hi) as Hb.
  pose proof (mb_two _ _ _ _ _ _ Hmb) as Hts.
  destruct (both_data_grow _ _ _ _ _ _ tf Hts Hgi Hgg Hdtf) as [[Hd2 Hdn2] _].
  pose proof (made_grow _ _ _ _ _ _ _ _ Hmb Hgi Hgg) as Hmb2. destruct (mb_two _ _ _ _ _ _ Hmb2) as [Ho2 _ _].
  rewrite E in Ho2, Hd2.
  destruct (freeproc_held i u2 tf l2 (p_pagetable x) Hk2) as (m & fl & Ef & Hi3 & Hp3 & Hx3); [unfold proc_at; by rewrite Ep, Hb|done|done|].
  cbv zeta in Ef. set (u3 := upd_procs _ _) in *. exists u3. rewrite E. split; [done|].
  assert (kready u3) as Hk3.
  { apply kready_procs; [intros; apply length_upd_at|]. rewrite Eu in Hk2 |- *. unfold with_vm in *. cbn [set_k_mem set_k_freelist] in *.
    by apply (kready_neutral (fun s => set_k_mem m (set_k_freelist fl s))). }
  split; [done|].
  assert (proc_at (touch u3) i = freed_proc (born (nextPid (k_proc s)) tf root (proc_at s i))) as Ei.
  { rewrite <- Hb, <- Ep. apply upd_at_eq. exact (eq_ind_r (fun n => (i < n)%nat) Hi (kr_nprocs u2 Hk2)). }
  split.
  - apply (vm_inv_transfer (held (LProc i) u3)); [done|done|exact (kr_cpu _ (kready_touch _ Hk3))|exact (kr_locks u3 Hk3 LKmem I)|done].
  - intros z [->|Hz]%elem_of_cons; [done|by apply (mb_free _ _ _ _ _ _ Hmb2)].
  - split; [done|]. intros [->|Hz]%elem_of_cons.
    + by destruct Hdn2 as (_ & _ & Ht); apply (Ht T2 I).
    + by apply (vi_disj _ _ _ Hgi T2 root I eq_refl).
  - intros va. change (k_mem (touch u3)) with m. rewrite Hp3, Em. apply (mb_old _ _ _ _ _ _ Hmb2).
  - intros pa z Hpa Hz. change (k_mem (touch u3)) with m. rewrite Hx3.
    + rewrite Em. by apply (mb_data _ _ _ _ _ _ Hmb2 pa Hpa).
    + intros Hz'. destruct Hpa as (Hok & Hnin & _). apply Hnin. by rewrite (page_sep pa tf z Hok (proj1 Hd2) Hz Hz').
  - by rewrite Ei.
  - intros j Hj. unfold u3, proc_at, upd_procs. cbn. rewrite upd_at_ne by done. rewrite Ep. by apply upd_at_ne.
  - unfold u3. rewrite Eu. by eexists _, _, _.
Qed.

Lemma forked_touch s s' l l' now i d tf root x : touch s = touch (touch s) ->
  forked (touch s) s' l l' now i d tf root x -> forked s s' l l' now i d tf root x.
Proof. intros Et [[T F B O Ij Tp Fr P K] C Op Ot' Pi Fi In Re]. rewrite <- Et in Re. by split; [split|..]. Qed.

Lemma fork_failed_touch s s' l l' i root x : touch s = touch (touch s) ->
  fork_failed (touch s) s' l l' i root x -> fork_failed s s' l l' i root x.
Proof. intros Et [A B C E F G H Re]. rewrite <- Et in Re. by split. Qed.
End fork.

(** C6: [fork] creates a copy of the calling process or leaves no trace but a
    leaked page.  With an unused slot and six free pages beside the parent's
    own, the call returns without a panic.  Either it returns the child's pid:
    the first unused slot is then a runnable process whose memory below the
    size holds the same bytes with the same permissions on pages of its own,
    whose trap frame is the parent's with 0 in [a0], and which shares the
    parent's open files and directory, every count raised by the references
    added; the parent, its memory and every other process are unchanged.  Or it
    returns -1, only for want of memory: then the slot is unused again and the
    parent unchanged, but the child's page table is not given back. *)
Theorem fork_outcomes {L : LinkMap} {HL : LinkOk L} (s : kstate) (now i d : nat) (tf root : Z) (l : list Z) :
  let x := proc_at s now in
  let l0 := tf :: root :: l in
  kready s -> curproc s = Some now -> p_state x <> UNUSED ->
  first_unused s i -> length (p_openfs (proc_at s i)) = OPENFILE ->
  can_fork s l0 x d -> (4 <= length l)%nat ->
  exists r s' l', fork s = Ok r s' /\
    (r = i32 (u32 (nextPid (k_proc s))) /\ forked s s' l0 l' now i d tf root x \/
     r = -1 /\ fork_failed s s' l0 l' i root x /\ (length l < 4 + 3 * grow_pages 0 (p_sz x))%nat).
Proof.
  intros x l0 Hk Hp Hx Hu Hop Hcf Hlen. set (t := touch s).
  assert (kready t) as Ht by by apply kready_touch.
  assert (touch t = t) as Et by (apply touch_touch, Hk).
  destruct (allocproc_spec t i tf root l (p_pagetable x) Ht Et Hu) as (u & l1 & E1 & Hnb & Hl1);
    [apply (cf_space _ _ _ _ (can_fork_touch _ _ _ _ Hcf))|done|].
  pose proof (can_fork_touch _ _ _ _ Hcf) as Hcf'. fold l0 t in Hnb, Hcf'.
  assert (i <> now) as Hne by (intros ->; apply Hx, Hu). destruct Hu as (Hi & _).
  pose proof Hnb as ((m & fl & Eu) & _).
  assert (proc_at u now = x) as Enow.
  { rewrite Eu. unfold proc_at, with_vm, born_table. kred. cbn [procs set_procs]. by rewrite upd_at_ne. }
  assert (proc_at u i = born (nextPid (k_proc s)) tf root (proc_at s i)) as Echild.
  { rewrite Eu. apply (born_at t i tf root Ht Hi). }
  destruct (newborn_copyable t l0 i tf root u l1 x d Hcf' Hnb) as (Hts & Hcp & Hsz).
  destruct (uvmcopy_cases (held (LProc i) u) l1 (p_pagetable x) root (p_sz x) Hts Hsz Hcp) as (r & s2 & l2 & E2 & Hr).
  unfold fork. rewrite (bind_ok _ _ _ _ _ (myproc_deref s now Hk Hp)). fold t. rewrite (bind_ok _ _ _ _ _ E1).
  rewrite (bind_ok _ _ _ x (held (LProc i) u)) by (by rewrite <- Enow).
  rewrite (bind_ok _ _ _ (born (nextPid (k_proc s)) tf root (proc_at s i)) (held (LProc i) u)) by (by rewrite <- Echild).
  rewrite (bind_ok _ _ _ _ _ E2). destruct Hr as [(-> & Hct & _)|(-> & Hgb & Hl2)]; cbn [Z.ltb Z.compare].
  - destruct (fork_copied t l0 now i tf root u l1 s2 l2 x d Ht Hi Hop ltac:(by left) Hcf' Hnb Hct) as (u2 & -> & Hk2 & Htf & Hpid & Hfi & Hfk).
    exists (i32 (u32 (nextPid (k_proc s)))), (adopted i now d x tf u2), l2. split.
    + change (nextPid (k_proc t)) with (nextPid (k_proc s)) in Hpid. rewrite <- Hpid, <- fork_upd_eq.
      apply (fork_tail i now d x tf u2 Hk2 Hi Htf (cf_pwd _ _ _ _ Hcf)).
      intros fd f Hfd Ef. unfold file_at. rewrite Hfi. by apply (cf_open _ _ _ _ Hcf fd).
    + left. split; [done|]. by apply forked_touch.
  - destruct (fork_refused t l0 i tf root u l1 s2 l2 x d Ht Hi ltac:(by left) ltac:(by right; left) Hcf' Hnb Hgb) as (u2 & Ef & Hk2 & Hff).
    exists (-1), (touch u2), (tf :: l2). split.
    + rewrite (bind_ok _ _ _ _ _ Ef). by apply (acquire_release (LProc i) (mret (-1)) u2 Hk2).
    + right. split; [done|]. split; [by apply fork_failed_touch|lia].
Qed.

(** A process of one page forks: parent in slot 0, child in slot 1. *)
Section test_fork.
  Existing Instance test_link.
  Existing Instance test_link_ok.

Definition fork_parent (p : proc) : proc :=
  set_p_pwd (Some 3%nat) (set_p_sz 100 (set_p_trapframe (test_page 1) (set_p_pagetable (test_page 0) p))).
Definition fork_world (s : kstate) : kstate := upd_procs (upd_at 0 fork_parent) s.

Lemma test_parent_data s l :
  uvmalloc (test_page 0) 0 100 test_vm = Ok 100 s -> grown_to test_vm test_free s l (test_page 0) 0 (PGROUNDUP 100) ->
  data_page s (test_page 0) l (test_page 1).
Proof.
  intros E Hg. apply (data_page_grow test_vm (test_page 0) test_free s l _ test_vm_inv (gt_grow _ _ _ _ _ _ _ Hg)).
  split; [apply test_page_ok; lia|]. split; [apply (bool_decide_unpack _); vm_compute; exact I|].
  intros id Hid Et. apply test_tbl in Et as [_ Et]; [discriminate|exact Hid].
Qed.
Lemma kready_mem m f s : kready s -> kready (set_k_freelist f (set_k_mem m s)).
Proof. intros []. by split. Qed.
Lemma test_vm_ready : kready test_vm.
Proof. exact (kready_mem _ _ _ test_state_ready). Qed.


Lemma test_fork_world : exists s tf root l,
  kready s /\ curproc s = Some 0%nat /\ p_state (proc_at s 0) = RUNNING /\ first_unused s 1 /\
  length (p_openfs (proc_at s 1)) = OPENFILE /\ can_fork s (tf :: root :: l) (proc_at s 0) 3 /\
  (7 <= length l)%nat /\ p_sz (proc_at s 0) = 100 /\ nextPid (k_proc s) = 1.
Proof.
  destruct (uvmalloc_spec test_vm test_free (test_page 0) 0 100) as (s & l & E & Hg & Hlen).
  - exact test_vm_inv.
  - lia.
  - vm_compute. discriminate.
  - apply Nat.leb_le. vm_compute. reflexivity.
  - intros va _. rewrite test_unmapped. reflexivity.
  - change (length test_free) with 12%nat in Hlen. change (3 * grow_pages 0 100)%nat with 3%nat in Hlen.
    destruct l as [|tf [|root l]]; [cbn in Hlen; lia..|]. cbn [length] in Hlen.
    pose proof (test_parent_data s _ E Hg) as Hd. destruct Hg as [Hi [Hf _ _ _ _] _ Hr _ _].
    change (Z.max (PGROUNDUP 0) (PGROUNDUP 100)) with (PGROUNDUP 100) in Hr. change (PGROUNDUP 0) with 0 in Hr.
    assert (kready s) as Hk.
    { exact (kready_vm_frame test_vm s test_vm_ready Hf). }
    assert (k_proc s = k_proc test_vm /\ curproc s = Some 0%nat) as [Ep Ec].
    { destruct Hf as ([] & m & fl & ->); split; reflexivity. }
    exists (fork_world s), tf, root, l.
    assert (forall j, proc_at (fork_world s) j = upd_at 0 fork_parent (procs (k_proc test_vm)) !!! j) as Epr
      by (intros; unfold proc_at, fork_world, upd_procs; cbn [k_proc set_k_proc procs set_procs]; by rewrite Ep).
    rewrite !Epr. split; [apply kready_procs; [intros; apply length_upd_at|exact Hk]|]. split; [exact Ec|].
    split; [reflexivity|]. split; [|split; [reflexivity|split; [|split; [lia|split; [reflexivity|]]]]].
    + split; [unfold NPROC; lia|]. split; [rewrite Epr; reflexivity|]. intros j Hj. rewrite Epr. assert (j = 0%nat) as -> by lia. discriminate.
    + split.
      * apply (vm_inv_transfer s); [reflexivity|reflexivity|exact (kr_cpu s Hk)|exact (kr_locks s Hk LKmem I)|exact Hi].
      * vm_compute. split; discriminate.
      * change (p_sz _) with 100. change (p_pagetable _) with (test_page 0). apply user_mapped. destruct Hr as [H1 H2 H3 H4]. by split.
      * exact Hd.
      * reflexivity.
      * intros fd f Hfd. change (p_openfs _) with (replicate OPENFILE (@None nat)).
        rewrite lookup_total_replicate_2 by exact Hfd. discriminate.
    + unfold fork_world, upd_procs. cbn [k_proc set_k_proc nextPid set_procs]. rewrite Ep. reflexivity.
Qed.
End test_fork.

Lemma fork_outcomes_witness : exists s s',
  @fork test_link s = Ok 1 s' /\ p_state (proc_at s' 1) = RUNNABLE /\ p_parent (proc_at s' 1) = Some 0%nat /\
  p_sz (proc_at s' 1) = 100 /\
  load8 (k_mem s') (phys (k_mem s') (p_pagetable (proc_at s' 1)) 50) = load8 (k_mem s) (phys (k_mem s) (p_pagetable (proc_at s 0)) 50).
Proof.
  destruct test_fork_world as (s & tf & root & l & Hk & Hp & Hst & Hu & Hop & Hcf & Hlen & Hsz & Hpid).
  destruct (@fork_outcomes test_link test_link_ok s 0 1 3 tf root l Hk Hp) as (r & s' & l' & E & Hr).
  - rewrite Hst. discriminate.
  - exact Hu.
  - exact Hop.
  - exact Hcf.
  - lia.
  - exists s, s'. destruct Hr as [[-> Hf]|(_ & _ & H)].
    + rewrite Hpid in E. split; [exact E|]. rewrite (fk_child _ _ _ _ _ _ _ _ _ _ Hf). split; [reflexivity|]. split; [reflexivity|].
      split; [exact Hsz|]. apply (cm_bytes _ _ _ _ _ _ _ _ (fk_memory _ _ _ _ _ _ _ _ _ _ Hf)).
      rewrite Hsz. vm_compute. split; [discriminate|reflexivity].
    + exfalso. rewrite Hsz in H. change (3 * grow_pages 0 100)%nat with 3%nat in H. lia.
Defined.
