(* ===== verification/ProcSpec.v ===== *)
(** * What the process operations guarantee

    Growing a process, and the ways [fork], [wait] and [exit] fail. *)

From S2P Require Import Prelude Layout Memory CString State Spinlock Sched Sleeplock Uart Print.
From S2P Require Import Kmem PageTable Uvm UvmProps UvmGrow UvmShrink UvmAlloc Console Ondisk Bio Block Fs File Proc Fork MemSpec ForkSpec.

Section proc_props.
  Implicit Types (s : kstate).

End proc_props.


Section growproc.
  Context `{HL : LinkOk}.
  Implicit Types (s : kstate).

End growproc.



(** ** Error paths *)

Section errors.
  Context {L : LinkMap} {Ot : Others} {D : BlockDev}.
  Implicit Types (s : kstate).

(** One pass of [wait] that sees no child. *)
Lemma wait_scan_none l p addr b s :
  (forall i, i ∈ l -> p_parent (proc_at s i) <> Some p) -> wait_scan l p addr b s = Ok (b, None) s.
Proof.
  induction l as [|i l IH]; intros Hn; [done|]. cbn [wait_scan].
  rewrite (bind_ok _ _ s (proc_at s i) s) by done. rewrite bool_decide_eq_false_2 by (apply Hn; by left).
  apply IH. intros j Hj. apply Hn. by right.
Qed.
End errors.

(** The error paths of the process calls.  With no unused slot [fork]
    returns -1; [wait] without children returns -1 at once instead of sleeping;
    both leave the state as it was.  [exit] of the initial process panics.*)
Theorem process_calls_fail {L : LinkMap} {Ot : Others} {D : BlockDev} s p addr code :
  kready s -> curproc s = Some p ->
  ((forall i, (i < NPROC)%nat -> p_state (proc_at s i) <> UNUSED) -> fork s = Ok (-1) (touch s)) /\
  ((forall i, (i < NPROC)%nat -> p_parent (proc_at s i) <> Some p) -> wait addr s = Ok (-1) (touch s)) /\
  (initp (k_proc s) = Some p -> panics (exit code) s "init proc exit").
Proof.
  intros Hk Hp. pose proof (kready_touch s Hk) as Ht. split; [|split].
  - intros Hu. unfold fork. rewrite (bind_ok _ _ _ _ _ (myproc_deref s p Hk Hp)).
    by rewrite (bind_ok _ _ _ _ _ (allocproc_full (touch s) Ht (touch_touch s (kr_cpu s Hk)) Hu)).
  - intros Hn. unfold wait. rewrite (bind_ok _ _ _ _ _ (myproc_deref s p Hk Hp)).
    rewrite (bind_ok _ _ _ _ _ (acquire_free _ _ (kr_cpu _ Ht) (kr_locks _ Ht LWait I))). cbn [wait_loop].
    rewrite (bind_ok _ _ _ _ _ (wait_scan_none (seq 0 NPROC) p addr false (held LWait (touch s))
      ltac:(intros i Hi%elem_of_seq; apply Hn; lia))).
    rewrite (bind_ok _ _ _ (proc_at s p) (held LWait (touch s))) by done. cbn [negb orb].
    rewrite (acquire_release LWait _ (touch s) Ht I). by rewrite touch_touch by apply Hk.
  - intros Hi. exists (touch s). unfold exit. rewrite (bind_ok _ _ _ _ _ (myproc_deref s p Hk Hp)).
    rewrite (bind_ok _ _ _ (initp (k_proc s)) (touch s)) by done. by rewrite Hi, bool_decide_eq_true_2.
Qed.

Lemma process_calls_fail_witness :
  @wait test_link alone 0 test_state = Ok (-1) (touch test_state).
Proof.
  apply (@process_calls_fail test_link alone instant_disk test_state 0 0 0 test_state_ready eq_refl).
  intros i Hi. do 64 (destruct i as [|i]; [discriminate|]). exfalso. unfold NPROC in Hi. lia.
Defined.
