(* ===== verification/UartSpec.v ===== *)
(** * The UART transmit ring as a queue

    [uart_tx_r] and [uart_tx_w] only ever grow, modulo [2^64]; [tx_inv u R W]
    relates them to the true counts.  The bytes between them are the queue;
    what was transmitted followed by the queue is the stream the ring carries. *)

From S2P Require Import Prelude Ring Layout Memory State Spinlock Sched Uart Print.

Definition tx_at (u : uart_state) (i : Z) : Z := ring_at (uart_tx_buf u) UART_TX_BUF_SIZE i.
Definition tx_queue (u : uart_state) (R W : Z) : list Z := ring_seg (uart_tx_buf u) UART_TX_BUF_SIZE R W.

Record tx_inv (u : uart_state) (R W : Z) : Prop := {
  tx_r : uart_tx_r u = u64 R;
  tx_w : uart_tx_w u = u64 W;
  tx_range : 0 <= R <= W /\ W <= R + UART_TX_BUF_SIZE;
  tx_len : Z.of_nat (length (uart_tx_buf u)) = UART_TX_BUF_SIZE;
  tx_bytes : Forall (fun b => 0 <= b < 2 ^ 8) (uart_tx_buf u)
}.

(** All bytes handed to [uartputc] so far, in order. *)
Definition tx_stream (u : uart_state) (R W : Z) : list Z := rev (uart_out u) ++ tx_queue u R W.

Section ring.
  Implicit Types (u : uart_state) (R W : Z).

Lemma u64_mod_32 x : u64 x mod UART_TX_BUF_SIZE = x mod UART_TX_BUF_SIZE.
Proof.
  unfold u64, UART_TX_BUF_SIZE. apply Z.mod_mod_divide. by exists (2 ^ 59).
Qed.

Lemma u64_eq x y : 0 <= x - y < 2 ^ 64 -> u64 x = u64 y -> x = y.
Proof.
  intros H E. assert (u64 (x - y) = 0) as E0.
  { unfold u64 in *. rewrite Zminus_mod, E, Z.sub_diag. done. }
  rewrite u64_id in E0 by done. lia.
Qed.

Lemma tx_byte u R W k : tx_inv u R W -> 0 <= tx_at u k < 2 ^ 8.
Proof. intros [_ _ _ Hl Hb]. by apply (ring_at_elem UART_TX_BUF_SIZE eq_refl (fun b => 0 <= b < 2 ^ 8)). Qed.

(** Storing a byte and moving [uart_tx_w]. *)
Definition tx_push (c : Z) u : uart_state :=
  set_uart_tx_w (u64 (uart_tx_w u + 1))
    (set_uart_tx_buf (upd_at (Z.to_nat (uart_tx_w u mod UART_TX_BUF_SIZE)) (fun _ => u8 c) (uart_tx_buf u)) u).

Lemma tx_push_ok c u R W :
  tx_inv u R W -> W < R + UART_TX_BUF_SIZE ->
  tx_inv (tx_push c u) R (W + 1) /\ tx_queue (tx_push c u) R (W + 1) = tx_queue u R W ++ [u8 c].
Proof.
  intros [Hr Hw HR Hl Hb] Hlt. split.
  - split; cbn; [done|by rewrite Hw, u64_add_u64_l|lia|by rewrite length_upd_at|].
    apply Forall_insert; [done|apply u8_range].
  - unfold tx_queue, tx_push. cbn. rewrite Hw, u64_mod_32. apply ring_seg_push; (done || lia).
Qed.
End ring.

Section start.
  Implicit Types (s : kstate) (R W : Z).

(** How many of [n] bytes the transmitter takes, its line status being tested
    before each of them: [lsr] now, and [next] after each write. *)
Fixpoint tx_room (n : nat) (lsr : Z) (next : list Z) : Z :=
  match n with
  | O => 0
  | S n => if flag lsr LSR_TX_IDLE then 1 + tx_room n (hd lsr next) (tl next) else 0
  end.

Lemma tx_room_range n lsr next : 0 <= tx_room n lsr next <= Z.of_nat n.
Proof.
  revert lsr next. induction n as [|n IH]; intros lsr next; cbn [tx_room]; [lia|].
  destruct (flag lsr LSR_TX_IDLE); [specialize (IH (hd lsr next) (tl next)); lia|lia].
Qed.

(** Transmitting the oldest byte. *)
Definition tx_pop u : uart_state :=
  thr_write (tx_at u (uart_tx_r u)) (set_uart_tx_r (u64 (uart_tx_r u + 1)) u).

Lemma tx_pop_eq u :
  flag (uart_lsr u) LSR_TX_IDLE = true ->
  tx_pop u = mkUart (hd (uart_lsr u) (uart_lsr_next u)) (tl (uart_lsr_next u)) (uart_rx u)
    (u8 (tx_at u (uart_tx_r u)) :: uart_out u) (uart_tx_buf u) (uart_tx_w u) (u64 (uart_tx_r u + 1)).
Proof.
  intros Hl. unfold tx_pop, thr_write. cbn. rewrite Hl. cbn. by destruct u as [l [|x n] rx out b w r].
Qed.

Lemma can_wake_procs u f s :
  (forall ps, length (f ps) = length ps) -> can_wake s -> can_wake (set_k_uart u (upd_procs f s)).
Proof.
  intros Hf (Hc & Ht & Hl & Hn). split; [done|]. split; [|split; [done|]].
  - assert (neutral (fun s => set_k_uart u (upd_procs f s))) as Hg by by split.
    by rewrite <- (neutral_touch _ Hg), Ht.
  - cbn. by rewrite Hf.
Qed.

(** The loop sends what the transmitter takes, and keeps the rest queued. *)
Lemma uartstart_loop_spec n fuel s R W :
  can_wake s -> tx_inv (k_uart s) R W -> W - R = Z.of_nat n -> (n < fuel)%nat ->
  let k := tx_room n (uart_lsr (k_uart s)) (uart_lsr_next (k_uart s)) in
  exists f u, uartstart_loop fuel s = Ok tt (set_k_uart u (upd_procs f s)) /\
    (forall ps, length (f ps) = length ps) /\ tx_inv u (R + k) W /\
    tx_stream u (R + k) W = tx_stream (k_uart s) R W.
Proof.
  revert fuel s R. induction n as [|n IH]; intros [|fuel] s R Hw Hu Hn Hf; try lia; cbn [uartstart_loop tx_room]; cbv zeta.
  - assert (W = R) as -> by lia. pose proof Hu as [Hr Hwv HR Hl Hb]. step_prim. rewrite Hr, Hwv, Z.eqb_refl, Z.add_0_r.
    exists (fun ps => ps), (k_uart s). split; [|done].
    apply (f_equal (Ok tt)). unfold upd_procs. kstate_eq. by destruct (k_proc s).
  - pose proof (tx_byte _ _ _ R Hu) as Hbyte. pose proof Hu as [Hr Hwv HR Hl Hb]. unfold read_LSR. step_prim.
    destruct (Z.eqb_spec (uart_tx_r (k_uart s)) (uart_tx_w (k_uart s))) as [E|_].
    { rewrite Hr, Hwv in E. unfold UART_TX_BUF_SIZE in *. symmetry in E. apply u64_eq in E; lia. }
    rewrite idle_lor. destruct (flag (uart_lsr (k_uart s)) LSR_TX_IDLE) eqn:Hi; cbn [negb].
    2: { exists (fun ps => ps), (k_uart s). rewrite Z.add_0_r. split; [|done].
         apply (f_equal (Ok tt)). unfold upd_procs. kstate_eq. by destruct (k_proc s). }
    set (u1 := set_uart_tx_r (u64 (uart_tx_r (k_uart s) + 1)) (k_uart s)). set (s1 := set_k_uart u1 s).
    assert (can_wake s1) as (Hc1 & Ht1 & Hl1 & Hn1).
    { unfold s1. rewrite <- (upd_procs_id (fun ps => ps) s) by done. by apply can_wake_procs. }
    rewrite (wakeup_spec _ s1 Hc1 Hl1 Hn1), Ht1. unfold write_THR. step_prim.
    set (g := imap _). change (set_k_uart _ (upd_procs g s1)) with (set_k_uart (tx_pop (k_uart s)) (upd_procs g s)).
    set (s2 := set_k_uart _ _).
    assert (tx_at (k_uart s) (uart_tx_r (k_uart s)) = tx_at (k_uart s) R) as Eat
      by (unfold tx_at, ring_at; by rewrite Hr, u64_mod_32).
    assert (k_uart s2 = tx_pop (k_uart s)) as E2 by done. rewrite tx_pop_eq, Eat, u8_id in E2 by done.
    destruct (IH fuel s2 (R + 1)) as (f & u & E & Hlen & Hu' & Hst); try lia.
    + apply can_wake_procs; [|done]. intros. apply length_imap.
    + rewrite E2. split; [cbn; by rewrite Hr, u64_add_u64_l|done|cbn; lia|done|done].
    + rewrite E2 in Hu', Hst. cbn [uart_lsr uart_lsr_next] in Hu', Hst.
      rewrite Z.add_assoc. exists (fun ps => f (g ps)), u. split; [rewrite E; by rewrite <- upd_procs_upd|].
      split; [intros; rewrite Hlen; apply length_imap|]. split; [done|]. rewrite Hst. unfold tx_stream, tx_queue.
      cbn [uart_out uart_tx_buf]. rewrite (ring_seg_cons _ _ R W) by lia. cbn [rev]. rewrite <- app_assoc. done.
Qed.

Lemma uartstart_spec s R W :
  can_wake s -> tx_inv (k_uart s) R W ->
  let k := tx_room (Z.to_nat (W - R)) (uart_lsr (k_uart s)) (uart_lsr_next (k_uart s)) in
  exists f u, uartstart s = Ok tt (set_k_uart u (upd_procs f s)) /\
    (forall ps, length (f ps) = length ps) /\ tx_inv u (R + k) W /\
    tx_stream u (R + k) W = tx_stream (k_uart s) R W.
Proof.
  intros Hw Hu. pose proof Hu as [Hr Hwv HR Hl Hb]. unfold uartstart.
  rewrite (bind_ok _ _ _ (k_uart s) s) by done. rewrite Hr, Hwv.
  assert (u64 (u64 W - u64 R) = W - R) as ->.
  { unfold u64. rewrite <- Zminus_mod. unfold UART_TX_BUF_SIZE in *. apply Z.mod_small. lia. }
  apply uartstart_loop_spec; (done || lia).
Qed.
End start.

(** C31: the transmit ring is a lossless queue.  [uartputc] on a ring that is not
    full returns; the byte joins the end of the stream (what was transmitted,
    then what is queued), nothing is lost, duplicated or reordered.  Whatever the
    line status shows before each byte ([tx_room]), exactly the bytes the
    transmitter takes before its holding register fills have left the queue;
    the ring counters stay consistent, also when they
    wrap.  On a full ring of a hart whose process is never resumed it waits. *)
Theorem uartputc_appends {Ot : Others} s R W c :
  kready s -> k_panicked s = 0 -> tx_inv (k_uart s) R W ->
  (W < R + UART_TX_BUF_SIZE ->
     exists s' R', uartputc c s = Ok tt s' /\ tx_inv (k_uart s') R' (W + 1) /\ lock_free LUart s' /\
       tx_stream (k_uart s') R' (W + 1) = tx_stream (k_uart s) R W ++ [u8 c] /\
       R' = R + tx_room (Z.to_nat (W + 1 - R)) (uart_lsr (k_uart s)) (uart_lsr_next (k_uart s))) /\
  (W = R + UART_TX_BUF_SIZE ->
     exists s1, uartputc c s = (sleep ChUartR LUart;; uartputc_loop patience c) s1 /\ k_uart s1 = k_uart s).
Proof.
  intros Hk Hpan Hu. pose proof Hu as [Hr Hwv HR Hl Hb].
  assert (uartputc c s = uartputc_loop (S patience) c (held LUart s)) as ->.
  { unfold uartputc. rewrite (bind_ok _ _ _ _ _ (acquire_free _ _ (kr_cpu s Hk) (kr_locks s Hk LUart I))).
    rewrite (bind_ok _ _ _ 0 (held LUart s)) by (unfold gets; cbn; by rewrite Hpan). done. }
  cbn [uartputc_loop]. split; intros HW.
  - rewrite (bind_ok _ _ _ (k_uart s) (held LUart s)) by done.
    destruct (Z.eqb_spec (uart_tx_w (k_uart s)) (u64 (uart_tx_r (k_uart s) + UART_TX_BUF_SIZE))) as [E|_].
    { rewrite Hwv, Hr, u64_add_u64_l in E. symmetry in E. unfold UART_TX_BUF_SIZE in *. apply u64_eq in E; lia. }
    set (s1 := set_k_uart (tx_push c (k_uart s)) (held LUart s)).
    match goal with |- context [modify ?f ≫= (fun _ => modify ?g ≫= ?k)] =>
      assert ((modify f ≫= (fun _ => modify g ≫= k)) (held LUart s) = k tt s1) as -> by done end.
    destruct (tx_push_ok c _ R W Hu HW) as [Hu1 Hq1].
    assert (can_wake s1) as Hw1.
    { assert (touch (held LUart s) = held LUart s) as Et by (apply touch_held; apply Hk).
      split; [apply cpu_wf_held; [apply Hk|pose proof (kr_noff s Hk); lia]|]. split; [|split; [|apply Hk]].
      - assert (neutral (set_k_uart (tx_push c (k_uart s)))) as Hg by by split.
        unfold s1. by rewrite <- (neutral_touch _ Hg), Et.
      - intros i Hi. unfold lock_free. cbn. rewrite lookup_insert_ne by done. exact (kr_locks s Hk (LProc i) Hi). }
    destruct (uartstart_spec s1 R (W + 1) Hw1 Hu1) as (f & u & E & Hf & Hu' & Hst).
    cbv beta. rewrite (bind_ok _ _ _ _ _ E). set (g := fun t => set_k_uart u (upd_procs f t)).
    assert (neutral g) as Hg by by split.
    change (set_k_uart u (upd_procs f s1)) with (g (held LUart s)).
    rewrite (release_neutral _ Hg LUart s (kr_cpu s Hk) (kr_locks s Hk LUart I)).
    eexists (g (touch s)), _. split; [done|]. split; [exact Hu'|]. split; [exact (kr_locks s Hk LUart I)|].
    split; [|done]. change (k_uart (g (touch s))) with u. rewrite Hst.
    change (k_uart s1) with (tx_push c (k_uart s)). unfold tx_stream. rewrite Hq1. by rewrite app_assoc.
  - exists (held LUart s). split; [|done]. rewrite (bind_ok _ _ _ (k_uart s) (held LUart s)) by done.
    assert (uart_tx_w (k_uart s) = u64 (uart_tx_r (k_uart s) + UART_TX_BUF_SIZE)) as ->; [|by rewrite Z.eqb_refl].
    rewrite Hwv, Hr, u64_add_u64_l. by rewrite HW.
Qed.

(** A byte through wrapped counters, behind a queued one; the transmitter's
    register fills after one byte. *)
Definition test_uart : uart_state := mkUart LSR_TX_IDLE [0] [] [] (0x42 :: replicate 31 0) 1 0.
Definition test_ring : kstate := set_k_uart test_uart test_state.
Lemma uartputc_appends_witness :
  exists s', @uartputc alone 0x41 test_ring = Ok tt s' /\
    tx_stream (k_uart s') (2 ^ 64 + 1) (2 ^ 64 + 2) = [0x42; 0x41].
Proof.
  assert (neutral (set_k_uart test_uart)) as Hn by (split; reflexivity).
  destruct (@uartputc_appends alone test_ring (2 ^ 64) (2 ^ 64 + 1) 0x41) as [H _].
  - apply (kready_neutral _ _ Hn); [reflexivity|reflexivity|reflexivity|reflexivity|exact test_state_ready].
  - reflexivity.
  - split; [reflexivity|reflexivity|unfold UART_TX_BUF_SIZE; lia|reflexivity|].
    constructor; [lia|]. apply (Forall_replicate (fun b => 0 <= b < 2 ^ 8)). lia.
  - destruct H as (s' & R' & E & Hu & _ & Hst & HR).
    + unfold UART_TX_BUF_SIZE. lia.
    + exists s'. split; [exact E|]. change (R' = 2 ^ 64 + 1) in HR. subst R'. exact Hst.
Defined.
