(* ===== verification/ConsoleSpec.v ===== *)
(** * The console's line discipline

    [consoleintr] against a specification on two lists: the committed input
    that processes read, and the line being edited.  The 32-bit counters
    [cons.r], [cons.w], [cons.e] are related to true counts [R], [W], [E], so the
    theorems also cover their wrap-around. *)

From S2P Require Import Prelude Ring Layout Memory CString State Spinlock Sched Uart Print.
From S2P Require Import Kmem PageTable Uvm Console StringSpec UartSpec.

Definition cons_seg (c : cons_state) (A B : Z) : list Z := ring_seg (cons_buf c) INPUT_MAX A B.

Record cons_inv (c : cons_state) (R W E : Z) : Prop := {
  ci_r : cons_r c = u32 R;
  ci_w : cons_w c = u32 W;
  ci_e : cons_e c = u32 E;
  ci_range : 0 <= R <= W /\ W <= E <= R + INPUT_MAX;
  ci_length : Z.of_nat (length (cons_buf c)) = INPUT_MAX;
  ci_line : NL ∉ cons_seg c W E
}.

(** ** The specification *)

(** Committed input and current line after the character [ch], and the echo. *)
Definition line_spec (ch : Z) (com ed : list Z) : list Z * list Z * list Z :=
  if ch =? CTRL_U then (com, [], concat (replicate (length ed) [8; 32; 8]))
  else if (ch =? CTRL_H) || (ch =? DEL) then
    match ed with [] => (com, [], []) | _ => (com, take (length ed - 1) ed, [8; 32; 8]) end
  else if negb (ch =? 0) && (Z.of_nat (length com + length ed) <? INPUT_MAX) then
    let ch := if ch =? CR then NL else ch in
    if (ch =? NL) || (ch =? CTRL_D) || (Z.of_nat (length com + length ed) + 1 =? INPUT_MAX)
    then (com ++ ed ++ [ch], [], [ch]) else (com, ed ++ [ch], [ch])
  else (com, ed, []).

Section counters.
  Implicit Types (x y : Z).

Lemma u32_mod_128 x : u32 x mod INPUT_MAX = x mod INPUT_MAX.
Proof. unfold u32, INPUT_MAX. apply Z.mod_mod_divide. by exists (2 ^ 25). Qed.
Lemma u32_sub x y : 0 <= x - y < 2 ^ 32 -> u32 (u32 x - u32 y) = x - y.
Proof. intros H. unfold u32. rewrite <- Zminus_mod. by apply Z.mod_small. Qed.
Lemma u32_eqb x y : Z.abs (x - y) < 2 ^ 32 -> (u32 x =? u32 y) = (x =? y).
Proof.
  intros H. destruct (Z.eqb_spec x y) as [->|Hne]; [apply Z.eqb_refl|]. apply Z.eqb_neq. intros E.
  unfold u32 in E. pose proof (Z.div_mod x (2 ^ 32)). pose proof (Z.div_mod y (2 ^ 32)). lia.
Qed.
Lemma u32_pred x : u32 (u32 x - 1) = u32 (x - 1).
Proof. unfold u32. apply Zminus_mod_idemp_l. Qed.
End counters.

(** ** The states of the critical section *)

Section fam.
  Implicit Types (s t : kstate) (c : cons_state) (u : uart_state) (f : list proc -> list proc).

Definition fam c u f t : kstate := set_k_cons c (set_k_uart u (upd_procs f t)).
Definition keeps_length f : Prop := forall ps, length (f ps) = length ps.
Definition sent (l : list Z) u : uart_state := set_uart_out (rev (u8 <$> l) ++ uart_out u) u.

Lemma neutral_fam c u f : neutral (fam c u f).
Proof. by split. Qed.

Lemma can_wake_fam c u f t : keeps_length f -> can_wake t -> can_wake (fam c u f t).
Proof.
  intros Hf (Hc & Ht & Hl & Hn). split; [done|]. split; [|split; [done|]].
  - by rewrite <- (neutral_touch _ (neutral_fam c u f)), Ht.
  - cbn. by rewrite Hf.
Qed.

Lemma sent_nil u : sent [] u = u.
Proof. by destruct u. Qed.
Lemma sent_app l1 l2 u : sent l2 (sent l1 u) = sent (l1 ++ l2) u.
Proof. unfold sent, set_uart_out. cbn. f_equal. by rewrite fmap_app, rev_app_distr, app_assoc. Qed.

Lemma uartputc_sync_fam x c u f t :
  keeps_length f -> can_wake t -> k_panicked t = 0 -> uart_idle u ->
  uartputc_sync x (fam c u f t) = Ok tt (fam c (sent [x] u) f t).
Proof.
  intros Hf Ht Hp Hu. pose proof (can_wake_fam c u f t Hf Ht) as (Hc & Et & _).
  rewrite uartputc_sync_eq by done. rewrite Et. apply (f_equal (Ok tt)). unfold emit, fam. by kstate_eq.
Qed.

Lemma consputc_fam x c u f t :
  keeps_length f -> can_wake t -> k_panicked t = 0 -> uart_idle u ->
  consputc x (fam c u f t) = Ok tt (fam c (sent (if x =? BACKSPACE then [8; 32; 8] else [x]) u) f t).
Proof.
  intros Hf Ht Hp Hu. unfold consputc. destruct (x =? BACKSPACE); [|by apply uartputc_sync_fam].
  rewrite (bind_ok _ _ _ _ _ (uartputc_sync_fam 8 c u f t Hf Ht Hp Hu)).
  rewrite (bind_ok _ _ _ _ _ (uartputc_sync_fam 32 c (sent [8] u) f t Hf Ht Hp Hu)), sent_app.
  by rewrite uartputc_sync_fam, sent_app.
Qed.

Lemma wakeup_fam ch c u f t :
  keeps_length f -> can_wake t ->
  exists f', keeps_length f' /\ wakeup ch (fam c u f t) = Ok tt (fam c u f' t).
Proof.
  intros Hf Ht. pose proof (can_wake_fam c u f t Hf Ht) as (Hc & Et & Hl & Hn).
  exists (fun ps => imap (wake (Some ch) (curproc (fam c u f t))) (f ps)).
  split; [intros ps; by rewrite length_imap|]. rewrite wakeup_spec by done. by rewrite Et.
Qed.

(** ** The editing characters *)

Lemma erase_inv c R W E :
  cons_inv c R W E -> W < E -> cons_inv (set_cons_e (u32 (cons_e c - 1)) c) R W (E - 1).
Proof.
  intros [Hr Hw He HR Hl Hn] HE. split; cbn; try done; try lia.
  - by rewrite He, u32_pred.
  - intros Hin. apply Hn. unfold cons_seg in *. cbn in Hin. replace E with (E - 1 + 1) by lia.
    rewrite ring_seg_snoc by lia. apply elem_of_app. by left.
Qed.

Lemma kill_line_fam n fuel c u f t R W E :
  keeps_length f -> can_wake t -> k_panicked t = 0 -> uart_idle u ->
  cons_inv c R W E -> E - W = Z.of_nat n -> (n < fuel)%nat ->
  exists c', kill_line fuel (fam c u f t) = Ok tt (fam c' (sent (concat (replicate n [8; 32; 8])) u) f t) /\
    cons_inv c' R W W /\ cons_buf c' = cons_buf c.
Proof.
  intros Hf Ht Hp. revert fuel c u E. induction n as [|n IH]; intros [|fuel] c u E Hu Hi Hn Hlt; try lia;
    cbn [kill_line]; unfold get_cons; rewrite (bind_ok _ _ _ c (fam c u f t)) by done;
    pose proof Hi as [Hr Hw He HR Hl Hnl].
  - assert (E = W) as -> by lia. rewrite He, Hw, Z.eqb_refl. cbn [negb andb replicate concat]. rewrite sent_nil.
    by exists c.
  - rewrite He, Hw, u32_eqb by (unfold INPUT_MAX in *; lia). destruct (Z.eqb_spec E W); [lia|]. cbn [negb andb].
    assert (cons_at c (u32 (u32 E - 1)) <> NL) as Hne.
    { unfold cons_at. rewrite u32_pred, u32_mod_128. intros Eq. apply Hnl. unfold cons_seg.
      replace E with (E - 1 + 1) by lia. rewrite ring_seg_snoc by lia. apply elem_of_app. right.
      apply list_elem_of_singleton. by rewrite <- Eq. }
    apply Z.eqb_neq in Hne. rewrite Hne. cbn [negb].
    set (c1 := set_cons_e (u32 (cons_e c - 1)) c).
    rewrite (bind_ok _ _ _ tt (fam c1 u f t)) by done.
    rewrite (bind_ok _ _ _ _ _ (consputc_fam BACKSPACE c1 u f t Hf Ht Hp Hu)). cbn [Z.eqb].
    destruct (IH fuel c1 (sent [8; 32; 8] u) (E - 1)) as (c' & E' & Hi' & Hb'); try done; try lia.
    { by apply erase_inv; [|lia]. }
    exists c'. split; [|done]. rewrite Z.eqb_refl, E', sent_app. done.
Qed.

(** ** An ordinary character *)

Lemma store_inv ch c R W E :
  cons_inv c R W E -> E < R + INPUT_MAX ->
  let c' := set_cons_e (u32 (E + 1)) (set_cons_buf (upd_at (Z.to_nat (E mod INPUT_MAX)) (fun _ => ch) (cons_buf c)) c) in
  cons_seg c' R W = cons_seg c R W /\ cons_seg c' W (E + 1) = cons_seg c W E ++ [ch] /\
  (ch <> NL -> cons_inv c' R W (E + 1)) /\ cons_inv (set_cons_w (u32 (E + 1)) c') R (E + 1) (E + 1).
Proof.
  intros [Hr Hw He HR Hl Hn] HE c'.
  assert (cons_seg c' W (E + 1) = cons_seg c W E ++ [ch]) as Hed by (apply ring_seg_push; (done || lia)).
  split; [apply ring_seg_write; (done || lia)|]. split; [done|]. split.
  - intros Hch. split; cbn; try done; try lia; [by rewrite length_upd_at|]. rewrite Hed.
    intros [Hin|Hin%list_elem_of_singleton]%elem_of_app; [by apply Hn|by subst].
  - split; cbn; try done; try lia; [by rewrite length_upd_at|]. unfold cons_seg. rewrite ring_seg_nil. set_solver.
Qed.

Definition commits (ch R E : Z) : bool := (ch =? NL) || (ch =? CTRL_D) || (E + 1 =? R + INPUT_MAX).
Definition cons_commit (ch : Z) : K unit :=
  cs ← get_cons;
  if ((ch =? NL) || (ch =? CTRL_D)) || (cons_e cs =? u32 (cons_r cs + INPUT_MAX)) then
    modify (upd_cons (fun x => set_cons_w (cons_e x) x));;
    wakeup ChConsR
  else mret tt.

Lemma cons_commit_fam ch c u f t R E :
  keeps_length f -> can_wake t -> cons_r c = u32 R -> cons_e c = u32 (E + 1) -> R <= E < R + INPUT_MAX ->
  exists f', keeps_length f' /\
    cons_commit ch (fam c u f t) =
      Ok tt (fam (if commits ch R E then set_cons_w (u32 (E + 1)) c else c) u f' t).
Proof.
  intros Hf Ht Hr He HE. unfold cons_commit, get_cons. rewrite (bind_ok _ _ _ c (fam c u f t)) by done.
  rewrite He, Hr, u32_add_u32_l.
  rewrite u32_eqb by (unfold INPUT_MAX in *; lia). unfold commits. case_match.
  - set (c1 := set_cons_w (u32 (E + 1)) c).
    rewrite (bind_ok _ _ _ tt (fam c1 u f t)) by (unfold modify, upd_cons, c1; rewrite <- He; done).
    destruct (wakeup_fam ChConsR c1 u f t Hf Ht) as (f' & Hf' & E1). by exists f'.
  - by exists f.
Qed.
End fam.

Lemma take_snoc {A} (l : list A) x : take (length (l ++ [x]) - 1) (l ++ [x]) = l.
Proof. rewrite length_app. cbn [length]. by rewrite Nat.add_sub, take_app_length. Qed.

Lemma cons_seg_nonempty c W E : W < E -> exists x, cons_seg c W E = cons_seg c W (E - 1) ++ [x].
Proof.
  intros H. eexists. unfold cons_seg. replace E with (E - 1 + 1) at 1 by lia. by rewrite ring_seg_snoc by lia.
Qed.

(** The body of [consoleintr], inside its critical section. *)
Definition cons_body (ch : Z) : K unit :=
  cs ← get_cons;
  if ch =? CTRL_U then kill_line (S (Z.to_nat (u32 (cons_e cs - cons_w cs))))
  else if (ch =? CTRL_H) || (ch =? DEL) then
    if negb (cons_e cs =? cons_w cs) then
      modify (upd_cons (fun x => set_cons_e (u32 (cons_e x - 1)) x));;
      consputc BACKSPACE
    else mret tt
  else if negb (ch =? 0) && (u32 (cons_e cs - cons_r cs) <? INPUT_MAX) then
    let c := if ch =? CR then NL else ch in
    consputc c;;
    modify (upd_cons (fun x => set_cons_buf (<[Z.to_nat (cons_e x mod INPUT_MAX) := u8 c]> (cons_buf x)) x));;
    modify (upd_cons (fun x => set_cons_e (u32 (cons_e x + 1)) x));;
    cons_commit c
  else mret tt.

Section body.
  Implicit Types (c : cons_state) (u : uart_state) (t : kstate).

Definition body_post c u f t (R : Z) (sp : list Z * list Z * list Z) (m : K unit) : Prop :=
  let '(com, ed, echo) := sp in
  exists c' f' W' E', m (fam c u f t) = Ok tt (fam c' (sent echo u) f' t) /\ keeps_length f' /\
    cons_inv c' R W' E' /\ cons_seg c' R W' = com /\ cons_seg c' W' E' = ed.

Lemma cons_store_fam ch c u f t R W E :
  keeps_length f -> can_wake t -> k_panicked t = 0 -> uart_idle u ->
  cons_inv c R W E -> 0 <= ch < 256 -> E < R + INPUT_MAX ->
  body_post c u f t R
    (if commits ch R E then (cons_seg c R W ++ cons_seg c W E ++ [ch], [], [ch])
     else (cons_seg c R W, cons_seg c W E ++ [ch], [ch]))
    (consputc ch;;
     modify (upd_cons (fun x => set_cons_buf (<[Z.to_nat (cons_e x mod INPUT_MAX) := u8 ch]> (cons_buf x)) x));;
     modify (upd_cons (fun x => set_cons_e (u32 (cons_e x + 1)) x));;
     cons_commit ch).
Proof.
  intros Hf Ht Hp Hu Hi Hch HE. pose proof Hi as [Hr Hw He HR Hl Hn].
  assert ((consputc ch;;
     modify (upd_cons (fun x => set_cons_buf (<[Z.to_nat (cons_e x mod INPUT_MAX) := u8 ch]> (cons_buf x)) x));;
     modify (upd_cons (fun x => set_cons_e (u32 (cons_e x + 1)) x));;
     cons_commit ch) (fam c u f t) =
    cons_commit ch (fam (set_cons_e (u32 (E + 1)) (set_cons_buf (upd_at (Z.to_nat (E mod INPUT_MAX)) (fun _ => ch) (cons_buf c)) c))
      (sent [ch] u) f t)) as Eq.
  { rewrite (bind_ok _ _ _ _ _ (consputc_fam ch c u f t Hf Ht Hp Hu)).
    destruct (Z.eqb_spec ch BACKSPACE); [unfold BACKSPACE in *; lia|].
    step_prim. unfold upd_cons, fam. kred. cbn. rewrite He, u32_mod_128, u8_id, u32_add_u32_l by done. done. }
  destruct (store_inv ch c R W E Hi HE) as (H1 & H2 & H3 & H4). set (c1 := set_cons_e _ _) in *.
  destruct (cons_commit_fam ch c1 (sent [ch] u) f t R E Hf Ht) as (f' & Hf' & E1); [done|done|lia|].
  unfold body_post. rewrite Eq, E1. unfold commits in *. destruct (_ || _ || _) eqn:Ec.
  - exists (set_cons_w (u32 (E + 1)) c1), f', (E + 1), (E + 1). split; [done|]. split; [done|]. split; [done|].
    split; [|apply ring_seg_nil].
    change (cons_seg c1 R (E + 1) = cons_seg c R W ++ cons_seg c W E ++ [ch]). unfold cons_seg in *.
    rewrite (ring_seg_app _ _ R W) by lia. by rewrite H1, H2.
  - apply orb_false_iff in Ec as [[Enl _]%orb_false_iff _]. apply Z.eqb_neq in Enl.
    exists c1, f', W, (E + 1). auto.
Qed.
End body.

Section consoleintr.
  Implicit Types (c : cons_state) (u : uart_state) (t : kstate).

Lemma cons_body_post ch c u f t R W E :
  keeps_length f -> can_wake t -> k_panicked t = 0 -> uart_idle u -> cons_inv c R W E -> 0 <= ch < 256 ->
  body_post c u f t R (line_spec ch (cons_seg c R W) (cons_seg c W E)) (cons_body ch).
Proof.
  intros Hf Ht Hp Hu Hi Hch. pose proof Hi as [Hr Hw He HR Hl Hn].
  unfold cons_body, line_spec, body_post.
  rewrite (bind_ok _ _ _ c (fam c u f t)) by done.
  assert (Z.of_nat (length (cons_seg c R W) + length (cons_seg c W E)) = E - R) as Hlen
    by (unfold cons_seg; rewrite !length_ring_seg; lia).
  destruct (ch =? CTRL_U).
  - rewrite He, Hw, u32_sub by (unfold INPUT_MAX in *; lia).
    destruct (kill_line_fam (Z.to_nat (E - W)) (S (Z.to_nat (E - W))) c u f t R W E) as (c' & E1 & Hi' & Hb);
      try done; try lia.
    exists c', f, W, W. unfold cons_seg at 1. rewrite length_ring_seg. split; [done|]. split; [done|]. split; [done|].
    unfold cons_seg. rewrite Hb. split; [done|apply ring_seg_nil].
  - destruct ((ch =? CTRL_H) || (ch =? DEL)).
    + rewrite He, Hw, u32_eqb by (unfold INPUT_MAX in *; lia). destruct (Z.eqb_spec E W) as [->|Hne]; cbn [negb].
      * unfold cons_seg at 1. rewrite ring_seg_nil. exists c, f, W, W. rewrite sent_nil.
        split; [done|]. split; [done|]. split; [done|]. split; [done|apply ring_seg_nil].
      * destruct (cons_seg_nonempty c W E) as [x Ex]; [lia|]. set (c1 := set_cons_e (u32 (cons_e c - 1)) c).
        rewrite (bind_ok _ _ _ tt (fam c1 u f t)) by done.
        rewrite (consputc_fam BACKSPACE c1 u f t Hf Ht Hp Hu). cbn [Z.eqb].
        assert (exists y l, cons_seg c W E = y :: l) as (y & l & El).
        { destruct (cons_seg c W E) as [|y l]; [by destruct (cons_seg c W (E - 1))|by exists y, l]. }
        rewrite El, <- El, Ex, take_snoc. exists c1, f, W, (E - 1). rewrite Z.eqb_refl.
        split; [done|]. split; [done|]. split; [apply erase_inv; [done|lia]|done].
    + rewrite He, Hr, u32_sub by (unfold INPUT_MAX in *; lia). rewrite Hlen.
      destruct (negb (ch =? 0) && (E - R <? INPUT_MAX)) eqn:Eb.
      * apply andb_prop in Eb as [_ Eb%Z.ltb_lt]. cbv zeta. set (d := if ch =? CR then NL else ch).
        assert (0 <= d < 256) as Hd by (unfold d; case_match; [done|lia]).
        pose proof (cons_store_fam d c u f t R W E Hf Ht Hp Hu Hi Hd ltac:(lia)) as Hpost.
        unfold commits in Hpost.
        replace (E - R + 1 =? INPUT_MAX) with (E + 1 =? R + INPUT_MAX)
          by (destruct (Z.eqb_spec (E + 1) (R + INPUT_MAX)), (Z.eqb_spec (E - R + 1) INPUT_MAX); lia).
        exact Hpost.
      * exists c, f, W, E. by rewrite sent_nil.
Qed.
End consoleintr.

(** C13: the line discipline.  For every character the terminal sends,
    [consoleintr] returns and acts on the committed input and the current line
    exactly as [line_spec]: control-U erases the line, backspace and delete its
    last character, an ordinary character is appended when fewer than 128
    characters are buffered (a carriage return as a newline), and a newline,
    control-D or the 128th character commits the line to the readers; what it
    echoes is as specified; the counters stay consistent (also when they wrap)
    and a line under edit never contains a newline. *)
Theorem consoleintr_edits s R W E ch :
  kready s -> k_panicked s = 0 -> uart_idle (k_uart s) -> cons_inv (k_cons s) R W E -> 0 <= ch < 256 ->
  let '(com, ed, echo) := line_spec ch (cons_seg (k_cons s) R W) (cons_seg (k_cons s) W E) in
  exists s' W' E', consoleintr ch s = Ok tt s' /\ cons_inv (k_cons s') R W' E' /\
    cons_seg (k_cons s') R W' = com /\ cons_seg (k_cons s') W' E' = ed /\
    rev (uart_out (k_uart s')) = rev (uart_out (k_uart s)) ++ (u8 <$> echo) /\
    lock_free LCons s'.
Proof.
  intros Hk Hp Hu Hi Hch. assert (can_wake (held LCons s)) as Hw.
  { split; [apply cpu_wf_held; [apply Hk|pose proof (kr_noff s Hk); lia]|].
    split; [apply touch_held, Hk|]. split; [|apply Hk].
    intros i Hlt. unfold lock_free. cbn. rewrite lookup_insert_ne by done. exact (kr_locks s Hk (LProc i) Hlt). }
  pose proof (cons_body_post ch (k_cons s) (k_uart s) (fun ps => ps) (held LCons s) R W E
    (fun _ => eq_refl) Hw Hp Hu Hi Hch) as Hb. unfold body_post in Hb.
  assert (fam (k_cons s) (k_uart s) (fun ps => ps) (held LCons s) = held LCons s) as Ef.
  { unfold fam. rewrite upd_procs_id by done. by kstate_eq. }
  rewrite Ef in Hb. destruct (line_spec _ _ _) as [[com ed] echo].
  destruct Hb as (c' & f' & W' & E' & Eb & Hf' & Hi' & Hc & He).
  exists (fam c' (sent echo (k_uart s)) f' (touch s)), W', E'. split.
  - assert (consoleintr ch s = (cons_body ch;; release LCons) (held LCons s)) as ->.
    { unfold consoleintr.
      rewrite (bind_ok _ _ _ _ _ (acquire_free _ _ (kr_cpu s Hk) (kr_locks s Hk LCons I))).
      unfold cons_body. rewrite bind_assoc. done. }
    rewrite (bind_ok _ _ _ _ _ Eb).
    by rewrite (release_neutral _ (neutral_fam _ _ _) LCons s (kr_cpu s Hk) (kr_locks s Hk LCons I)).
  - split; [done|]. split; [done|]. split; [done|]. split; [|exact (kr_locks s Hk LCons I)].
    cbn. by rewrite rev_app_distr, rev_involutive.
Qed.

(** Typing "a" on an empty line. *)
Lemma consoleintr_edits_witness :
  exists s' E', consoleintr 97 test_ready_uart = Ok tt s' /\ cons_seg (k_cons s') 0 E' = [97].
Proof.
  assert (kready test_ready_uart) as Hk.
  { apply (kready_neutral (set_k_uart (set_uart_lsr LSR_TX_IDLE (k_uart test_state)))); [split; reflexivity| | | | |exact test_state_ready]; reflexivity. }
  pose proof (consoleintr_edits test_ready_uart 0 0 0 97 Hk) as T.
  change (line_spec 97 _ _) with ([] : list Z, [97], [97]) in T. cbv beta iota in T.
  destruct T as (s' & W' & E' & E1 & Hi & Hc & He & _).
  - reflexivity.
  - split; reflexivity.
  - split; [reflexivity|reflexivity|reflexivity|unfold INPUT_MAX; lia|reflexivity|].
    unfold cons_seg. rewrite ring_seg_nil. intros H. inversion H.
  - lia.
  - assert (W' = 0) as ->; [|exists s', E'; split; [exact E1|exact He]].
    pose proof (ci_range _ _ _ _ Hi) as HR. destruct (decide (W' = 0)) as [H|H]; [exact H|].
    unfold cons_seg in Hc. rewrite ring_seg_cons in Hc by lia. discriminate.
Defined.
