(* ===== verification/FileSpec.v ===== *)
(** * What the open file table guarantees

    A slot of [filecache] is free when its count is 0. *)

From S2P Require Import Prelude Layout Memory CString State Spinlock Sched Sleeplock Uart Print.
From S2P Require Import Kmem PageTable Uvm Console Ondisk Bio Block Fs File.

Section file_spec.
  Context {L : LinkMap} {Ot : Others} {D : BlockDev}.
  Implicit Types (s : kstate).

Lemma file_at_set f g s : kready s -> (f < NFILE)%nat -> file_at (set_file f g s) f = g (file_at s f).
Proof. intros Hk Hf. unfold file_at, set_file. kred. rewrite upd_at_eq; [done|]. by rewrite (kr_nfiles s Hk). Qed.

Lemma kready_set_file f g s : kready s -> kready (set_file f g s).
Proof. intros H. apply (kready_neutral (set_file f g)); auto using neutral_set_file. apply length_upd_at. Qed.

(** The last reference. *)
Definition file_cleared (x : file) : file := set_f_type FD_NONE (set_f_ref 0 x).
Lemma fileclose_last f s :
  kready s -> (f < NFILE)%nat -> f_ref (file_at s f) = 1 ->
  fileclose (Some f) s =
    (if bool_decide (f_type (file_at s f) = FD_INODE) || bool_decide (f_type (file_at s f) = FD_DEVICE)
     then iput (f_ip (file_at s f)) else mret tt) (set_file f file_cleared (touch s)).
Proof.
  intros Hk Hf Hr. unfold fileclose, deref, get_file.
  rewrite (bind_ok _ _ _ _ _ (acquire_free _ _ (kr_cpu s Hk) (kr_locks s Hk LFcache I))). rewrite bind_ret.
  rewrite (bind_ok _ _ _ _ _ (eq_refl : gets (fun s => file_at s f) (held LFcache s) = Ok (file_at s f) (held LFcache s))).
  rewrite Hr. change (1 <? 1) with false. change (0 <? 1 - 1) with false. change (1 - 1) with 0. cbv iota.
  unfold upd_file. step_prim. set (g1 := set_f_ref 0).
  set (s2 := set_k_files _ (set_k_files _ (set_k_files _ (held LFcache s)))).
  assert (s2 = set_file f file_cleared (held LFcache s)) as ->.
  { unfold s2, set_file. kstate_eq. by rewrite !upd_at_upd_at. }
  rewrite (release_neutral _ (neutral_set_file f _) LFcache s (kr_cpu s Hk) (kr_locks s Hk LFcache I)).
  assert (file_at (set_k_files (upd_at f g1 (k_files (held LFcache s))) (held LFcache s)) f = g1 (file_at s f)) as E.
  { unfold file_at. kred. rewrite upd_at_eq; [done|]. change (k_files (held LFcache s)) with (k_files s). by rewrite (kr_nfiles s Hk). }
  rewrite E. unfold g1. cbn [f_type f_ip set_f_ref].
  destruct (f_type (file_at s f)); done.
Qed.

Lemma file_dead f s :
  kready s -> f_ref (file_at s f) < 1 ->
  panics (fileclose (Some f)) s "fileclose f ref < 1" /\ panics (filedup f) s "filedup | target file ref < 1..".
Proof.
  intros Hk Hr. split; exists (held LFcache s); unfold fileclose, filedup, deref, get_file;
    rewrite (bind_ok _ _ _ _ _ (acquire_free _ _ (kr_cpu s Hk) (kr_locks s Hk LFcache I)));
    step_prim; change (file_at (held LFcache s) f) with (file_at s f);
    (destruct (Z.ltb_spec (f_ref (file_at s f)) 1); [done|lia]).
Qed.
End file_spec.

(** C39: the life of an open file.  [filealloc] hands out the lowest slot with
    count 0, or null when there is none; [filedup] adds a reference; [fileclose]
    drops one, and the last close frees the slot and then, for inode and device
    files only, puts the inode; on a slot without references both panic.  No
    operation touches another slot. *)
Theorem file_references {L : LinkMap} {Ot : Others} {D : BlockDev} s f :
  kready s -> (f < NFILE)%nat -> 0 <= f_ref (file_at s f) < 2 ^ 31 - 1 ->
  (find_index (fun x => f_ref x =? 0) (k_files s) = Some f ->
     filealloc s = Ok (Some f) (set_file f (set_f_ref 1) (touch s))) /\
  (Forall (fun x => f_ref x <> 0) (k_files s) -> filealloc s = Ok None (touch s)) /\
  (1 <= f_ref (file_at s f) ->
     filedup f s = Ok f (set_file f (set_f_ref (f_ref (file_at s f) + 1)) (touch s))) /\
  (2 <= f_ref (file_at s f) ->
     fileclose (Some f) s = Ok tt (set_file f (set_f_ref (f_ref (file_at s f) - 1)) (touch s))) /\
  (f_ref (file_at s f) = 1 ->
     fileclose (Some f) s =
       (if bool_decide (f_type (file_at s f) = FD_INODE) || bool_decide (f_type (file_at s f) = FD_DEVICE)
        then iput (f_ip (file_at s f)) else mret tt) (set_file f file_cleared (touch s))) /\
  (f_ref (file_at s f) = 0 ->
     panics (fileclose (Some f)) s "fileclose f ref < 1" /\ panics (filedup f) s "filedup | target file ref < 1..").
Proof.
  intros Hk Hf Hr. split; [|split; [|split; [|split; [|split]]]].
  - intros E. rewrite filealloc_eq by done. by rewrite E.
  - intros Hall. rewrite filealloc_eq by done.
    destruct (find_index (fun x => f_ref x =? 0) (k_files s)) as [i|] eqn:E; [|done].
    apply find_index_Some in E as (x & Hx & Hz & _). apply Z.eqb_eq in Hz.
    by apply (Forall_lookup_1 _ _ _ _ Hall Hx) in Hz.
  - intros H1. apply filedup_eq; [apply Hk|by apply Hk|lia].
  - intros H2. by apply fileclose_shared.
  - intros H1. by apply fileclose_last.
  - intros H0. apply file_dead; [done|lia].
Qed.

(** Open, duplicate, close, close. *)
Lemma file_references_witness :
  exists s', @filealloc test_state = Ok (Some 0%nat) s' /\ f_ref (file_at s' 0) = 1 /\
    @fileclose alone instant_disk (Some 0%nat) s' = Ok tt (set_file 0 file_cleared (touch s')).
Proof.
  assert (0 < NFILE)%nat as H0 by (unfold NFILE; lia).
  exists (set_file 0 (set_f_ref 1) (touch test_state)).
  pose proof (kready_touch _ test_state_ready) as Ht.
  assert (f_ref (file_at (set_file 0 (set_f_ref 1) (touch test_state)) 0) = 1) as E1
    by (rewrite file_at_set by (exact Ht || exact H0); reflexivity).
  split; [|split; [exact E1|]].
  - apply (@file_references test_link alone instant_disk test_state 0 test_state_ready H0).
    + vm_compute. split; [discriminate|reflexivity].
    + reflexivity.
  - destruct (@file_references test_link alone instant_disk _ 0 (kready_set_file 0 (set_f_ref 1) _ Ht) H0)
      as (_ & _ & _ & _ & H & _); [rewrite E1; lia|]. rewrite (H E1).
    rewrite file_at_set by (exact Ht || exact H0). reflexivity.
Defined.
