(* ===== verification/VirtioSpec.v ===== *)
(** * What the virtio driver guarantees

    Descriptors are allocated lowest first and given back; a request is a chain
    header, data, status, published in the available ring. *)

From S2P Require Import Prelude Layout Memory State Spinlock Sched Sleeplock Uart Print Ondisk Bio.
From S2P Require Import Block Virtio VirtioProps VirtioDisk BioSpec.

(** Descriptors and requests of the disk driver.  [alloc3_desc] takes the
    three lowest free descriptors, or, when there are fewer, reports -1 with
    every flag as it was; the stores of [virt_disk_rw] then make them the chain
    header, data, status (the data written by the device for reads only), with
    the operation, its sector and the buffer; and [free_chain] from the header
    gives exactly these three back, restoring the free flags.*)
Theorem request_descriptors {L : LinkMap} s b write sector :
  let v := k_virtio s in
  let locked := held LDisk s in
  kready s -> virtio_wf v ->
  (forall i0 i1 i2 r, free_of v = i0 :: i1 :: i2 :: r ->
     exists v1, alloc3_desc locked = Ok (0, [Z.of_nat i0; Z.of_nat i1; Z.of_nat i2]) (set_k_virtio v1 locked) /\
       free_of v1 = r /\
       let v2 := post_request b write sector i0 i1 i2 v1 in
       is_chain v2 b write i0 i1 i2 /\
       v_ops v2 !!! i0 = mkVop (if write then VIRTIO_BLK_T_OUT else VIRTIO_BLK_T_IN) 0 sector /\
       exists s', free_chain (Z.of_nat i0) (set_k_virtio v2 locked) = Ok tt s' /\ v_free (k_virtio s') = v_free v) /\
  ((length (free_of v) < 3)%nat ->
     exists idx s', alloc3_desc locked = Ok (-1, idx) s' /\ v_free (k_virtio s') = v_free v).
Proof.
  intros v locked Hk Hw. assert (can_wake locked) as Hcw.
  { split; [apply cpu_wf_held; [apply Hk|pose proof (kr_noff s Hk); lia]|].
    split; [apply touch_held, Hk|]. split; [|apply Hk].
    intros i Hlt. unfold lock_free. cbn. rewrite lookup_insert_ne by done. exact (kr_locks s Hk (LProc i) Hlt). }
  assert (forall v, vfam v (fun ps => ps) locked = set_k_virtio v locked) as Ef.
  { intros v'. unfold vfam. by rewrite upd_procs_id. }
  assert (vfam v (fun ps => ps) locked = locked) as Ev by (rewrite Ef; by kstate_eq).
  assert (NoDup (free_of v) /\ Forall (fun i => (i < NUM)%nat /\ v_free v !! i = Some 1) (free_of v)) as [Hnd Hall].
  { split; [apply free_ids_nodup|]. apply Forall_forall. intros i Hi. by apply virtio_free_one. }
  split.
  - intros i0 i1 i2 r E.
    destruct (alloc3_loop_take 3 [] v (fun ps => ps) locked [i0; i1; i2] r E eq_refl) as (v1 & E1 & Hv1).
    rewrite Ev, Ef in E1. exists v1. split; [done|]. rewrite E in Hnd, Hall.
    assert (NoDup [i0; i1; i2]) as Hnd3.
    { change (i0 :: i1 :: i2 :: r) with ([i0; i1; i2] ++ r) in Hnd. by apply NoDup_app in Hnd as (? & _). }
    change (i0 :: i1 :: i2 :: r) with ([i0; i1; i2] ++ r) in Hall. apply Forall_app in Hall as [Hall _].
    assert (v_free v1 = set_all 0 (v_free v) [i0; i1; i2]) as Hf1 by (rewrite Hv1; apply v_free_foldl).
    assert (virtio_wf v1) as Hw1.
    { destruct Hw as [? ? ? Hflags]. rewrite Hv1. split; cbn; rewrite ?length_insert; try done.
      repeat (apply Forall_insert; [|by left]). done. }
    split.
    { rewrite Hv1. cbn [foldl]. apply free_of_take in E as [_ E]. apply free_of_take in E as [_ E].
      by apply free_of_take in E as [_ E]. }
    destruct (post_request_chain v1 b write sector i0 i1 i2 Hw1 Hnd3) as (Hch & Hop & Hfr).
    { eapply Forall_impl; [exact Hall|]. by intros ? []. }
    split; [done|]. split; [done|].
    pose proof (free_chain_fam (post_request b write sector i0 i1 i2 v1) (fun ps => ps) locked b write i0 i1 i2
      (fun _ => eq_refl) Hcw Hch Hnd3) as E3. eexists. rewrite Ef in E3. split; [apply E3|].
    { rewrite Hfr, Hf1. apply Forall_forall. intros j Hj. rewrite Forall_forall in Hall. destruct (Hall j Hj) as [Hlt H1].
      split; [done|]. apply list_lookup_total_correct. rewrite lookup_set_all, decide_True; [done|].
      split; [done|by eapply lookup_lt_Some]. }
    cbn [k_virtio vfam set_k_virtio]. destruct (freed_chain (post_request b write sector i0 i1 i2 v1) i0 i1 i2) as (d & _ & ->).
    cbn [v_free set_v_desc set_v_free]. rewrite Hfr, Hf1. apply give_back. eapply Forall_impl; [exact Hall|]. by intros ? [].
  - intros Hlt. destruct (alloc3_loop_fail 3 [] [] v v (fun ps => ps) locked) as (v' & f' & idx & _ & E & Hv'); try done.
    rewrite Ev in E. by exists idx, (vfam v' f' locked).
Qed.

(** A read of buffer 3 with all descriptors free. *)
Definition test_disk : kstate := set_k_virtio (set_v_free (replicate NUM 1) virtio0) test_state.
Lemma request_descriptors_witness :
  exists s', @alloc3_desc test_link (held LDisk test_disk) = Ok (0, [0; 1; 2]) s'.
Proof.
  assert (kready test_disk) as Hk.
  { apply (kready_neutral (set_k_virtio (set_v_free (replicate NUM 1) virtio0))); [split; reflexivity| | | | |exact test_state_ready]; reflexivity. }
  destruct (@request_descriptors test_link test_disk 3 false 10 Hk) as [H _].
  - split; [reflexivity|reflexivity|reflexivity|]. apply (Forall_replicate (fun x => x = 0 \/ x = 1)). right. reflexivity.
  - destruct (H 0%nat 1%nat 2%nat [3; 4; 5; 6; 7]%nat eq_refl) as (v1 & E & _). eexists. exact E.
Defined.

(** ** A whole transfer *)

(** C5: [virt_disk_rw] with the disk, its interrupt and the scheduler.  For a
    process that holds no spin lock, with no other process waiting for the disk
    and a device that meets its specification, the call returns: the request is
    posted, the process sleeps and releases its locks, the device serves the
    queue, [virtio_disk_isr] wakes the process, [scheduler] resumes it, and the
    descriptors are given back.  A read has filled the buffer from the block's
    sectors, a write has stored it there; nothing else of the kernel's state has
    changed but the driver's own data, which is idle again.  This is the
    contract [BlockDevOk] that the buffer cache, and all of the file system
    above it, is proved against. *)
Theorem virtio_transfers {L : LinkMap} {V : VirtioDevice} {HV : DeviceOk V} s i p (write : bool) :
  kready s -> quiet s p -> curproc s = Some p -> virtio_idle (k_virtio s) -> (i < NBUF)%nat ->
  exists v, virtio_idle v /\
    @virt_disk_rw_code L disk_machine i write s = Ok tt (set_k_virtio v
      (if write
       then disk_write (upd_buf i (set_b_disk 0) (touch s)) (b_blockno (buf_at s i)) (b_data (buf_at s i))
       else upd_buf i (fun b => set_b_disk 0 (set_b_data (disk_block s (b_blockno b)) b)) (touch s))).
Proof.
  intros Hk Hq Hp Hv Hi. destruct write.
  - exact (dev_write (BlockDevOk := virtio_dev_ok) s i p Hk Hq Hv Hi Hp).
  - exact (dev_read (BlockDevOk := virtio_dev_ok) s i p Hk Hq Hv Hi Hp).
Qed.

(** Writing buffer 3 of the booted kernel, a buffer of block 0. *)
Lemma virtio_transfers_witness :
  exists s', @virt_disk_rw_code test_link test_machine 3 true (boot_virtio ∅) = Ok tt s'.
Proof.
  pose proof (fs_rbase _ _ (boot_virtio_ready ∅)) as Hs.
  destruct (@virtio_transfers test_link test_device test_device_ok (boot_virtio ∅) 3 0 true) as (v & _ & E).
  - exact (fb_ready _ _ Hs).
  - exact (fb_quiet _ _ Hs).
  - exact (fb_cur _ _ Hs).
  - exact virtio_ready_idle.
  - unfold NBUF. lia.
  - eexists. exact E.
Defined.
