(* ===== verification/MkFsSpec.v ===== *)
(** * What the image builder guarantees

    The image [mkfs] writes holds exactly the files of its command line, under
    their short names, in one directory; and the kernel finds and reads them
    there. *)

From stdpp Require Import functions.
From S2P Require Import Prelude Layout Memory CString State Spinlock Sched Print Ondisk Bio Block Fs FsProps FsPath.
From S2P Require Import BioSpec FsSpec MkFs MkFsProps.

(** ** The directory and the bitmap *)

Definition dots : list Z := dot_entry ROOTINO (str ".") ++ dot_entry ROOTINO (str "..").
(** The root directory: its entries, padded to whole blocks. *)
Definition dir_content (args : list input) : list Z :=
  let c := dots ++ entries 2 args in
  c ++ replicate (Z.to_nat (cdiv (len c) * BSIZE) - length c) 0.

Section main.
  Implicit Types (s : mkfs_state) (own : owners) (files : gmap Z (Z * list Z)).

Lemma rep_pad blk own i a c m n : rep blk own i a c m -> rep blk own i a (c ++ replicate n 0) m.
Proof. intros [H1 H2 H3 H4 H5]. split; try done. intros k Hk. rewrite chunk_pad. by apply H4. Qed.

(** Padding to the end of the last block. *)
Lemma file_rep_pad s own i a c :
  file_rep s own i a c -> 0 < len c ->
  let c' := c ++ replicate (Z.to_nat (cdiv (len c) * BSIZE) - length c) 0 in
  len c' = cdiv (len c) * BSIZE /\ file_rep s own i a c'.
Proof.
  intros [Hr Hi] Hc c'. destruct fs_consts as (Hb & _ & _).
  assert (len c' = cdiv (len c) * BSIZE) as Hl.
  { unfold c'. rewrite length_app, length_replicate. unfold cdiv. rewrite Hb.
    pose proof (Z.div_mod (len c + 1024 - 1) 1024 ltac:(lia)). pose proof (Z.mod_pos_bound (len c + 1024 - 1) 1024 ltac:(lia)). lia. }
  split; [done|]. assert (cdiv (len c') = cdiv (len c)) as E.
  { rewrite Hl. unfold cdiv at 1. rewrite Hb. symmetry. apply (Z.div_unique _ _ _ 1023); lia. }
  split; rewrite E; [by apply rep_pad|done].
Qed.

(** The root's size is rounded up to whole blocks. *)
Lemma round_up n : 0 < n -> n mod BSIZE <> 0 -> (n / BSIZE + 1) * BSIZE = cdiv n * BSIZE.
Proof.
  intros Hn Hm. f_equal. symmetry. apply cdiv_last. destruct fs_consts as (Hb & _ & _). rewrite Hb in *.
  pose proof (Z.div_mod n 1024 ltac:(lia)). pose proof (Z.mod_pos_bound n 1024 ltac:(lia)). lia.
Qed.

Lemma bitmap_bits n :
  Z.of_nat n <= BPB ->
  let buf := foldl set_bit zeroes (seqZ 0 (Z.of_nat n)) in
  length buf = Z.to_nat BSIZE /\
  forall b, 0 <= b < BPB -> Z.testbit (nth (Z.to_nat (b / 8)) buf 0) (b mod 8) = (b <? Z.of_nat n).
Proof.
  change BPB with 8192. induction n as [|n IH]; intros Hn buf.
  { split; [done|]. intros b Hb. change buf with zeroes. rewrite nth_zeroes, Z.bits_0. symmetry. apply Z.ltb_ge. lia. }
  destruct (IH ltac:(lia)) as [Hl Hbit]. set (b0 := foldl set_bit zeroes (seqZ 0 (Z.of_nat n))) in *.
  assert (buf = set_bit b0 (Z.of_nat n)) as ->.
  { unfold buf. replace (Z.of_nat (S n)) with (Z.of_nat n + 1) by lia. rewrite seqZ_app by lia. by rewrite foldl_app. }
  unfold set_bit. split; [by rewrite length_upd_at|]. intros b Hb. specialize (Hbit b Hb).
  assert (Z.to_nat (b / 8) < length b0 /\ Z.to_nat (Z.of_nat n / 8) < length b0)%nat as [Hi Hi'].
  { rewrite Hl. change BSIZE with 1024.
    pose proof (Z.div_lt_upper_bound b 8 1024 ltac:(lia) ltac:(lia)).
    pose proof (Z.div_lt_upper_bound (Z.of_nat n) 8 1024 ltac:(lia) ltac:(lia)). lia. }
  pose proof (Z.div_mod b 8 ltac:(lia)). pose proof (Z.mod_pos_bound b 8 ltac:(lia)).
  pose proof (Z.div_mod (Z.of_nat n) 8 ltac:(lia)). pose proof (Z.mod_pos_bound (Z.of_nat n) 8 ltac:(lia)).
  rewrite nth_lookup. destruct (decide (b / 8 = Z.of_nat n / 8)) as [E|E].
  - rewrite E. rewrite (upd_at_lookup_eq _ _ _ (nth (Z.to_nat (b / 8)) b0 0)) by (rewrite <- E; by apply lookup_nth).
    unfold from_option, id. rewrite Z.lor_spec, Hbit, Z.shiftl_1_l, Z.pow2_bits_eqb by lia.
    destruct (Z.ltb_spec b (Z.of_nat n)), (Z.ltb_spec b (Z.of_nat (S n))), (Z.eqb_spec (Z.of_nat n mod 8) (b mod 8)); lia || done.
  - rewrite upd_at_lookup_ne by (intros E'; apply E; apply Z2Nat.inj in E'; [done| |]; apply Z.div_pos; lia).
    rewrite <- nth_lookup, Hbit. destruct (Z.ltb_spec b (Z.of_nat n)), (Z.ltb_spec b (Z.of_nat (S n))); lia || done.
Qed.

Lemma balloc_ok s own files :
  image_ok s own files -> 0 <= m_freeblock s ->
  exists s', mkfs_balloc (m_freeblock s) s = Ok tt s' /\ image_ok s' own files /\ m_freeblock s' = m_freeblock s /\
    (forall b, b < 32 -> sblk s' b = sblk s b) /\
    (forall b, 0 <= b < BPB ->
       Z.testbit (nth (Z.to_nat (b / 8)) (sblk s' (sb_bmapstart mkfs_sb)) 0) (b mod 8) = (b <? m_freeblock s)).
Proof.
  intros [H1 H2 H3 H4] H0. pose proof mkfs_consts. pose proof (dk_free _ _ H1).
  unfold mkfs_balloc, assert. change (BSIZE * 8) with 8192. destruct (Z.ltb_spec (m_freeblock s) 8192); [|lia].
  rewrite bind_ret. change (sb_bmapstart mkfs_sb) with 45.
  destruct (bitmap_bits (Z.to_nat (m_freeblock s)) ltac:(change BPB with 8192; lia)) as [Hl Hbits].
  rewrite Z2Nat.id in Hl, Hbits by lia. set (buf := foldl set_bit _ _) in *.
  rewrite (wsect_ok s 45 buf (dk_size _ _ H1)) by lia. exists (wrote 45 buf s). split; [done|].
  assert (forall x, x <> 45 -> sblk (wrote 45 buf s) x = sblk s x) as Ho.
  { intros x Hx. by rewrite sblk_wrote, fn_lookup_insert_ne. }
  split; [split|].
  - apply disk_ok_wrote; [done|lia|done].
  - done.
  - done.
  - intros i ty c Hi. destruct (H4 _ _ _ Hi) as (a & Ed & Hwf & Hr). exists a.
    pose proof (inode_sector_ok i) as Hsec. pose proof (H3 i ltac:(eauto)).
    assert (din_of (wrote 45 buf s) i = din_of s i) as -> by (unfold din_of; rewrite Ho; [done|lia]).
    split; [done|]. split; [done|]. apply file_rep_meta; [done|lia|done].
  - split; [done|]. split; [intros; apply Ho; lia|]. intros b Hb.
    rewrite sblk_wrote, fn_lookup_insert. by apply Hbits.
Qed.

(** The zeroing loop. *)
Lemma zero_blocks n k s :
  im_size (m_img s) = k -> 0 <= k -> k + Z.of_nat n <= FSSIZE -> (forall b, sblk s b = zeroes) ->
  exists im, for_each (seqZ k (Z.of_nat n)) (fun i => wsect i zeroes) s = Ok tt (set_m_img im s) /\
    im_size im = k + Z.of_nat n /\ (forall b, im_block im b = zeroes).
Proof.
  revert k s. induction n as [|n IH]; intros k s Hs Hk Hn Hz.
  { exists (m_img s). split; [by destruct s|]. split; [lia|done]. }
  rewrite seqZ_cons by lia. cbn [for_each].
  set (im1 := mkImage (Z.max (im_size (m_img s)) (k + 1)) (<[k:=zeroes]> (im_blocks (m_img s)))).
  assert (wsect k zeroes s = Ok tt (set_m_img im1 s)) as E1 by (unfold wsect; by rewrite sector_block by lia).
  rewrite (bind_ok _ _ _ _ _ E1).
  replace (Z.succ k) with (k + 1) by lia. replace (Z.pred (Z.of_nat (S n))) with (Z.of_nat n) by lia.
  destruct (IH (k + 1) (set_m_img im1 s)) as (im & E & Hsz & Hz').
  - cbn. lia.
  - lia.
  - lia.
  - intros b. unfold im_block. cbn. destruct (decide (k = b)) as [->|]; [by rewrite lookup_insert_eq|].
    rewrite lookup_insert_ne by done. apply Hz.
  - exists im. split; [exact E|]. split; [lia|done].
Qed.

(** The empty image, after the superblock is written. *)
Lemma image_ok_empty im :
  im_size im = FSSIZE -> (forall b, im_block im b = zeroes) ->
  let s := wrote 1 (set_range zeroes 0 (enc_superblock mkfs_sb)) (mkMkfs im 1 nmeta) in
  image_ok s ∅ ∅ /\ dec_superblock (sblk s 1) = mkfs_sb.
Proof.
  intros Hs Hz s. pose proof mkfs_consts. split.
  - split; [|cbn; change NINODES with 200; lia|intros i [? Hi]; by rewrite lookup_empty in Hi|done].
    apply disk_ok_wrote; [|cbn; lia|done]. split; cbn; try done; try lia. intros b. by rewrite Hz.
  - unfold s. rewrite sblk_wrote, fn_lookup_insert. by vm_compute.
Qed.

Lemma make_root_ok s :
  image_ok s ∅ ∅ -> m_freeinode s = 1 -> m_freeblock s = nmeta ->
  exists s' own, make_root s = Ok ROOTINO s' /\ image_ok s' own {[ROOTINO := (T_DIR, dots)]} /\
    m_freeinode s' = 2 /\ grew s s' 1.
Proof.
  intros Hs Hi Hb. pose proof mkfs_consts. unfold make_root.
  destruct (ialloc_ok s ∅ ∅ T_DIR Hs) as (s1 & E1 & Hs1 & Hn1 & Hb1 & Hk1); [rewrite Hi; done|done|].
  rewrite Hi in *. rewrite (bind_ok _ _ _ _ _ E1). change (1 =? ROOTINO) with true. unfold assert. rewrite bind_ret.
  change (iappend 1) with (iappend ROOTINO). change (dot_entry 1) with (dot_entry ROOTINO). change 1 with ROOTINO in Hs1. set (e1 := dot_entry ROOTINO (str ".")) in *. set (e2 := dot_entry ROOTINO (str "..")) in *.
  assert (len e1 = 16 /\ len e2 = 16) as [L1 L2] by done.
  assert (file_blocks (cdiv (len (@nil Z))) = 0 /\ file_blocks (cdiv 16) = 1 /\ file_blocks (cdiv 32) = 1) as (B0 & B1 & B2) by done.
  destruct (iappend_ok s1 ∅ _ ROOTINO T_DIR [] e1 Hs1) as (s2 & own2 & E2 & Hs2 & Hn2 & Hb2 & Hk2);
    [apply lookup_insert_eq|done|by rewrite app_nil_l, L1|rewrite app_nil_l, L1; lia|].
  rewrite app_nil_l, L1 in Hb2.
  rewrite (bind_ok _ _ _ _ _ E2).
  assert (len (e1 ++ e2) = 32) as L12 by (rewrite length_app; lia).
  destruct (iappend_ok s2 own2 _ ROOTINO T_DIR e1 e2 Hs2) as (s3 & own3 & E3 & Hs3 & Hn3 & Hb3 & Hk3);
    [apply lookup_insert_eq|done|by rewrite L12|rewrite L12, L1; lia|].
  rewrite L12, L1 in Hb3.
  rewrite (bind_ok _ _ _ _ _ E3). exists s3, own3. split; [done|]. rewrite !insert_insert_eq in Hs3. split; [exact Hs3|].
  split; [rewrite Hn3, Hn2, Hn1; done|]. split; [lia|]. intros b Hm. by rewrite Hk3, Hk2, Hk1.
Qed.

Lemma fix_root_ok s own files c :
  image_ok s own files -> files !! ROOTINO = Some (T_DIR, c) -> 0 < len c <= MAXFILE * BSIZE -> len c mod BSIZE <> 0 ->
  let c' := c ++ replicate (Z.to_nat (cdiv (len c) * BSIZE) - length c) 0 in
  exists s', fix_root ROOTINO s = Ok tt s' /\ image_ok s' own (<[ROOTINO := (T_DIR, c')]> files) /\ m_freeblock s' = m_freeblock s /\
    meta_kept s s'.
Proof.
  intros Hs Hf Hc Hm c'. pose proof fs_consts. destruct (im_file _ _ _ Hs _ _ _ Hf) as (a & Ed & Hwf & Hr).
  destruct (file_rep_pad _ _ _ _ _ Hr ltac:(lia)) as [Hl Hr']. fold c' in Hl, Hr'.
  assert (cdiv (len c) <= MAXFILE) as Hcd.
  { pose proof (cdiv_mono (len c) (MAXFILE * BSIZE) ltac:(lia)) as Hle. by change (cdiv (MAXFILE * BSIZE)) with MAXFILE in Hle. }
  assert (0 <= cdiv (len c)) by (change 0 with (cdiv 0); apply cdiv_mono; lia).
  unfold fix_root. rewrite (bind_ok _ _ _ _ _ (rinode_ok s own ROOTINO (im_disk _ _ _ Hs) ltac:(done))). rewrite Ed.
  cbn [di_size di_type di_major di_minor di_nlink di_addrs]. rewrite !xint_eq.
  rewrite (u32_id (len c)) by lia. rewrite round_up by lia. rewrite <- Hl, !(u32_id (len c')) by lia.
  rewrite (winode_ok s own) by (apply Hs || done). eexists. split; [done|].
  split; [|split; [done|by apply with_inode_kept]].
  apply (image_ok_inode s own s own files ROOTINO T_DIR c' a); try done; [|apply Hs|lia].
  apply (im_dom _ _ _ Hs). eauto.
Qed.
End main.

(** The image of the files [args]: the directory holds [.], [..] and one entry
    per file, file [k] is inode [2 + k] with its content, the superblock reads
    back, and the bitmap marks exactly the blocks used. *)
Record built (args : list input) (im : mkfs_state) (own : owners) (files : gmap Z (Z * list Z)) : Prop := {
  bu_image : image_ok im own files;
  bu_used : m_freeblock im = nmeta + blocks_of (16 * (len args + 2)) + data_blocks args;
  bu_root : files !! ROOTINO = Some (T_DIR, dir_content args);
  bu_file k f : args !! k = Some f -> files !! (2 + Z.of_nat k) = Some (T_FILE, content f);
  bu_super : dec_superblock (sblk im 1) = mkfs_sb;
  bu_bitmap b : 0 <= b < BPB ->
    Z.testbit (nth (Z.to_nat (b / 8)) (sblk im (sb_bmapstart mkfs_sb)) 0) (b mod 8) = (b <? m_freeblock im)
}.

(** The files open and fit: each in length, all in number and in total; the
    directory does not end at a block boundary. *)
Definition fits (args : list input) : Prop :=
  Forall valid_input args /\ len args + 2 <= NINODES /\ (len args + 2) mod 64 <> 0 /\
  nmeta + blocks_of (16 * (len args + 2)) + data_blocks args <= FSSIZE.

Lemma mkfs_main_ok args :
  fits args -> exists im own files, mkfs_main args mkfs_init = Ok tt im /\ built args im own files.
Proof.
  intros (Hv & Hn & Hmod & Hfree). pose proof mkfs_consts. pose proof fs_consts. change NINODES with 200 in Hn.
  unfold mkfs_main.
  rewrite (bind_ok _ _ _ _ _ (eq_refl : modify (set_m_freeblock nmeta) mkfs_init = Ok tt (mkMkfs (mkImage 0 ∅) 1 nmeta))).
  destruct (zero_blocks (Z.to_nat FSSIZE) 0 (mkMkfs (mkImage 0 ∅) 1 nmeta)) as (im & Ez & Hsz & Hz); [done|done|lia|done|].
  rewrite Z2Nat.id in Ez, Hsz by lia. rewrite (bind_ok _ _ _ _ _ Ez). cbn [set_m_img m_freeinode m_freeblock].
  rewrite (bind_ok _ _ _ _ _ (wsect_ok (mkMkfs im 1 nmeta) 1 _ Hsz ltac:(lia))).
  destruct (image_ok_empty im Hsz Hz) as [Hs0 Hsb]. set (s0 := wrote 1 _ _) in *.
  destruct (make_root_ok s0 Hs0 eq_refl eq_refl) as (s1 & own1 & E1 & Hs1 & Hn1 & [Hb1 Hk1]).
  rewrite (bind_ok _ _ _ _ _ E1). change (m_freeblock s0) with nmeta in Hb1.
  assert (len dots = 32) as Ld by done.
  assert (blocks_of 32 = 1) as B32 by done.
  pose proof (blocks_of_mono 32 (16 * (len args + 2)) ltac:(lia)).
  assert (len dots + 16 * len args = 16 * (len args + 2)) as Ldir by lia.
  destruct (add_files_ok args s1 own1 _ dots Hs1 ltac:(apply lookup_insert_eq) Hv) as (s2 & own2 & files & E2 & Hs2 & Hn2 & Hr2 & Hf2 & _ & [Hb2 Hk2]);
    [change NINODES with 200; lia|lia|rewrite Ldir, Ld, B32; lia|].
  rewrite Hn1 in *. rewrite Ldir, Ld, B32 in Hb2. rewrite (bind_ok _ _ _ _ _ E2).
  assert (len (dots ++ entries 2 args) = 16 * (len args + 2)) as Lc by (rewrite length_app; pose proof (length_entries 2 args); lia).
  destruct (fix_root_ok s2 own2 files _ Hs2 Hr2) as (s3 & E3 & Hs3 & Hb3 & Hk3); [rewrite Lc; lia| |].
  { rewrite Lc. pose proof (Z.div_mod (len args + 2) 64 ltac:(lia)). intros Hz0. apply Hmod. 
    change BSIZE with (16 * 64) in Hz0. rewrite Z.mul_mod_distr_l in Hz0 by lia. lia. }
  fold (dir_content args) in Hs3. rewrite (bind_ok _ _ _ _ _ E3).
  rewrite (bind_ok _ _ _ _ _ (eq_refl : gets m_freeblock s3 = Ok (m_freeblock s3) s3)).
  pose proof (dk_free _ _ (im_disk _ _ _ Hs3)).
  destruct (balloc_ok s3 own2 _ Hs3 ltac:(lia)) as (s4 & E4 & Hs4 & Hb4 & Hk4 & Hbits).
  exists s4, own2, (<[ROOTINO := (T_DIR, dir_content args)]> files). split; [done|]. split.
  - done.
  - lia.
  - apply lookup_insert_eq.
  - intros k f Hk. rewrite lookup_insert_ne by (change ROOTINO with 1; lia). by apply Hf2.
  - rewrite Hk4, Hk3, Hk2, Hk1 by lia. exact Hsb.
  - rewrite Hb4. exact Hbits.
Qed.

(** C3: [mkfs] builds the image it is asked for.  With files that open and fit
    (in number, in length and in total) it succeeds; every inode of the image
    holds its file's content in blocks of its own ([image_ok] gives each block
    one owner), the directory names every file, the superblock reads back and
    the bitmap marks exactly the blocks used. *)
Theorem mkfs_builds args :
  fits args -> exists im own files, mkfs_main args mkfs_init = Ok tt im /\ built args im own files.
Proof. exact (mkfs_main_ok args). Qed.

(** ** The kernel reads the image *)

Section kernel.
  Context {L : LinkMap} {Ot : Others} {D : BlockDev} `{!BlockDevOk D}.
  Implicit Types (s : kstate) (im : mkfs_state).

(** The disk the kernel sees is the image. *)
Definition mounted s im : Prop := k_disk s = im_blocks (m_img im).

Lemma mounted_block s im b : mounted s im -> 0 <= b < 2 ^ 31 -> disk_block s b = sblk im b.
Proof.
  intros Hm Hb. unfold disk_block, im_block. rewrite Hm. rewrite u32_id by lia. by rewrite Z.div_mul by lia.
Qed.

Lemma mounted_dinode s im i :
  mounted s im -> k_sb s = mkfs_sb -> 0 <= i < NINODES -> disk_dinode s i = din_of im i.
Proof.
  intros Hm Hsb Hi. destruct (inode_sector_ok i Hi) as [E Hr]. unfold disk_dinode, din_of.
  rewrite Hsb, E. by rewrite (mounted_block s im) by (done || lia).
Qed.

(** The bytes of a content, read from the blocks. *)
Lemma take_drop_chunk c off n :
  0 <= off -> 0 <= n <= BSIZE - off mod BSIZE -> off + n <= len c ->
  take (Z.to_nat n) (drop (Z.to_nat (off mod BSIZE)) (chunk c (off / BSIZE))) = take (Z.to_nat n) (drop (Z.to_nat off) c).
Proof.
  intros Ho Hn Hl. assert (BSIZE = 1024) as Hb by done. rewrite Hb in *.
  pose proof (Z.div_mod off 1024 ltac:(lia)). pose proof (Z.mod_pos_bound off 1024 ltac:(lia)).
  apply list_eq. intros i. destruct (decide (i < Z.to_nat n)%nat); [|by rewrite !lookup_take_ge by lia].
  rewrite !lookup_take_lt, !lookup_drop by done. rewrite lookup_chunk by (rewrite Hb; lia). rewrite Hb.
  rewrite (lookup_nth c (Z.to_nat off + i) 0) by lia. do 2 f_equal. lia.
Qed.

(** ** The directory of an image of one directory block *)

Lemma drop_entries n k args : drop (16 * k) (entries n args) = entries (n + Z.of_nat k) (drop k args).
Proof.
  revert n args. induction k as [|k IH]; intros n args; [by rewrite Z.add_0_r|].
  destruct args as [|f args]; [by rewrite drop_nil|]. cbn [entries].
  replace (16 * S k)%nat with (length (entry_of n f) + 16 * k)%nat by (rewrite length_entry; lia).
  rewrite drop_app_add, IH. cbn [drop]. f_equal. lia.
Qed.

Lemma length_dir_content args :
  len args + 2 < 64 -> len (dir_content args) = BSIZE.
Proof.
  intros Hn. unfold dir_content. assert (len (dots ++ entries 2 args) = 16 * (len args + 2)) as Lc.
  { rewrite length_app. pose proof (length_entries 2 args). assert (len dots = 32) by done. lia. }
  rewrite length_app, length_replicate. rewrite (cdiv_last _ 0) by (change BSIZE with 1024; lia). change BSIZE with 1024. lia.
Qed.

Lemma chunk_whole c : length c = Z.to_nat BSIZE -> chunk c 0 = c.
Proof.
  intros Hl. apply list_eq. intros i. destruct (decide (i < Z.to_nat BSIZE)%nat).
  - rewrite lookup_chunk by done. rewrite (lookup_nth c i 0) by lia. done.
  - rewrite !lookup_ge_None_2; [done|lia|rewrite length_chunk; lia].
Qed.

(** Entry [k] of the directory. *)
Lemma dir_entry args k f :
  args !! k = Some f -> take 16 (drop (16 * (k + 2)) (dir_content args)) = entry_of (2 + Z.of_nat k) f.
Proof.
  intros Hk. unfold dir_content. cbv zeta. rewrite <- app_assoc.
  replace (16 * (k + 2))%nat with (length dots + 16 * k)%nat by (change (length dots) with 32%nat; lia).
  rewrite drop_app_add. pose proof (lookup_lt_Some _ _ _ Hk). pose proof (length_entries 2 args).
  rewrite drop_app_le by lia. rewrite drop_entries, (drop_S args f k Hk). cbn [entries]. rewrite <- app_assoc.
  rewrite take_app_length'; [done|by rewrite length_entry].
Qed.

Lemma dir_dots args :
  take 16 (drop 0 (dir_content args)) = dot_entry ROOTINO (str ".") /\
  take 16 (drop 16 (dir_content args)) = dot_entry ROOTINO (str "..").
Proof. by split. Qed.

Lemma dec_entry n f :
  0 <= n < 2 ^ 16 ->
  dec_dirent (entry_of n f) = mkDirent n (strncpy (of_list (shortname (fst f))) (Z.of_nat DIRSIZ)).
Proof.
  intros Hn. unfold entry_of. rewrite xshort_eq, u16_id by done. apply dec_enc_dirent; [done|apply length_strncpy].
Qed.

Lemma dir_entries_lookup blk k j :
  (j < k)%nat -> dir_entries blk k !! j = Some (dec_dirent (take 16 (drop (16 * j) blk))).
Proof. intros. unfold dir_entries. by rewrite list_lookup_fmap, lookup_seq_lt by lia. Qed.

Lemma names_dots name :
  names name (dec_dirent (dot_entry ROOTINO (str "."))) = bool_decide (cprefix DIRSIZ name = str ".") /\
  names name (dec_dirent (dot_entry ROOTINO (str ".."))) = bool_decide (cprefix DIRSIZ name = str "..").
Proof. by split. Qed.

(** [name] is the name of file [k] and of no earlier entry. *)
Definition names_file (name : chars) (args : list input) (k : nat) (f : input) : Prop :=
  let p := cprefix DIRSIZ name in
  let q f := cprefix DIRSIZ (of_list (shortname (fst f))) in
  args !! k = Some f /\ p = q f /\ p <> str "." /\ p <> str ".." /\
  (forall j g, (j < k)%nat -> args !! j = Some g -> p <> q g).

Lemma find_file name args k f :
  len args + 2 < 64 -> names_file name args k f ->
  let es := dir_entries (dir_content args) 64 in
  find_index (names name) es = Some (k + 2)%nat /\ de_inum (es !!! (k + 2)%nat) = 2 + Z.of_nat k.
Proof.
  intros Hn (Hk & Hp & Hd1 & Hd2 & Hmin) es. pose proof (lookup_lt_Some _ _ _ Hk) as Hlt.
  assert (forall j g, args !! j = Some g -> es !! (j + 2)%nat =
    Some (mkDirent (2 + Z.of_nat j) (strncpy (of_list (shortname (fst g))) (Z.of_nat DIRSIZ)))) as He.
  { intros j g Hj. pose proof (lookup_lt_Some _ _ _ Hj). unfold es.
    rewrite dir_entries_lookup by lia. rewrite (dir_entry _ _ _ Hj). by rewrite dec_entry by lia. }
  assert (forall j (g : input), names name (mkDirent j (strncpy (of_list (shortname (fst g))) (Z.of_nat DIRSIZ))) =
    bool_decide (cprefix DIRSIZ name = cprefix DIRSIZ (of_list (shortname (fst g))))) as Hnm.
  { intros j g. unfold names. cbn [de_name]. by rewrite cprefix_strncpy. }
  split; [|by rewrite (list_lookup_total_correct _ _ _ (He k f Hk))].
  apply (find_index_intro _ _ _ _ (He k f Hk)); [rewrite Hnm; by apply bool_decide_eq_true|].
  intros [|[|j]] y Hj Hy.
  - unfold es in Hy. rewrite dir_entries_lookup in Hy by lia. change (16 * 0)%nat with 0%nat in Hy.
    rewrite (proj1 (dir_dots args)) in Hy. injection Hy as <-. rewrite (proj1 (names_dots name)).
    by apply bool_decide_eq_false.
  - unfold es in Hy. rewrite dir_entries_lookup in Hy by lia. change (16 * 1)%nat with 16%nat in Hy.
    rewrite (proj2 (dir_dots args)) in Hy. injection Hy as <-. rewrite (proj2 (names_dots name)).
    by apply bool_decide_eq_false.
  - destruct (lookup_lt_is_Some_2 args j) as [g Hg]; [lia|]. pose proof (He j g Hg) as Hy'.
    replace (j + 2)%nat with (S (S j)) in Hy' by lia. rewrite Hy in Hy'. injection Hy' as ->.
    rewrite Hnm. apply bool_decide_eq_false. apply (Hmin j); [lia|done].
Qed.

(** The arguments' names are bytes. *)
Definition byte_names (args : list input) : Prop :=
  Forall (fun f : input => Forall (fun b => 0 <= b < 2 ^ 8) (fst f)) args.

Lemma entries_bytes n args : byte_names args -> Forall (fun b => 0 <= b < 2 ^ 8) (entries n args).
Proof.
  intros H. revert n. induction H as [|f args Hf _ IH]; intros n; cbn [entries]; [done|].
  apply Forall_app. split; [|by apply IH]. unfold entry_of, enc_dirent. cbn [de_inum de_name].
  apply Forall_app. split; [apply le_enc_range|]. rewrite strncpy_eq. apply Forall_app.
  split; [|apply Forall_replicate; lia]. apply cprefix_bytes, of_list_bytes. unfold shortname.
  repeat case_match; repeat apply Forall_drop; done.
Qed.

Lemma dots_bytes : Forall (fun b => 0 <= b < 2 ^ 8) dots.
Proof. apply (bool_decide_unpack _). vm_compute. exact I. Qed.

Lemma dir_bytes args : byte_names args -> Forall (fun b => 0 <= b < 2 ^ 8) (dir_content args).
Proof.
  intros H. unfold dir_content. cbv zeta. apply Forall_app. split; [|apply Forall_replicate; lia].
  apply Forall_app. split; [apply dots_bytes|by apply entries_bytes].
Qed.

(** Block [k] of a file of the image, as the kernel addresses it. *)
Lemma image_block im own files i ty c k :
  image_ok im own files -> files !! i = Some (ty, c) -> 0 <= k -> k * BSIZE < len c ->
  let d := din_of im i in
  let b := fblock (sblk im) (di_addrs d) k in
  di_size d = len c /\ dinode_blocks d /\ 0 < b < FSSIZE /\ sblk im b = chunk c k /\ k < MAXFILE /\
  (NDIRECT <= k -> 0 < nth 12 (di_addrs d) 0 < FSSIZE).
Proof.
  intros Hi Hf Hk Hlen d b. destruct (im_file _ _ _ Hi _ _ _ Hf) as (a & Ed & Hwf & Hr & H12).
  assert (BSIZE = 1024) as Hbs by done. pose proof mkfs_consts. pose proof (dk_free _ _ (im_disk _ _ _ Hi)).
  assert (k < cdiv (len c)) as Hkc.
  { unfold cdiv. rewrite Hbs in *. pose proof (Z.div_le_lower_bound (len c + 1024 - 1) 1024 (k + 1)). lia. }
  pose proof (rp_max _ _ _ _ _ _ Hr). destruct (rp_data _ _ _ _ _ _ Hr k ltac:(lia)) as [Ho Hb].
  pose proof (dk_own _ _ (im_disk _ _ _ Hi) _ _ Ho). unfold b, d. rewrite Ed. cbn [di_addrs di_size].
  split; [done|]. split; [|split; [lia|split; [done|split; [lia|]]]].
  - split; [by destruct Hr|]. eapply Forall_impl; [eapply rep_addrs; [apply Hi|exact Hr]|]. cbn. lia.
  - intros Hnd. destruct (rp_ind _ _ _ _ _ _ Hr) as [[E0 _]|[_ Hoi]]; [apply H12 in E0; lia|].
    pose proof (dk_own _ _ (im_disk _ _ _ Hi) _ _ Hoi). lia.
Qed.

(** C2: the kernel reads what [mkfs] wrote.  Mounted on the image of files that
    fit (in one directory block), [initfs] accepts the superblock, and the start
    of [exec] ([rootsub], [ilock], [readi]) on the name of a file returns
    exactly its bytes, from any offset up to the end of the block and of the
    file, through direct and indirect blocks. *)
Theorem kernel_reads_image args im s p name k f off n :
  fits args -> len args + 2 < 64 -> byte_names args -> mkfs_main args mkfs_init = Ok tt im ->
  fs_ready s p -> icache_empty s -> mounted s im ->
  bytes name -> names_file name args k f ->
  0 <= off < len (content f) -> 0 < n <= BSIZE - off mod BSIZE ->
  let n' := Z.min n (len (content f) - off) in
  exists s', (initfs ROOTDEV;; open_read name off n) s =
    Ok (n', take (Z.to_nat n') (drop (Z.to_nat off) (content f))) s' /\ fs_ready s' p.
Proof.
  intros Hfit Hdir Hbn Hmk Hs He Hm Hnm Hnf Hoff Hn n'. destruct (mkfs_main_ok args Hfit) as (im' & own & files & E & Hb).
  rewrite Hmk in E. injection E as <-. destruct Hb as [Hi _ Hroot Hfile Hsup _]. destruct Hnf as [Hk Hnf].
  destruct (find_file name args k f Hdir (conj Hk Hnf)) as [Hfi Hinum]. specialize (Hfile k f Hk).
  pose proof mkfs_consts. assert (BSIZE = 1024) as Hbs by done. pose proof (length_dir_content args Hdir) as Hld.
  destruct (initfs_ok s p Hs) as (s1 & E1 & Hs1 & Hsb & Hdk & Hin); [by rewrite (mounted_block s im 1 Hm), Hsup by lia|].
  rewrite (bind_ok _ _ _ _ _ E1). rewrite (mounted_block s im 1 Hm), Hsup in Hsb by lia.
  assert (mounted s1 im) as Hm1 by (unfold mounted; by rewrite Hdk).
  pose proof (im_dom _ _ _ Hi _ (mk_is_Some _ _ Hfile)). pose proof (im_inum _ _ _ Hi).
  assert (disk_dinode s1 ROOTINO = din_of im ROOTINO) as Er
    by exact (mounted_dinode s1 im ROOTINO Hm1 Hsb (conj (Z.le_0_1) eq_refl)).
  assert (disk_dinode s1 (2 + Z.of_nat k) = din_of im (2 + Z.of_nat k)) as Ef
    by (apply (mounted_dinode s1 im _ Hm1 Hsb); lia).
  destruct (image_block _ _ _ _ _ _ 0 Hi Hroot ltac:(lia) ltac:(lia)) as (Hsz & Hbl & Hb0 & Hdata & _).
  assert (0 <= off / BSIZE) as Hdiv by (apply Z.div_pos; lia).
  destruct (image_block _ _ _ _ _ _ (off / BSIZE) Hi Hfile Hdiv) as (Hsz' & Hbl' & Hb' & Hdata' & Hmax & Hind).
  { rewrite Hbs. pose proof (Z.div_mod off 1024 ltac:(lia)). pose proof (Z.mod_pos_bound off 1024 ltac:(lia)). lia. }
  change (fblock (sblk im) ?a 0) with (nth 0 a 0) in Hb0, Hdata.
  rewrite chunk_whole in Hdata by lia.
  set (d := din_of im ROOTINO) in *. set (d' := din_of im (2 + Z.of_nat k)) in *. set (b' := fblock _ _ (off / BSIZE)) in *.
  assert ((if off / BSIZE <? NDIRECT then nth (Z.to_nat (off / BSIZE)) (di_addrs d') 0
    else get32 (disk_block s1 (nth 12 (di_addrs d') 0)) (Z.to_nat (4 * (off / BSIZE - NDIRECT)))) = b') as Eb'.
  { unfold b', fblock. destruct (Z.ltb_spec (off / BSIZE) NDIRECT) as [|Hnd]; [done|]. specialize (Hind Hnd).
    by rewrite (mounted_block s1 im) by (exact Hm1 || lia). }
  assert (forall inum, 0 <= inum < NINODES -> IBLOCK inum (k_sb s1) < 2 ^ 31) as Hib.
  { intros inum Hnum. rewrite Hsb. destruct (inode_sector_ok inum Hnum). lia. }
  pose proof (open_read_ok s1 p name off n 64 (k + 2)) as Ho. cbv zeta in Ho. rewrite Er in Ho.
  rewrite (mounted_block s1 im (nth 0 (di_addrs d) 0)), Hdata, Hinum, Ef, Eb' in Ho by (exact Hm1 || lia).
  rewrite (mounted_block s1 im b'), Hdata', Hsz' in Ho by (exact Hm1 || lia).
  rewrite take_drop_chunk in Ho by lia. apply Ho; clear Ho; try exact Hbl; try exact Hbl'; try assumption; try lia.
  - unfold icache_empty. by rewrite Hin.
  - exact (Hib ROOTINO (conj Z.le_0_1 eq_refl)).
  - by apply dir_bytes.
  - change ROOTINO with 1. lia.
  - apply Hib. lia.
  - rewrite length_chunk. done.
  - destruct (Forall_lookup_1 _ _ _ _ (proj1 Hfit) Hk) as [_ Hv]. change (MAXFILE * BSIZE) with 274432 in Hv. lia.
Qed.
End kernel.

(** An image of two files, and the kernel booted on it. *)
Definition test_args : list input :=
  [(str "src/user/_ls", Some [replicate 1024 65; replicate 100 66]); (str "README", Some [])].
Definition test_image : mkfs_state :=
  match mkfs_main test_args mkfs_init with Ok _ im => im | _ => mkfs_init end.

Lemma test_args_fit : fits test_args.
Proof.
  split; [|split; [|split]].
  - repeat constructor; (by eexists) || (apply Z.leb_le; vm_compute; exact eq_refl).
  - apply Z.leb_le. exact eq_refl.
  - vm_compute. discriminate.
  - apply Z.leb_le. vm_compute. exact eq_refl.
Qed.

Lemma mkfs_builds_witness :
  exists im own files, mkfs_main test_args mkfs_init = Ok tt im /\ built test_args im own files.
Proof. exact (mkfs_builds test_args test_args_fit). Defined.

Lemma test_image_built : mkfs_main test_args mkfs_init = Ok tt test_image.
Proof. destruct (mkfs_main_ok test_args test_args_fit) as (im & own & files & E & _). unfold test_image. by rewrite E. Qed.
#[global] Opaque test_image.

Lemma boot_icache d : icache_empty (boot_virtio d).
Proof.
  assert (forall v s, icache_empty s -> icache_empty (set_k_virtio v s)) as H by done.
  apply H. unfold icache_empty. rewrite boot_fs_inodes. by apply Forall_replicate.
Qed.
Lemma boot_virtio_disk d : k_disk (boot_virtio d) = d.
Proof.
  assert (forall v s, k_disk (set_k_virtio v s) = k_disk s) as H by done.
  unfold boot_virtio. rewrite H. apply boot_fs_disk.
Qed.

Lemma kernel_reads_image_witness :
  exists s', (@initfs test_machine test_driver ROOTDEV;; @open_read test_machine test_driver (of_list (str "ls")) 1024 50)
    (boot_virtio (im_blocks (m_img test_image))) = Ok (50, replicate 50 66) s'.
Proof.
  destruct (@kernel_reads_image test_machine test_driver test_driver_ok test_args test_image
    (boot_virtio (im_blocks (m_img test_image))) 0 (of_list (str "ls")) 0
    (str "src/user/_ls", Some [replicate 1024 65; replicate 100 66]) 1024 50
    test_args_fit) as (s' & E & _).
  - exact eq_refl.
  - apply (bool_decide_unpack _). vm_compute. exact I.
  - exact test_image_built.
  - exact (boot_virtio_ready _).
  - exact (boot_icache _).
  - exact (boot_virtio_disk _).
  - apply of_list_bytes. apply (bool_decide_unpack _). vm_compute. exact I.
  - split; [exact eq_refl|]. split; [exact eq_refl|]. split; [discriminate|]. split; [discriminate|].
    intros j g Hj. destruct (Nat.nlt_0_r _ Hj).
  - split; [apply Z.leb_le|apply Z.ltb_lt]; vm_compute; exact eq_refl.
  - split; [apply Z.ltb_lt|apply Z.leb_le]; vm_compute; exact eq_refl.
  - exists s'. exact E.
Defined.
