(* ===== verification/UmemSpec.v ===== *)
(** * What the user allocator guarantees

    [malloc] and [free] against the tiling of the heap, and what a client may
    rely on over any sequence of calls. *)

From S2P Require Import Prelude Memory Umem UmemProps.

Section umem_spec.
  Context {E : UserEnv} {EO : SbrkOk E} (start : Z).

(** A program that has not called [malloc] yet, with its break at [start]. *)
Definition heap_new (s : uheap) : Prop :=
  u_freep s = 0 /\ u_brk s = start /\ start <= USER_TOP /\ 0 < l_base /\ l_base + HDR <= start.
Definition heap_ok (s : uheap) (l : segs) : Prop := heap_rep start s l \/ l = [] /\ heap_new s.

(** The first call's initialisation of [base]. *)
Definition heap_init (s : uheap) : uheap :=
  set_u_mem (store32 (store64 (u_mem s) l_base l_base) (l_base + 8) (u32 0)) (set_u_freep l_base s).

Lemma heap_init_rep s :
  heap_new s -> heap_rep start (heap_init s) [] /\ heap_frame start [] (u_mem s) (u_mem (heap_init s)).
Proof.
  intros (Hf & Hb & Ht & Hb0 & Hb1). split.
  - constructor; cbn; try done; [by rewrite Hb| | |by left].
    + apply h_size_put_size. lia.
    + split; [done|]. rewrite h_ptr_put_size by by left. apply h_ptr_put_ptr. unfold USER_TOP, HDR in *; lia.
  - intros x [[]|Hx]. cbn [heap_init u_mem set_u_mem]. unfold HDR in *.
    rewrite load8_store32_other, load8_store64_other by lia. done.
Qed.

Lemma units_range nbytes :
  0 <= nbytes < 2 ^ 31 - 32 -> 1 <= units nbytes /\ HDR * units nbytes < 2 ^ 31 /\ nbytes <= HDR * (units nbytes - 1).
Proof.
  intros H. unfold units, HDR. pose proof (Z.div_mod (nbytes + 16 - 1) 16 ltac:(lia)).
  pose proof (Z.mod_pos_bound (nbytes + 16 - 1) 16 ltac:(lia)). rewrite u32_id by lia. lia.
Qed.

(** The loop entered by [malloc], on a heap that is initialised. *)
Lemma malloc_enter s l nbytes :
  heap_ok s l ->
  exists s0, heap_rep start s0 l /\ heap_frame start l (u_mem s) (u_mem s0) /\
    malloc nbytes s =
      malloc_loop (2 * ring_fuel s0 + 2) (units nbytes) (u_freep s0) (h_ptr (u_mem s0) (u_freep s0)) s0.
Proof.
  intros [H|[-> H]].
  - exists s. split; [done|]. split; [by intros x _|]. unfold malloc, get_ptr, id. step_prim.
    destruct (Z.eqb_spec (u_freep s) 0) as [Hz|Hz]; [|done]. exfalso. destruct (hr_base _ _ _ H) as [Hb0 Hb1].
    destruct (node_header _ _ _ (hr_freep _ _ _ H)) as [Hq|(L & k & R & -> & Hq)]; [lia|].
    destruct (proj1 (sized_app _ _ _ _) (hr_sized _ _ _ H)) as [HL _]. pose proof (seg_end_ge _ _ _ HL). unfold HDR in *; lia.
  - exists (heap_init s). destruct (heap_init_rep s H) as [H1 H2]. split; [done|]. split; [done|].
    unfold malloc, get_ptr, put_ptr, put_size, id. step_prim. by rewrite (proj1 H).
Qed.

(** The block returned is new: its bytes are allocated now and were not. *)
Lemma malloc_result_new m n l a l' x :
  sized m start l' -> 1 <= n -> malloc_result start n l a l' -> a <> 0 ->
  a <= x < a + HDR * (n - 1) -> payload start l' x /\ ~ payload start l x.
Proof.
  intros Hs Hn Hres Ha Hx. split.
  { destruct (malloc_result_alloc start m n l a l' Hs Hn Hres) as [_ Hnew]. destruct (Hnew Ha) as [Hat _].
    apply (alloc_at_payload _ _ _ _ _ Hat). unfold HDR in *; lia. }
  assert (forall L k R, sized m start (carved L k n R) -> n <= k -> a = seg_end start L + HDR * (k - n) + HDR ->
    ~ payload start (L ++ (k, true) :: R) x) as Hfree.
  { intros L k R [HL HR]%sized_carved Hk -> [Hp|[[? _]|Hp]]%payload_app; [|done|].
    - pose proof (payload_range _ _ _ _ HL Hp). unfold HDR in *; lia.
    - pose proof (payload_range _ _ _ _ HR Hp). unfold HDR in *; lia. }
  destruct Hres as [L k R -> Hk|L k R _ Hl Hk|]; [by apply (Hfree L k R)| |done].
  intros Hp. apply (Hfree L k R Hs Hk eq_refl). rewrite <- Hl. apply payload_coalesce, payload_app. by left.
Qed.

Lemma malloc_tiles s l nbytes :
  heap_ok s l -> 0 <= nbytes < 2 ^ 31 - 32 ->
  exists a l' s',
    malloc nbytes s = Ok a s' /\ malloc_result start (units nbytes) l a l' /\
    (a = 0 -> sbrk (Z.max (units nbytes) 4096 * HDR) s' = Ok SBRK_FAILED s') /\ heap_rep start s' l' /\
    (a <> 0 -> forall x, a <= x < a + nbytes -> payload start l' x /\ ~ payload start l x) /\
    heap_frame start l (u_mem s) (u_mem s').
Proof.
  intros H Hn. destruct (malloc_enter s l nbytes H) as (s0 & H0 & Hf0 & ->).
  destruct (units_range _ Hn) as (Hu1 & Hu2 & Hu3).
  destruct (malloc_loop_ok start s0 l (units nbytes) _ H0 Hu1 Hu2 (le_n _)) as (a & l' & s' & -> & Hres & Hfull & H' & Hf).
  exists a, l', s'. split; [done|]. split; [done|]. split; [done|]. split; [done|]. split; [|by eapply heap_frame_trans].
  intros Ha x Hx. apply (malloc_result_new (u_mem s') (units nbytes) l a l'); [apply H'|done..|]. lia.
Qed.

Lemma free_tiles s L n R :
  heap_rep start s (L ++ (n, false) :: R) ->
  exists s', free (seg_end start L + HDR) s = Ok tt s' /\
    heap_rep start s' (coalesce (L ++ (n, true) :: R)) /\
    heap_frame start (L ++ (n, false) :: R) (u_mem s) (u_mem s').
Proof.
  intros H. destruct (free_ok start s L n R H) as (p & m' & E1 & H' & Hp & Ho).
  eexists. split; [exact E1|]. split; [exact H'|].
  apply (frame_headers _ _ _ [p; seg_end start L]); [apply H|apply (hr_base _ _ _ H)| |exact Ho].
  apply Forall_pair; [|right; by exists L, n, false, R].
  destruct (node_header _ _ _ Hp) as [->|(L1 & k & R1 & -> & ->)]; [by left|right].
  exists L1, k, true, (R1 ++ (n, false) :: R). by rewrite <- app_assoc.
Qed.

(** ** Clients *)

(** A client holds blocks, with the contents it last saw in them; it allocates,
    stores bytes into its blocks and frees them. *)
Abbreviation client := (uheap * gmap Z (list Z))%type.
Inductive client_step : client -> client -> Prop :=
| client_malloc s s' held nbytes a :
    0 <= nbytes < 2 ^ 31 - 32 -> malloc nbytes s = Ok a s' ->
    client_step (s, held)
      (s', if a =? 0 then held else <[a := load_bytes (u_mem s') a (Z.to_nat nbytes)]> held)
| client_store s held a bs i v :
    held !! a = Some bs -> (i < length bs)%nat ->
    client_step (s, held)
      (set_u_mem (store8 (u_mem s) (a + Z.of_nat i) v) s, <[a := <[i := u8 v]> bs]> held)
| client_free s s' held a bs :
    held !! a = Some bs -> free a s = Ok tt s' -> client_step (s, held) (s', delete a held).

(** The client's view is true: its blocks are allocated segments large enough,
    and memory holds their contents. *)
Definition client_ok (c : client) : Prop :=
  exists l, heap_ok c.1 l /\
    forall a bs, c.2 !! a = Some bs ->
      (exists n, alloc_at start l (a - HDR) n /\ Z.of_nat (length bs) <= HDR * (n - 1)) /\
      load_bytes (u_mem c.1) a (length bs) = bs.

Lemma load_bytes_payload l m m' a (bs : list Z) n :
  alloc_at start l (a - HDR) n -> Z.of_nat (length bs) <= HDR * (n - 1) ->
  (forall x, payload start l x -> load8 m' x = load8 m x) -> load_bytes m' a (length bs) = load_bytes m a (length bs).
Proof.
  intros Ha Hn Hm. apply load_bytes_ext. intros i Hi. apply Hm. apply (alloc_at_payload _ _ _ _ _ Ha). unfold HDR in *; lia.
Qed.

Lemma client_ok_malloc s held nbytes :
  client_ok (s, held) -> 0 <= nbytes < 2 ^ 31 - 32 ->
  exists a s', malloc nbytes s = Ok a s' /\ (a <> 0 -> held !! a = None) /\
    client_ok (s', if a =? 0 then held else <[a := load_bytes (u_mem s') a (Z.to_nat nbytes)]> held).
Proof.
  intros (l & H & Hheld) Hn. destruct (malloc_tiles s l nbytes H Hn) as (a & l' & s' & E1 & Hres & _ & H' & _ & Hf).
  destruct (units_range _ Hn) as (Hu1 & _ & Hu3).
  destruct (malloc_result_alloc start _ _ _ _ _ (hr_sized _ _ _ H') Hu1 Hres) as [Hkeep Hnew].
  exists a, s'. split; [done|]. split.
  { intros Ha. destruct (held !! a) as [bs|] eqn:Ea; [|done]. destruct (Hheld a bs Ea) as [(n & Hn' & _) _].
    by destruct (proj2 (Hnew Ha) n). }
  exists l'. split; [by left|]. cbn.
  assert (forall b bs, held !! b = Some bs ->
    (exists n, alloc_at start l' (b - HDR) n /\ Z.of_nat (length bs) <= HDR * (n - 1)) /\
    load_bytes (u_mem s') b (length bs) = bs) as Hold.
  { intros b bs Hb. destruct (Hheld b bs Hb) as [(n & Hat & Hlen) Hbs]. split; [exists n; auto|].
    rewrite <- Hbs at 2. apply (load_bytes_payload l _ _ _ _ n); try done. intros x Hx. apply Hf. by left. }
  destruct (Z.eqb_spec a 0) as [_|Ha]; [exact Hold|]. intros b bs.
  destruct (decide (a = b)) as [<-|Hne]; [rewrite lookup_insert_eq|rewrite lookup_insert_ne by done; apply Hold].
  intros [= <-]. rewrite length_load_bytes. split; [|done]. exists (units nbytes).
  split; [by apply Hnew|lia].
Qed.

Lemma heap_ok_alloc s l x n : heap_ok s l -> alloc_at start l x n -> heap_rep start s l.
Proof. by intros [H|[-> _]]. Qed.

Lemma client_ok_free s held a bs :
  client_ok (s, held) -> held !! a = Some bs ->
  exists s', free a s = Ok tt s' /\ client_ok (s', delete a held).
Proof.
  intros (l & H & Hheld) Ha. destruct (Hheld a bs Ha) as [(n & Hat & _) _].
  pose proof (heap_ok_alloc _ _ _ _ H Hat) as Hr. apply alloc_at_split in Hat as Hs. destruct Hs as (L & R & -> & HL).
  destruct (free_tiles s L n R Hr) as (s' & E1 & H' & Hf). exists s'.
  split; [by replace a with (seg_end start L + HDR) by lia|]. exists (coalesce (L ++ (n, true) :: R)).
  split; [by left|]. cbn. intros b cs [Hne Hb]%lookup_delete_Some.
  destruct (Hheld b cs Hb) as [(k & Hbt & Hlen) Hcs]. split.
  - exists k. split; [|done]. apply alloc_at_coalesce.
    apply alloc_at_app in Hbt as [Hbt|[(_ & Hx & _)|Hbt]]; [|lia|]; apply alloc_at_app; [by left|by right; right].
  - rewrite <- Hcs at 2. apply (load_bytes_payload (L ++ (n, false) :: R) _ _ _ _ k); try done.
    intros x Hx. apply Hf. by left.
Qed.

Lemma client_ok_store s held a bs i v :
  client_ok (s, held) -> held !! a = Some bs -> (i < length bs)%nat ->
  client_ok (set_u_mem (store8 (u_mem s) (a + Z.of_nat i) v) s, <[a := <[i := u8 v]> bs]> held).
Proof.
  intros (l & H & Hheld) Ha Hi. destruct (Hheld a bs Ha) as [(n & Hat & Hlen) Hbs].
  pose proof (heap_ok_alloc _ _ _ _ H Hat) as Hr. exists l. split.
  { left. cbn. apply heap_rep_store; [done|]. apply (alloc_at_payload _ _ _ _ _ Hat). unfold HDR in *; lia. }
  cbn. intros b cs. destruct (decide (a = b)) as [<-|Hne].
  - rewrite lookup_insert_eq. intros [= <-]. rewrite length_insert. split; [by exists n|].
    apply list_eq. intros j. destruct (decide (j < length bs)%nat) as [Hj|Hj].
    + rewrite lookup_load_bytes, load8_store8 by done.
      assert (bs !! j = Some (load8 (u_mem s) (a + Z.of_nat j))) as Hj' by (rewrite <- Hbs; by apply lookup_load_bytes).
      destruct (decide (i = j)) as [<-|Hij]; [by rewrite list_lookup_insert_eq, decide_True|].
      rewrite list_lookup_insert_ne, decide_False by (done || lia). done.
    + rewrite !lookup_ge_None_2; rewrite ?length_insert, ?length_load_bytes; lia || done.
  - rewrite lookup_insert_ne by done. intros Hb. destruct (Hheld b cs Hb) as [(k & Hbt & Hlen') Hcs].
    split; [by exists k|]. etransitivity; [|exact Hcs]. apply load_bytes_ext. intros j Hj.
    rewrite load8_store8, decide_False; [done|].
    destruct (alloc_at_apart _ _ _ _ _ _ _ (hr_sized _ _ _ Hr) Hat Hbt) as [[? ?]|Hap]; unfold HDR in *; lia.
Qed.

Lemma client_run_ok c : star client_step c.1 c.2 -> client_ok c.1 -> client_ok c.2.
Proof.
  destruct c as [c0 c]. cbn. intros H H0. revert H0. induction H as [|c1 c2 c3 _ IH Hs]; intros H0; [done|].
  specialize (IH H0). destruct Hs as [s s' held nbytes a Hn E1|s held a bs i v Ha Hi|s s' held a bs Ha E1].
  - destruct (client_ok_malloc s held nbytes IH Hn) as (a' & s'' & E2 & _ & Hok). rewrite E1 in E2. by injection E2 as <- <-.
  - by apply client_ok_store.
  - destruct (client_ok_free s held a bs IH Ha) as (s'' & E2 & Hok). rewrite E1 in E2. by injection E2 as <-.
Qed.

(** C9: [malloc] returns for every request below 2 GiB, on a fresh heap as on one
    that represents a tiling: either the end of a free segment that is large enough, or that
    of the segment [morecore] added (of at least 4096 units, joined to a free segment below it), or 0, only when no
    free segment is large enough and [sbrk], asked for the units wanted or 4096 if that is more, refuses:
    the state returned is the one in which it refused.  A block returned has [nbytes] bytes
    that belong to no block handed out before, the heap represents the new
    tiling, and the contents of every allocated block (and the program's other
    data) are unchanged. *)
Theorem malloc_allocates s l nbytes :
  heap_ok s l -> 0 <= nbytes < 2 ^ 31 - 32 ->
  exists a l' s',
    malloc nbytes s = Ok a s' /\ malloc_result start (units nbytes) l a l' /\
    (a = 0 -> sbrk (Z.max (units nbytes) 4096 * HDR) s' = Ok SBRK_FAILED s') /\ heap_rep start s' l' /\
    (a <> 0 -> forall x, a <= x < a + nbytes -> payload start l' x /\ ~ payload start l x) /\
    heap_frame start l (u_mem s) (u_mem s').
Proof. apply malloc_tiles. Qed.

(** C10: [free] of an allocated block returns, and the heap represents the tiling
    in which the block is free and merged with the free neighbours it has on
    either side; the contents of every allocated block and the program's other data
    are unchanged. *)
Theorem free_coalesces s L n R :
  heap_rep start s (L ++ (n, false) :: R) ->
  exists s', free (seg_end start L + HDR) s = Ok tt s' /\
    heap_rep start s' (coalesce (L ++ (n, true) :: R)) /\
    heap_frame start (L ++ (n, false) :: R) (u_mem s) (u_mem s').
Proof. apply free_tiles. Qed.

(** C8: over any sequence of allocations, stores into held blocks and frees from
    a fresh heap, every held block holds exactly what the client last stored in it,
    held blocks never overlap, [malloc] and [free] always return, and [malloc]
    never hands out a block that is held. *)
Theorem client_safe s0 s held :
  heap_new s0 -> star client_step (s0, ∅) (s, held) ->
  (forall a bs, held !! a = Some bs ->
     load_bytes (u_mem s) a (length bs) = bs /\ returns (free a) s (fun _ _ => True)) /\
  (forall a b bs cs, a <> b -> held !! a = Some bs -> held !! b = Some cs ->
     a + Z.of_nat (length bs) <= b \/ b + Z.of_nat (length cs) <= a) /\
  (forall nbytes, 0 <= nbytes < 2 ^ 31 - 32 ->
     returns (malloc nbytes) s (fun a _ => a <> 0 -> held !! a = None)).
Proof.
  intros H0 Hrun. assert (client_ok (s, held)) as Hok.
  { apply (client_run_ok ((s0, ∅), (s, held)) Hrun). exists []. split; [by right|]. intros a bs. cbn. by rewrite lookup_empty. }
  split; [|split].
  - intros a bs Ha. split; [by destruct Hok as (l & _ & Hl); apply Hl|].
    destruct (client_ok_free s held a bs Hok Ha) as (s' & E1 & _). exact (returns_ok _ _ _ _ _ E1 I).
  - intros a b bs cs Hne Ha Hb. destruct Hok as (l & H & Hl).
    destruct (Hl a bs Ha) as [(n & Hat & Hna) _], (Hl b cs Hb) as [(k & Hbt & Hnb) _].
    pose proof (heap_ok_alloc _ _ _ _ H Hat) as Hr.
    destruct (alloc_at_apart _ _ _ _ _ _ _ (hr_sized _ _ _ Hr) Hat Hbt) as [[? ?]|Hap]; unfold HDR in *; lia.
  - intros nbytes Hn. destruct (client_ok_malloc s held nbytes Hok Hn) as (a & s' & E1 & Ha & _).
    exact (returns_ok _ _ _ _ _ E1 Ha).
Qed.
End umem_spec.

(** ** Requests the [int] of [sbrk] cannot express

    For [nbytes] above 0xfffffff0, [morecore] asks [sbrk] for [(int)(2^32 + 16)]
    bytes, that is sixteen, and gives the header it gets the full size. *)
Section overflow.
  Context {E : UserEnv} (start : Z).

Lemma units_overflow nbytes : 2 ^ 32 - 15 <= nbytes < 2 ^ 32 -> units nbytes = 2 ^ 28 + 1.
Proof.
  intros H. unfold units, HDR. replace ((nbytes + 16 - 1) / 16) with (2 ^ 28); [reflexivity|].
  apply (Z.div_unique _ _ _ (nbytes + 15 - 2 ^ 32)); lia.
Qed.

(** [free] of the heap's only block, whatever its header claims. *)
Lemma free_only m b n :
  0 < l_base -> l_base + HDR <= start -> start + HDR * n < 2 ^ 64 -> 0 <= n -> l_base <> start + HDR * n ->
  h_ptr m l_base = l_base -> h_size m l_base = 0 -> h_size m start = n ->
  exists m', free (start + HDR) (mkUheap m l_base b) = Ok tt (mkUheap m' l_base b) /\
    h_ptr m' l_base = start /\ h_ptr m' start = l_base /\ h_size m' start = n.
Proof.
  intros Hb0 Hb1 Hst Hn Hne Hp Hs Hsz. unfold free. unfold HDR in Hst. rewrite Z.add_simpl_r, u64_id by (unfold HDR in *; lia).
  rewrite (bind_ok _ _ _ l_base (mkUheap m l_base b)).
  2:{ step_prim. unfold id, ring_fuel. cbn [u_mem u_freep u_brk free_search]. unfold free_here. rewrite Hp.
      destruct (Z.ltb_spec l_base start); [|unfold HDR in *; lia]. destruct (Z.ltb_spec start l_base); [unfold HDR in *; lia|].
      by rewrite Z.leb_refl. }
  assert (apart l_base start) as Hap by (left; done). pose proof (apart_sym _ _ Hap) as Hap'.
  set (m1 := store64 m start l_base).
  rewrite (bind_ok (join_upper start l_base) _ _ tt (mkUheap m1 l_base b)).
  2:{ unfold join_upper, get_size, get_ptr, put_ptr, put_size. step_prim. cbn [u_mem]. rewrite Hsz, Hp.
      unfold hdr_add, HDR in *. rewrite u64_id by lia. by rewrite (proj2 (Z.eqb_neq _ _)) by lia. }
  exists (store64 m1 l_base start). split.
  - rewrite (bind_ok (join_lower start l_base) _ _ tt (mkUheap (store64 m1 l_base start) l_base b)); [done|].
    unfold join_lower, get_size, get_ptr, put_ptr, put_size. step_prim. cbn [u_mem].
    unfold m1. rewrite h_size_put_ptr, Hs by auto. unfold hdr_add, HDR in *. rewrite u64_id by lia.
    by rewrite (proj2 (Z.eqb_neq _ _)) by lia.
  - unfold HDR in *. rewrite h_ptr_put_ptr, h_ptr_put_ptr_ne, h_size_put_ptr by (auto || lia). unfold m1.
    rewrite h_ptr_put_ptr, h_size_put_ptr by (auto || lia). done.
Qed.

(** [malloc] then succeeds with a block of which not one byte lies below the
    break. *)
Theorem malloc_overflows s nbytes :
  heap_new start s -> 2 ^ 32 - 15 <= nbytes < 2 ^ 32 ->
  (forall m f b, sbrk 16 (mkUheap m f b) = Ok b (mkUheap m f (b + 16))) ->
  exists s', malloc nbytes s = Ok (start + HDR) s' /\ u_brk s' = start + HDR.
Proof.
  intros H Hn Hsbrk. destruct (malloc_enter start s [] nbytes (or_intror (conj eq_refl H))) as (s1 & H1 & _ & ->).
  rewrite (units_overflow _ Hn). pose proof (hr_top _ _ _ H1) as Ht. pose proof (hr_brk _ _ _ H1) as Hb. cbn in Hb.
  destruct (hr_base _ _ _ H1) as [Hb0 Hb1]. destruct s1 as [m fp b]. cbn in Hb. subst b.
  pose proof (hr_freep _ _ _ H1) as Hf. apply list_elem_of_singleton in Hf. cbn in Hf, Ht. subst fp.
  pose proof (hr_ring _ _ _ H1) as Hr. cbn in Hr. destruct Hr as [_ Hp]. pose proof (hr_base_size _ _ _ H1) as Hs. cbn in Hs.
  assert (forall k, exists f, (2 * ring_fuel (mkUheap m l_base k) + 2)%nat = S (S f)) as Hfuel.
  { intros k. exists (2 * ring_fuel (mkUheap m l_base k))%nat. lia. }
  destruct (Hfuel start) as [f ->]. cbn [u_freep u_mem]. rewrite Hp. clear Hfuel.
  set (n := 2 ^ 28 + 1). set (m2 := store32 m (start + 8) n).
  assert (apart l_base start) as Hap by (left; done). pose proof (apart_sym _ _ Hap) as Hap'.
  destruct (free_only m2 (start + 16) n Hb0 Hb1) as (m3 & E3 & Hp3 & Hp3' & Hs3);
    [unfold n, HDR, USER_TOP in *; lia..| | | |].
  { unfold m2. by rewrite h_ptr_put_size by auto. }
  { unfold m2. by rewrite h_size_put_size_ne by auto. }
  { apply h_size_put_size. unfold n. lia. }
  assert (hdr_add start 1 = start + HDR) as Hadd.
  { unfold hdr_add, USER_TOP, HDR in *. rewrite Z.mul_1_r. apply u64_id. lia. }
  assert (morecore n (mkUheap m l_base start) = Ok l_base (mkUheap m3 l_base (start + 16))) as Em.
  { unfold morecore. change (if n <? 4096 then 4096 else n) with n. change (i32 (n * HDR)) with 16.
    rewrite (bind_ok _ _ _ _ _ (Hsbrk _ _ _)). destruct (Z.eqb_spec start SBRK_FAILED) as [Hx|_]; [unfold SBRK_FAILED, USER_TOP in *; lia|].
    rewrite (bind_ok (put_size start n) _ _ tt (mkUheap m2 l_base (start + 16))) by done.
    rewrite Hadd. by rewrite (bind_ok _ _ _ _ _ E3). }
  assert (carve n l_base start (mkUheap m3 l_base (start + 16)) =
    Ok (start + HDR) (mkUheap (store64 m3 l_base l_base) l_base (start + 16))) as Ec.
  { unfold carve, get_size, get_ptr, put_ptr. step_prim. cbn [u_mem]. rewrite Hs3, Z.eqb_refl.
    cbn [u_mem]. by rewrite Hp3', Hadd. }
  exists (mkUheap (store64 m3 l_base l_base) l_base (start + 16)). split; [|done]. cbn [malloc_loop]. unfold get_size, get_ptr. step_prim. cbn [u_mem u_freep].
  rewrite Hs. change (n <=? 0) with false. cbv iota. cbn [u_freep]. rewrite Z.eqb_refl, Em.
  rewrite (proj2 (Z.eqb_neq l_base 0)) by lia. cbn [u_mem]. rewrite Hp3, Hs3, Z.leb_refl. exact Ec.
Qed.
End overflow.

(** ** A program with its break at 0x4000 and [base] at 0x3000 *)

#[export] Instance test_env : UserEnv := {| l_base := 0x3000; sbrk := bounded_sbrk 0x100000 |}.
#[export] Instance test_env_ok : SbrkOk test_env.
Proof. apply bounded_sbrk_ok. vm_compute. discriminate. Qed.

Definition test_heap : uheap := mkUheap ∅ 0 0x4000.
Lemma test_heap_new : heap_new 0x4000 test_heap.
Proof. repeat split; vm_compute; congruence. Qed.

(** The first allocation: [morecore] obtains 4096 units and the last eight are
    handed out. *)
Lemma malloc_allocates_witness :
  malloc 100 test_heap = Ok 0x13f90 (match malloc 100 test_heap with Ok _ s => s | _ => test_heap end) /\
  exists a l' s', malloc 100 test_heap = Ok a s' /\ malloc_result 0x4000 8 [] a l' /\ heap_rep 0x4000 s' l'.
Proof.
  split; [vm_compute; reflexivity|].
  destruct (malloc_allocates 0x4000 test_heap [] 100 (or_intror (conj eq_refl test_heap_new)) ltac:(lia))
    as (a & l' & s' & E1 & H1 & _ & H2 & _).
  exact (ex_intro _ a (ex_intro _ l' (ex_intro _ s' (conj E1 (conj H1 H2))))).
Defined.

(** That heap, and freeing its block. *)
Definition test_heap1 : uheap := match malloc 100 test_heap with Ok _ s => s | _ => test_heap end.
Lemma test_heap1_rep : heap_rep 0x4000 test_heap1 ([(4088, true)] ++ (8, false) :: []).
Proof.
  constructor; try (vm_compute; repeat split; congruence).
  apply elem_of_cons. left. vm_compute. reflexivity.
Qed.
Lemma free_coalesces_witness :
  exists s', free 0x13f90 test_heap1 = Ok tt s' /\ heap_rep 0x4000 s' [(4096, true)].
Proof.
  destruct (free_coalesces 0x4000 test_heap1 [(4088, true)] 8 [] test_heap1_rep) as (s' & E1 & H1 & _).
  exact (ex_intro _ s' (conj E1 H1)).
Defined.

(** Allocating three bytes and storing into the second. *)
Definition test_heap2 : uheap := match malloc 3 test_heap with Ok _ s => s | _ => test_heap end.
Lemma client_safe_witness :
  let s := set_u_mem (store8 (u_mem test_heap2) (0x13ff0 + 1) 7) test_heap2 in
  load_bytes (u_mem s) 0x13ff0 3 = [0; 7; 0] /\ returns (free 0x13ff0) s (fun _ _ => True).
Proof.
  intros s.
  assert (star client_step (test_heap, ∅) (s, {[0x13ff0 := [0; 7; 0]]})) as Hrun.
  { eapply star_snoc; [eapply star_snoc; [apply star_refl|]|].
    - apply (client_malloc test_heap test_heap2 ∅ 3 0x13ff0); [lia|vm_compute; reflexivity].
    - replace ({[0x13ff0 := [0; 7; 0]]} : gmap Z (list Z)) with
        (<[0x13ff0 := <[1%nat := u8 7]> [0; 0; 0]]> {[0x13ff0 := [0; 0; 0]]} : gmap Z (list Z)) by (vm_compute; reflexivity).
      replace (if 0x13ff0 =? 0 then ∅ else _) with ({[0x13ff0 := [0; 0; 0]]} : gmap Z (list Z)) by (vm_compute; reflexivity).
      apply (client_store test_heap2 {[0x13ff0 := [0; 0; 0]]} 0x13ff0 [0; 0; 0] 1 7); [reflexivity|cbn; lia]. }
  destruct (client_safe 0x4000 test_heap s _ test_heap_new Hrun) as [H _].
  apply (H 0x13ff0 [0; 7; 0]). reflexivity.
Defined.

(** malloc(0xfffffff5), on a system that grants every request. *)
Definition granting_env : UserEnv :=
  {| l_base := 0x3000; sbrk := fun n s => Ok (u_brk s) (mkUheap (u_mem s) (u_freep s) (u_brk s + n)) |}.
Lemma malloc_overflows_witness :
  exists s', @malloc granting_env 0xfffffff5 test_heap = Ok (0x4000 + HDR) s' /\ u_brk s' = 0x4000 + HDR.
Proof.
  apply (@malloc_overflows granting_env 0x4000 test_heap 0xfffffff5); [|lia|intros; exact eq_refl].
  repeat split; vm_compute; congruence.
Defined.
