(* ===== verification/UserSpec.v ===== *)
(** * What the user programs do

    The programs' trees are interpreted over a console (reads from descriptor 0
    and writes to descriptor 1 are answered from its state) and, for [ls], over
    an open directory; other calls are left in the tree for the kernel. *)

From ITree Require Import ITree ITreeFacts Events.State Events.StateFacts.
From S2P Require Import Prelude Layout Memory CString State Spinlock Sched Uart Print Ondisk Format UserSys.

(** Characters to come ([None]: a read that reports the end of input), those
    written, and the bytes the open directory has left. *)
Record console := mkConsole { c_in : list (option Z); c_out : list Z; c_dir : list (list Z) }.

(** The kernel's answers to console calls; others pass. *)
Definition on_console : forall T, sysE T -> Monads.stateT console User T :=
  fun T e s =>
    match e in sysE T return sysE T -> User (console * T) with
    | Read fd n => fun e =>
        match (if fd =? 0 then c_in s else []), fd =? 0 with
        | x :: l, _ => Ret (mkConsole l (c_out s) (c_dir s), match x with Some c => (1, [c]) | None => (0, []) end)
        | [], true => ITree.map (pair s) (ITree.trigger e)
        | [], false =>
            match c_dir s with
            | d :: ds => Ret (mkConsole (c_in s) (c_out s) ds, (n, d))
            | [] => Ret (s, (0, []))
            end
        end
    | Write fd bs => fun e =>
        if fd =? 1 then Ret (mkConsole (c_in s) (c_out s ++ bs) (c_dir s), Z.of_nat (length bs))
        else ITree.map (pair s) (ITree.trigger e)
    | _ => fun e => ITree.map (pair s) (ITree.trigger e)
    end e.

Abbreviation run t s := (interp_state on_console t s).

Section run.
  Context {A B : Type}.

Lemma run_bind (m : User A) (f : A -> User B) s : run (m ≫= f) s ≈ ITree.bind (run m s) (fun x => run (f x.2) x.1).
Proof. apply eq_sub_eutt, interp_state_bind. Qed.

Lemma run_ret (a : A) s : run (mret a) s ≈ Ret (s, a).
Proof. apply eq_sub_eutt. unfold mret, user_ret. apply interp_state_ret. Qed.

Lemma run_bind_ret (m : User A) (f : A -> User B) s s' a :
  run m s ≈ Ret (s', a) -> run (m ≫= f) s ≈ run (f a) s'.
Proof. intros H. rewrite run_bind, H, bind_ret_l. reflexivity. Qed.
End run.

Section user_printf.
  Context {I : UserImage}.

Definition put (l : list Z) (s : console) : console := mkConsole (c_in s) (c_out s ++ l) (c_dir s).
(** [m] writes [l] to the console and does nothing else. *)
Definition writes (l : list Z) (m : User unit) : Prop := forall s, run m s ≈ Ret (put l s, tt).

Lemma put_nil s : put [] s = s.
Proof. destruct s. unfold put. cbn. by rewrite app_nil_r. Qed.
Lemma put_put l1 l2 s : put l2 (put l1 s) = put (l1 ++ l2) s.
Proof. unfold put. cbn. by rewrite app_assoc. Qed.

Lemma writes_ret : writes [] (mret tt).
Proof. intros s. rewrite put_nil. apply run_ret. Qed.
Lemma writes_bind l1 l2 m1 m2 : writes l1 m1 -> writes l2 m2 -> writes (l1 ++ l2) (m1;; m2).
Proof. intros H1 H2 s. rewrite (run_bind_ret _ _ _ _ _ (H1 s)), <- put_put. apply H2. Qed.

Lemma run_write l s : run (call (Write 1 l)) s ≈ Ret (put l s, Z.of_nat (length l)).
Proof. unfold call. rewrite interp_state_trigger. reflexivity. Qed.
Lemma writes_putc c : writes [c] (putc 1 c).
Proof. intros s. unfold putc. rewrite (run_bind_ret _ _ _ _ _ (run_write [c] s)). apply run_ret. Qed.
Lemma writes_uprint l : writes l (uprint 1 l).
Proof. induction l as [|c l IH]; cbn [uprint]; [apply writes_ret|]. apply (writes_bind [c]); [apply writes_putc|done]. Qed.

Lemma unums_at_digit d : 0 <= d < 10 -> unums_at d = digit0 + d.
Proof.
  intros Hd. rewrite <- (@nums_at_digit test_link test_state d Hd). unfold unums_at, nums_at.
  destruct (Z.leb_spec 0 d); [|lia]. by destruct (Z.ltb_spec d 17); [|lia].
Qed.
Lemma unums_at_hex d : 0 <= d < 16 -> unums_at d = hex_digit d.
Proof. intros Hd. unfold unums_at. destruct (Z.leb_spec 0 d); [|lia]. by destruct (Z.ltb_spec d 17); [|lia]. Qed.

Lemma udigits_eq fuel v buf : 0 <= v -> udigits_loop fuel v buf = digits_loop (L:=test_link) fuel v buf test_state.
Proof.
  revert v buf. induction fuel as [|fuel IH]; intros v buf Hv; [done|]. cbn [udigits_loop digits_loop].
  assert (0 <= Z.rem v 10 < 10) as Hr by (apply Z.rem_bound_pos; lia).
  rewrite unums_at_digit, nums_at_digit by done.
  destruct (Z.ltb_spec 0 (Z.quot v 10)); [apply IH; lia|done].
Qed.

Lemma writes_uprintInt v : 0 <= v < 2 ^ 31 -> writes (dec_digits 10 v) (uprintInt v).
Proof.
  intros Hv. unfold uprintInt. rewrite udigits_eq, digits_loop_eq by lia. rewrite app_nil_l, rev_involutive.
  apply writes_uprint.
Qed.

Lemma writes_uprintPtr_loop v n k :
  0 <= v < 2 ^ 64 -> (k + n = 16)%nat ->
  writes ((fun i => hex_digit ((v / 16 ^ (15 - Z.of_nat i)) mod 16)) <$> seq k n) (uprintPtr_loop n 1 (u64 (v * 16 ^ Z.of_nat k))).
Proof.
  intros Hv. revert k. induction n as [|n IH]; intros k Hk; cbn [seq fmap list_fmap uprintPtr_loop]; [apply writes_ret|].
  rewrite top_digit, unums_at_hex by (lia || (apply Z.mod_pos_bound; lia)). rewrite shifted_pointer.
  apply (writes_bind [hex_digit ((v / 16 ^ (15 - Z.of_nat k)) mod 16)]); [apply writes_putc|apply IH; lia].
Qed.

Lemma writes_uprintPtr v : 0 <= v < 2 ^ 64 -> writes ([48; 120] ++ hex_digits v) (uprintPtr 1 v).
Proof.
  intros Hv. apply (writes_bind [48]); [apply writes_putc|]. apply (writes_bind [120]); [apply writes_putc|].
  pose proof (writes_uprintPtr_loop v 16 0 Hv eq_refl) as H. by rewrite Z.mul_1_r, u64_id in H.
Qed.

Lemma uprintf_loop_writes s args out :
  Forall arg_ok args -> format s args = Some out -> writes out (uprintf_loop s args).
Proof.
  revert args out. induction s as [|c|c next s IH1 IH2] using list_ind2; intros args out Ha.
  - intros [= <-]. apply writes_ret.
  - cbn. destruct (Z.eqb_spec c 37); [done|]. cbn [negb]. intros [= <-].
    apply (writes_bind [c] []); [apply writes_putc|apply writes_ret].
  - cbn [format uprintf_loop]. destruct (Z.eqb_spec c 37); cbn [negb].
    + repeat case_bool; subst.
      * destruct args as [|[v| |] args]; try done. apply Forall_cons in Ha as [Hv Ha]. cbn in Hv.
        destruct (Z.ltb_spec v 0); [done|]. intros (o & Ho & ->)%fmap_Some.
        apply writes_bind; [apply writes_uprintInt; lia|by apply IH1].
      * destruct args as [|[|[t|]|] args]; try done; apply Forall_cons in Ha as [Hv Ha]; [|by apply IH1].
        intros (o & Ho & ->)%fmap_Some. apply writes_bind; [apply writes_uprint|by apply IH1].
      * destruct args as [|[| |v] args]; try done. apply Forall_cons in Ha as [Hv Ha]. cbn in Hv.
        intros (o & Ho & ->)%fmap_Some. apply writes_bind; [by apply writes_uprintPtr|by apply IH1].
      * intros (o & Ho & ->)%fmap_Some. apply (writes_bind [next]); [apply writes_putc|by apply IH1].
    + intros (o & Ho & ->)%fmap_Some. apply (writes_bind [c]); [apply writes_putc|]. by apply IH2.
Qed.
End user_printf.

(** C14: the user [printf] and the kernel's print the same bytes, those the format
    denotes: for every format that does not end in ['%'], with arguments of the kinds it names
    (non-negative integers, byte strings, pointers), the user program writes
    them to descriptor 1 and the kernel transmits them on the UART, with nothing
    else of its state changed in the end. *)
Theorem printf_agree (I : UserImage) (L : LinkMap) s args out :
  Forall (fun c => 0 <= c < 256) s -> Forall arg_ok args -> format s args = Some out ->
  (forall i o d, interp_state on_console (uprintf (Some s) args) (mkConsole i o d) ≈ Ret (mkConsole i (o ++ out) d, tt)) /\
  (forall st, cpu_wf st -> uart_ready st -> noff (cpu_of st) < 2 ^ 31 - 2 -> (k_locking st <> 0 -> lock_free LPr st) ->
     exists b, printf s args st = Ok tt (emit out (touch_if b st))).
Proof.
  intros Hs Ha Ho. split; [|intros st; by apply printf_emits]. intros i o d.
  exact (uprintf_loop_writes s args out Ha Ho (mkConsole i o d)).
Qed.

(** "%s is %d" with "pid" and 42, on the hart [test_ready_uart]. *)
Lemma printf_agree_witness :
  let I : UserImage := {| unums_around := fun _ => 0 |} in
  interp_state on_console (uprintf (Some (str "%s is %d")) [AStr (Some (str "pid")); AInt 42]) (mkConsole [] [] []) ≈
    Ret (mkConsole [] (str "pid is 42") [], tt).
Proof.
  intros I.
  apply (printf_agree I test_link (str "%s is %d") [AStr (Some (str "pid")); AInt 42] (str "pid is 42")).
  - apply (bool_decide_unpack _). vm_compute. exact Logic.I.
  - repeat constructor; vm_compute; congruence.
  - reflexivity.
Defined.

(** ** The shell *)

Section shell.
  Context {I : UserImage}.

(** A call the console does not answer is left to the kernel. *)
Lemma run_pass {A B} (e : sysE A) (f : A -> User B) s :
  on_console A e s = ITree.map (pair s) (ITree.trigger e) ->
  run (call e ≫= f) s ≈ (call e ≫= fun a => run (f a) s).
Proof.
  intros He. rewrite run_bind. unfold call at 1. rewrite interp_state_trigger, He. unfold ITree.map.
  rewrite bind_bind. unfold mbind, user_bind, call. apply eqit_bind; [reflexivity|].
  intros a. rewrite bind_ret_l. reflexivity.
Qed.

Definition newline (c : Z) : bool := (c =? 10) || (c =? 13).

Lemma run_read x l o d :
  run (call (Read 0 1)) (mkConsole (x :: l) o d) ≈
    Ret (mkConsole l o d, match x with Some c => (1, [c]) | None => (0, []) end).
Proof. unfold call. rewrite interp_state_trigger. reflexivity. Qed.

Lemma set_range_insert (buf : list Z) i c l :
  (i < length buf)%nat -> set_range (<[i := c]> buf) (S i) l = set_range buf i (c :: l).
Proof.
  intros Hi. unfold set_range. rewrite insert_take_drop by done.
  rewrite drop_app_ge by (rewrite length_take; lia). rewrite length_take, Nat.min_l by lia.
  replace (S i) with (length (take i buf ++ [c])) at 1 by (rewrite length_app, length_take; cbn; lia).
  replace (take i buf ++ c :: drop (S i) buf) with ((take i buf ++ [c]) ++ drop (S i) buf) by by rewrite <- app_assoc.
  rewrite take_app_length. rewrite <- app_assoc. cbn [app length]. do 3 f_equal.
  replace (S i + length l - i)%nat with (S (length l)) by lia. cbn [drop]. rewrite drop_drop. f_equal. lia.
Qed.

(** The line up to its newline is stored; nothing else of [buf] changes. *)
Lemma sh_read_line l nl n i buf c rest o d :
  Forall (fun x => newline x = false) l -> newline nl = true -> (length l < n)%nat -> (i + n <= length buf)%nat ->
  run (sh_read n i buf c) (mkConsole (fmap Some l ++ Some nl :: rest) o d) ≈
    Ret (mkConsole rest o d, ((i + length l)%nat, set_range buf i l, nl)).
Proof.
  intros Hl Hnl. revert n i buf c. induction Hl as [|x l Hx Hl IH]; intros [|n] i buf c Hn Hb; cbn [length] in Hn; try lia;
    cbn [sh_read fmap list_fmap app].
  - rewrite (run_bind_ret _ _ _ _ _ (run_read _ _ _ _)). cbn [fst snd head default]. unfold newline in Hnl. cbn. rewrite Hnl.
    rewrite run_ret. rewrite Nat.add_0_r. unfold set_range. cbn [app length]. rewrite Nat.add_0_r, take_drop. reflexivity.
  - rewrite (run_bind_ret _ _ _ _ _ (run_read _ _ _ _)). cbn [fst snd head default]. unfold newline in Hx. cbn. rewrite Hx.
    rewrite IH by (rewrite ?length_insert; lia). rewrite set_range_insert by lia.
    replace (S i + length l)%nat with (i + S (length l))%nat by lia. reflexivity.
Qed.

Lemma cstr_app l r : Forall (fun x => x <> 0) l -> cstr (l ++ r) = app l <$> cstr r.
Proof.
  induction 1 as [|x l Hx Hl IH]; cbn; [by destruct (cstr r)|]. destruct (Z.eqb_spec x 0); [done|].
  rewrite IH. by destruct (cstr r).
Qed.

(** The buffer after a line: the line, the byte that was there before, and the
    terminator one place too far. *)
Definition sh_buf (buf l : list Z) : list Z := <[S (length l) := 0]> (set_range buf 0 l).
Definition sh_path (buf l : list Z) : list Z :=
  let stale := nth (length l) buf 0 in l ++ (if stale =? 0 then [] else [stale]).

Lemma cstr_sh_buf buf l :
  Forall (fun x => x <> 0) l -> (S (length l) < length buf)%nat -> cstr (sh_buf buf l) = Some (sh_path buf l).
Proof.
  intros Hl Hb. unfold sh_buf, sh_path, set_range. rewrite take_0. cbn [app Nat.add].
  destruct (drop (length l) buf) as [|g [|h t]] eqn:Ed.
  1-2: apply (f_equal length) in Ed; rewrite length_drop in Ed; cbn in Ed; lia.
  assert (nth (length l) buf 0 = g) as ->.
  { rewrite <- (take_drop (length l) buf), Ed, app_nth2; rewrite length_take, Nat.min_l by lia; [|lia]. by rewrite Nat.sub_diag. }
  replace (S (length l)) with (length l + 1)%nat by lia. rewrite insert_app_r. cbn [insert list_insert].
  rewrite cstr_app by done. cbn. by destruct (g =? 0).
Qed.

Lemma run_say s l : format s [] = Some l -> forall c, run (uprintf (Some s) []) c ≈ Ret (put l c, tt).
Proof. intros H. exact (uprintf_loop_writes s [] l (List.Forall_nil _) H). Qed.

Lemma run_never {A} e s : on_console void e s = ITree.map (pair s) (ITree.trigger e) -> run (never (A:=A) e) s ≈ never e.
Proof.
  intros He. unfold never. rewrite (run_pass e _ s He). unfold mbind, user_bind. apply eqit_bind; [reflexivity|]. intros [].
Qed.

Lemma sh_body_line buf c l nl rest o d :
  length buf = SHBUF -> Forall (fun x => x <> 0 /\ newline x = false) l -> newline nl = true -> (length l <= 98)%nat ->
  run (sh_body buf c) (mkConsole (fmap Some l ++ Some nl :: rest) o d) ≈
    (pid ← call Fork;
     (if pid =? 0 then call (Exec (sh_path buf l) None) else mret 0);;
     call Wait;;
     mret (mkConsole rest (o ++ str "$ ") d, (sh_buf buf l, nl))).
Proof.
  intros Hb Hl Hnl Hlen. unfold sh_body. rewrite (run_bind_ret _ _ _ _ _ (run_say (str "$ ") (str "$ ") eq_refl _)).
  assert (Forall (fun x => x <> 0) l /\ Forall (fun x => newline x = false) l) as [Hl0 Hl1].
  { split; (eapply Forall_impl; [exact Hl|]); by intros ? [? ?]. }
  rewrite (run_bind_ret _ _ _ _ _ (sh_read_line l nl (SHBUF - 1) 0 buf c rest (o ++ str "$ ") d Hl1 Hnl
    ltac:(unfold SHBUF; lia) ltac:(unfold SHBUF in *; lia))).
  cbn [Nat.add]. destruct (Nat.ltb_spec (S (length l)) SHBUF) as [_|Hx]; [|unfold SHBUF in *; lia].
  rewrite (run_bind_ret _ _ _ _ _ (run_ret _ _)). fold (sh_buf buf l).
  rewrite cstr_sh_buf by (done || (unfold SHBUF in *; lia)).
  rewrite (run_pass Fork _ _ eq_refl). apply eqit_bind; [reflexivity|]. intros pid. destruct (pid =? 0).
  - rewrite (run_pass (Exec _ _) _ _ eq_refl). apply eqit_bind; [reflexivity|]. intros r.
    rewrite (run_pass Wait _ _ eq_refl). apply eqit_bind; [reflexivity|]. intros w. apply run_ret.
  - rewrite (run_bind_ret _ _ _ _ _ (run_ret _ _)). rewrite (run_pass Wait _ _ eq_refl).
    unfold mbind at 2, user_bind, mret, user_ret. rewrite bind_ret_l.
    apply eqit_bind; [reflexivity|]. intros w. apply run_ret.
Qed.

(** C15: one round of the shell prints its prompt, reads a line of up to 98
    characters, forks, and the child calls [exec] with the line and, when the byte the
    buffer held at the line's end is not zero, that byte behind it: the
    terminator is stored one place too far.  The parent waits; the next round's
    buffer holds this line. *)
Theorem sh_runs_line buf c l nl rest o d :
  length buf = SHBUF -> Forall (fun x => x <> 0 /\ newline x = false) l -> newline nl = true -> (length l <= 98)%nat ->
  interp_state on_console (sh_body buf c) (mkConsole (fmap Some l ++ Some nl :: rest) o d) ≈
    (pid ← call Fork;
     (if pid =? 0 then call (Exec (sh_path buf l) None) else mret 0);;
     call Wait;;
     mret (mkConsole rest (o ++ str "$ ") d, (sh_buf buf l, nl))).
Proof. apply sh_body_line. Qed.

(** A byte no newline ends the loop with, or the end of input, which leaves [c]. *)
Definition no_newline (c : Z) (x : option Z) : bool := negb (newline (default c x)).

Lemma sh_read_all xs i buf c s :
  newline c = false -> Forall (fun x => no_newline 0 x = true) xs -> forall o d,
  exists buf' c', run (sh_read (length xs) i buf c) (mkConsole (xs ++ s) o d) ≈
    Ret (mkConsole s o d, ((i + length xs)%nat, buf', c')).
Proof.
  intros Hc Hxs o d. revert i buf c Hc. induction Hxs as [|x xs Hx Hxs IH]; intros i buf c Hc; cbn [length sh_read app].
  - exists buf, c. rewrite Nat.add_0_r. apply run_ret.
  - set (c' := default c x).
    assert (newline c' = false) as Hc' by (destruct x as [y|]; [by apply negb_true_iff|done]).
    destruct (IH (S i) (<[i := c']> buf) c' Hc') as (buf' & c2 & E1). exists buf', c2.
    rewrite (run_bind_ret _ _ _ _ _ (run_read _ _ _ _)).
    replace (i + S (length xs))%nat with (S i + length xs)%nat by lia. unfold newline in Hc'.
    destruct x as [y|]; cbn in *; unfold c' in *; rewrite Hc'; exact E1.
Qed.

(** A line of 99 characters or more, or that many reads at the end of input,
    make the shell store its terminator beyond the buffer.*)
Theorem sh_overflows buf c xs rest o d :
  newline c = false -> length xs = 99%nat -> Forall (fun x => no_newline 0 x = true) xs ->
  interp_state on_console (sh_body buf c) (mkConsole (xs ++ rest) o d) ≈ never Overrun.
Proof.
  intros Hc Hlen Hxs. unfold sh_body. rewrite (run_bind_ret _ _ _ _ _ (run_say (str "$ ") (str "$ ") eq_refl _)).
  destruct (sh_read_all xs 0 buf c rest Hc Hxs (o ++ str "$ ") d) as (buf' & c' & E1). rewrite Hlen in E1.
  rewrite (run_bind_ret _ _ _ _ _ E1). cbn [Nat.add Nat.ltb Nat.leb SHBUF].
  rewrite run_bind, (run_never Overrun _ eq_refl). unfold never, mbind, user_bind. rewrite bind_bind.
  apply eqit_bind; [reflexivity|]. intros [].
Qed.
End shell.

(** "ls" typed after "init" was: the child executes "lsi". *)
Lemma sh_runs_line_witness :
  let I : UserImage := {| unums_around := fun _ => 0 |} in
  let buf := sh_buf (replicate SHBUF 0) (str "init") in
  interp_state on_console (sh_body buf 10) (mkConsole (fmap Some (str "ls") ++ [Some 10]) [] []) ≈
    (pid ← call Fork;
     (if pid =? 0 then call (Exec (str "lsi") None) else mret 0);;
     call Wait;;
     mret (mkConsole [] (str "$ ") [], (sh_buf buf (str "ls"), 10))).
Proof.
  intros I buf. change (str "lsi") with (sh_path buf (str "ls")).
  apply (sh_runs_line buf 10 (str "ls") 10 [] [] []); [reflexivity| |reflexivity|vm_compute; lia].
  apply (bool_decide_unpack _). vm_compute. exact Logic.I.
Defined.

(** The end of input, for ever. *)
Lemma sh_overflows_witness :
  let I : UserImage := {| unums_around := fun _ => 0 |} in
  interp_state on_console (sh_body (replicate SHBUF 0) 0) (mkConsole (replicate 99 None) [] []) ≈ never Overrun.
Proof.
  intros I. change (replicate 99 None) with (replicate 99 (None : option Z) ++ []).
  apply sh_overflows; [reflexivity|reflexivity|]. apply (bool_decide_unpack _). vm_compute. exact Logic.I.
Defined.

(** ** [ls] *)

Section loops.
  Context {S : Type} (h : forall T, sysE T -> Monads.stateT S User T).

(** One round of a loop whose body ends in a state. *)
Lemma interp_iter {A B} (body : A -> User (A + B)) a s s' x :
  interp_state h (body a) s ≈ Ret (s', x) ->
  interp_state h (ITree.iter body a) s ≈
    match x with inl a' => interp_state h (ITree.iter body a') s' | inr b => Ret (s', b) end.
Proof.
  intros H. rewrite unfold_iter, interp_state_bind, H, bind_ret_l. cbn.
  destruct x; [rewrite interp_state_tau, tau_eutt|rewrite interp_state_ret]; reflexivity.
Qed.
End loops.

Section listing.
  Context {I : UserImage}.

(** The line of an entry: its name, and type, number and size of the directory
    itself. *)
Definition ls_text (st : stat) (d : dirent) : list Z :=
  if de_inum d =? 0 then [] else
  default [] (cstr (de_name d)) ++ [32] ++ dec_digits 10 (st_type st) ++ [32] ++ dec_digits 10 (st_ino st) ++ [32]
    ++ dec_digits 10 (st_size st) ++ [NL].

Definition stat_small (st : stat) : Prop :=
  0 <= st_type st < 2 ^ 15 /\ 0 <= st_ino st < 2 ^ 31 /\ 0 <= st_size st < 2 ^ 31.
Definition entry_ok (d : dirent) : Prop :=
  0 <= de_inum d < 2 ^ 16 /\ length (de_name d) = DIRSIZ /\ Forall (fun c => 0 <= c < 256) (de_name d) /\
  is_Some (cstr (de_name d)).

Lemma cstr_bytes l t : Forall (fun c => 0 <= c < 256) l -> cstr l = Some t -> Forall (fun c => 0 <= c < 256) t.
Proof.
  intros Hl. revert t. induction Hl as [|c l Hc Hl IH]; intros t; cbn; [done|].
  destruct (c =? 0); [by intros [= <-]|]. intros (u & Hu & ->)%fmap_Some. constructor; auto.
Qed.

Lemma writes_ls_line d st : stat_small st -> entry_ok d -> de_inum d <> 0 -> writes (ls_text st d) (ls_line d st).
Proof.
  intros (Ht & Hi & Hs) (_ & _ & Hb & name & Hname) Hd. unfold ls_line, ls_text. rewrite Hname.
  rewrite (proj2 (Z.eqb_neq _ _) Hd). cbn [default]. rewrite !i32_id by lia.
  apply uprintf_loop_writes.
  - repeat apply List.Forall_cons; [exact (cstr_bytes _ _ Hb Hname)|cbn; lia..|constructor].
  - cbn -[dec_digits]. destruct (Z.ltb_spec (st_type st) 0); [lia|]. destruct (Z.ltb_spec (st_ino st) 0); [lia|].
    destruct (Z.ltb_spec (st_size st) 0); [lia|]. reflexivity.
Qed.

Lemma ls_entries_run fd st ds : 
  fd <> 0 -> stat_small st -> Forall entry_ok ds -> forall i o,
  run (ls_entries fd st) (mkConsole i o (enc_dirent <$> ds)) ≈
    Ret (mkConsole i (o ++ concat (ls_text st <$> ds)) [], tt).
Proof.
  intros Hfd Hst Hds i.
  assert (forall d ds o, run (call (Read fd 16)) (mkConsole i o (d :: ds)) ≈ Ret (mkConsole i o ds, (16, d))) as Hread.
  { intros d ds' o. unfold call. rewrite interp_state_trigger. cbn. rewrite (proj2 (Z.eqb_neq _ _) Hfd). reflexivity. }
  assert (forall o, run (call (Read fd 16)) (mkConsole i o []) ≈ Ret (mkConsole i o [], (0, []))) as Hend.
  { intros o. unfold call. rewrite interp_state_trigger. cbn. rewrite (proj2 (Z.eqb_neq _ _) Hfd). reflexivity. }
  induction Hds as [|d ds Hd Hds IH]; intros o; unfold ls_entries.
  - rewrite (interp_iter _ _ _ _ (mkConsole i o []) (inr tt)).
    + cbn. rewrite app_nil_r. reflexivity.
    + rewrite (run_bind_ret _ _ _ _ _ (Hend o)). apply run_ret.
  - pose proof Hd as (Hin & Hlen & _). cbn [fmap list_fmap concat].
    rewrite (interp_iter _ _ _ _ (put (ls_text st d) (mkConsole i o (enc_dirent <$> ds))) (inl tt)).
    + unfold ls_entries in IH. rewrite (IH (o ++ ls_text st d)), <- app_assoc. reflexivity.
    + rewrite (run_bind_ret _ _ _ _ _ (Hread _ _ _)). cbn [fst snd]. rewrite dec_enc_dirent by done. cbn [Z.eqb Pos.eqb negb].
      destruct (Z.eqb_spec (de_inum d) 0) as [E|E].
      * unfold ls_text. rewrite E, put_nil. apply run_ret.
      * rewrite (run_bind_ret _ _ _ _ _ (writes_ls_line d st Hst Hd E _)). apply run_ret.
Qed.

(** C16: on a directory whose entries have terminated names, [ls] prints one line
    for each entry in use, in order, with its name, and reads to the end; the type, the
    inode number and the size on every line are those of the directory, not the
    entry's. *)
Theorem ls_lists fd st ds i o :
  fd <> 0 -> stat_small st -> Forall entry_ok ds ->
  interp_state on_console (ls_entries fd st) (mkConsole i o (enc_dirent <$> ds)) ≈
    Ret (mkConsole i (o ++ concat (ls_text st <$> ds)) [], tt).
Proof. intros Hfd Hst Hds. by apply ls_entries_run. Qed.
End listing.

Lemma ls_lists_witness :
  let I : UserImage := {| unums_around := fun _ => 0 |} in
  let st := mkStat 1 1 1 1 48 in
  interp_state on_console (ls_entries 3 st)
      (mkConsole [] [] (enc_dirent <$> [mkDirent 1 (str "." ++ replicate 13 0); mkDirent 0 (replicate 14 0);
                                        mkDirent 2 (str "init" ++ replicate 10 0)])) ≈
    Ret (mkConsole [] (str ". 1 1 48" ++ [10] ++ str "init 1 1 48" ++ [10]) [], tt).
Proof.
  intros I st.
  apply (ls_lists 3 st [mkDirent 1 (str "." ++ replicate 13 0); mkDirent 0 (replicate 14 0);
                        mkDirent 2 (str "init" ++ replicate 10 0)] [] []).
  - lia.
  - unfold stat_small. cbn. lia.
  - repeat apply List.Forall_cons; [..|constructor]; (split; [cbn; lia|]); (split; [reflexivity|]);
      (split; [apply (bool_decide_unpack _); vm_compute; exact Logic.I|]); vm_compute; eexists; reflexivity.
Defined.

(** ** [init] *)

(** [wait] answers from a list; other calls pass. *)
Definition on_wait : forall T, sysE T -> Monads.stateT (list Z) User T :=
  fun T e s =>
    match e in sysE T return sysE T -> User (list Z * T) with
    | Wait => fun e => match s with w :: ws => Ret (ws, w) | [] => ITree.map (pair s) (ITree.trigger e) end
    | _ => fun e => ITree.map (pair s) (ITree.trigger e)
    end e.

(** [init] waits through any number of orphans until its shell [pid] is reaped,
    and then its loop starts the next shell.*)
Theorem init_reaps (I : UserImage) pid ws rest :
  Forall (fun w => 0 <= w /\ w <> pid) ws ->
  interp_state on_wait (init_wait pid) (ws ++ pid :: rest) ≈ Ret (rest, tt).
Proof.
  assert (forall w ws x, (if w =? pid then mret (inr tt) else if w <? 0 then
      say "init: wait returned an error";; never (Exit 1) else mret (inl tt) : User (unit + unit)) = mret x ->
    interp_state on_wait (wpid ← call Wait; if wpid =? pid then mret (inr tt) else if wpid <? 0 then
      say "init: wait returned an error";; never (Exit 1) else mret (inl tt)) (w :: ws) ≈ Ret (ws, x)) as Hbody.
  { intros w ws' x Hx. unfold mbind at 1, user_bind at 1, call. rewrite interp_state_bind, interp_state_trigger.
    cbn [on_wait]. rewrite bind_ret_l. cbn [fst snd]. rewrite Hx. apply eq_sub_eutt. apply interp_state_ret. }
  induction 1 as [|w ws [Hw0 Hw] Hws IH]; unfold init_wait; cbn [app].
  - rewrite (interp_iter on_wait _ _ _ rest (inr tt)); [reflexivity|]. apply Hbody. rewrite Z.eqb_refl. reflexivity.
  - rewrite (interp_iter on_wait _ _ _ (ws ++ pid :: rest) (inl tt)); [exact IH|]. apply Hbody.
    rewrite (proj2 (Z.eqb_neq _ _) Hw), (proj2 (Z.ltb_ge _ _) Hw0). reflexivity.
Qed.

(** The shell is process 2; processes 5 and 4 are orphans. *)
Lemma init_reaps_witness :
  let I : UserImage := {| unums_around := fun _ => 0 |} in
  interp_state on_wait (init_wait 2) [5; 4; 2; 9] ≈ Ret ([9], tt).
Proof.
  intros I. apply (init_reaps I 2 [5; 4] [9]).
  apply List.Forall_cons; [lia|apply List.Forall_cons; [lia|apply List.Forall_nil]].
Defined.
